(* ===== verification/_CoqProject ===== *)
-Q . S2P
Prelude.v
Globals.v
Memory.v
Frame.v
Heap.v
Paging.v
Context.v
Task.v
Text.v
Timer.v
Graphics.v
Ports.v
Keyboard.v
Mouse.v
Interrupts.v
Segments.v
Commands.v
Console.v
Terminal.v
LineEditor.v
Output.v
Shell.v
Pointer.v
Session.v
Loop.v
Cpu.v
Idle.v
Faults.v
Emergency.v
Smoke.v
Compat.v
Profiling.v
CallTree.v
ProfileMacro.v
ProfileItems.v
ProfiledModule.v
Errors.v
Boot.v
Startup.v
Kernel.v
Tests.v
