(* ===== verification/Prelude.v ===== *)
(** * A verification library for AgnostOS

    AgnostOS is a UEFI kernel for one x86_64 processor, written in Rust.  Its
    boot sequence leaves firmware services, takes ownership of physical memory,
    builds page tables and programs the interrupt controllers; then one loop,
    the shell, polls the keyboard and the mouse, runs cooperative tasks and
    draws on the framebuffer.  This library models that code as Rocq functions
    and proves what each part promises to the others.

    ** How the code is modelled

    Rust integers are [Z] at their width: unchecked arithmetic, indexing,
    [unwrap] and [assert!] are functions to [outcome], whose [Panic] is the
    checked build's panic and the release build's wrap; a theorem that yields
    [Ok] therefore holds of both.  [Result] is [outcome]'s [Ok] and [Err].  A
    method over [&mut self], or over a static behind a lock, is an [M S E A]:
    it returns its outcome with the state that it leaves, after an error as
    well.  Fixed arrays are lists of their length.  Memory that the code
    reaches through pointers (heap chunks, pixels, task stacks) is
    byte-addressed: a function from addresses to bytes.

    Code of other crates is a parameter with its documented behaviour: the
    ring buffers ([RingBuffer], [RingBufferLaws] in Ports), the page-table
    mappers ([Mapper] in Paging, with [MapperLaws] for the tables that boot builds
    and [DeviceMapperLaws] for those in use), the scancode decoder
    ([Decoder] in Keyboard), the glyphs ([font_ok] in Graphics), the devices
    behind the ports ([Devices] in Ports), the firmware's answers ([Firmware] in
    Boot), the printing of the processor's stack frame ([ExceptionFrame] in
    Faults), the compiler's parsing and printing of token streams
    (ProfileMacro, ProfiledModule).  Each has an instance that the witnesses
    compute with.

    ** The files and the code they model

    - Prelude, Globals, Text: machine integers, outcomes, arrays, memory; the
      constants of src/globals.rs; strings and number formatting.
    - Memory: src/memory.rs, the map of physical memory ([MemoryMapSnapshot]).
    - Frame: src/frame.rs, the frame allocator ([FrameAllocator]).
    - Heap: src/allocator/mod.rs, the free-list allocator over raw memory and
      [initialize_heap], which composes Memory and Frame.
    - Paging: src/paging.rs, virtual ranges, the frames of the page tables,
      [map_page], [map_device_page], [unmap_page], [initialize].
    - Context, Task: src/task/, the assembly block of the context switch on a
      small machine (not what the compiler puts around it), and the scheduler.
    - Timer: src/timer/mod.rs, ticks, uptime and sleeping.
    - Graphics: src/graphics/ and src/color/, pixels, shapes, text, scrolling.
    - Ports, Keyboard, Mouse: port I/O, the queues between handlers and shell,
      src/keyboard/mod.rs and src/mouse/mod.rs with the PS/2 protocol.
    - Interrupts: src/interrupts/, tables, PIC, PIT, IRQ handlers.  Segments:
      src/interrupts/gdt.rs, the segment descriptors and registers.
    - Cpu: src/platform/mod.rs, the interrupt flag and halting.
    - Commands: src/commands/, parser, completion, help, dispatch.
    - Console: src/console/mod.rs, definitions only; its theorems are in
      Terminal (printing), LineEditor (editing and history) and Output (the
      cursor block, the history listing, the output of fatal exceptions).
    - Shell: src/shell/mod.rs and the reports of meminfo and taskinfo: the loop
      over the state of all the parts; its theorems are in Pointer (the mouse),
      Session (the keys), Loop (any number of iterations) and Idle (the decision
      to halt, instruction by instruction).
    - Faults: the exception handlers of src/interrupts/handlers.rs and the panic
      handler of src/main.rs.  Emergency: nothing that the shell does takes the
      framebuffer from the emergency writer.
    - Smoke: src/input_smoke.rs, src/timer_smoke.rs and src/fault_smoke.rs with
      their hooks, and the reader on the host.  Compat: src/uefi_compat.rs.
    - Profiling: src/profiling.rs, definitions; CallTree has its theorems.
    - ProfileMacro, ProfiledModule: profile-macro/src/lib.rs, the transformation
      of token streams and the attribute around it; ProfileItems says what the
      transformation makes of items.
    - Boot: src/boot.rs with src/uefi_graphics/mod.rs, the startup sequence over
      the statics of all the parts.  Errors: how its errors are printed.
      Startup: when it cannot panic.  Kernel: main, from boot to the shell.
    - Tests: the unit tests of all the files and tests/graphics_integration.rs,
      translated and run on the model.

    ** What the theorems show

    - Ownership of memory: reserving changes the kind of exactly the reserved
      bytes and keeps the map sorted and disjoint; no frame is handed out twice
      or while it is free, for any sequence of operations; the heap region is
      usable memory that nothing else hands out; blocks of the heap never
      overlap, stay inside it and keep their contents; [alloc] is first fit and
      [dealloc] of an aligned pointer ordered insertion with merging; the boot page tables map what
      they should, with the right permissions, and nothing else; a successful
      boot composes these: heap, free frames, framebuffer, image and stack are
      disjoint, and mapped as they are owned.
    - The whole program: from a successful boot on, no interleaving of keys,
      mouse bytes, ticks and tasks makes the shell panic within a run of bounded
      cost (Loop, Kernel; the bound is below), and at every point an exception can be reported (Emergency, Faults); a boot that
      fails goes back to the firmware or prints its message, and it panics only
      on a machine that was booted before, or whose firmware reports a map that
      is not of disjoint whole pages in order, memory above 2^52, or a graphics
      mode without a framebuffer (Startup).
    - Sleeping: the processor never halts while input waits, wherever the
      interrupts arrive between its instructions (Idle).
    - Tasks: the assembly of a context switch and back restores the registers
      that it saves and goes on at the word on top of the stack, which is the
      return address only if the compiler pushed nothing before; the scheduler is
      round robin (no ready task waits longer than one turn of the others),
      its handles never name a later task, and its states follow one lifecycle.
    - Devices: the segment registers end on the descriptors that [install] loads
      when it first runs, and running it again faults;
      the PIC, PIT and PS/2 set-up follow their protocols, an IRQ is
      acknowledged at the controllers it came from, the queues are first in,
      first out, refuse a push only when they are full and count what they
      refuse, and mouse bytes are decoded as
      packets after any noise.
    - Screen: printed text refines a terminal of character cells, pixel for
      pixel; the line editor refines a zipper with a history; every key keeps
      the console and the shell's line in step without a panic; the pointer and
      the cursor block leave no trace; lines are drawn as the ideal line
      rounds; a framebuffer that is accepted is well formed; every exception
      ends in its report, pixel for pixel, and cannot fail; a panic is reported
      unless the panicking code holds the console.
    - Profiler: a profiled program leaves the exact number of calls of every
      call path, and the dump is the table of the calls so far, inside open calls
      too; the macro puts its guards into exactly the functions that are not
      exempt and leaves the other tokens alone, whatever the nesting, ends on every source, reads back the paths
      that it writes, and gives every module a file of its own.
    - Test builds: the host reads back from the debug console exactly what the
      kernel saw.

    ** Fuel and bounds

    Loops that are not structural take fuel, and a theorem shows that it is
    enough: [heap_fuel] is one round per possible chunk of the region (Heap);
    the line loop takes one round per pixel of the longer side (Graphics); a
    child search takes at most [NODE_CAPACITY] rounds (Profiling); the search
    for module declarations takes at most as many rounds as the source has
    tokens (ProfileMacro); the polling loops have the limits of the code.
    Theorems on the console bound what is printed by 2^40 characters (2^38 for
    a run of the loop, counted by [run_cost] in Loop: 64 for each task run and
    each report of dropped input, 16 and the command's output for each key, and
    nothing for an iteration without these) and the screen by 2^32
    pixels a side, so that no counter can overflow; the mouse needs a screen of
    20 to 2^30 pixels a side.  The expansion of a module takes as much fuel as
    its source has tokens (ProfiledModule).

    ** Not modelled

    How the firmware's protocols are found and opened: their results are
    arguments of the boot sequence.  The TLB flushes: single instructions without
    an effect on what is modelled.  The x86_64 crate's mapper, descriptor table
    and processor instructions, the ring buffer, the decoder of scancodes and the
    glyphs are interfaces with the laws of their documentation.  Locks and
    atomics: one processor, and handlers touch only the queues and the tick
    counter, which are explicit where a loop reads them ([arrive] in Shell,
    [Arrival] in Loop, [machine_step] in Idle, the interrupts of Timer); the
    console's lock appears where it decides an outcome, in the panic handler.
    The heap behind the strings and vectors of the shell: how much they allocate
    is the standard library's, and here they do not fail.  The
    linked-list-allocator feature (a third-party crate).  Two tests that read the
    size of a type or run another crate's decoder alone.  The module declarations
    of src/lib.rs and the accessors of the newtypes of src/graphics/pixel.rs,
    which are the fields of the records.

    ** This file

    Machine integers, outcomes, state passing, arrays and byte-addressed
    memory, with their lemmas and tactics. *)

From stdpp Require Export base decidable option list numbers gmap.
From stdpp Require Export list_numbers.
From stdpp Require Export sorting.
From Stdlib Require Export ZArith Lia.

#[global] Set Default Goal Selector "!".
Open Scope Z_scope.

(** ** Machine integers

    A [u64] (and, on the x86_64 target, a [usize]) is a [Z] in [0, 2^64). *)

Abbreviation U64_SIZE := 18446744073709551616 (only parsing).
Abbreviation u64_max := 18446744073709551615 (only parsing).

Definition is_u64 (x : Z) : Prop := 0 ≤ x < U64_SIZE.

#[export] Instance is_u64_dec (x : Z) : Decision (is_u64 x).
Proof. unfold is_u64. apply _. Defined.

(** [u64::checked_add], [checked_sub], [checked_mul]. *)
Definition checked_add (a b : Z) : option Z :=
  if a + b <? U64_SIZE then Some (a + b) else None.
Definition checked_sub (a b : Z) : option Z :=
  if b <=? a then Some (a - b) else None.
Definition checked_mul (a b : Z) : option Z :=
  if a * b <? U64_SIZE then Some (a * b) else None.

(** [u64::saturating_add], [saturating_sub], [saturating_mul]. *)
Definition saturating_add (a b : Z) : Z := Z.min (a + b) u64_max.
Definition saturating_sub (a b : Z) : Z := Z.max (a - b) 0.
Definition saturating_mul (a b : Z) : Z := Z.min (a * b) u64_max.

(** [u64::is_multiple_of]: only zero is a multiple of zero. *)
Definition is_multiple_of (a b : Z) : bool :=
  if b =? 0 then a =? 0 else a mod b =? 0.

(** The bitwise complement of a [u64]. *)
Definition u64_not (x : Z) : Z := u64_max - x.

(** ** Outcomes

    A Rust call returns [Ok] or [Err], or it leaves the defined behaviour:
    an index out of bounds, an [unwrap] of [None], a failed [assert!], or an
    unchecked operation that overflows (a panic in a checked build, a wrapped
    value in the release profile) are all [Panic].  A theorem that rules
    [Panic] out therefore holds of both build profiles. *)

Inductive outcome (E A : Type) : Type :=
  | Ok (a : A)
  | Err (e : E)
  | Panic.
Arguments Ok {E A} _.
Arguments Err {E A} _.
Arguments Panic {E A}.

(** The [?] operator: the first [Err] or [Panic] ends the computation. *)
#[export] Instance outcome_ret {E} : MRet (outcome E) := λ A a, Ok a.
#[export] Instance outcome_bind {E} : MBind (outcome E) := λ A B f m,
  match m with Ok a => f a | Err e => Err e | Panic => Panic end.
#[export] Instance outcome_fmap {E} : FMap (outcome E) := λ A B f m,
  match m with Ok a => Ok (f a) | Err e => Err e | Panic => Panic end.

(** [Result::map_err]. *)
Definition map_err {E F A} (f : E → F) (m : outcome E A) : outcome F A :=
  match m with Ok a => Ok a | Err e => Err (f e) | Panic => Panic end.

(** [Option::ok_or]. *)
Definition ok_or {E A} (m : option A) (e : E) : outcome E A :=
  match m with Some a => Ok a | None => Err e end.

(** A value the code relies on being there: [Panic] when it is not. *)
Definition expect {E A} (m : option A) : outcome E A :=
  match m with Some a => Ok a | None => Panic end.

(** Unchecked arithmetic. *)
Definition add_u64 {E} (a b : Z) : outcome E Z := expect (checked_add a b).
Definition sub_u64 {E} (a b : Z) : outcome E Z := expect (checked_sub a b).
Definition mul_u64 {E} (a b : Z) : outcome E Z := expect (checked_mul a b).
Definition div_u64 {E} (a b : Z) : outcome E Z := if b =? 0 then Panic else Ok (a / b).
Definition rem_u64 {E} (a b : Z) : outcome E Z := if b =? 0 then Panic else Ok (a mod b).

(** ** Stateful operations

    [M S E A] is a method over [&mut S]: it returns its outcome together with
    the state it leaves behind, also when it fails. *)

Definition M (S E A : Type) : Type := S → outcome E A * S.

#[export] Instance M_ret {S E} : MRet (M S E) := λ A a s, (Ok a, s).
#[export] Instance M_bind {S E} : MBind (M S E) := λ A B f m s,
  match m s with
  | (Ok a, s') => f a s'
  | (Err e, s') => (Err e, s')
  | (Panic, s') => (Panic, s')
  end.

Definition get {S E} : M S E S := λ s, (Ok s, s).
Definition put {S E} (s' : S) : M S E unit := λ _, (Ok tt, s').
Definition throw {S E A} (e : E) : M S E A := λ s, (Err e, s).
Definition lift {S E A} (m : outcome E A) : M S E A := λ s, (m, s).

(** A [for] loop whose body may leave early through [?]. *)
Fixpoint foldM {E A B} (f : B → A → outcome E B) (b : B) (l : list A) : outcome E B :=
  match l with
  | [] => Ok b
  | x :: l => b' ← f b x; foldM f b' l
  end.

(** ** Fixed arrays

    [\[T; N\]] is a list of length [N]; an index out of bounds panics. *)

Definition array_get {E A} (l : list A) (i : nat) : outcome E A := expect (l !! i).
Definition array_set {E A} (l : list A) (i : nat) (x : A) : outcome E (list A) :=
  if decide (i < length l)%nat then Ok (<[i:=x]> l) else Panic.

(** ** Byte-addressed memory *)

Abbreviation mem := (Z → Z) (only parsing).

Fixpoint le_bytes (n : nat) (v : Z) : list Z :=
  match n with O => [] | S n => v mod 256 :: le_bytes n (v / 256) end.

Fixpoint le_value (l : list Z) : Z :=
  match l with [] => 0 | b :: l => b + 256 * le_value l end.

(** A little-endian load and store of eight bytes. *)
Definition read64 (m : mem) (p : Z) : Z :=
  le_value ((λ i, m (p + i)) <$> seqZ 0 8).
Definition write64 (m : mem) (p v : Z) : mem := λ x,
  if (p <=? x) && (x <? p + 8) then nth (Z.to_nat (x - p)) (le_bytes 8 v) 0 else m x.

(** ** Tactics *)

(** Reduces the monads and the arithmetic helpers to plain matches. *)
Ltac unfold_monad :=
  unfold mbind, mret, M_bind, M_ret, outcome_bind, outcome_ret, lift, get, put, throw,
    add_u64, sub_u64, mul_u64, expect, ok_or, map_err in *.

(** Splits every match of the goal, closing the branches arithmetic refutes. *)
Ltac case_lia := repeat (case_match; simplify_eq; try lia).

Create HintDb agnostos.
Create Rewrite HintDb agnostos.

(** ** Lemmas *)

Lemma checked_add_Some a b : is_u64 (a + b) → checked_add a b = Some (a + b).
Proof. unfold is_u64, checked_add. intros. case_lia; done. Qed.

Lemma checked_add_None a b : U64_SIZE ≤ a + b → checked_add a b = None.
Proof. unfold checked_add. intros. case_lia; done. Qed.

Lemma checked_sub_Some a b : b ≤ a → checked_sub a b = Some (a - b).
Proof. unfold checked_sub. intros. case_lia; done. Qed.

Lemma checked_mul_Some a b : is_u64 (a * b) → checked_mul a b = Some (a * b).
Proof. unfold is_u64, checked_mul. intros. case_lia; done. Qed.

Lemma add_u64_ok {E} a b : is_u64 (a + b) → @add_u64 E a b = Ok (a + b).
Proof. intros. unfold add_u64. by rewrite checked_add_Some. Qed.

Lemma sub_u64_ok {E} a b : b ≤ a → @sub_u64 E a b = Ok (a - b).
Proof. intros. unfold sub_u64. by rewrite checked_sub_Some. Qed.

Lemma mul_u64_ok {E} a b : is_u64 (a * b) → @mul_u64 E a b = Ok (a * b).
Proof. intros. unfold mul_u64. by rewrite checked_mul_Some. Qed.

Lemma div_u64_ok {E} a b : b ≠ 0 → @div_u64 E a b = Ok (a / b).
Proof. intros. unfold div_u64. by rewrite (proj2 (Z.eqb_neq _ _)). Qed.

Lemma rem_u64_ok {E} a b : b ≠ 0 → @rem_u64 E a b = Ok (a mod b).
Proof. intros. unfold rem_u64. by rewrite (proj2 (Z.eqb_neq _ _)). Qed.

Lemma is_multiple_of_spec a b : 0 < b → is_multiple_of a b = true ↔ a mod b = 0.
Proof. intros. unfold is_multiple_of. case_lia. Qed.

(** Masking the low bits of a [u64] rounds it down to a power of two. *)
Lemma land_not_low x k : is_u64 x → 0 ≤ k ≤ 64 →
  Z.land x (u64_not (2 ^ k - 1)) = x / 2 ^ k * 2 ^ k.
Proof.
  intros Hx Hk. unfold u64_not.
  replace (u64_max - (2 ^ k - 1)) with (Z.shiftl (Z.ones (64 - k)) k).
  2:{ rewrite Z.shiftl_mul_pow2, Z.ones_equiv by lia. unfold Z.pred.
      rewrite Z.mul_add_distr_r, <- Z.pow_add_r by lia.
      replace (64 - k + k) with 64 by lia. change (2 ^ 64) with U64_SIZE. lia. }
  rewrite <- Z.shiftl_mul_pow2, <- Z.shiftr_div_pow2 by lia.
  apply Z.bits_inj'. intros i Hi. rewrite Z.land_spec.
  destruct (Z.lt_ge_cases i k).
  - rewrite !(Z.shiftl_spec_low _ _ i) by lia. apply andb_false_r.
  - rewrite !(Z.shiftl_spec _ _ i) by lia. rewrite Z.shiftr_spec by lia.
    replace (i - k + k) with i by lia.
    destruct (Z.lt_ge_cases i 64).
    + rewrite Z.ones_spec_low by lia. apply andb_true_r.
    + rewrite Z.ones_spec_high by lia. rewrite andb_false_r. symmetry.
      apply Z.bits_above_log2; [apply Hx|]. unfold is_u64 in Hx.
      destruct (Z.eq_dec x 0) as [->|]; [simpl; lia|].
      apply Z.lt_le_trans with 64; [|lia]. apply Z.log2_lt_pow2; [lia|]. simpl. lia.
Qed.

Lemma foldM_app {E A B} (f : B → A → outcome E B) b l1 l2 :
  foldM f b (l1 ++ l2) = (b' ← foldM f b l1; foldM f b' l2).
Proof.
  revert b. induction l1 as [|x l1 IH]; intros b; [done|]. simpl.
  destruct (f b x); simpl; [apply IH|done|done].
Qed.

(** A stateful computation that returns went through each of its steps. *)
Lemma M_bind_ok {S E A B} (f : A → M S E B) (m : M S E A) s b s2 :
  (m ≫= f) s = (Ok b, s2) → ∃ a s1, m s = (Ok a, s1) ∧ f a s1 = (Ok b, s2).
Proof. unfold mbind, M_bind. destruct (m s) as [[a| |] s1]; [eauto|done|done]. Qed.

(** One that fails failed in one of its steps. *)
Lemma M_bind_err {S E A B} (f : A → M S E B) (m : M S E A) s e s2 :
  (m ≫= f) s = (Err e, s2) → m s = (Err e, s2) ∨ ∃ a s1, m s = (Ok a, s1) ∧ f a s1 = (Err e, s2).
Proof. unfold mbind, M_bind. destruct (m s) as [[a| |] s1]; [eauto|by intros [= -> ->]; left|done]. Qed.

(** One that panics panicked in one of its steps. *)
Lemma M_bind_panic {S E A B} (f : A → M S E B) (m : M S E A) s s2 :
  (m ≫= f) s = (Panic, s2) → m s = (Panic, s2) ∨ ∃ a s1, m s = (Ok a, s1) ∧ f a s1 = (Panic, s2).
Proof. unfold mbind, M_bind. destruct (m s) as [[a| |] s1]; [eauto|done|by intros [= ->]; left]. Qed.

Section arrays.
Context {A : Type}.
Implicit Types (l : list A) (x : A).

Lemma array_set_ok {E} l i x :
  (i < length l)%nat → @array_set E A l i x = Ok (<[i:=x]> l).
Proof. intros. unfold array_set. by rewrite decide_True. Qed.

Lemma array_get_ok {E} l i x : l !! i = Some x → @array_get E A l i = Ok x.
Proof. unfold array_get. by intros ->. Qed.

(** Writing the slot behind the live prefix appends to the prefix. *)
Lemma take_insert_snoc l n x :
  (n < length l)%nat → take (S n) (<[n:=x]> l) = take n l ++ [x].
Proof.
  intros. rewrite (take_S_r _ _ x).
  - by rewrite take_insert_ge.
  - by apply list_lookup_insert_eq.
Qed.

Lemma lookup_take_live l n i :
  (i < n)%nat → take n l !! i = l !! i.
Proof. intros. by apply lookup_take_lt. Qed.
End arrays.

(** ** Buffers: a fixed array with a count of live entries *)

Section buffers.
Context {A : Type} (N : nat).
Implicit Types (arr l : list A) (x : A) (n : nat).

(** The array [arr] of [N] slots with count [n] holds the live entries [l]. *)
Definition buffer_repr arr n l : Prop :=
  length arr = N ∧ n = length l ∧ (n ≤ N)%nat ∧ take n arr = l.

Lemma buffer_repr_empty x : buffer_repr (replicate N x) 0 [].
Proof. split_and!; [by rewrite length_replicate|done|lia|done]. Qed.

Lemma buffer_repr_take arr n :
  length arr = N → (n ≤ N)%nat → buffer_repr arr n (take n arr).
Proof. intros. split_and!; [done|rewrite length_take; lia|done|done]. Qed.

Lemma buffer_repr_length arr n l : buffer_repr arr n l → n = length l ∧ (length l ≤ N)%nat.
Proof. intros (?&->&?&?); auto. Qed.

Lemma buffer_push {E} arr n l x :
  buffer_repr arr n l → (n < N)%nat →
  ∃ arr', @array_set E A arr n x = Ok arr' ∧ buffer_repr arr' (S n) (l ++ [x]).
Proof.
  intros (Harr & Hn & Hle & Htake) Hlt. eexists. split.
  - apply array_set_ok. lia.
  - split_and!.
    + by rewrite length_insert.
    + rewrite length_app, Hn. simpl. lia.
    + lia.
    + rewrite take_insert_snoc by lia. by rewrite Htake.
Qed.

Lemma buffer_lookup arr n l i : buffer_repr arr n l → (i < n)%nat → arr !! i = l !! i.
Proof. intros (_&_&_&<-) ?. by rewrite lookup_take_lt. Qed.

Lemma buffer_get {E} arr n l i x :
  buffer_repr arr n l → l !! i = Some x → @array_get E A arr i = Ok x.
Proof.
  intros Hb Hl. apply array_get_ok. rewrite (buffer_lookup arr n l); [done|done|].
  destruct (buffer_repr_length _ _ _ Hb) as [-> _]. by eapply lookup_lt_Some.
Qed.

Lemma buffer_update {E} arr n l i x :
  buffer_repr arr n l → (i < n)%nat →
  ∃ arr', @array_set E A arr i x = Ok arr' ∧ buffer_repr arr' n (<[i:=x]> l).
Proof.
  intros (Harr & Hn & Hle & Htake) Hlt. eexists. split.
  - apply array_set_ok. lia.
  - split_and!; [by rewrite length_insert|by rewrite length_insert|done|].
    by rewrite <- Htake, take_insert_lt.
Qed.
End buffers.

(** Loads and stores. *)

Lemma le_value_bytes n v : 0 ≤ v < 256 ^ Z.of_nat n → le_value (le_bytes n v) = v.
Proof.
  revert v. induction n as [|n IH]; intros v Hv; [simpl in *; lia|].
  rewrite Nat2Z.inj_succ, Z.pow_succ_r in Hv by lia. simpl. rewrite IH.
  - Z.div_mod_to_equations. lia.
  - Z.div_mod_to_equations. lia.
Qed.

Lemma read64_bytes m p v : is_u64 v →
  (∀ i, 0 ≤ i < 8 → m (p + i) = nth (Z.to_nat i) (le_bytes 8 v) 0) → read64 m p = v.
Proof.
  intros Hv H. unfold read64.
  replace ((λ i, m (p + i)) <$> seqZ 0 8) with (le_bytes 8 v); [by apply le_value_bytes|].
  change (seqZ 0 8) with [0; 1; 2; 3; 4; 5; 6; 7].
  rewrite !fmap_cons, fmap_nil, !H by lia. done.
Qed.

Lemma read_write_same m p v : is_u64 v → read64 (write64 m p v) p = v.
Proof.
  intros Hv. apply read64_bytes; [done|]. intros i Hi. unfold write64.
  rewrite (proj2 (Z.leb_le _ _)), (proj2 (Z.ltb_lt _ _)) by lia. simpl.
  by replace (p + i - p) with i by lia.
Qed.

Lemma read64_ext m m' p : (∀ x, p ≤ x < p + 8 → m' x = m x) → read64 m' p = read64 m p.
Proof.
  intros H. unfold read64. f_equal. apply list_fmap_ext. intros i x Hx.
  apply H. apply list_elem_of_lookup_2, elem_of_seqZ in Hx. lia.
Qed.

Lemma write64_outside m p v x : ¬ (p ≤ x < p + 8) → write64 m p v x = m x.
Proof.
  intros Hx. unfold write64. destruct (Z.leb_spec p x); [|done].
  destruct (Z.ltb_spec x (p + 8)); [lia|done].
Qed.

Lemma read_write_other m p q v : p + 8 ≤ q ∨ q + 8 ≤ p → read64 (write64 m p v) q = read64 m q.
Proof. intros H. apply read64_ext. intros x Hx. apply write64_outside. lia. Qed.

#[export] Hint Resolve checked_add_Some checked_sub_Some checked_mul_Some : agnostos.
#[export] Hint Rewrite @length_insert @length_replicate @length_app @length_take : agnostos.
