(* ===== verification/Globals.v ===== *)
(** * Globals: the kernel-wide constants of [src/globals.rs]. *)

From S2P Require Import Prelude.

(** [globals::frame] *)
Definition MAX_MEMORY_RANGES : nat := 256.
Definition PAGE_SIZE : Z := 4096.

(** [globals::paging] *)
Definition KERNEL_BASE : Z := 0xffff800000000000.
Definition HEAP_BASE : Z := 0xffff900000000000.
Definition FRAMEBUFFER_BASE : Z := 0xffffa00000000000.
Definition MMIO_BASE : Z := 0xffffb00000000000.
Definition STACK_BASE : Z := 0xffffc00000000000.
Definition LOW_CANONICAL_MAX : Z := 0x00007fffffffffff.
Definition HIGH_CANONICAL_MIN : Z := 0xffff800000000000.
Definition MAX_PAGE_TABLE_FRAMES : nat := 512.
Definition RECURSIVE_INDEX : Z := 510.

(** [globals::task] *)
Definition TASK_STACK_SIZE : Z := 4 * 1024.
Definition STACK_FRAME_WORDS : Z := 7.
Definition MAX_TASKS : nat := 64.
Definition TASK_BUDGET : Z := 8.

(** [globals::timer] *)
Definition PIT_FREQUENCY : Z := 1193182.
Definition TIMER_FREQUENCY : Z := 1000.
Definition PIT_DIVISOR : Z := PIT_FREQUENCY / TIMER_FREQUENCY.
