(* ===== verification/Memory.v ===== *)
(** * Memory: the kernel-owned physical memory map of [src/memory.rs]. *)

From S2P Require Import Prelude Globals.

(** ** Data *)

(** UEFI memory types, a newtype over [u32] of the [uefi] crate: the constants
    the kernel names, and any other value. *)
Inductive MemoryType : Type :=
  | RESERVED | LOADER_CODE | LOADER_DATA | BOOT_SERVICES_CODE | BOOT_SERVICES_DATA
  | RUNTIME_SERVICES_CODE | RUNTIME_SERVICES_DATA | CONVENTIONAL | UNUSABLE
  | ACPI_RECLAIM | ACPI_NON_VOLATILE | MMIO | MMIO_PORT_SPACE
  | OTHER_MEMORY_TYPE (raw : Z).

#[export] Instance MemoryType_eq_dec : EqDecision MemoryType.
Proof. solve_decision. Defined.

Inductive MemoryKind : Type :=
  | Usable | Kernel | Firmware | Acpi | Device | Runtime | Unusable | Reserved.

#[export] Instance MemoryKind_eq_dec : EqDecision MemoryKind.
Proof. solve_decision. Defined.

Definition from_uefi_type (ty : MemoryType) : MemoryKind :=
  match ty with
  | CONVENTIONAL => Usable
  | LOADER_CODE | LOADER_DATA => Kernel
  | BOOT_SERVICES_CODE | BOOT_SERVICES_DATA => Firmware
  | ACPI_RECLAIM | ACPI_NON_VOLATILE => Acpi
  | MMIO | MMIO_PORT_SPACE => Device
  | RUNTIME_SERVICES_CODE | RUNTIME_SERVICES_DATA => Runtime
  | UNUSABLE => Unusable
  | _ => Reserved
  end.

Record MemoryRange : Type := mkRange {
  mr_start : Z;
  mr_length : Z;
  mr_uefi_type : MemoryType;
  mr_kind : MemoryKind;
}.

#[export] Instance MemoryRange_eq_dec : EqDecision MemoryRange.
Proof. solve_decision. Defined.

(** [MemoryRange::end] *)
Definition mr_end (r : MemoryRange) : Z := saturating_add (mr_start r) (mr_length r).

(** [MemoryRange::contains] *)
Definition mr_contains (r : MemoryRange) (address : Z) : bool :=
  (mr_start r <=? address) && (address <? mr_end r).

Record MemoryMapSnapshot : Type := mkSnapshot {
  ms_ranges : list MemoryRange;
  ms_count : nat;
}.

Inductive MemoryMapError : Type :=
  | AlreadyInitialized | Empty | InvalidRange | RangeNotFound | TooManyRanges | NotInitialized.

#[export] Instance MemoryMapError_eq_dec : EqDecision MemoryMapError.
Proof. solve_decision. Defined.

(** One entry of the firmware map, as the [uefi] crate presents it. *)
Record MemoryDescriptor : Type := mkDescriptor {
  ty : MemoryType;
  phys_start : Z;
  page_count : Z;
}.

(** ** Snapshot operations *)

Definition empty_range : MemoryRange := mkRange 0 0 RESERVED Reserved.

Definition ms_is_empty (s : MemoryMapSnapshot) : bool := Nat.eqb (ms_count s) 0.

(** [MemoryMapSnapshot::ranges]: the slice [&self.ranges\[..self.count\]]. *)
Definition ms_live (s : MemoryMapSnapshot) : list MemoryRange := take (ms_count s) (ms_ranges s).

(** [MemoryMapSnapshot::kind_at] *)
Definition ms_kind_at (s : MemoryMapSnapshot) (address : Z) : option MemoryKind :=
  mr_kind <$> find (λ range, mr_contains range address) (ms_live s).

Definition copy_descriptor (s : MemoryMapSnapshot) (d : MemoryDescriptor) :
    outcome MemoryMapError MemoryMapSnapshot :=
  if Nat.eqb (ms_count s) MAX_MEMORY_RANGES then Err TooManyRanges else
  length ← ok_or (checked_mul (page_count d) PAGE_SIZE) InvalidRange;
  end_ ← ok_or (checked_add (phys_start d) length) InvalidRange;
  if (length =? 0) || (end_ <=? phys_start d) then Err InvalidRange else
  ranges ← array_set (ms_ranges s) (ms_count s)
             (mkRange (phys_start d) length (ty d) (from_uefi_type (ty d)));
  Ok (mkSnapshot ranges (S (ms_count s))).

Definition copy_from (map : list MemoryDescriptor) : outcome MemoryMapError MemoryMapSnapshot :=
  snapshot ← foldM copy_descriptor
               (mkSnapshot (replicate MAX_MEMORY_RANGES empty_range) 0) map;
  if ms_is_empty snapshot then Err Empty else Ok snapshot.

(** The [push] closure of [reserve_range]. *)
Definition reserve_push (replacement : list MemoryRange) (count : nat) (value : MemoryRange) :
    outcome MemoryMapError (list MemoryRange * nat) :=
  if (mr_length value =? 0) || Nat.eqb count MAX_MEMORY_RANGES then
    if mr_length value =? 0 then Ok (replacement, count) else Err TooManyRanges
  else
    replacement ← array_set replacement count value;
    Ok (replacement, S count).

(** One iteration of the loop of [reserve_range] over the old ranges. *)
Definition reserve_step (start end_ : Z) (kind : MemoryKind)
    (st : list MemoryRange * nat * bool) (range : MemoryRange) :
    outcome MemoryMapError (list MemoryRange * nat * bool) :=
  let '(replacement, count, overlapped) := st in
  let overlap_start := Z.max start (mr_start range) in
  let overlap_end := Z.min end_ (mr_end range) in
  if overlap_end <=? overlap_start then
    if Nat.eqb count MAX_MEMORY_RANGES then Err TooManyRanges else
    replacement ← array_set replacement count range;
    Ok (replacement, S count, overlapped)
  else
    left_length ← sub_u64 overlap_start (mr_start range);
    '(replacement, count) ← reserve_push replacement count
      (mkRange (mr_start range) left_length (mr_uefi_type range) (mr_kind range));
    middle_length ← sub_u64 overlap_end overlap_start;
    '(replacement, count) ← reserve_push replacement count
      (mkRange overlap_start middle_length (mr_uefi_type range) kind);
    right_length ← sub_u64 (mr_end range) overlap_end;
    '(replacement, count) ← reserve_push replacement count
      (mkRange overlap_end right_length (mr_uefi_type range) (mr_kind range));
    Ok (replacement, count, true).

(** [MemoryMapSnapshot::reserve_range] *)
Definition reserve_range (start length : Z) (kind : MemoryKind) :
    M MemoryMapSnapshot MemoryMapError unit :=
  end_ ← lift (ok_or (checked_add start length) InvalidRange);
  if (length =? 0) || (end_ <=? start) then throw InvalidRange else
  self ← get;
  '(replacement, replacement_count, overlapped) ←
    lift (foldM (reserve_step start end_ kind)
            (replicate MAX_MEMORY_RANGES empty_range, 0%nat, false) (ms_live self));
  if negb overlapped then throw RangeNotFound else
  put (mkSnapshot replacement replacement_count).

(** [MemoryMapSnapshot::add_external_range] *)
Definition add_external_range (start length : Z) (kind : MemoryKind) :
    M MemoryMapSnapshot MemoryMapError unit :=
  end_ ← lift (ok_or (checked_add start length) InvalidRange);
  self ← get;
  if (length =? 0) || (end_ <=? start) || Nat.eqb (ms_count self) MAX_MEMORY_RANGES
  then throw InvalidRange else
  ranges ← lift (array_set (ms_ranges self) (ms_count self) (mkRange start length MMIO kind));
  put (mkSnapshot ranges (S (ms_count self))).

(** ** The static [MEMORY_MAP : Once<Mutex<MemoryMapSnapshot>>]

    [None] before [initialize]; the mutex serialises the accesses. *)

Definition initialize (map : list MemoryDescriptor) (framebuffer : option (Z * Z)) :
    M (option MemoryMapSnapshot) MemoryMapError unit :=
  memory_map ← get;
  match memory_map with
  | Some _ => throw AlreadyInitialized
  | None =>
    snapshot ← lift (copy_from map);
    snapshot ← match framebuffer with
      | Some (start, length) =>
        match reserve_range start length Device snapshot with
        | (Ok _, snapshot) => mret snapshot
        | (Err RangeNotFound, snapshot) =>
          match add_external_range start length Device snapshot with
          | (Ok _, snapshot) => mret snapshot
          | (Err error, _) => throw error
          | (Panic, _) => lift Panic
          end
        | (Err error, _) => throw error
        | (Panic, _) => lift Panic
        end
      | None => mret snapshot
      end;
    put (Some snapshot)
  end.

Definition reserve (start length : Z) (kind : MemoryKind) :
    M (option MemoryMapSnapshot) MemoryMapError unit :=
  memory_map ← get;
  match memory_map with
  | None => throw NotInitialized
  | Some map =>
    match reserve_range start length kind map with
    | (r, map) => put (Some map);; lift r
    end
  end.

(** [memory::kind_at], over the value of [MEMORY_MAP]. *)
Definition kind_at (memory_map : option MemoryMapSnapshot) (address : Z) : option MemoryKind :=
  snapshot ← memory_map; ms_kind_at snapshot address.

(** ** Summary *)

Record MemorySummary : Type := mkSummary {
  sum_ranges : nat;
  usable_bytes : Z;
  kernel_bytes : Z;
  firmware_bytes : Z;
  acpi_bytes : Z;
  device_bytes : Z;
  runtime_bytes : Z;
  reserved_bytes : Z;
  unusable_bytes : Z;
}.

(** The loop body of [summary]: the field of the range's kind grows. *)
Definition summary_step (s : MemorySummary) (range : MemoryRange) : MemorySummary :=
  let '(mkSummary n us ke fi ac de ru re un) := s in
  let grow d := saturating_add d (mr_length range) in
  match mr_kind range with
  | Usable => mkSummary n (grow us) ke fi ac de ru re un
  | Kernel => mkSummary n us (grow ke) fi ac de ru re un
  | Firmware => mkSummary n us ke (grow fi) ac de ru re un
  | Acpi => mkSummary n us ke fi (grow ac) de ru re un
  | Device => mkSummary n us ke fi ac (grow de) ru re un
  | Runtime => mkSummary n us ke fi ac de (grow ru) re un
  | Unusable => mkSummary n us ke fi ac de ru re (grow un)
  | Reserved => mkSummary n us ke fi ac de ru (grow re) un
  end.

(** [MemoryMapSnapshot::summary] *)
Definition summary (s : MemoryMapSnapshot) : MemorySummary :=
  fold_left summary_step (ms_live s) (mkSummary (ms_count s) 0 0 0 0 0 0 0 0).

(** ** Well-formed maps *)

(** A range is nonempty and ends inside the address space. *)
Definition range_ok (r : MemoryRange) : Prop :=
  0 ≤ mr_start r ∧ 0 < mr_length r ∧ mr_start r + mr_length r ≤ u64_max.

Definition disjoint_ranges (r1 r2 : MemoryRange) : Prop :=
  mr_end r1 ≤ mr_start r2 ∨ mr_end r2 ≤ mr_start r1.

(** The array and its count agree. *)
Definition ms_repr (s : MemoryMapSnapshot) : Prop :=
  buffer_repr MAX_MEMORY_RANGES (ms_ranges s) (ms_count s) (ms_live s).

Lemma ms_repr_mk arr n l :
  buffer_repr MAX_MEMORY_RANGES arr n l →
  ms_repr (mkSnapshot arr n) ∧ ms_live (mkSnapshot arr n) = l.
Proof.
  intros Hb. unfold ms_repr, ms_live. cbn [ms_ranges ms_count].
  pose proof Hb as (_ & _ & _ & Htake). by rewrite Htake.
Qed.

Record ms_wf (s : MemoryMapSnapshot) : Prop := {
  ms_wf_repr : ms_repr s;
  ms_wf_ranges : Forall range_ok (ms_live s);
  ms_wf_disjoint : StronglySorted disjoint_ranges (ms_live s);
}.

(** ** The abstract reservation *)

Definition nonempty (r : MemoryRange) : Prop := mr_length r ≠ 0.
#[export] Instance nonempty_dec r : Decision (nonempty r).
Proof. unfold nonempty. apply _. Defined.

Definition overlaps (start end_ : Z) (r : MemoryRange) : bool :=
  Z.max start (mr_start r) <? Z.min end_ (mr_end r).

(** What the reservation of [\[start, end_)] makes of one range. *)
Definition pieces (start end_ : Z) (kind : MemoryKind) (r : MemoryRange) : list MemoryRange :=
  let lo := Z.max start (mr_start r) in
  let hi := Z.min end_ (mr_end r) in
  if overlaps start end_ r then
    filter nonempty
      [mkRange (mr_start r) (lo - mr_start r) (mr_uefi_type r) (mr_kind r);
       mkRange lo (hi - lo) (mr_uefi_type r) kind;
       mkRange hi (mr_end r - hi) (mr_uefi_type r) (mr_kind r)]
  else [r].

(** The map of ownership that a list of ranges stands for. *)
Definition kind_of (l : list MemoryRange) (address : Z) : option MemoryKind :=
  mr_kind <$> find (λ range, mr_contains range address) l.

Definition total_bytes (l : list MemoryRange) : Z := foldr (λ r n, mr_length r + n) 0 l.
Definition kind_bytes (k : MemoryKind) (l : list MemoryRange) : Z :=
  total_bytes (filter (λ r, mr_kind r = k) l).

(** ** The loop of [reserve_range] *)

(** A fallible append to the buffer: it succeeds when the new list fits. *)
Definition appended (m : outcome MemoryMapError (list MemoryRange * nat))
    (l : list MemoryRange) : Prop :=
  if decide (length l ≤ MAX_MEMORY_RANGES)%nat
  then ∃ arr, m = Ok (arr, length l) ∧ buffer_repr MAX_MEMORY_RANGES arr (length l) l
  else m = Err TooManyRanges.

Lemma reserve_push_spec arr n l v :
  buffer_repr MAX_MEMORY_RANGES arr n l →
  appended (reserve_push arr n v) (l ++ filter nonempty [v]).
Proof.
  intros Hb. destruct (buffer_repr_length _ _ _ _ Hb) as [-> Hle].
  unfold appended, reserve_push. rewrite filter_cons, filter_nil.
  destruct (Z.eqb_spec (mr_length v) 0) as [H0|H0]; simpl.
  - rewrite (decide_False (P:=nonempty v)) by (unfold nonempty; lia).
    rewrite app_nil_r, decide_True by done. eauto.
  - rewrite (decide_True (P:=nonempty v)) by done. rewrite length_app. simpl.
    destruct (Nat.eqb_spec (length l) MAX_MEMORY_RANGES) as [Hn|Hn]; simpl.
    + by rewrite decide_False by lia.
    + rewrite decide_True by lia.
      destruct (buffer_push (E:=MemoryMapError) _ _ _ _ v Hb) as (arr' & -> & Hb'); [lia|].
      rewrite Nat.add_1_r. exists arr'. done.
Qed.

(** The three appends of one iteration, as a loop. *)
Lemma reserve_pushes_spec arr n l vs :
  buffer_repr MAX_MEMORY_RANGES arr n l →
  appended (foldM (λ st v, reserve_push st.1 st.2 v) (arr, n) vs) (l ++ filter nonempty vs).
Proof.
  revert arr n l. induction vs as [|v vs IH]; intros arr n l Hb.
  - rewrite filter_nil, app_nil_r. unfold appended.
    destruct (buffer_repr_length _ _ _ _ Hb) as [-> Hle]. rewrite decide_True by done.
    eexists. done.
  - pose proof (reserve_push_spec arr n l v Hb) as Hv. unfold appended in Hv.
    change (v :: vs) with ([v] ++ vs). rewrite filter_app, app_assoc. simpl.
    destruct (decide _) as [Hle|Hgt].
    + destruct Hv as (arr' & -> & Hb'). by apply IH.
    + rewrite Hv. simpl. unfold appended. rewrite decide_False; [done|].
      rewrite length_app. lia.
Qed.

(** One iteration appends the pieces of the range and notes the overlap. *)
Definition stepped (m : outcome MemoryMapError (list MemoryRange * nat * bool))
    (l : list MemoryRange) (overlapped : bool) : Prop :=
  if decide (length l ≤ MAX_MEMORY_RANGES)%nat
  then ∃ arr, m = Ok (arr, length l, overlapped)
              ∧ buffer_repr MAX_MEMORY_RANGES arr (length l) l
  else m = Err TooManyRanges.

Lemma reserve_step_spec start end_ kind arr n l b r :
  buffer_repr MAX_MEMORY_RANGES arr n l →
  stepped (reserve_step start end_ kind (arr, n, b) r)
    (l ++ pieces start end_ kind r) (b || overlaps start end_ r).
Proof.
  intros Hb. unfold reserve_step, pieces.
  destruct (overlaps start end_ r) eqn:Hov; unfold overlaps in Hov.
  - rewrite (proj2 (Z.leb_gt _ _)) by lia. rewrite !sub_u64_ok by lia.
    rewrite orb_true_r. unfold stepped.
    match goal with |- context [filter nonempty ?vs] =>
      pose proof (reserve_pushes_spec arr n l vs Hb) as Hp end.
    unfold appended in Hp. simpl in Hp |- *. destruct (decide _).
    + destruct Hp as (arr' & Hp & Hb'). exists arr'. split; [|done]. revert Hp.
      repeat (destruct (reserve_push _ _ _) as [[??]| |]; simpl; try done). by intros [= -> ->].
    + revert Hp. repeat (destruct (reserve_push _ _ _) as [[??]| |]; simpl; try done).
      all: by intros [= ->].
  - rewrite (proj2 (Z.leb_le _ _)) by lia. rewrite orb_false_r.
    destruct (buffer_repr_length _ _ _ _ Hb) as [-> Hle].
    unfold stepped. rewrite length_app. simpl.
    destruct (Nat.eqb_spec (length l) MAX_MEMORY_RANGES) as [Hn|Hn].
    + by rewrite decide_False by lia.
    + rewrite decide_True by lia.
      destruct (buffer_push (E:=MemoryMapError) _ _ _ _ r Hb) as (arr' & -> & Hb'); [lia|].
      rewrite Nat.add_1_r. exists arr'. done.
Qed.

(** The whole loop. *)
Lemma reserve_loop_spec start end_ kind arr n l b rs :
  buffer_repr MAX_MEMORY_RANGES arr n l →
  stepped (foldM (reserve_step start end_ kind) (arr, n, b) rs)
    (l ++ flat_map (pieces start end_ kind) rs) (b || existsb (overlaps start end_) rs).
Proof.
  revert arr n l b. induction rs as [|r rs IH]; intros arr n l b Hb.
  - simpl. rewrite app_nil_r, orb_false_r. unfold stepped.
    destruct (buffer_repr_length _ _ _ _ Hb) as [-> Hle]. rewrite decide_True by done. eauto.
  - pose proof (reserve_step_spec start end_ kind arr n l b r Hb) as Hr. unfold stepped in Hr.
    cbn [foldM flat_map existsb]. rewrite app_assoc, orb_assoc. destruct (decide _).
    + destruct Hr as (arr' & -> & Hb'). simpl. by apply IH.
    + rewrite Hr. simpl. unfold stepped. rewrite decide_False; [done|].
      rewrite length_app. lia.
Qed.

(** ** Ownership of single addresses *)

Lemma kind_of_app l1 l2 a :
  kind_of (l1 ++ l2) a = match kind_of l1 a with Some k => Some k | None => kind_of l2 a end.
Proof. unfold kind_of. induction l1 as [|r l1 IH]; [done|]. simpl. by destruct (mr_contains r a). Qed.

Lemma kind_of_cons r l a :
  kind_of (r :: l) a = if mr_contains r a then Some (mr_kind r) else kind_of l a.
Proof. unfold kind_of. simpl. by destruct (mr_contains r a). Qed.

(** Every piece is a well-formed part of its range. *)
Lemma pieces_bounds start end_ kind r p :
  0 ≤ start → range_ok r → p ∈ pieces start end_ kind r →
  range_ok p ∧ mr_start r ≤ mr_start p ∧ mr_end p ≤ mr_end r.
Proof.
  unfold pieces, overlaps, range_ok, mr_end, saturating_add, nonempty.
  intros H0 (Hs & Hl & He) Hp. case_match.
  - apply list_elem_of_filter in Hp as [? Hp]. set_unfold in Hp.
    destruct_or! Hp; subst; simpl in *; lia.
  - apply list_elem_of_singleton in Hp as ->. lia.
Qed.

(** The pieces of one range own its addresses as the reservation wants it. *)
Lemma pieces_kind start end_ kind r a :
  0 ≤ start → end_ ≤ u64_max → 0 ≤ mr_start r →
  kind_of (pieces start end_ kind r) a =
  (if mr_contains r a
   then Some (if decide (start ≤ a < end_) then kind else mr_kind r) else None).
Proof.
  intros. unfold pieces, overlaps, mr_contains.
  case_match eqn:Hov.
  - rewrite !filter_cons, filter_nil. unfold nonempty, kind_of. simpl.
    repeat case_decide; simpl in *;
      repeat match goal with |- context [mr_contains ?r ?a] => 
        destruct (mr_contains r a) eqn:?; simpl end; unfold mr_contains, mr_end, saturating_add in *; simpl in *; case_lia; done.
  - unfold kind_of. simpl. unfold mr_contains. case_match; [|done]. simpl.
    rewrite decide_False; [done|]. lia.
Qed.

(** The reservation of a list, range by range, is a pointwise update. *)
Lemma kind_of_pieces start end_ kind l a :
  0 ≤ start → end_ ≤ u64_max → Forall (λ r, 0 ≤ mr_start r) l →
  kind_of (flat_map (pieces start end_ kind) l) a =
  (if decide (start ≤ a < end_) then const kind <$> kind_of l a else kind_of l a).
Proof.
  intros Hs He. induction 1 as [|r l Hr _ IH]; simpl; [by case_decide|].
  rewrite kind_of_app, pieces_kind, IH, !kind_of_cons by done.
  destruct (mr_contains r a); by case_decide.
Qed.

(** Reserving moves bytes between kinds but keeps their total. *)
Lemma total_bytes_app l1 l2 : total_bytes (l1 ++ l2) = total_bytes l1 + total_bytes l2.
Proof. induction l1 as [|r l1 IH]; simpl; lia. Qed.

Lemma total_bytes_nonempty l : total_bytes (filter nonempty l) = total_bytes l.
Proof.
  induction l as [|r l IH]; [done|]. rewrite filter_cons. unfold nonempty at 1.
  case_decide; simpl; lia.
Qed.

Lemma pieces_total start end_ kind r :
  range_ok r → total_bytes (pieces start end_ kind r) = mr_length r.
Proof.
  unfold range_ok, pieces. intros Hr. case_match.
  - rewrite total_bytes_nonempty. simpl. unfold mr_end, saturating_add. lia.
  - simpl. lia.
Qed.

Lemma pieces_list_total start end_ kind l :
  Forall range_ok l → total_bytes (flat_map (pieces start end_ kind) l) = total_bytes l.
Proof.
  induction 1 as [|r l Hr _ IH]; [done|]. simpl.
  rewrite total_bytes_app, pieces_total, IH by done. done.
Qed.

(** Relations between ranges that survive shrinking either range, such as
    disjointness and being below, survive a reservation. *)
Section shrinking.
Context (R : MemoryRange → MemoryRange → Prop).
Hypothesis R_adjacent : ∀ p q, mr_end p ≤ mr_start q → R p q.
Hypothesis R_shrink : ∀ r1 r2 p1 p2,
  R r1 r2 → mr_start r1 ≤ mr_start p1 → mr_end p1 ≤ mr_end r1 →
  mr_start r2 ≤ mr_start p2 → mr_end p2 ≤ mr_end r2 → R p1 p2.

Lemma pieces_sorted start end_ kind r :
  0 ≤ start → range_ok r → StronglySorted R (pieces start end_ kind r).
Proof.
  unfold pieces, range_ok. intros H0 Hr. case_match eqn:Hov; [|by repeat constructor].
  unfold overlaps in Hov. rewrite !filter_cons, filter_nil.
  unfold mr_end, saturating_add in *.
  repeat case_decide; repeat constructor; apply R_adjacent;
    unfold mr_end, saturating_add; simpl; lia.
Qed.

Lemma pieces_list_sorted start end_ kind l :
  0 ≤ start → Forall range_ok l → StronglySorted R l →
  StronglySorted R (flat_map (pieces start end_ kind) l).
Proof.
  intros H0 Hok. induction 1 as [|r l Hl IH Hr]; [constructor|].
  apply Forall_cons in Hok as [Hokr Hok]. simpl. apply StronglySorted_app.
  split_and!; [|by apply pieces_sorted|by apply IH].
  intros p1 p2 Hp1 (r2 & Hr2 & Hp2)%list_elem_of_In%in_flat_map.
  apply list_elem_of_In in Hr2, Hp2. rewrite Forall_forall in Hok, Hr.
  destruct (pieces_bounds start end_ kind r p1) as (_ & ? & ?); [done..|].
  destruct (pieces_bounds start end_ kind r2 p2) as (_ & ? & ?); [by auto..|].
  eapply R_shrink; eauto.
Qed.
End shrinking.

Definition below (r1 r2 : MemoryRange) : Prop := mr_end r1 ≤ mr_start r2.

(** ** [reserve_range] as a function of the list of ranges *)

Definition reserve_spec (l : list MemoryRange) (start length_ : Z) (kind : MemoryKind) :
    outcome MemoryMapError (list MemoryRange) :=
  if decide (length_ = 0 ∨ U64_SIZE ≤ start + length_) then Err InvalidRange else
  let l' := flat_map (pieces start (start + length_) kind) l in
  if decide (MAX_MEMORY_RANGES < length l')%nat then Err TooManyRanges else
  if existsb (overlaps start (start + length_)) l then Ok l' else Err RangeNotFound.

Lemma reserve_range_eq s start length_ kind :
  ms_repr s → is_u64 start → is_u64 length_ →
  match reserve_spec (ms_live s) start length_ kind with
  | Ok l => ∃ s', reserve_range start length_ kind s = (Ok tt, s') ∧ ms_repr s' ∧ ms_live s' = l
  | Err e => reserve_range start length_ kind s = (Err e, s)
  | Panic => False
  end.
Proof.
  intros Hs Hstart Hlen. unfold is_u64 in *. unfold reserve_spec, reserve_range, ok_or.
  unfold mbind, M_bind, lift, get, put, throw. cbn beta iota zeta.
  destruct (decide (length_ = 0 ∨ U64_SIZE ≤ start + length_)) as [Hbad|Hgood].
  - unfold checked_add. destruct (Z.ltb_spec (start + length_) U64_SIZE); [|done].
    by rewrite (proj2 (Z.eqb_eq length_ 0)) by lia.
  - rewrite checked_add_Some by (unfold is_u64; lia). cbn beta iota zeta.
    rewrite (proj2 (Z.eqb_neq length_ 0)), (proj2 (Z.leb_gt _ _)) by lia. cbn beta iota delta [orb].
    pose proof (reserve_loop_spec start (start + length_) kind _ _ _ false (ms_live s)
      (buffer_repr_empty MAX_MEMORY_RANGES empty_range)) as Hloop.
    unfold stepped in Hloop. rewrite app_nil_l, orb_false_l in Hloop.
    destruct (decide _) as [Hle|Hgt].
    + destruct Hloop as (arr & -> & Hb). rewrite decide_False by lia.
      destruct (existsb _ _); simpl; [|done].
      eexists. split; [done|]. by apply ms_repr_mk.
    + rewrite Hloop. by rewrite decide_True by lia.
Qed.

(** ** Copying the firmware map *)

Definition descriptor_ok (d : MemoryDescriptor) : Prop :=
  0 < page_count d ∧ is_u64 (page_count d * PAGE_SIZE)
  ∧ 0 ≤ phys_start d ∧ phys_start d + page_count d * PAGE_SIZE ≤ u64_max.

#[export] Instance descriptor_ok_dec d : Decision (descriptor_ok d).
Proof. unfold descriptor_ok. apply _. Defined.

(** A descriptor as the firmware may store it: the fields are [u64]. *)
Definition descriptor_raw (d : MemoryDescriptor) : Prop :=
  is_u64 (phys_start d) ∧ is_u64 (page_count d).

Definition range_of (d : MemoryDescriptor) : MemoryRange :=
  mkRange (phys_start d) (page_count d * PAGE_SIZE) (ty d) (from_uefi_type (ty d)).

Lemma range_of_ok d : descriptor_ok d → range_ok (range_of d).
Proof. unfold descriptor_ok, range_ok, range_of, PAGE_SIZE, is_u64. cbn. lia. Qed.

Lemma copy_descriptor_bad s d :
  (ms_count s < MAX_MEMORY_RANGES)%nat → descriptor_raw d → ¬ descriptor_ok d →
  copy_descriptor s d = Err InvalidRange.
Proof.
  unfold copy_descriptor, descriptor_raw, descriptor_ok, is_u64, checked_mul, checked_add, ok_or.
  intros Hc Hraw Hbad. rewrite (proj2 (Nat.eqb_neq _ _)) by lia. unfold PAGE_SIZE in *.
  destruct (Z.ltb_spec (page_count d * 4096) U64_SIZE); [|done]. simpl.
  destruct (Z.ltb_spec (phys_start d + page_count d * 4096) U64_SIZE); [|done]. simpl.
  by rewrite (proj2 (Z.eqb_eq (page_count d * 4096) 0)) by lia.
Qed.

Lemma copy_descriptor_ok s d :
  ms_repr s → (ms_count s < MAX_MEMORY_RANGES)%nat → descriptor_ok d →
  ∃ s', copy_descriptor s d = Ok s' ∧ ms_repr s' ∧ ms_count s' = S (ms_count s)
        ∧ ms_live s' = ms_live s ++ [range_of d].
Proof.
  unfold copy_descriptor, descriptor_ok. intros Hs Hc (Hp & Hm & H0 & Ha).
  rewrite (proj2 (Nat.eqb_neq _ _)) by lia. rewrite checked_mul_Some by done. simpl.
  unfold is_u64 in *. rewrite checked_add_Some by (unfold is_u64; lia). simpl.
  unfold PAGE_SIZE in *.
  rewrite (proj2 (Z.eqb_neq _ _)), (proj2 (Z.leb_gt _ _)) by lia. simpl.
  destruct (buffer_push (E:=MemoryMapError) _ _ _ _ (range_of d) Hs Hc) as (arr & Harr & Hb).
  unfold range_of, PAGE_SIZE in *. rewrite Harr. simpl. eexists. split; [done|].
  by destruct (ms_repr_mk _ _ _ Hb) as [Hr ->].
Qed.

Lemma copy_loop_ok s ds :
  ms_repr s → Forall descriptor_ok ds → (ms_count s + length ds ≤ MAX_MEMORY_RANGES)%nat →
  ∃ s', foldM copy_descriptor s ds = Ok s' ∧ ms_repr s'
        ∧ ms_count s' = (ms_count s + length ds)%nat
        ∧ ms_live s' = ms_live s ++ map range_of ds.
Proof.
  intros Hs Hds. revert s Hs. induction Hds as [|d ds Hd _ IH]; intros s Hs Hc; simpl in *.
  - exists s. rewrite app_nil_r. split_and!; [done..|lia|done].
  - destruct (copy_descriptor_ok s d) as (s1 & -> & Hs1 & Hc1 & Hl1); [done|lia|done|]. simpl.
    destruct (IH s1) as (s2 & -> & Hs2 & Hc2 & Hl2); [done|lia|].
    exists s2. split_and!; [done..|lia|]. by rewrite Hl2, Hl1, <- app_assoc.
Qed.

Definition empty_snapshot : MemoryMapSnapshot :=
  mkSnapshot (replicate MAX_MEMORY_RANGES empty_range) 0.

Lemma empty_snapshot_repr : ms_repr empty_snapshot ∧ ms_live empty_snapshot = [].
Proof. apply ms_repr_mk. apply buffer_repr_empty. Qed.

(** A prefix that is copied, then the descriptor at which the copy stops. *)
Lemma copy_loop_stop good d rest :
  Forall descriptor_ok good → (length good ≤ MAX_MEMORY_RANGES)%nat → descriptor_raw d →
  (length good = MAX_MEMORY_RANGES ∨ ¬ descriptor_ok d) →
  foldM copy_descriptor empty_snapshot (good ++ d :: rest) =
  Err (if decide (length good = MAX_MEMORY_RANGES) then TooManyRanges else InvalidRange).
Proof.
  intros Hgood Hlen Hraw Hstop. destruct empty_snapshot_repr as [Hs _]. rewrite foldM_app.
  destruct (copy_loop_ok empty_snapshot good) as (s1 & -> & Hs1 & Hc1 & _); [done..|].
  simpl in Hc1 |- *. destruct (decide _) as [Hfull|Hnot].
  - unfold copy_descriptor. by rewrite (proj2 (Nat.eqb_eq _ _)) by lia.
  - destruct Hstop; [done|]. rewrite copy_descriptor_bad; [done|lia|done|done].
Qed.

Lemma copy_from_ok ds :
  Forall descriptor_ok ds → ds ≠ [] → (length ds ≤ MAX_MEMORY_RANGES)%nat →
  ∃ s, copy_from ds = Ok s ∧ ms_repr s ∧ ms_live s = map range_of ds.
Proof.
  intros Hds Hne Hlen. unfold copy_from. fold empty_snapshot.
  destruct empty_snapshot_repr as [Hs Hl].
  destruct (copy_loop_ok empty_snapshot ds) as (s & -> & Hr & Hc & Hlive); [done..|].
  simpl. unfold ms_is_empty. rewrite Hc. destruct ds; [done|]. simpl.
  exists s. by rewrite Hlive, Hl.
Qed.

Lemma add_external_range_ok s start length_ kind :
  ms_repr s → (ms_count s < MAX_MEMORY_RANGES)%nat → 0 < length_ → is_u64 (start + length_) →
  ∃ s', add_external_range start length_ kind s = (Ok tt, s') ∧ ms_repr s'
        ∧ ms_live s' = ms_live s ++ [mkRange start length_ MMIO kind].
Proof.
  intros Hs Hc Hlen Hend. unfold add_external_range, ok_or.
  unfold mbind, M_bind, lift, get, put, throw. cbn beta iota zeta.
  rewrite checked_add_Some by done. cbn beta iota zeta. unfold is_u64 in *.
  rewrite (proj2 (Z.eqb_neq _ _)), (proj2 (Z.leb_gt _ _)), (proj2 (Nat.eqb_neq _ _)) by lia.
  simpl.
  destruct (buffer_push (E:=MemoryMapError) _ _ _ _ (mkRange start length_ MMIO kind) Hs Hc)
    as (arr & -> & Hb).
  eexists. split; [done|]. by destruct (ms_repr_mk _ _ _ Hb) as [Hr ->].
Qed.

(** A reservation that overlaps nothing adds no pieces. *)
Lemma pieces_none start end_ kind l :
  existsb (overlaps start end_) l = false → flat_map (pieces start end_ kind) l = l.
Proof.
  induction l as [|r l IH]; [done|]. simpl. intros [Hr Hl]%orb_false_iff.
  unfold pieces at 1. by rewrite Hr, IH.
Qed.

Lemma no_overlap_kind start end_ l a :
  existsb (overlaps start end_) l = false → start ≤ a < end_ → kind_of l a = None.
Proof.
  induction l as [|r l IH]; [done|]. simpl. intros [Hr Hl]%orb_false_iff Ha.
  rewrite kind_of_cons, IH by done. unfold mr_contains. unfold overlaps in Hr.
  by case_match eqn:Hc; [lia|].
Qed.

(** What the firmware map and the framebuffer make of the address space. *)
Definition boot_ranges (ds : list MemoryDescriptor) (start length_ : Z) : list MemoryRange :=
  let fw := map range_of ds in
  if existsb (overlaps start (start + length_)) fw
  then flat_map (pieces start (start + length_) Device) fw
  else fw ++ [mkRange start length_ MMIO Device].

Lemma initialize_ok ds start length_ :
  Forall descriptor_ok ds → ds ≠ [] → is_u64 start → 0 < length_ →
  start + length_ ≤ u64_max →
  (length (boot_ranges ds start length_) ≤ MAX_MEMORY_RANGES)%nat →
  ∃ s, initialize ds (Some (start, length_)) None = (Ok tt, Some s)
       ∧ ms_repr s ∧ ms_live s = boot_ranges ds start length_.
Proof.
  intros Hds Hne Hstart Hlen Hend Hfit. unfold boot_ranges in *. unfold is_u64 in *.
  assert (length ds ≤ MAX_MEMORY_RANGES)%nat as Hn.
  { revert Hfit. case_match; [|rewrite length_app, length_map; simpl; lia].
    enough (length (map range_of ds) ≤
      length (flat_map (pieces start (start + length_) Device) (map range_of ds)))%nat
      by (rewrite length_map in *; lia).
    clear -Hds Hstart. induction Hds as [|d ds Hd _ IH]; [done|].
    simpl in *. rewrite length_app.
    enough (0 < length (pieces start (start + length_) Device (range_of d)))%nat by lia.
    pose proof (pieces_total start (start + length_) Device _ (range_of_ok d Hd)) as Ht.
    pose proof (range_of_ok d Hd) as (_ & Hpos & _).
    destruct (pieces _ _ _ _); simpl in *; lia. }
  destruct (copy_from_ok ds) as (s0 & Hcopy & Hs0 & Hl0); [done..|].
  unfold initialize, mbind, M_bind, get, lift, put. rewrite Hcopy. cbn beta iota zeta.
  pose proof (reserve_range_eq s0 start length_ Device Hs0) as Hres.
  rewrite Hl0 in Hres. unfold reserve_spec in Hres.
  rewrite decide_False in Hres by lia.
  destruct (existsb _ (map range_of ds)) eqn:Hov.
  - rewrite decide_False in Hres by lia.
    destruct Hres as (s' & -> & Hr & Hl); [unfold is_u64; lia..|]. eauto.
  - rewrite pieces_none, decide_False in Hres by (try done; rewrite length_map; lia).
    rewrite Hres by (unfold is_u64; lia).
    destruct (add_external_range_ok s0 start length_ Device) as (s' & -> & Hr & Hl).
    { done. }
    { rewrite length_app, length_map in Hfit. simpl in Hfit.
      destruct (buffer_repr_length _ _ _ _ Hs0) as [-> _].
      rewrite Hl0, length_map. lia. }
    { lia. }
    { unfold is_u64. lia. }
    rewrite Hl0 in Hl. eauto.
Qed.

(** ** Properties *)

(** C5. A successful [reserve_range] is a pointwise update of the ownership
    map: every address of the range that the map knew becomes [kind], and no
    other address changes, so the neighbours of a split range survive. *)
Theorem reserve_range_kind_at s start length_ kind s' :
  ms_repr s → Forall (λ r, 0 ≤ mr_start r) (ms_live s) →
  is_u64 start → is_u64 length_ →
  reserve_range start length_ kind s = (Ok tt, s') →
  ∀ a, ms_kind_at s' a =
    (if decide (start ≤ a < start + length_) then const kind <$> ms_kind_at s a
     else ms_kind_at s a).
Proof.
  intros Hs Hpos Hst Hlen Hres a. pose proof (reserve_range_eq s start length_ kind Hs Hst Hlen) as H.
  rewrite Hres in H. unfold reserve_spec in H. unfold is_u64 in *.
  case_decide as Hok; [done|]. case_decide; [done|]. destruct (existsb _ _); [|done].
  destruct H as (s'' & [= <-] & _ & Hl). unfold ms_kind_at. rewrite Hl.
  apply kind_of_pieces; [lia..|done].
Qed.

(** C22. A failing [reserve_range] leaves the map as it was, it never panics,
    and each error has exactly one cause: an empty or overflowing range, a map
    that would need more than [MAX_MEMORY_RANGES] entries, or a range that
    overlaps no entry. *)
Theorem reserve_range_errors s start length_ kind :
  ms_repr s → is_u64 start → is_u64 length_ →
  let '(r, s') := reserve_range start length_ kind s in
  let bad := length_ = 0 ∨ U64_SIZE ≤ start + length_ in
  let full := (MAX_MEMORY_RANGES <
    length (flat_map (pieces start (start + length_) kind) (ms_live s)))%nat in
  r ≠ Panic ∧ (∀ e, r = Err e → s' = s) ∧
  (r = Err InvalidRange ↔ bad) ∧
  (r = Err TooManyRanges ↔ ¬ bad ∧ full) ∧
  (r = Err RangeNotFound ↔
     ¬ bad ∧ ¬ full ∧ existsb (overlaps start (start + length_)) (ms_live s) = false).
Proof.
  intros Hs Hst Hlen. pose proof (reserve_range_eq s start length_ kind Hs Hst Hlen) as H.
  unfold reserve_spec in H. destruct (reserve_range _ _ _ s) as [r s'].
  case_decide; [|case_decide; [|destruct (existsb _ _) eqn:Hov]].
  all: try (destruct H as (s'' & [= -> ->] & _)); try (injection H as -> ->).
  all: rewrite ?Hov; clear Hs Hst Hlen; split_and!; try done; naive_solver.
Qed.

(** C15. [reserve_range] keeps the map well formed: the entries stay nonempty,
    inside the address space, pairwise disjoint and, if they were, sorted by
    address; no byte of the map is gained or lost. *)
Theorem reserve_range_wf s start length_ kind s' :
  ms_wf s → is_u64 start → is_u64 length_ →
  reserve_range start length_ kind s = (Ok tt, s') →
  ms_wf s' ∧ total_bytes (ms_live s') = total_bytes (ms_live s) ∧
  (StronglySorted below (ms_live s) → StronglySorted below (ms_live s')).
Proof.
  intros [Hs Hok Hdis] Hst Hlen Hres.
  pose proof (reserve_range_eq s start length_ kind Hs Hst Hlen) as H.
  rewrite Hres in H. unfold reserve_spec in H. unfold is_u64 in *.
  case_decide; [done|]. case_decide; [done|]. destruct (existsb _ _); [|done].
  destruct H as (s'' & [= <-] & Hr & Hl). split_and!.
  - split; [done| |]; rewrite Hl.
    + apply Forall_flat_map. eapply Forall_impl; [done|]. intros r Hr'.
      apply Forall_forall. intros p Hp.
      by destruct (pieces_bounds start (start + length_) kind r p) as [? _]; [lia|done..|].
    + apply pieces_list_sorted; unfold disjoint_ranges; [naive_solver|intros; lia|lia|done..].
  - by rewrite Hl, pieces_list_total.
  - intros Hbelow. rewrite Hl.
    apply pieces_list_sorted; unfold below; [done|intros; lia|lia|done..].
Qed.

(** The map that [initialize] installs for a firmware map and a
    framebuffer: framebuffer addresses that the firmware map lists become
    [Device]; if it lists none of them the whole framebuffer is added as
    [Device]; every other address keeps the kind of its firmware type. *)
Theorem initialize_ownership ds start length_ :
  Forall descriptor_ok ds → ds ≠ [] → is_u64 start → 0 < length_ →
  start + length_ ≤ u64_max →
  (length (boot_ranges ds start length_) ≤ MAX_MEMORY_RANGES)%nat →
  ∃ s, initialize ds (Some (start, length_)) None = (Ok tt, Some s) ∧
    ∀ a, kind_at (Some s) a =
      let firmware := kind_of (map range_of ds) a in
      if decide (start ≤ a < start + length_) then
        if existsb (overlaps start (start + length_)) (map range_of ds)
        then const Device <$> firmware else Some Device
      else firmware.
Proof.
  intros Hds Hne Hst Hlen Hend Hfit.
  destruct (initialize_ok ds start length_) as (s & -> & Hs & Hl); [done..|].
  exists s. split; [done|]. intros a. unfold kind_at. cbn.
  change (ms_kind_at s a) with (kind_of (ms_live s) a). rewrite Hl. unfold boot_ranges.
  unfold is_u64 in *. case_match eqn:Hov.
  - apply kind_of_pieces; [lia..|]. apply Forall_map. eapply Forall_impl; [done|].
    by intros d (?&?&?&?).
  - rewrite kind_of_app, kind_of_cons. unfold mr_contains, mr_end, saturating_add. simpl.
    case_decide.
    + rewrite (no_overlap_kind start (start + length_)) by done. by case_match; [|lia].
    + case_match; [done|]. by case_match; [lia|].
Qed.

(** The firmware map is copied whole or not at all: a valid map becomes
    the same ranges in the same order; otherwise the error names the first
    obstacle, an invalid descriptor or the [MAX_MEMORY_RANGES]-th slot. *)
Theorem copy_from_correct ds :
  Forall descriptor_raw ds →
  (ds = [] → copy_from ds = Err Empty) ∧
  (Forall descriptor_ok ds → ds ≠ [] → (length ds ≤ MAX_MEMORY_RANGES)%nat →
     ∃ s, copy_from ds = Ok s ∧ ms_repr s ∧ ms_live s = map range_of ds) ∧
  (∀ good d rest, ds = good ++ d :: rest → Forall descriptor_ok good →
     ((length good < MAX_MEMORY_RANGES)%nat → ¬ descriptor_ok d → copy_from ds = Err InvalidRange) ∧
     (length good = MAX_MEMORY_RANGES → copy_from ds = Err TooManyRanges)).
Proof.
  intros Hraw. split_and!.
  - intros ->. done.
  - apply copy_from_ok.
  - intros good d rest -> Hgood. apply Forall_app in Hraw as [_ [Hd _]%Forall_cons].
    unfold copy_from. fold empty_snapshot.
    split; intros Hlen; [intros Hbad|]; rewrite copy_loop_stop by (auto; lia).
    + by rewrite decide_False by lia.
    + by rewrite decide_True by lia.
Qed.

(** ** Witnesses: a map with one usable range of nine pages *)

Definition demo_descriptors : list MemoryDescriptor :=
  [mkDescriptor CONVENTIONAL 0x1000 9; mkDescriptor MMIO 0x100000 16].

Definition demo_map : MemoryMapSnapshot :=
  mkSnapshot (map range_of demo_descriptors ++ replicate 254 empty_range) 2.

Lemma demo_map_wf : ms_wf demo_map.
Proof.
  split; [by split_and!; vm_compute; try lia| |].
  - repeat constructor; vm_compute; done.
  - change (StronglySorted disjoint_ranges (map range_of demo_descriptors)).
    apply SSorted_cons; [repeat constructor|]. apply Forall_singleton. left. by vm_compute.
Defined.

Lemma reserve_range_kind_at_witness :
  let s' := snd (reserve_range 0x3000 0x2000 Kernel demo_map) in
  ms_kind_at s' 0x4fff = Some Kernel ∧ ms_kind_at s' 0x5000 = Some Usable.
Proof.
  pose proof (reserve_range_kind_at demo_map 0x3000 0x2000 Kernel
    (snd (reserve_range 0x3000 0x2000 Kernel demo_map))) as H.
  split; rewrite H; first
    [ apply demo_map_wf | repeat constructor; by vm_compute | by vm_compute ].
Defined.

Lemma reserve_range_errors_witness :
  reserve_range 0x20000 0x1000 Kernel demo_map = (Err RangeNotFound, demo_map).
Proof.
  pose proof (reserve_range_errors demo_map 0x20000 0x1000 Kernel) as H.
  assert (fst (reserve_range 0x20000 0x1000 Kernel demo_map) = Err RangeNotFound) as Hr
    by (by vm_compute).
  destruct (reserve_range _ _ _ _) as [r s']. simpl in Hr. subst r.
  destruct H as (_ & H & _); [apply demo_map_wf|by vm_compute..|]. by rewrite (H _ eq_refl).
Defined.

Lemma reserve_range_wf_witness :
  let s' := snd (reserve_range 0x3000 0x2000 Kernel demo_map) in
  ms_wf s' ∧ total_bytes (ms_live s') = 0x19000.
Proof.
  destruct (reserve_range_wf demo_map 0x3000 0x2000 Kernel
    (snd (reserve_range 0x3000 0x2000 Kernel demo_map))) as (Hwf & Ht & _).
  - apply demo_map_wf.
  - by vm_compute.
  - by vm_compute.
  - by vm_compute.
  - split; [exact Hwf|]. rewrite Ht. by vm_compute.
Defined.

Lemma initialize_ownership_witness :
  ∃ s, initialize demo_descriptors (Some (0x8000, 0x4000)) None = (Ok tt, Some s)
    ∧ kind_at (Some s) 0x8000 = Some Device ∧ kind_at (Some s) 0xa000 = None.
Proof.
  destruct (initialize_ownership demo_descriptors 0x8000 0x4000) as (s & Hi & Hk).
  - repeat constructor; by vm_compute.
  - done.
  - by vm_compute.
  - by vm_compute.
  - by vm_compute.
  - vm_compute. lia.
  - exists s. split; [exact Hi|]. rewrite !Hk. by vm_compute.
Defined.

Lemma copy_from_correct_witness :
  copy_from [mkDescriptor CONVENTIONAL 0x1000 9; mkDescriptor RESERVED 0x1000 0]
  = Err InvalidRange.
Proof.
  refine (proj1 (proj2 (proj2 (copy_from_correct _ _))
    [mkDescriptor CONVENTIONAL 0x1000 9] (mkDescriptor RESERVED 0x1000 0) [] eq_refl _) _ _).
  - repeat constructor; by vm_compute.
  - repeat constructor; by vm_compute.
  - vm_compute. lia.
  - intros [H _]. by vm_compute in H.
Defined.
