(* ===== verification/Frame.v ===== *)
(** * Frame: the physical frame allocator of [src/frame.rs]. *)

From S2P Require Import Prelude Globals Memory.

(** ** Data *)

Definition MAX_FREE_RANGES : nat := MAX_MEMORY_RANGES.

(** [FrameAddress] is a newtype over [u64]. *)
Abbreviation FrameAddress := Z (only parsing).

(** [FrameAddress::new] *)
Definition FrameAddress_new (address : Z) : option FrameAddress :=
  if is_multiple_of address PAGE_SIZE then Some address else None.

Inductive FrameOwner : Type := Heap | PageTable | KernelStack | Kernel.

Record OwnedFrame : Type := mkOwnedFrame {
  of_frame : FrameAddress;
  of_owner : FrameOwner;
}.

(** [OwnedFrame::from_reserved] *)
Definition from_reserved (address : Z) (owner : FrameOwner) : option OwnedFrame :=
  frame ← FrameAddress_new address; Some (mkOwnedFrame frame owner).

Record PhysicalRange : Type := mkPhysicalRange {
  pr_start : Z;
  pr_length : Z;
}.

Record OwnedPhysicalRange : Type := mkOwnedPhysicalRange {
  opr_range : PhysicalRange;
  opr_owner : FrameOwner;
}.

Record FreeRange : Type := mkFree {
  fr_start : Z;
  fr_frames : Z;
}.

(** [FreeRange::end] *)
Definition fr_end (r : FreeRange) : Z :=
  saturating_add (fr_start r) (saturating_mul (fr_frames r) PAGE_SIZE).

Record FrameStats : Type := mkStats {
  fs_total_frames : Z;
  fs_free_frames : Z;
  fs_free_ranges : nat;
}.

Inductive FrameError : Type :=
  | AlreadyInitialized | MemoryMapUnavailable | OutOfMemory | InvalidAddress
  | FreeRangeStorageFull.

Record FrameAllocator : Type := mkFA {
  ranges : list FreeRange;
  range_count : nat;
  managed : list FreeRange;
  managed_count : nat;
  total_frames : Z;
  free_frames : Z;
}.

(** Assignments to the fields that the methods mutate. *)
Definition set_ranges (l : list FreeRange) (s : FrameAllocator) : FrameAllocator :=
  mkFA l (range_count s) (managed s) (managed_count s) (total_frames s) (free_frames s).
Definition set_range_count (n : nat) (s : FrameAllocator) : FrameAllocator :=
  mkFA (ranges s) n (managed s) (managed_count s) (total_frames s) (free_frames s).
Definition set_free_frames (n : Z) (s : FrameAllocator) : FrameAllocator :=
  mkFA (ranges s) (range_count s) (managed s) (managed_count s) (total_frames s) n.

(** ** Methods of [FrameAllocator] *)

Definition empty_free : FreeRange := mkFree 0 0.

(** The loop body of [FrameAllocator::new]. *)
Definition fa_new_step (a : FrameAllocator) (range : MemoryRange) :
    outcome FrameError FrameAllocator :=
  if negb (bool_decide (mr_kind range = Usable))
     || Nat.eqb (range_count a) MAX_FREE_RANGES || Nat.eqb (managed_count a) MAX_FREE_RANGES
  then Ok a else
  let frames := mr_length range / PAGE_SIZE in
  if frames =? 0 then Ok a else
  ranges' ← array_set (ranges a) (range_count a) (mkFree (mr_start range) frames);
  managed' ← array_set (managed a) (managed_count a) (mkFree (mr_start range) frames);
  Ok (mkFA ranges' (S (range_count a)) managed' (S (managed_count a))
        (saturating_add (total_frames a) frames) (saturating_add (free_frames a) frames)).

(** [FrameAllocator::new] *)
Definition fa_new (l : list MemoryRange) : outcome FrameError FrameAllocator :=
  foldM fa_new_step
    (mkFA (replicate MAX_FREE_RANGES empty_free) 0 (replicate MAX_FREE_RANGES empty_free) 0 0 0) l.

(** The loop of [remove_range]: [n] entries from [current] on move one slot down. *)
Fixpoint shift_down (l : list FreeRange) (current n : nat) : outcome FrameError (list FreeRange) :=
  match n with
  | O => Ok l
  | S n =>
    r ← array_get l (S current);
    l ← array_set l current r;
    shift_down l (S current) n
  end.

(** [FrameAllocator::remove_range] *)
Definition remove_range (index : nat) : M FrameAllocator FrameError unit :=
  self ← get;
  l ← lift (shift_down (ranges self) index (range_count self - 1 - index));
  put (set_ranges l self);;
  match range_count self with
  | O => lift Panic
  | S n => put (set_range_count n (set_ranges l self))
  end.

(** [FrameAllocator::allocate] *)
Definition fa_allocate : M FrameAllocator FrameError FrameAddress :=
  self ← get;
  if Nat.eqb (range_count self) 0 then throw OutOfMemory else
  range ← lift (array_get (ranges self) 0);
  let address := fr_start range in
  frames ← lift (sub_u64 (fr_frames range) 1);
  l ← lift (array_set (ranges self) 0 (mkFree (saturating_add (fr_start range) PAGE_SIZE) frames));
  put (set_ranges l self);;
  (if frames =? 0 then remove_range 0 else mret tt);;
  self ← get;
  n ← lift (sub_u64 (free_frames self) 1);
  put (set_free_frames n self);;
  mret address.

(** The search of [allocate_contiguous]: among the live ranges with at least
    [frames] frames, the last one of the largest size ([max_by_key] keeps the
    later of two equal keys). *)
Definition largest_step (l : list FreeRange) (frames : Z) (best : option (nat * Z)) (index : nat) :
    outcome FrameError (option (nat * Z)) :=
  r ← array_get l index;
  if frames <=? fr_frames r then
    match best with
    | Some (_, key) => if key <=? fr_frames r then Ok (Some (index, fr_frames r)) else Ok best
    | None => Ok (Some (index, fr_frames r))
    end
  else Ok best.

(** [FrameAllocator::allocate_contiguous] *)
Definition fa_allocate_contiguous (frames : Z) : M FrameAllocator FrameError PhysicalRange :=
  if frames =? 0 then throw OutOfMemory else
  self ← get;
  best ← lift (foldM (largest_step (ranges self) frames) None (seq 0 (range_count self)));
  '(index, _) ← lift (ok_or best OutOfMemory);
  range ← lift (array_get (ranges self) index);
  length ← lift (ok_or (checked_mul frames PAGE_SIZE) OutOfMemory);
  let result := mkPhysicalRange (fr_start range) length in
  start ← lift (ok_or (checked_add (fr_start range) length) OutOfMemory);
  rest ← lift (sub_u64 (fr_frames range) frames);
  l ← lift (array_set (ranges self) index (mkFree start rest));
  put (set_ranges l self);;
  (if rest =? 0 then remove_range index else mret tt);;
  self ← get;
  n ← lift (sub_u64 (free_frames self) frames);
  put (set_free_frames n self);;
  mret result.

(** [FrameAllocator::largest_free_frames] *)
Definition fa_largest_free_frames (s : FrameAllocator) : Z :=
  foldr (λ r n, Z.max (fr_frames r) n) 0 (take (range_count s) (ranges s)).

(** The first loop of [release]: [n] live entries remain from [index] on. *)
Fixpoint release_scan (l : list FreeRange) (address : Z) (index n : nat) :
    outcome FrameError nat :=
  match n with
  | O => Ok index
  | S n =>
    r ← array_get l index;
    if fr_start r <? address then release_scan l address (S index) n else Ok index
  end.

(** The second loop of [release]: entries behind [index] move one slot up. *)
Fixpoint shift_up (l : list FreeRange) (index move_index : nat) :
    outcome FrameError (list FreeRange) :=
  match move_index with
  | O => Ok l
  | S m =>
    if Nat.ltb index move_index then
      r ← array_get l m;
      l ← array_set l move_index r;
      shift_up l index m
    else Ok l
  end.

(** [self.ranges\[index - 1\]], when [index > 0]. *)
Definition previous (l : list FreeRange) (index : nat) : outcome FrameError (option FreeRange) :=
  match index with O => Ok None | S i => r ← array_get l i; Ok (Some r) end.

(** [self.ranges\[index\]], when [index < self.range_count]. *)
Definition current (l : list FreeRange) (count index : nat) : outcome FrameError (option FreeRange) :=
  if Nat.ltb index count then r ← array_get l index; Ok (Some r) else Ok None.

(** [previous.end() == address]: the range before grows by the frame, and takes
    in the range behind when the gap is closed. *)
Definition release_grow_up (index : nat) (p : FreeRange) (cur : option FreeRange) :
    M FrameAllocator FrameError unit :=
  self ← get;
  frames ← lift (add_u64 (fr_frames p) 1);
  let p := mkFree (fr_start p) frames in
  l ← lift (array_set (ranges self) (index - 1) p);
  put (set_ranges l self);;
  match cur with
  | Some c =>
    if fr_end p =? fr_start c then
      frames ← lift (add_u64 (fr_frames p) (fr_frames c));
      l ← lift (array_set l (index - 1) (mkFree (fr_start p) frames));
      put (set_ranges l self);;
      remove_range index
    else mret tt
  | None => mret tt
  end.

(** [address + PAGE_SIZE == next.start]: the range behind grows downwards. *)
Definition release_grow_down (address : Z) (index : nat) (c : FreeRange) :
    M FrameAllocator FrameError unit :=
  self ← get;
  frames ← lift (add_u64 (fr_frames c) 1);
  l ← lift (array_set (ranges self) index (mkFree address frames));
  put (set_ranges l self).

(** The last branch: a range of one frame, in a slot of its own. *)
Definition release_new (address : Z) (index : nat) : M FrameAllocator FrameError unit :=
  self ← get;
  if Nat.eqb (range_count self) MAX_FREE_RANGES then throw FreeRangeStorageFull else
  l ← lift (shift_up (ranges self) index (range_count self));
  l ← lift (array_set l index (mkFree address 1));
  put (set_range_count (S (range_count self)) (set_ranges l self)).

Definition ends_at (prev : option FreeRange) (address : Z) : option FreeRange :=
  p ← prev; if fr_end p =? address then Some p else None.
Definition starts_at (cur : option FreeRange) (address : Z) : option FreeRange :=
  c ← cur; if address =? fr_start c then Some c else None.

(** The three ways in which [release] enters the frame into the free list. *)
Definition release_insert (address : Z) (index : nat) (prev cur : option FreeRange) :
    M FrameAllocator FrameError unit :=
  match ends_at prev address, starts_at cur (saturating_add address PAGE_SIZE) with
  | Some p, _ => release_grow_up index p cur
  | None, Some c => release_grow_down address index c
  | None, None => release_new address index
  end.

(** [FrameAllocator::release] *)
Definition fa_release (address : FrameAddress) : M FrameAllocator FrameError unit :=
  if negb (is_multiple_of address PAGE_SIZE) then throw InvalidAddress else
  self ← get;
  if negb (existsb (λ range, (fr_start range <=? address)
                    && (saturating_add address PAGE_SIZE <=? fr_end range))
             (take (managed_count self) (managed self)))
  then throw InvalidAddress else
  index ← lift (release_scan (ranges self) address 0 (range_count self));
  prev ← lift (previous (ranges self) index);
  cur ← lift (current (ranges self) (range_count self) index);
  if from_option (λ p, address <? fr_end p) false prev then throw InvalidAddress else
  if from_option (λ c, fr_start c <? saturating_add address PAGE_SIZE) false cur
  then throw InvalidAddress else
  release_insert address index prev cur;;
  self ← get;
  put (set_free_frames (saturating_add (free_frames self) 1) self).

(** [FrameAllocator::stats] *)
Definition fa_stats (s : FrameAllocator) : FrameStats :=
  mkStats (total_frames s) (free_frames s) (range_count s).

(** ** The static [FRAME_ALLOCATOR : Once<Mutex<FrameAllocator>>] *)

Abbreviation FRAME_ALLOCATOR := (option FrameAllocator).

(** [frame::initialize], given the value of [MEMORY_MAP]. *)
Definition initialize (memory_map : option MemoryMapSnapshot) :
    M FRAME_ALLOCATOR FrameError unit :=
  st ← get;
  match st with
  | Some _ => throw AlreadyInitialized
  | None =>
    snapshot ← lift (ok_or memory_map MemoryMapUnavailable);
    allocator ← lift (fa_new (ms_live snapshot));
    put (Some allocator)
  end.

(** A method called through the static: it fails before [initialize]. *)
Definition locked {A} (f : M FrameAllocator FrameError A) : M FRAME_ALLOCATOR FrameError A :=
  st ← get;
  match st with
  | None => throw MemoryMapUnavailable
  | Some allocator => let '(r, allocator) := f allocator in put (Some allocator);; lift r
  end.

Definition allocate : M FRAME_ALLOCATOR FrameError FrameAddress := locked fa_allocate.
Definition allocate_owned (owner : FrameOwner) : M FRAME_ALLOCATOR FrameError OwnedFrame :=
  frame ← allocate; mret (mkOwnedFrame frame owner).
Definition allocate_contiguous (frames : Z) : M FRAME_ALLOCATOR FrameError PhysicalRange :=
  locked (fa_allocate_contiguous frames).
Definition allocate_contiguous_owned (frames : Z) (owner : FrameOwner) :
    M FRAME_ALLOCATOR FrameError OwnedPhysicalRange :=
  range ← allocate_contiguous frames; mret (mkOwnedPhysicalRange range owner).
Definition largest_free_frames : M FRAME_ALLOCATOR FrameError Z :=
  locked (λ s, (Ok (fa_largest_free_frames s), s)).
Definition release (frame : FrameAddress) : M FRAME_ALLOCATOR FrameError unit :=
  locked (fa_release frame).
(** [OwnedFrame::release] *)
Definition of_release (f : OwnedFrame) : M FRAME_ALLOCATOR FrameError unit :=
  release (of_frame f).
Definition stats (st : FRAME_ALLOCATOR) : option FrameStats := fa_stats <$> st.

(** ** The abstract free list *)

(** The live entries of the two arrays. *)
Definition fa_live (s : FrameAllocator) : list FreeRange := take (range_count s) (ranges s).
Definition fa_managed (s : FrameAllocator) : list FreeRange := take (managed_count s) (managed s).

(** The addresses of the frames of a range, and of a list of ranges. *)
Definition frames_at (start n : Z) : list Z := (λ i, start + PAGE_SIZE * i) <$> seqZ 0 n.
Definition frames_of (r : FreeRange) : list Z := frames_at (fr_start r) (fr_frames r).
Definition addrs (l : list FreeRange) : list Z := l ≫= frames_of.
Definition free_addrs (s : FrameAllocator) : list Z := addrs (fa_live s).
Definition managed_addrs (s : FrameAllocator) : list Z := addrs (fa_managed s).

Definition fr_limit (r : FreeRange) : Z := fr_start r + fr_frames r * PAGE_SIZE.

Record free_ok (r : FreeRange) : Prop := {
  free_ok_start : 0 ≤ fr_start r;
  free_ok_frames : 0 < fr_frames r;
  free_ok_limit : fr_limit r ≤ u64_max;
  free_ok_aligned : fr_start r mod PAGE_SIZE = 0;
}.

(** [r1] lies below [r2], at least [g] bytes away. *)
Definition fr_below (g : Z) (r1 r2 : FreeRange) : Prop := fr_limit r1 + g ≤ fr_start r2.

Definition free_list_ok (g : Z) (l : list FreeRange) : Prop :=
  Forall free_ok l ∧ StronglySorted (fr_below g) l.

(** The invariant of the allocator.  [g = 0] is what every operation needs;
    with [g = 1] it also says that the free list is fully coalesced. *)
Record fa_wf (g : Z) (s : FrameAllocator) : Prop := {
  fa_wf_ranges : buffer_repr MAX_FREE_RANGES (ranges s) (range_count s) (fa_live s);
  fa_wf_managed_buffer :
    buffer_repr MAX_FREE_RANGES (managed s) (managed_count s) (fa_managed s);
  fa_wf_live : free_list_ok g (fa_live s);
  fa_wf_managed : free_list_ok 0 (fa_managed s);
  fa_wf_incl : free_addrs s ⊆ managed_addrs s;
  fa_wf_total : total_frames s = Z.of_nat (length (managed_addrs s));
  fa_wf_free : free_frames s = Z.of_nat (length (free_addrs s));
}.

(** ** Frames of ranges *)

Lemma frames_at_app s n m : 0 ≤ n → 0 ≤ m →
  frames_at s (n + m) = frames_at s n ++ frames_at (s + PAGE_SIZE * n) m.
Proof.
  intros. unfold frames_at. rewrite seqZ_app, fmap_app by lia. f_equal.
  rewrite (Z.add_comm 0 n), <- (fmap_add_seqZ n 0 m), <- list_fmap_compose. apply list_fmap_ext.
  intros _ x _. simpl. unfold PAGE_SIZE. lia.
Qed.

Lemma frames_at_one s : frames_at s 1 = [s].
Proof. unfold frames_at. simpl. f_equal. unfold PAGE_SIZE. lia. Qed.

Lemma length_frames_at s n : 0 ≤ n → Z.of_nat (length (frames_at s n)) = n.
Proof. intros. unfold frames_at. rewrite length_fmap, length_seqZ. lia. Qed.

Lemma elem_of_frames_at s n a :
  a ∈ frames_at s n ↔ s ≤ a < s + n * PAGE_SIZE ∧ (a - s) mod PAGE_SIZE = 0.
Proof.
  unfold frames_at, PAGE_SIZE. rewrite list_elem_of_fmap. split.
  - intros (i & -> & [Hi Hi']%elem_of_seqZ). split; [lia|].
    replace (s + 4096 * i - s) with (i * 4096) by lia. apply Z_mod_mult.
  - intros [Ha Hm]. exists ((a - s) / 4096).
    rewrite elem_of_seqZ. Z.div_mod_to_equations. lia.
Qed.

Lemma addrs_app l1 l2 : addrs (l1 ++ l2) = addrs l1 ++ addrs l2.
Proof. apply bind_app. Qed.

Lemma addrs_cons r l : addrs (r :: l) = frames_of r ++ addrs l.
Proof. done. Qed.

Lemma addrs_nil : addrs [] = [].
Proof. done. Qed.

Lemma elem_of_frames_of r a : free_ok r →
  a ∈ frames_of r ↔ fr_start r ≤ a < fr_limit r ∧ a mod PAGE_SIZE = 0.
Proof.
  intros [_ _ _ Hal]. unfold frames_of, fr_limit, PAGE_SIZE in *.
  rewrite elem_of_frames_at. unfold PAGE_SIZE. Z.div_mod_to_equations. lia.
Qed.

Lemma elem_of_addrs l a : Forall free_ok l →
  a ∈ addrs l ↔ ∃ r, r ∈ l ∧ fr_start r ≤ a < fr_limit r ∧ a mod PAGE_SIZE = 0.
Proof.
  intros Hl. unfold addrs. rewrite list_elem_of_bind. rewrite Forall_forall in Hl.
  split; intros (r & H1 & H2); exists r.
  - split; [done|]. apply elem_of_frames_of; auto.
  - split; [|done]. apply elem_of_frames_of; auto.
Qed.

Lemma fr_limit_aligned r : free_ok r → fr_limit r mod PAGE_SIZE = 0.
Proof. intros [_ _ _ Hal]. unfold fr_limit, PAGE_SIZE in *. by rewrite Z_mod_plus_full. Qed.

Lemma fr_end_limit r : free_ok r → fr_end r = fr_limit r.
Proof.
  intros [H1 H2 H3 _]. unfold fr_end, fr_limit, saturating_add, saturating_mul, PAGE_SIZE in *.
  lia.
Qed.

Lemma NoDup_frames_of r : NoDup (frames_of r).
Proof.
  unfold frames_of, frames_at. apply NoDup_fmap_2; [|apply NoDup_seqZ].
  intros x y. unfold PAGE_SIZE. lia.
Qed.

Lemma free_list_ok_app g l1 l2 :
  free_list_ok g (l1 ++ l2) ↔
  free_list_ok g l1 ∧ free_list_ok g l2 ∧ (∀ r1 r2, r1 ∈ l1 → r2 ∈ l2 → fr_below g r1 r2).
Proof. unfold free_list_ok. rewrite Forall_app, StronglySorted_app. tauto. Qed.

Lemma free_list_ok_one g r : free_list_ok g [r] ↔ free_ok r.
Proof.
  unfold free_list_ok. rewrite Forall_singleton. split; [tauto|].
  intros. split; [done|]. repeat constructor.
Qed.

Lemma free_list_ok_cons g r l :
  free_list_ok g (r :: l) ↔
  free_ok r ∧ free_list_ok g l ∧ (∀ r2, r2 ∈ l → fr_below g r r2).
Proof.
  change (r :: l) with ([r] ++ l). rewrite free_list_ok_app, free_list_ok_one.
  split; intros (H1&H2&H3); (split; [done|split; [done|]]).
  - intros. apply H3; [by apply list_elem_of_singleton|done].
  - intros r1 r2 ->%list_elem_of_singleton. auto.
Qed.

Lemma free_list_ok_weaken g l : 0 ≤ g → free_list_ok g l → free_list_ok 0 l.
Proof.
  intros Hg. induction l as [|r l IH]; [split; constructor|]. rewrite !free_list_ok_cons.
  intros (H1&H2&H3). split; [done|split; [auto|]]. intros r2 Hr. specialize (H3 r2 Hr).
  unfold fr_below in *. lia.
Qed.

Lemma NoDup_addrs g l : 0 ≤ g → free_list_ok g l → NoDup (addrs l).
Proof.
  intros Hg. induction l as [|r l IH]; [constructor|]. rewrite free_list_ok_cons, addrs_cons.
  intros (H1&H2&H3). apply NoDup_app. split_and!; [apply NoDup_frames_of| |auto].
  intros a Ha Ha'. apply elem_of_addrs in Ha' as (r2 & Hr2 & Hb & _); [|apply H2].
  apply elem_of_frames_of in Ha; [|done]. specialize (H3 r2 Hr2). unfold fr_below in H3. lia.
Qed.

Lemma addrs_nonempty r l : free_ok r → addrs (r :: l) = fr_start r ::
  frames_at (fr_start r + PAGE_SIZE) (fr_frames r - 1) ++ addrs l.
Proof.
  intros [_ Hf _ _]. rewrite addrs_cons. unfold frames_of.
  replace (fr_frames r) with (1 + (fr_frames r - 1)) at 1 by lia.
  rewrite frames_at_app, frames_at_one by lia. simpl. repeat f_equal.
Qed.

(** The frames of a sorted list fit below the end of the address space. *)
Lemma length_addrs_bound g l : 0 ≤ g → free_list_ok g l →
  ∀ lo, 0 ≤ lo ≤ u64_max → (∀ r, r ∈ l → lo ≤ fr_start r) →
  lo + Z.of_nat (length (addrs l)) * PAGE_SIZE ≤ u64_max.
Proof.
  intros Hg. induction l as [|r l IH]; intros Hl lo Hlo Hmin; [simpl; lia|].
  rewrite addrs_cons, length_app. apply free_list_ok_cons in Hl as (H1&H2&H3).
  destruct H1 as [Hs Hf Hlim Hal]. unfold frames_of.
  specialize (Hmin r ltac:(by left)).
  specialize (IH H2 (fr_limit r)).
  pose proof (length_frames_at (fr_start r) (fr_frames r) ltac:(lia)) as Hlen.
  unfold fr_limit, fr_below, PAGE_SIZE in *.
  assert (∀ r0 : FreeRange, r0 ∈ l → fr_start r + fr_frames r * 4096 ≤ fr_start r0)
    as Hb by (intros r2 Hr2; specialize (H3 r2 Hr2); unfold fr_limit in *; unfold PAGE_SIZE in *; lia).
  specialize (IH ltac:(lia) Hb). lia.
Qed.

(** ** The loops over the array *)

Lemma shift_down_spec l i n : (i + n < length l)%nat →
  ∃ l', shift_down l i n = Ok l' ∧ length l' = length l ∧
    ∀ j, l' !! j = if decide (i ≤ j < i + n)%nat then l !! S j else l !! j.
Proof.
  revert l i. induction n as [|n IH]; intros l i Hlen; simpl.
  - eexists. split; [done|]. split; [done|]. intros j. by rewrite decide_False by lia.
  - destruct (lookup_lt_is_Some_2 l (S i)) as [r Hr]; [lia|].
    rewrite (array_get_ok _ _ r Hr). cbn. rewrite array_set_ok by lia. cbn.
    destruct (IH (<[i:=r]> l) (S i)) as (l' & -> & Hlen' & Hj).
    { rewrite length_insert. lia. }
    exists l'. split; [done|]. rewrite length_insert in Hlen'. split; [done|].
    intros j. rewrite Hj. destruct (decide (j = i)) as [->|Hji].
    + rewrite decide_False, decide_True by lia. by rewrite list_lookup_insert_eq by lia.
    + repeat case_decide; rewrite ?list_lookup_insert_ne by lia; done || lia.
Qed.

Lemma shift_up_spec l i m : (m < length l)%nat → (i ≤ m)%nat →
  ∃ l', shift_up l i m = Ok l' ∧ length l' = length l ∧
    ∀ j, l' !! j = if decide (i < j ≤ m)%nat then l !! (j - 1)%nat else l !! j.
Proof.
  revert l. induction m as [|m IH]; intros l Hlen Him; simpl.
  - eexists. split; [done|]. split; [done|]. intros j. by rewrite decide_False by lia.
  - destruct (Nat.ltb_spec i (S m)) as [Hlt|Hge].
    2:{ eexists. split; [done|]. split; [done|]. intros j. by rewrite decide_False by lia. }
    destruct (lookup_lt_is_Some_2 l m) as [r Hr]; [lia|].
    rewrite (array_get_ok _ _ r Hr). cbn. rewrite array_set_ok by lia. cbn.
    destruct (IH (<[S m:=r]> l)) as (l' & -> & Hlen' & Hj); [rewrite length_insert; lia|lia|].
    exists l'. split; [done|]. rewrite length_insert in Hlen'. split; [done|].
    intros j. rewrite Hj. destruct (decide (j = S m)) as [->|Hne].
    + rewrite decide_False, decide_True by lia. rewrite list_lookup_insert_eq by lia.
      by replace (S m - 1)%nat with m by lia.
    + destruct (decide (i < j ≤ m)%nat).
      * rewrite list_lookup_insert_ne, decide_True by lia. done.
      * rewrite list_lookup_insert_ne, decide_False by lia. done.
Qed.

Lemma buffer_eq N (arr : list FreeRange) n l :
  length arr = N → n = length l → (n ≤ N)%nat →
  (∀ j, (j < n)%nat → arr !! j = l !! j) → buffer_repr N arr n l.
Proof.
  intros Hlen -> Hle Hj. split_and!; [done..|]. apply list_eq. intros j.
  destruct (decide (j < length l)%nat).
  - rewrite lookup_take_lt by done. auto.
  - rewrite lookup_ge_None_2 by (rewrite length_take; lia).
    by rewrite lookup_ge_None_2 by lia.
Qed.

(** The states that differ from [s] in the free list only. *)
Definition with_live (s : FrameAllocator) (l : list FreeRange) (s' : FrameAllocator) : Prop :=
  buffer_repr MAX_FREE_RANGES (ranges s') (range_count s') l ∧
  managed s' = managed s ∧ managed_count s' = managed_count s ∧
  total_frames s' = total_frames s ∧ free_frames s' = free_frames s.

Lemma with_live_live s l s' : with_live s l s' → fa_live s' = l.
Proof. by intros [(_&_&_&H) _]. Qed.

Lemma remove_range_spec s l1 r l2 :
  buffer_repr MAX_FREE_RANGES (ranges s) (range_count s) (l1 ++ r :: l2) →
  ∃ s', remove_range (length l1) s = (Ok tt, s') ∧ with_live s (l1 ++ l2) s'.
Proof.
  intros Hb. destruct (buffer_repr_length _ _ _ _ Hb) as [Hn Hle].
  pose proof Hb as (Harr & _ & _ & _). rewrite length_app in Hn, Hle. simpl in Hn, Hle.
  unfold remove_range. unfold_monad. cbn beta iota zeta.
  destruct (shift_down_spec (ranges s) (length l1) (range_count s - 1 - length l1))
    as (l' & -> & Hlen & Hj); [rewrite Harr, Hn; lia|].
  destruct (range_count s) as [|n] eqn:Hc; [lia|].
  eexists. split; [done|]. split; [|done]. cbn.
  apply buffer_eq; [lia|rewrite length_app; lia|lia|].
  intros j Hjn. rewrite Hj. destruct (decide (length l1 ≤ j)%nat).
  - rewrite decide_True by lia. rewrite (buffer_lookup _ _ _ _ _ Hb) by lia.
    rewrite !lookup_app_r by lia. by replace (S j - length l1)%nat with (S (j - length l1)) by lia.
  - rewrite decide_False by lia. rewrite (buffer_lookup _ _ _ _ _ Hb) by lia.
    by rewrite !lookup_app_l by lia.
Qed.

(** Replacing one entry of the free list, or removing it when it is used up. *)
Lemma update_spec s l1 r l2 r' :
  buffer_repr MAX_FREE_RANGES (ranges s) (range_count s) (l1 ++ r :: l2) →
  ∃ arr, @array_set FrameError _ (ranges s) (length l1) r' = Ok arr ∧
    buffer_repr MAX_FREE_RANGES arr (range_count s) (l1 ++ r' :: l2).
Proof.
  intros Hb. destruct (buffer_repr_length _ _ _ _ Hb) as [Hn _].
  destruct (buffer_update (E:=FrameError) _ _ _ _ (length l1) r' Hb) as (arr & -> & Hb').
  { rewrite Hn, length_app. simpl. lia. }
  exists arr. split; [done|].
  by rewrite insert_app_r_alt, Nat.sub_diag in Hb' by lia.
Qed.

Lemma shrink_spec s l1 l2 r' arr :
  buffer_repr MAX_FREE_RANGES arr (range_count s) (l1 ++ r' :: l2) →
  ∃ s', (if fr_frames r' =? 0 then remove_range (length l1) else mret tt) (set_ranges arr s)
          = (Ok tt, s') ∧
        with_live s (if fr_frames r' =? 0 then l1 ++ l2 else l1 ++ r' :: l2) s'.
Proof.
  intros Hb. destruct (fr_frames r' =? 0).
  - destruct (remove_range_spec (set_ranges arr s) l1 r' l2 Hb) as (s' & -> & Hw). eauto.
  - eexists. split; [done|]. by split.
Qed.

Lemma release_scan_spec arr n l1 l2 address :
  buffer_repr MAX_FREE_RANGES arr n (l1 ++ l2) →
  ∃ m1 m2, l2 = m1 ++ m2 ∧ Forall (λ r, fr_start r < address) m1 ∧
    (∀ r, head m2 = Some r → address ≤ fr_start r) ∧
    release_scan arr address (length l1) (length l2) = Ok (length (l1 ++ m1)).
Proof.
  revert l1. induction l2 as [|r l2 IH]; intros l1 Hb.
  - exists [], []. rewrite (app_nil_r l1). done.
  - simpl. rewrite (buffer_get _ _ _ _ (length l1) r Hb).
    2:{ by rewrite lookup_app_r, Nat.sub_diag. }
    cbn. destruct (Z.ltb_spec (fr_start r) address).
    + destruct (IH (l1 ++ [r])) as (m1 & m2 & -> & Hm1 & Hm2 & Hscan).
      { by rewrite <- app_assoc. }
      exists (r :: m1), m2. split_and!; [done|by constructor|done|].
      rewrite length_app, Nat.add_1_r in Hscan. rewrite Hscan, <- app_assoc. done.
    + exists [], (r :: l2). rewrite (app_nil_r l1). split_and!; [done|constructor| |done].
      intros ? [= <-]. lia.
Qed.

(** ** Entering a frame into the free list *)

(** [inserted l1 a l2 l]: the free list [l1 ++ l2], with the frame [a] entered
    between its two parts, is [l]. *)
Inductive inserted (a : Z) : list FreeRange → list FreeRange → list FreeRange → Prop :=
  | ins_bridge l1 p c l2 :
      fr_limit p = a → a + PAGE_SIZE = fr_start c →
      inserted a (l1 ++ [p]) (c :: l2)
        (l1 ++ mkFree (fr_start p) (fr_frames p + 1 + fr_frames c) :: l2)
  | ins_grow_up l1 p l2 :
      fr_limit p = a → (∀ c, head l2 = Some c → a + PAGE_SIZE < fr_start c) →
      inserted a (l1 ++ [p]) l2 (l1 ++ mkFree (fr_start p) (fr_frames p + 1) :: l2)
  | ins_grow_down l1 c l2 :
      (∀ p, last l1 = Some p → fr_limit p < a) → a + PAGE_SIZE = fr_start c →
      inserted a l1 (c :: l2) (l1 ++ mkFree a (fr_frames c + 1) :: l2)
  | ins_new l1 l2 :
      (∀ p, last l1 = Some p → fr_limit p < a) →
      (∀ c, head l2 = Some c → a + PAGE_SIZE < fr_start c) →
      inserted a l1 l2 (l1 ++ mkFree a 1 :: l2).

(** Neither neighbour of [a] is free. *)
Definition isolated (a : Z) (l1 l2 : list FreeRange) : Prop :=
  (∀ p, last l1 = Some p → fr_limit p < a) ∧
  (∀ c, head l2 = Some c → a + PAGE_SIZE < fr_start c).

Lemma inserted_addrs a l1 l2 l :
  Forall free_ok (l1 ++ l2) → inserted a l1 l2 l → addrs l = addrs l1 ++ a :: addrs l2.
Proof.
  intros Hok Hi. destruct Hi as [l1 p c l2 Hp Hc|l1 p l2 Hp _|l1 c l2 _ Hc|l1 l2 _ _];
    rewrite !addrs_app, !addrs_cons; unfold frames_of; cbn [fr_start fr_frames].
  - rewrite !Forall_app, Forall_singleton, Forall_cons in Hok.
    destruct Hok as [[_ [_ Hpf _ _]] [[_ Hcf _ _] _]].
    rewrite frames_at_app, frames_at_app, frames_at_one, addrs_nil by lia.
    unfold fr_limit in Hp. rewrite app_nil_r, <- !app_assoc. simpl.
    do 3 f_equal; [unfold PAGE_SIZE in *; lia|]. do 2 f_equal. unfold PAGE_SIZE in *. lia.
  - rewrite !Forall_app, Forall_singleton in Hok. destruct Hok as [[_ [_ Hpf _ _]] _].
    rewrite frames_at_app, frames_at_one, addrs_nil by lia.
    unfold fr_limit in Hp. rewrite app_nil_r, <- !app_assoc. simpl.
    do 3 f_equal. unfold PAGE_SIZE in *. lia.
  - rewrite !Forall_app, Forall_cons in Hok. destruct Hok as [_ [[_ Hcf _ _] _]].
    rewrite Z.add_comm, frames_at_app, frames_at_one by lia. simpl.
    do 3 f_equal. unfold PAGE_SIZE in *. f_equal. lia.
  - by rewrite frames_at_one.
Qed.

Lemma below_last g (l : list FreeRange) b :
  free_list_ok g l → (∀ p, last l = Some p → fr_limit p + g ≤ b) → 0 ≤ g →
  ∀ r, r ∈ l → fr_limit r + g ≤ b.
Proof.
  induction l as [|p l IH] using rev_ind; intros Hl Hp Hg r Hr; [by apply not_elem_of_nil in Hr|].
  specialize (Hp p ltac:(by rewrite last_snoc)).
  apply elem_of_app in Hr as [Hr| ->%list_elem_of_singleton]; [|done].
  apply free_list_ok_app in Hl as (_ & [Hok _] & Hb).
  specialize (Hb r p Hr ltac:(by apply list_elem_of_singleton)).
  apply Forall_singleton in Hok as [? ? _ _]. unfold fr_below, fr_limit, PAGE_SIZE in *. lia.
Qed.

Lemma above_head g (l : list FreeRange) b :
  free_list_ok g l → (∀ c, head l = Some c → b + g ≤ fr_start c) → 0 ≤ g →
  ∀ r, r ∈ l → b + g ≤ fr_start r.
Proof.
  intros Hl Hc Hg. destruct l as [|c l]; intros r Hr; [by apply not_elem_of_nil in Hr|].
  specialize (Hc c eq_refl). apply elem_of_cons in Hr as [->|Hr]; [done|].
  apply free_list_ok_cons in Hl as ([? ? _ _] & _ & Hb). specialize (Hb r Hr).
  unfold fr_below, fr_limit, PAGE_SIZE in *. lia.
Qed.

(** Inserting [r] between two parts of a free list that it keeps clear of. *)
Lemma free_list_ok_insert g l1 r l2 :
  free_list_ok g (l1 ++ l2) → free_ok r → 0 ≤ g →
  (∀ p, last l1 = Some p → fr_limit p + g ≤ fr_start r) →
  (∀ c, head l2 = Some c → fr_limit r + g ≤ fr_start c) →
  free_list_ok g (l1 ++ r :: l2).
Proof.
  intros (H1 & H2 & H3)%free_list_ok_app Hr Hg Hp Hc.
  apply free_list_ok_app. split; [done|]. split.
  - apply free_list_ok_cons. split; [done|]. split; [done|]. intros r2 Hr2.
    by apply (above_head g l2).
  - intros p r2 Hp' [->|Hr2]%elem_of_cons; [by apply (below_last g l1)|by apply H3].
Qed.

Lemma last_below g l1 p r : free_list_ok g (l1 ++ [p]) → last l1 = Some r → fr_below g r p.
Proof.
  intros (_&_&H)%free_list_ok_app Hl. apply H; [|by apply list_elem_of_singleton].
  apply last_Some in Hl as [l ->]. apply elem_of_app. right. by apply list_elem_of_singleton.
Qed.

Lemma head_below g c l2 r : free_list_ok g (c :: l2) → head l2 = Some r → fr_below g c r.
Proof.
  intros (_&_&H)%free_list_ok_cons Hl. apply H. destruct l2; simplify_eq/=. by left.
Qed.

Lemma inserted_ok g a l1 l2 l :
  0 ≤ g ≤ 1 → free_list_ok g (l1 ++ l2) → 0 ≤ a → a + PAGE_SIZE ≤ u64_max →
  a mod PAGE_SIZE = 0 → inserted a l1 l2 l → free_list_ok g l.
Proof.
  intros Hg Hl Ha Hlim Hal Hi.
  destruct Hi as [l1 p c l2 Hp Hc|l1 p l2 Hp Hc|l1 c l2 Hp Hc|l1 l2 Hp Hc].
  - rewrite <- app_assoc in Hl. apply free_list_ok_app in Hl as (H1 & H2 & H3).
    pose proof H2 as (Hpok & H2' & _)%free_list_ok_cons.
    pose proof H2' as (Hcok & H2'' & _)%free_list_ok_cons.
    destruct Hpok, Hcok. unfold fr_limit in *.
    apply free_list_ok_insert; [|constructor; unfold fr_limit; cbn; unfold PAGE_SIZE in *; lia|lia|..].
    + apply free_list_ok_app. split; [done|]. split; [done|]. intros r1 r2 Hr1 Hr2.
      apply H3; [done|]. by do 2 right.
    + intros r Hr. cbn. assert (fr_below g r p) as Hb; [|apply Hb].
      apply H3; [|by left]. apply last_Some in Hr as [k ->].
      apply elem_of_app. right. by left.
    + intros r Hr. pose proof (head_below _ _ _ _ H2' Hr) as Hb.
      unfold fr_below, fr_limit in *; cbn; unfold PAGE_SIZE in *; lia.
  - rewrite <- app_assoc in Hl. apply free_list_ok_app in Hl as (H1 & H2 & H3).
    pose proof H2 as (Hpok & H2' & _)%free_list_ok_cons.
    destruct Hpok. unfold fr_limit in *.
    apply free_list_ok_insert; [|constructor; unfold fr_limit; cbn; unfold PAGE_SIZE in *; lia|lia|..].
    + apply free_list_ok_app. split; [done|]. split; [done|]. intros r1 r2 Hr1 Hr2.
      apply H3; [done|]. by right.
    + intros r Hr. cbn. assert (fr_below g r p) as Hb; [|apply Hb].
      apply H3; [|by left]. apply last_Some in Hr as [k ->].
      apply elem_of_app. right. by left.
    + intros r Hr. specialize (Hc r Hr).
      unfold fr_below, fr_limit in *; cbn; unfold PAGE_SIZE in *; lia.
  - apply free_list_ok_app in Hl as (H1 & H2 & H3).
    pose proof H2 as (Hcok & H2' & _)%free_list_ok_cons. destruct Hcok. unfold fr_limit in *.
    apply free_list_ok_insert; [|constructor; unfold fr_limit; cbn; unfold PAGE_SIZE in *; lia|lia|..].
    + apply free_list_ok_app. split; [done|]. split; [done|]. intros r1 r2 Hr1 Hr2.
      apply H3; [done|]. by right.
    + intros r Hr. specialize (Hp r Hr). cbn. unfold fr_limit in *. lia.
    + intros r Hr. pose proof (head_below _ _ _ _ H2 Hr) as Hb.
      unfold fr_below, fr_limit in *; cbn; unfold PAGE_SIZE in *; lia.
  - apply free_list_ok_insert; [done|constructor; unfold fr_limit; cbn; unfold PAGE_SIZE in *; lia|lia|..].
    + intros r Hr. specialize (Hp r Hr). cbn. unfold fr_limit in *. lia.
    + intros r Hr. specialize (Hc r Hr).
      unfold fr_limit in *; cbn; unfold PAGE_SIZE in *; lia.
Qed.

Lemma previous_spec arr n l1 l2 :
  buffer_repr MAX_FREE_RANGES arr n (l1 ++ l2) → previous arr (length l1) = Ok (last l1).
Proof.
  intros Hb. destruct l1 as [|p l1 _] using rev_ind; [done|].
  rewrite length_app, Nat.add_1_r, last_snoc. simpl.
  rewrite (buffer_get _ _ _ _ (length l1) p Hb); [done|].
  rewrite lookup_app_l by (rewrite length_app; simpl; lia).
  by rewrite lookup_app_r, Nat.sub_diag by lia.
Qed.

Lemma current_spec arr n l1 l2 :
  buffer_repr MAX_FREE_RANGES arr n (l1 ++ l2) → current arr n (length l1) = Ok (head l2).
Proof.
  intros Hb. destruct (buffer_repr_length _ _ _ _ Hb) as [-> _]. unfold current.
  rewrite length_app. destruct l2 as [|c l2]; simpl.
  - by rewrite (proj2 (Nat.ltb_ge _ _)) by lia.
  - rewrite (proj2 (Nat.ltb_lt _ _)) by lia.
    rewrite (buffer_get _ _ _ _ (length l1) c Hb); [done|].
    by rewrite lookup_app_r, Nat.sub_diag by lia.
Qed.

Lemma grow_up_spec s l1 p l2 :
  buffer_repr MAX_FREE_RANGES (ranges s) (range_count s) ((l1 ++ [p]) ++ l2) →
  free_list_ok 0 ((l1 ++ [p]) ++ l2) → fr_limit p + PAGE_SIZE ≤ u64_max →
  (∀ c, head l2 = Some c → fr_limit p + PAGE_SIZE ≤ fr_start c) →
  ∃ s' l, release_grow_up (length (l1 ++ [p])) p (head l2) s = (Ok tt, s') ∧
    with_live s l s' ∧ inserted (fr_limit p) (l1 ++ [p]) l2 l.
Proof.
  intros Hb Hok Hlim Hc. rewrite <- app_assoc in Hb, Hok. simpl in Hb, Hok.
  apply free_list_ok_app in Hok as (_ & Hok & _).
  apply free_list_ok_cons in Hok as ([? ? _ ?] & Hok2 & _).
  unfold fr_limit, PAGE_SIZE in Hlim.
  unfold release_grow_up. unfold_monad. cbn beta iota zeta.
  rewrite checked_add_Some by (unfold is_u64; lia). cbn beta iota zeta.
  rewrite length_app, Nat.add_sub. simpl length.
  set (p' := mkFree (fr_start p) (fr_frames p + 1)).
  destruct (update_spec _ _ _ _ p' Hb) as (arr & -> & Hb'). cbn beta iota zeta.
  assert (fr_end p' = fr_limit p + PAGE_SIZE) as Hend.
  { rewrite fr_end_limit; [unfold fr_limit, PAGE_SIZE; simpl; lia|].
    constructor; unfold fr_limit, PAGE_SIZE; simpl; done || lia. }
  destruct l2 as [|c l2]; cbn [head].
  - exists (set_ranges arr s), (l1 ++ [p']). split; [done|]. split; [done|].
    by apply ins_grow_up.
  - specialize (Hc c eq_refl). rewrite Hend.
    apply free_list_ok_cons in Hok2 as ([? ? Hcl ?] & _). unfold fr_limit, PAGE_SIZE in Hcl.
    destruct (Z.eqb_spec (fr_limit p + PAGE_SIZE) (fr_start c)) as [He|He].
    + cbn [fr_frames fr_start p'].
      rewrite checked_add_Some by (unfold is_u64, fr_limit, PAGE_SIZE in *; lia).
      cbn beta iota zeta.
      destruct (update_spec (set_ranges arr s) _ _ _
        (mkFree (fr_start p) (fr_frames p + 1 + fr_frames c)) Hb') as (arr2 & Ha2 & Hb2).
      cbn in Ha2. rewrite Ha2.
      rewrite cons_middle, app_assoc in Hb2.
      destruct (remove_range_spec (set_ranges arr2 s) _ _ _ Hb2) as (s' & Hr & Hw).
      rewrite length_app in Hr. cbn [length] in Hr |- *. rewrite Hr.
      eexists s', _. split; [done|]. split; [exact Hw|]. rewrite <- app_assoc. by constructor.
    + exists (set_ranges arr s), (l1 ++ p' :: c :: l2). split; [done|]. split; [done|].
      apply ins_grow_up; [done|]. intros ? [= <-]. lia.
Qed.

Lemma grow_down_spec s l1 c l2 :
  buffer_repr MAX_FREE_RANGES (ranges s) (range_count s) (l1 ++ c :: l2) → free_ok c →
  ∃ s', release_grow_down (fr_start c - PAGE_SIZE) (length l1) c s = (Ok tt, s') ∧
    with_live s (l1 ++ mkFree (fr_start c - PAGE_SIZE) (fr_frames c + 1) :: l2) s'.
Proof.
  intros Hb [? ? Hcl ?]. unfold fr_limit, PAGE_SIZE in Hcl.
  unfold release_grow_down. unfold_monad. cbn beta iota zeta.
  rewrite checked_add_Some by (unfold is_u64; lia). cbn beta iota zeta.
  destruct (update_spec _ _ _ _ (mkFree (fr_start c - PAGE_SIZE) (fr_frames c + 1)) Hb)
    as (arr & -> & Hb'). cbn beta iota zeta.
  eexists. split; [done|]. by split.
Qed.

Lemma release_new_spec s l1 l2 a :
  buffer_repr MAX_FREE_RANGES (ranges s) (range_count s) (l1 ++ l2) →
  range_count s ≠ MAX_FREE_RANGES →
  ∃ s', release_new a (length l1) s = (Ok tt, s') ∧ with_live s (l1 ++ mkFree a 1 :: l2) s'.
Proof.
  intros Hb Hne. destruct (buffer_repr_length _ _ _ _ Hb) as [Hn Hle].
  pose proof Hb as (Harr & _). rewrite length_app in Hn, Hle.
  unfold release_new. unfold_monad. cbn beta iota zeta.
  rewrite (proj2 (Nat.eqb_neq _ _)) by done.
  destruct (shift_up_spec (ranges s) (length l1) (range_count s)) as (arr & -> & Hlen & Hj);
    [lia..|]. cbn beta iota zeta.
  rewrite array_set_ok by lia. cbn beta iota zeta.
  eexists. split; [done|]. split; [|done]. cbn.
  apply buffer_eq; [rewrite length_insert; lia|rewrite length_app; simpl; lia|lia|].
  intros j Hjn. destruct (decide (j = length l1)) as [->|Hne'].
  - rewrite list_lookup_insert_eq by lia. by rewrite lookup_app_r, Nat.sub_diag by lia.
  - rewrite list_lookup_insert_ne, Hj by lia. destruct (decide (length l1 < j)%nat).
    + rewrite decide_True by lia. rewrite (buffer_lookup _ _ _ _ _ Hb) by lia.
      rewrite !lookup_app_r by lia.
      by replace (j - length l1)%nat with (S (j - 1 - length l1)) by lia.
    + rewrite decide_False by lia. rewrite (buffer_lookup _ _ _ _ _ Hb) by lia.
      by rewrite !lookup_app_l by lia.
Qed.

(** The check against [managed] accepts exactly the managed frames. *)
Lemma managed_check l a : Forall free_ok l → is_u64 a → a mod PAGE_SIZE = 0 →
  existsb (λ range, (fr_start range <=? a) && (saturating_add a PAGE_SIZE <=? fr_end range)) l
  = bool_decide (a ∈ addrs l).
Proof.
  intros Hl Ha Hal. apply eq_true_iff_eq. rewrite bool_decide_eq_true, elem_of_addrs by done.
  rewrite existsb_exists. rewrite Forall_forall in Hl. unfold is_u64 in Ha.
  split; intros (r & Hr & Hb); exists r.
  - apply list_elem_of_In in Hr. split; [done|].
    rewrite fr_end_limit in Hb by auto. destruct (Hl r Hr) as [? ? ? Hs].
    apply andb_true_iff in Hb as [?%Z.leb_le ?%Z.leb_le].
    unfold saturating_add, is_u64, PAGE_SIZE in *. split; [|done]. Z.div_mod_to_equations. lia.
  - split; [by apply list_elem_of_In|]. rewrite fr_end_limit by auto.
    pose proof (fr_limit_aligned r (Hl r Hr)). destruct (Hl r Hr) as [? ? ? Hs].
    apply andb_true_iff. rewrite !Z.leb_le.
    unfold saturating_add, PAGE_SIZE in *. Z.div_mod_to_equations. lia.
Qed.

Lemma free_list_ok_Forall g l : free_list_ok g l → Forall free_ok l.
Proof. by intros [? _]. Qed.

(** A managed frame ends inside the address space. *)
Lemma managed_limit s a :
  free_list_ok 0 (fa_managed s) → a ∈ managed_addrs s → a + PAGE_SIZE ≤ u64_max.
Proof.
  intros [Hman _] (r & Hr & Hbnd & Hal)%elem_of_addrs; [|done].
  rewrite Forall_forall in Hman. pose proof (fr_limit_aligned r (Hman r Hr)).
  destruct (Hman r Hr) as [? ? ? ?]. unfold PAGE_SIZE in *. Z.div_mod_to_equations. lia.
Qed.

Lemma length_free_bound g s : 0 ≤ g → free_list_ok g (fa_live s) →
  Z.of_nat (length (free_addrs s)) * PAGE_SIZE ≤ u64_max.
Proof.
  intros Hg Hl. pose proof (length_addrs_bound g _ Hg Hl 0) as H.
  destruct Hl as [Hl _]. rewrite Forall_forall in Hl. apply H; [lia|].
  intros r Hr. by destruct (Hl r Hr).
Qed.

Lemma with_live_wf g s s' l a l1 l2 :
  0 ≤ g ≤ 1 → fa_wf g s → fa_live s = l1 ++ l2 → inserted a l1 l2 l → with_live s l s' →
  is_u64 a → a mod PAGE_SIZE = 0 → a ∈ managed_addrs s →
  let s2 := set_free_frames (saturating_add (free_frames s') 1) s' in
  fa_wf g s2 ∧ fa_live s2 = l ∧ free_addrs s2 = addrs l1 ++ a :: addrs l2 ∧
  managed_addrs s2 = managed_addrs s ∧ free_frames s2 = free_frames s + 1.
Proof.
  intros Hg [Hb Hmb Hlive Hman Hincl Htot Hfree] Hl Hi Hw Ha Hal Hin s2.
  pose proof Hw as (Hb' & Hm & Hmc & Ht & Hf). pose proof (with_live_live _ _ _ Hw) as Hl'.
  rewrite Hl in Hlive.
  assert (free_addrs s2 = addrs l1 ++ a :: addrs l2) as Haddrs.
  { unfold free_addrs. change (fa_live s2) with (fa_live s'). rewrite Hl'.
    apply inserted_addrs; [|done]. by eapply free_list_ok_Forall. }
  pose proof (managed_limit s a Hman Hin) as Hal2.
  pose proof (inserted_ok g a l1 l2 l Hg Hlive ltac:(unfold is_u64 in Ha; lia) Hal2 Hal Hi) as Hok.
  assert (fa_managed s2 = fa_managed s) as Hman2.
  { unfold fa_managed. cbn. by rewrite Hm, Hmc. }
  assert (free_frames s2 = free_frames s + 1) as Hff.
  { cbn. rewrite Hf. unfold saturating_add. pose proof (length_free_bound g s) as Hlen.
    rewrite Hl in Hlen. rewrite Hfree. specialize (Hlen ltac:(lia) Hlive).
    unfold PAGE_SIZE in *. lia. }
  split_and!; [|done|done|by unfold managed_addrs; rewrite Hman2|done].
  constructor.
  - change (fa_live s2) with (fa_live s'). rewrite Hl'. done.
  - rewrite Hman2. cbn. by rewrite Hm, Hmc.
  - change (fa_live s2) with (fa_live s'). by rewrite Hl'.
  - by rewrite Hman2.
  - rewrite Haddrs. unfold managed_addrs. rewrite Hman2.
    unfold free_addrs in Hincl. rewrite Hl, addrs_app in Hincl.
    intros x. rewrite elem_of_app, elem_of_cons. specialize (Hincl x).
    rewrite elem_of_app in Hincl. intros [?|[->|?]]; [auto|done|auto].
  - unfold managed_addrs. rewrite Hman2. cbn. by rewrite Ht.
  - rewrite Hff, Hfree, Haddrs. unfold free_addrs. rewrite Hl, addrs_app, !length_app. simpl. lia.
Qed.

(** What [release_insert] leaves: the frame is entered, or there is no slot for it. *)
Lemma release_insert_spec s l1 l2 a :
  buffer_repr MAX_FREE_RANGES (ranges s) (range_count s) (l1 ++ l2) →
  free_list_ok 0 (l1 ++ l2) → a + PAGE_SIZE ≤ u64_max →
  (∀ p, last l1 = Some p → fr_limit p ≤ a) →
  (∀ c, head l2 = Some c → a + PAGE_SIZE ≤ fr_start c) →
  (range_count s = MAX_FREE_RANGES ∧ isolated a l1 l2 ∧
    release_insert a (length l1) (last l1) (head l2) s = (Err FreeRangeStorageFull, s)) ∨
  ∃ s' l, release_insert a (length l1) (last l1) (head l2) s = (Ok tt, s') ∧
    with_live s l s' ∧ inserted a l1 l2 l.
Proof.
  intros Hb Hok Hlim Hp Hc. unfold release_insert.
  replace (saturating_add a PAGE_SIZE) with (a + PAGE_SIZE) by (unfold saturating_add; lia).
  pose proof (free_list_ok_Forall _ _ Hok) as Hall. rewrite Forall_app in Hall.
  destruct Hall as [Hall1 Hall2].
  assert (∀ p, last l1 = Some p → fr_end p = fr_limit p) as Hend.
  { intros p [k ->]%last_Some. rewrite Forall_app, Forall_singleton in Hall1.
    apply fr_end_limit, Hall1. }
  destruct (ends_at (last l1) a) as [p|] eqn:Hea.
  { right. unfold ends_at in Hea. destruct (last l1) as [p'|] eqn:Hlast; [|done]. simpl in Hea.
    rewrite Hend in Hea by done.
    destruct (Z.eqb_spec (fr_limit p') a) as [Heq|]; [injection Hea as ->|done].
    apply last_Some in Hlast as [k ->]. subst a.
    destruct (grow_up_spec s k p l2) as (s' & l & ? & ? & ?); eauto. }
  assert (∀ p, last l1 = Some p → fr_limit p < a) as Hp'.
  { intros p Hlast. unfold ends_at in Hea. rewrite Hlast in Hea. simpl in Hea.
    rewrite Hend in Hea by done. specialize (Hp p Hlast).
    destruct (Z.eqb_spec (fr_limit p) a); [done|lia]. }
  destruct (starts_at (head l2) (a + PAGE_SIZE)) as [c|] eqn:Hst; unfold starts_at in Hst.
  { right. destruct l2 as [|c' l2]; [done|]. simpl in Hst.
    destruct (Z.eqb_spec (a + PAGE_SIZE) (fr_start c')) as [Heq|]; [injection Hst as ->|done].
    apply Forall_cons in Hall2 as [Hcok _].
    destruct (grow_down_spec s l1 c l2 Hb Hcok) as (s' & Hs & Hw).
    replace (fr_start c - PAGE_SIZE) with a in Hs, Hw by lia.
    exists s', (l1 ++ mkFree a (fr_frames c + 1) :: l2). split_and!; [done..|by constructor]. }
  assert (isolated a l1 l2) as Hiso.
  { split; [done|]. intros c Hl2. rewrite Hl2 in Hst. simpl in Hst. specialize (Hc c Hl2).
    destruct (Z.eqb_spec (a + PAGE_SIZE) (fr_start c)); [done|lia]. }
  destruct (decide (range_count s = MAX_FREE_RANGES)) as [Hfull|Hroom].
  - left. unfold release_new. unfold_monad. cbn beta iota zeta.
    by rewrite (proj2 (Nat.eqb_eq _ _)).
  - right. destruct (release_new_spec s l1 l2 a Hb Hroom) as (s' & ? & ?).
    exists s', (l1 ++ mkFree a 1 :: l2). destruct Hiso. split_and!; [done..|by constructor].
Qed.

(** Every branch of [release]. *)
Lemma release_cases g s a : fa_wf g s → 0 ≤ g ≤ 1 → is_u64 a →
  (a ∈ managed_addrs s ∧ (a ∉ free_addrs s) ∧ (∃ l1 l2, fa_live s = l1 ++ l2 ∧
     ((range_count s = MAX_FREE_RANGES ∧ isolated a l1 l2 ∧
       fa_release a s = (Err FreeRangeStorageFull, s)) ∨
      ∃ s', fa_release a s = (Ok tt, s') ∧ inserted a l1 l2 (fa_live s') ∧ fa_wf g s' ∧
        free_addrs s' = addrs l1 ++ a :: addrs l2 ∧
        managed_addrs s' = managed_addrs s ∧ free_frames s' = free_frames s + 1))) ∨
  (((a ∉ managed_addrs s) ∨ a ∈ free_addrs s) ∧ fa_release a s = (Err InvalidAddress, s)).
Proof.
  intros Hwf Hg Ha. pose proof Hwf as [Hb Hmb Hlive Hman Hincl _ _].
  unfold fa_release. unfold_monad. cbn beta iota zeta.
  destruct (is_multiple_of a PAGE_SIZE) eqn:Hal; cbn [negb].
  2:{ right. split; [left|done]. intros Hin. apply elem_of_addrs in Hin as (_&_&_&Hin); [|apply Hman].
      apply is_multiple_of_spec in Hin; [congruence|done]. }
  apply is_multiple_of_spec in Hal; [|done].
  change (take (managed_count s) (managed s)) with (fa_managed s).
  rewrite managed_check by (done || by eapply free_list_ok_Forall).
  case_bool_decide as Hin; cbn [negb]; [|right; split; [by left|done]].
  change (addrs (fa_managed s)) with (managed_addrs s) in Hin.
  pose proof (buffer_repr_length _ _ _ _ Hb) as [Hc _].
  destruct (release_scan_spec (ranges s) (range_count s) [] (fa_live s) a) as
    (l1 & l2 & Hl & Hl1 & Hl2 & Hscan); [done|].
  rewrite <- Hc in Hscan. change (length (A:=FreeRange) []) with 0%nat in Hscan.
  rewrite app_nil_l in Hscan. rewrite Hscan. cbn beta iota zeta. rewrite Hl in Hb, Hlive.
  rewrite (previous_spec _ _ _ _ Hb). cbn beta iota zeta.
  rewrite (current_spec _ _ _ _ Hb). cbn beta iota zeta.
  pose proof (free_list_ok_weaken g _ ltac:(lia) Hlive) as Hlive0.
  pose proof (free_list_ok_Forall _ _ Hlive) as Hok.
  pose proof (free_list_ok_app 0 l1 l2) as [Happ _].
  destruct (Happ Hlive0) as (Hlo & Hhi & _). clear Happ.
  assert (a + PAGE_SIZE ≤ u64_max) as Hlim by (by eapply managed_limit).
  assert (saturating_add a PAGE_SIZE = a + PAGE_SIZE) as Hsat by (unfold saturating_add; lia).
  rewrite !Hsat.
  assert (∀ r, r ∈ l1 ++ l2 → fr_start r ≤ a < fr_limit r → a ∈ free_addrs s) as Hfree.
  { intros r Hr Hbnd. apply elem_of_addrs; [by rewrite Hl|]. rewrite Hl. eauto. }
  assert (∀ p, last l1 = Some p → p ∈ l1 ++ l2 ∧ p ∈ l1) as Hlast.
  { intros p [k ->]%last_Some. rewrite !elem_of_app, list_elem_of_singleton. auto. }
  assert (∀ c, head l2 = Some c → c ∈ l1 ++ l2 ∧ c ∈ l2) as Hhead.
  { intros c Hc2. destruct l2; simplify_eq/=. rewrite elem_of_app, elem_of_cons. auto. }
  rewrite Forall_forall in Hl1, Hok. clear Hmb Hman Hincl.
  destruct (from_option _ false (last l1)) eqn:Hprev.
  { right. split; [right|done]. destruct (last l1) as [p|]; [|done]. simpl in Hprev.
    destruct (Hlast p eq_refl) as [Hp Hp1]. rewrite fr_end_limit in Hprev by auto.
    apply (Hfree p); [done|]. specialize (Hl1 p Hp1). lia. }
  assert (∀ p, last l1 = Some p → fr_limit p ≤ a) as Hprev'.
  { intros p Hp. rewrite Hp in Hprev. simpl in Hprev.
    rewrite fr_end_limit in Hprev by (by apply Hok, Hlast). lia. }
  destruct (from_option _ false (head l2)) eqn:Hcur.
  { right. split; [right|done]. destruct (head l2) as [c|]; [|done]. simpl in Hcur.
    destruct (Hhead c eq_refl) as [Hc1 Hc2]. specialize (Hl2 c eq_refl).
    destruct (Hok c Hc1) as [? ? ? Hcal]. apply (Hfree c); [done|]. unfold fr_limit, PAGE_SIZE in *.
    Z.div_mod_to_equations. lia. }
  assert (∀ c, head l2 = Some c → a + PAGE_SIZE ≤ fr_start c) as Hcur'.
  { intros c Hc2. rewrite Hc2 in Hcur. simpl in Hcur. lia. }
  left. split; [done|]. split.
  { unfold free_addrs. rewrite Hl, elem_of_addrs by (by apply Forall_forall).
    intros (r & [Hr|Hr]%elem_of_app & Hbnd & _).
    - pose proof (below_last 0 l1 a Hlo ltac:(intros; rewrite Z.add_0_r; auto) ltac:(lia) r Hr). lia.
    - pose proof (above_head 0 l2 (a + PAGE_SIZE) Hhi
        ltac:(intros; rewrite Z.add_0_r; auto) ltac:(lia) r Hr). unfold PAGE_SIZE in *. lia. }
  exists l1, l2. split; [done|].
  destruct (release_insert_spec s l1 l2 a Hb Hlive0 Hlim Hprev' Hcur')
    as [(Hn & Hiso & ->)|(s' & l & -> & Hw & Hi)].
  - left. by split_and!.
  - right. destruct (with_live_wf g s s' l a l1 l2) as (? & Hl' & ?); [done..|].
    eexists. split; [done|]. by rewrite Hl'.
Qed.

(** ** Taking frames from a range *)

(** The free list that is left when [n] frames of [r] are taken. *)
Definition shrunk (l1 : list FreeRange) (r : FreeRange) (n : Z) (l2 : list FreeRange) :
    list FreeRange :=
  if fr_frames r - n =? 0 then l1 ++ l2
  else l1 ++ mkFree (fr_start r + n * PAGE_SIZE) (fr_frames r - n) :: l2.

Lemma shrunk_addrs l1 r n l2 : 0 ≤ n ≤ fr_frames r →
  ∃ rest, addrs (shrunk l1 r n l2) = addrs l1 ++ rest ∧
    addrs (l1 ++ r :: l2) = addrs l1 ++ frames_at (fr_start r) n ++ rest.
Proof.
  intros Hn. unfold shrunk.
  exists (frames_at (fr_start r + PAGE_SIZE * n) (fr_frames r - n) ++ addrs l2). split.
  - destruct (Z.eqb_spec (fr_frames r - n) 0) as [->|_].
    + by rewrite addrs_app.
    + rewrite addrs_app, addrs_cons. unfold frames_of. simpl. by rewrite (Z.mul_comm n).
  - rewrite addrs_app, addrs_cons. unfold frames_of.
    rewrite (app_assoc (frames_at _ n)), <- frames_at_app by lia. do 3 f_equal. lia.
Qed.

Lemma shrunk_ok g l1 r n l2 : 0 ≤ n ≤ fr_frames r → free_list_ok g (l1 ++ r :: l2) →
  free_list_ok g (shrunk l1 r n l2).
Proof.
  intros Hn (H1 & (Hr & H2 & H2')%free_list_ok_cons & H3)%free_list_ok_app. unfold shrunk.
  destruct (Z.eqb_spec (fr_frames r - n) 0) as [_|Hne]; apply free_list_ok_app.
  - split; [done|]. split; [done|]. intros. apply H3; [done|by right].
  - split; [done|]. split.
    + apply free_list_ok_cons. split; [|split; [done|]].
      * destruct Hr. unfold fr_limit, PAGE_SIZE in *.
        constructor; unfold fr_limit, PAGE_SIZE; cbn; try lia. by rewrite Z_mod_plus_full.
      * intros r2 Hr2. specialize (H2' r2 Hr2). unfold fr_below, fr_limit, PAGE_SIZE in *. cbn. lia.
    + intros r1 r2 Hr1 [->|Hr2]%elem_of_cons; [|apply H3; [done|by right]].
      specialize (H3 r1 r Hr1 ltac:(by left)). destruct Hr.
      unfold fr_below, fr_limit, PAGE_SIZE in *. cbn. lia.
Qed.

(** The state after [n] frames of [r] were taken. *)
Lemma taken_wf g s s' l1 r n l2 :
  0 ≤ g → fa_wf g s → fa_live s = l1 ++ r :: l2 → 0 ≤ n ≤ fr_frames r →
  with_live s (shrunk l1 r n l2) s' →
  let s2 := set_free_frames (free_frames s' - n) s' in
  n ≤ free_frames s' ∧ fa_wf g s2 ∧ fa_live s2 = shrunk l1 r n l2 ∧
  managed_addrs s2 = managed_addrs s ∧
  free_frames s2 = free_frames s - n.
Proof.
  intros Hg [Hb Hmb Hlive Hman Hincl Htot Hfree] Hl Hn Hw s2.
  pose proof Hw as (Hb' & Hm & Hmc & Ht & Hf). pose proof (with_live_live _ _ _ Hw) as Hl'.
  rewrite Hl in Hlive. change (fa_live s') with (fa_live s2) in Hl'.
  destruct (shrunk_addrs l1 r n l2 Hn) as (rest & Hrest & Hall).
  assert (fa_managed s2 = fa_managed s) as Hman2.
  { unfold fa_managed. cbn. by rewrite Hm, Hmc. }
  pose proof (length_frames_at (fr_start r) n ltac:(lia)) as Hlen.
  assert (free_frames s = Z.of_nat (length (addrs l1 ++ rest)) + n) as Hcount.
  { rewrite Hfree. unfold free_addrs. rewrite Hl, Hall, !length_app. lia. }
  split; [lia|]. split; [|unfold managed_addrs; rewrite Hman2; split_and!; [done..|cbn; lia]].
  constructor.
  - rewrite Hl'. done.
  - rewrite Hman2. cbn. by rewrite Hm, Hmc.
  - rewrite Hl'. by apply shrunk_ok.
  - by rewrite Hman2.
  - unfold free_addrs, managed_addrs in *. rewrite Hman2, Hl', Hrest.
    rewrite Hl, Hall in Hincl. intros x Hx. apply Hincl.
    apply elem_of_app in Hx as [Hx|Hx]; rewrite !elem_of_app; auto.
  - unfold managed_addrs. rewrite Hman2. cbn. by rewrite Ht.
  - unfold free_addrs. rewrite Hl', Hrest. cbn. lia.
Qed.

Lemma range_count_0 g s : fa_wf g s → range_count s = 0%nat ↔ fa_live s = [].
Proof.
  intros [Hb _ _ _ _ _ _]. destruct (buffer_repr_length _ _ _ _ Hb) as [-> _].
  split; [apply nil_length_inv|by intros ->].
Qed.

(** Every branch of [allocate]. *)
Lemma allocate_cases g s : fa_wf g s → 0 ≤ g →
  (free_addrs s = [] ∧ fa_allocate s = (Err OutOfMemory, s)) ∨
  ∃ a s', fa_allocate s = (Ok a, s') ∧ free_addrs s = a :: free_addrs s' ∧ fa_wf g s' ∧
    managed_addrs s' = managed_addrs s ∧ free_frames s' = free_frames s - 1 ∧
    (a + PAGE_SIZE ∈ free_addrs s' ∨ (range_count s' < MAX_FREE_RANGES)%nat).
Proof.
  intros Hwf Hg. pose proof (range_count_0 g s Hwf) as H0. pose proof Hwf as [Hb _ Hlive _ _ _ _].
  unfold fa_allocate. unfold_monad. cbn beta iota zeta.
  destruct (Nat.eqb_spec (range_count s) 0) as [Hc|Hc].
  { left. split; [|done]. unfold free_addrs. by rewrite (proj1 H0). }
  right. destruct (fa_live s) as [|r l2] eqn:Hl; [by destruct Hc; apply H0|].
  rewrite (buffer_get _ _ _ _ 0 r Hb) by done. cbn beta iota zeta.
  pose proof Hlive as ([? ? Hlim ?] & _)%free_list_ok_cons.
  rewrite checked_sub_Some by lia. cbn beta iota zeta.
  replace (saturating_add (fr_start r) PAGE_SIZE) with (fr_start r + 1 * PAGE_SIZE)
    by (unfold saturating_add, fr_limit, PAGE_SIZE in *; lia).
  destruct (update_spec s [] r l2 (mkFree (fr_start r + 1 * PAGE_SIZE) (fr_frames r - 1)) Hb)
    as (arr & Harr & Hb'). cbn [length] in Harr. rewrite Harr. cbn beta iota zeta.
  destruct (shrink_spec s [] l2 _ _ Hb') as (s' & Hs & Hw). cbn [length fr_frames] in Hs, Hw.
  unfold_monad. rewrite Hs. cbn beta iota zeta.
  assert (0 ≤ 1 ≤ fr_frames r) as Hn by lia.
  destruct (taken_wf g s s' [] r 1 l2 Hg Hwf Hl Hn Hw) as (Hff & Hwf' & Hl' & Hm & Hcnt).
  rewrite checked_sub_Some by done. cbn beta iota zeta.
  do 2 eexists. split; [done|]. split_and!; [|done..|].
  2:{ pose proof Hwf' as [Hb2 _ _ _ _ _ _]. destruct (buffer_repr_length _ _ _ _ Hb2) as [Hc2 _].
      rewrite Hc2. unfold free_addrs. rewrite Hl'. unfold shrunk.
      destruct (Z.eqb_spec (fr_frames r - 1) 0) as [_|?]; [right|left].
      - destruct (buffer_repr_length _ _ _ _ Hb) as [_ Hle]. simpl in *. lia.
      - simpl app. rewrite addrs_cons. apply elem_of_app. left. apply elem_of_frames_at.
        cbn [fr_start fr_frames]. unfold PAGE_SIZE.
        split; [lia|]. Z.div_mod_to_equations. lia. }
  destruct (shrunk_addrs [] r 1 l2 Hn) as (rest & Hrest & Hall).
  rewrite frames_at_one in Hall. unfold free_addrs. rewrite Hl', Hrest, Hl. exact Hall.
Qed.

(** ** The search of [allocate_contiguous] *)

(** [i] is the last of the largest ranges among the first [n]. *)
Definition is_best (l : list FreeRange) (frames : Z) (best : option (nat * Z)) : Prop :=
  match best with
  | None => ∀ r, r ∈ l → fr_frames r < frames
  | Some (i, k) => ∃ r, l !! i = Some r ∧ fr_frames r = k ∧ frames ≤ k ∧
      (∀ j r', l !! j = Some r' → fr_frames r' ≤ k ∧ (fr_frames r' = k → (j ≤ i)%nat))
  end.

Lemma largest_search_spec arr n l frames :
  buffer_repr MAX_FREE_RANGES arr n l →
  ∃ best, foldM (largest_step arr frames) None (seq 0 n) = Ok best ∧ is_best l frames best.
Proof.
  intros Hb. destruct (buffer_repr_length _ _ _ _ Hb) as [Hn _].
  assert (∀ m, (m ≤ n)%nat → ∃ best, foldM (largest_step arr frames) None (seq 0 m) = Ok best ∧
    is_best (take m l) frames best) as H; [|rewrite <- (firstn_all l), <- Hn; by apply H].
  induction m as [|m IH]; intros Hm.
  { exists None. split; [done|]. intros r Hr. by apply not_elem_of_nil in Hr. }
  destruct IH as (best & Hfold & Hbest); [lia|].
  destruct (lookup_lt_is_Some_2 l m) as [r Hr]; [lia|].
  rewrite seq_S, foldM_app, Hfold. cbn [foldM mbind outcome_bind plus]. unfold largest_step at 1.
  rewrite (buffer_get _ _ _ _ m r Hb) by done. unfold_monad. cbn beta iota zeta.
  rewrite (take_S_r l m r Hr).
  assert (length (take m l) = m) as Hlen by (rewrite length_take; lia).
  assert (∀ j r', (take m l ++ [r]) !! j = Some r' →
    take m l !! j = Some r' ∨ j = m ∧ r' = r) as Hsnoc.
  { intros j r' [Hj|[Hge Hj]]%lookup_app_Some; [by left|right]. rewrite Hlen in *.
    apply list_lookup_singleton_Some in Hj as [? <-]. split; [lia|done]. }
  destruct (Z.leb_spec frames (fr_frames r)) as [Hle|Hgt].
  - destruct best as [[i k]|].
    + destruct Hbest as (r0 & Hr0 & Hk & Hfk & Hmax). pose proof (lookup_lt_Some _ _ _ Hr0).
      destruct (Z.leb_spec k (fr_frames r)) as [Hkr|Hkr]; eexists; (split; [done|]).
      * exists r. rewrite lookup_app_r, Hlen, Nat.sub_diag by lia. split_and!; [done..|].
        intros j r' [Hj|[-> ->]]%Hsnoc; [|lia].
        destruct (Hmax j r' Hj). apply lookup_lt_Some in Hj. lia.
      * exists r0. rewrite lookup_app_l by lia. split_and!; [done..|].
        intros j r' [Hj|[-> ->]]%Hsnoc; [by apply Hmax|lia].
    + eexists. split; [done|]. exists r. rewrite lookup_app_r, Hlen, Nat.sub_diag by lia.
      split_and!; [done..|]. intros j r' [Hj|[-> ->]]%Hsnoc; [|lia].
      apply list_elem_of_lookup_2, Hbest in Hj as ?. lia.
  - exists best. split; [done|]. destruct best as [[i k]|].
    + destruct Hbest as (r0 & Hr0 & Hk & Hfk & Hmax). exists r0.
      pose proof (lookup_lt_Some _ _ _ Hr0). rewrite lookup_app_l by lia.
      split_and!; [done..|]. intros j r' [Hj|[-> ->]]%Hsnoc; [by apply Hmax|lia].
    + intros r' [Hr'| ->%list_elem_of_singleton]%elem_of_app; [by apply Hbest|lia].
Qed.

Lemma largest_free_frames_spec s r :
  r ∈ fa_live s → fr_frames r ≤ fa_largest_free_frames s.
Proof.
  unfold fa_largest_free_frames. change (take _ _) with (fa_live s).
  induction (fa_live s) as [|r' l IH]; intros Hr; [by apply not_elem_of_nil in Hr|].
  simpl. apply elem_of_cons in Hr as [->|Hr]; [lia|]. specialize (IH Hr). lia.
Qed.

Lemma largest_free_frames_attained s :
  0 < fa_largest_free_frames s →
  ∃ r, r ∈ fa_live s ∧ fr_frames r = fa_largest_free_frames s.
Proof.
  unfold fa_largest_free_frames. change (take _ _) with (fa_live s).
  induction (fa_live s) as [|r' l IH]; simpl; [lia|]. intros Hpos.
  destruct (Z.max_spec (fr_frames r') (foldr (λ r n, Z.max (fr_frames r) n) 0 l))
    as [[Hlt Hmax]|[Hge Hmax]]; rewrite Hmax in *.
  - destruct (IH Hpos) as (r & Hr & ?). exists r. split; [by right|done].
  - exists r'. split; [by left|done].
Qed.

(** Every branch of [allocate_contiguous]. *)
Lemma allocate_contiguous_cases g s n : fa_wf g s → 0 ≤ g → 0 ≤ n →
  ((n = 0 ∨ fa_largest_free_frames s < n) ∧
    fa_allocate_contiguous n s = (Err OutOfMemory, s)) ∨
  ∃ i r s' rest, fa_allocate_contiguous n s
      = (Ok (mkPhysicalRange (fr_start r) (n * PAGE_SIZE)), s') ∧
    0 < n ≤ fa_largest_free_frames s ∧
    fa_live s !! i = Some r ∧ fr_frames r = fa_largest_free_frames s ∧
    fa_wf g s' ∧ managed_addrs s' = managed_addrs s ∧ free_frames s' = free_frames s - n ∧
    free_addrs s = addrs (take i (fa_live s)) ++ frames_at (fr_start r) n ++ rest ∧
    free_addrs s' = addrs (take i (fa_live s)) ++ rest.
Proof.
  intros Hwf Hg Hn. pose proof Hwf as [Hb _ Hlive _ _ _ _].
  unfold fa_allocate_contiguous.
  destruct (Z.eqb_spec n 0) as [->|Hn0]; [left; split; [by left|done]|].
  unfold_monad. cbn beta iota zeta.
  destruct (largest_search_spec _ _ _ n Hb) as (best & -> & Hbest). cbn beta iota zeta.
  destruct best as [[i k]|]; cbn beta iota zeta.
  2:{ left. split; [right|done]. simpl in Hbest.
      destruct (Z.lt_ge_cases 0 (fa_largest_free_frames s)) as [Hpos|]; [|lia].
      destruct (largest_free_frames_attained s Hpos) as (r & Hr & <-). by apply Hbest. }
  destruct Hbest as (r & Hi & Hk & Hnk & Hmax).
  assert (fr_frames r = fa_largest_free_frames s) as Hlargest.
  { pose proof (largest_free_frames_spec s r (list_elem_of_lookup_2 _ _ _ Hi)).
    destruct (largest_free_frames_attained s ltac:(lia)) as (r' & Hr' & He).
    apply list_elem_of_lookup_1 in Hr' as [j Hj]. destruct (Hmax j r' Hj). lia. }
  rewrite (buffer_get _ _ _ _ i r Hb Hi). cbn beta iota zeta.
  destruct (proj1 (Forall_lookup _ _) (free_list_ok_Forall _ _ Hlive) i r Hi) as [? ? Hlim ?].
  unfold fr_limit, PAGE_SIZE in Hlim.
  rewrite checked_mul_Some by (unfold is_u64, PAGE_SIZE; lia). cbn beta iota zeta.
  rewrite checked_add_Some by (unfold is_u64, PAGE_SIZE; lia). cbn beta iota zeta.
  rewrite checked_sub_Some by lia. cbn beta iota zeta.
  pose proof (take_drop_middle _ _ _ Hi) as Hl. symmetry in Hl.
  set (l1 := take i (fa_live s)) in *. set (l2 := drop (S i) (fa_live s)) in *.
  assert (length l1 = i) as Hlen.
  { subst l1. rewrite length_take. apply lookup_lt_Some in Hi. lia. }
  rewrite Hl in Hb. rewrite <- Hlen.
  destruct (update_spec s l1 r l2 (mkFree (fr_start r + n * PAGE_SIZE) (fr_frames r - n)) Hb)
    as (arr & -> & Hb'). cbn beta iota zeta.
  destruct (shrink_spec s l1 l2 _ _ Hb') as (s' & Hs & Hw). cbn [fr_frames] in Hs, Hw.
  unfold_monad. rewrite Hs. cbn beta iota zeta.
  assert (0 ≤ n ≤ fr_frames r) as Hnr by lia.
  destruct (taken_wf g s s' l1 r n l2 Hg Hwf Hl Hnr Hw) as (Hff & Hwf' & Hl' & Hm & Hcnt).
  rewrite checked_sub_Some by done. cbn beta iota zeta.
  destruct (shrunk_addrs l1 r n l2 Hnr) as (rest & Hrest & Hall).
  right. exists (length l1), r. eexists _, rest. split; [done|]. rewrite Hlen.
  split_and!; [lia|lia|done..| |].
  - unfold free_addrs. by rewrite Hl at 1.
  - unfold free_addrs. by rewrite Hl', Hrest.
Qed.

(** ** Consequences *)

(** The free list is kept in address order. *)
Lemma addrs_sorted g l : 0 ≤ g → free_list_ok g l → StronglySorted Z.lt (addrs l).
Proof.
  intros Hg. induction l as [|r l IH]; [constructor|].
  intros (H1 & H2 & H3)%free_list_ok_cons. rewrite addrs_cons, StronglySorted_app.
  split_and!; [| |auto].
  - intros x y Hx Hy. apply elem_of_frames_of in Hx; [|done].
    apply elem_of_addrs in Hy as (r2 & Hr2 & Hy & _); [|apply H2].
    specialize (H3 r2 Hr2). unfold fr_below in H3. lia.
  - unfold frames_of, frames_at. generalize 0. destruct H1 as [_ Hf _ _].
    revert Hf. generalize (fr_frames r). intros n Hn. rewrite <- (Z2Nat.id n) by lia.
    clear. induction (Z.to_nat n) as [|m IHm]; intros k; [constructor|].
    rewrite Nat2Z.inj_succ, seqZ_cons by lia. rewrite Z.pred_succ. cbn. constructor; [apply IHm|].
    apply Forall_fmap, Forall_forall. intros i [? _]%elem_of_seqZ. cbn. unfold PAGE_SIZE. lia.
Qed.

Lemma sorted_unique (l1 l2 : list Z) :
  StronglySorted Z.lt l1 → StronglySorted Z.lt l2 → l1 ≡ₚ l2 → l1 = l2.
Proof. apply StronglySorted_unique_strong. lia. Qed.

(** An isolated frame has no free neighbour. *)
Lemma isolated_neighbours l1 l2 a : free_list_ok 0 (l1 ++ l2) → a mod PAGE_SIZE = 0 →
  isolated a l1 l2 →
  (a - PAGE_SIZE ∉ addrs (l1 ++ l2)) ∧ (a + PAGE_SIZE ∉ addrs (l1 ++ l2)).
Proof.
  intros Hok Hal [Hp Hc]. pose proof Hok as (H1 & H2 & _)%free_list_ok_app.
  pose proof (free_list_ok_Forall _ _ Hok) as Hall.
  assert (∀ r, r ∈ l1 → fr_limit r < a) as Hlow.
  { intros r Hr. pose proof (below_last 0 l1 (a - 1) H1) as Hb.
    assert (fr_limit r + 0 ≤ a - 1); [|lia]. apply Hb; [|lia|done].
    intros p Hp'. specialize (Hp p Hp'). lia. }
  assert (∀ r, r ∈ l2 → a + PAGE_SIZE < fr_start r) as Hhigh.
  { intros r Hr. pose proof (above_head 0 l2 (a + PAGE_SIZE + 1) H2) as Hb.
    assert (a + PAGE_SIZE + 1 + 0 ≤ fr_start r); [|lia]. apply Hb; [|lia|done].
    intros c Hc'. specialize (Hc c Hc'). lia. }
  split; intros (r & Hr & Hb & _)%elem_of_addrs; try done;
    rewrite Forall_forall in Hall; pose proof (fr_limit_aligned r (Hall r Hr));
    apply elem_of_app in Hr as [Hr|Hr]; [specialize (Hlow r Hr)|specialize (Hhigh r Hr)|
      specialize (Hlow r Hr)|specialize (Hhigh r Hr)];
    unfold PAGE_SIZE in *; Z.div_mod_to_equations; lia.
Qed.

Lemma managed_aligned g s a : fa_wf g s → a ∈ managed_addrs s → a mod PAGE_SIZE = 0.
Proof.
  intros [_ _ _ Hman _ _ _] Ha. by apply elem_of_addrs in Ha as (_&_&_&?); [|apply Hman].
Qed.

(** ** Construction from the memory map *)

(** The ranges of the memory map that enter the free list. *)
Definition usable_range (r : MemoryRange) : option FreeRange :=
  if bool_decide (mr_kind r = Usable) && negb (mr_length r / PAGE_SIZE =? 0)
  then Some (mkFree (mr_start r) (mr_length r / PAGE_SIZE)) else None.
Definition usable_ranges (l : list MemoryRange) : list FreeRange := omap usable_range l.

Definition sum_frames (l : list FreeRange) : Z := foldr (λ r n, fr_frames r + n) 0 l.

Lemma sum_frames_app l1 l2 : sum_frames (l1 ++ l2) = sum_frames l1 + sum_frames l2.
Proof. induction l1 as [|r l1 IH]; simpl; [done|]. rewrite IH. lia. Qed.

Lemma length_addrs l : Forall free_ok l → Z.of_nat (length (addrs l)) = sum_frames l.
Proof.
  induction 1 as [|r l [_ Hf _ _] _ IH]; [done|]. rewrite addrs_cons, length_app.
  simpl sum_frames. pose proof (length_frames_at (fr_start r) (fr_frames r)). unfold frames_of. lia.
Qed.

(** The state of the loop of [new] after the ranges [l]. *)
Definition built (l : list FreeRange) (s : FrameAllocator) : Prop :=
  buffer_repr MAX_FREE_RANGES (ranges s) (range_count s) l ∧
  buffer_repr MAX_FREE_RANGES (managed s) (managed_count s) l ∧
  total_frames s = Z.min (sum_frames l) u64_max ∧ free_frames s = Z.min (sum_frames l) u64_max.

Lemma fa_new_step_spec s l r : built l s → 0 ≤ mr_length r →
  (length (l ++ omap usable_range [r]) ≤ MAX_FREE_RANGES)%nat → Forall (λ r, 0 ≤ fr_frames r) l →
  ∃ s', fa_new_step s r = Ok s' ∧ built (l ++ usable_ranges [r]) s'.
Proof.
  intros (Hb & Hm & Ht & Hf) Hr Hlen Hpos. unfold fa_new_step, usable_ranges. simpl omap.
  simpl omap in Hlen. rewrite length_app in Hlen. unfold usable_range in *.
  destruct (buffer_repr_length _ _ _ _ Hb) as [Hc Hle].
  destruct (buffer_repr_length _ _ _ _ Hm) as [Hc' _].
  assert (0 ≤ mr_length r / PAGE_SIZE) by (apply Z.div_pos; done).
  assert (0 ≤ sum_frames l) by (clear -Hpos; induction Hpos; simpl; lia).
  case_bool_decide as Hk; simpl.
  2:{ exists s. by rewrite app_nil_r. }
  destruct (Z.eqb_spec (mr_length r / PAGE_SIZE) 0) as [Hz|Hz]; simpl.
  { exists s. rewrite app_nil_r. by destruct (_ || _). }
  simpl in Hlen. rewrite (proj2 (Nat.eqb_neq (range_count s) _)) by lia.
  rewrite (proj2 (Nat.eqb_neq (managed_count s) _)) by lia. cbn [orb].
  destruct (buffer_push (E:=FrameError) _ _ _ _ (mkFree (mr_start r) (mr_length r / PAGE_SIZE)) Hb)
    as (arr & -> & Hb'); [lia|].
  destruct (buffer_push (E:=FrameError) _ _ _ _ (mkFree (mr_start r) (mr_length r / PAGE_SIZE)) Hm)
    as (arr2 & -> & Hm'); [lia|].
  eexists. split; [done|]. unfold built. cbn [ranges range_count managed managed_count total_frames free_frames].
  split; [done|]. split; [done|].
  rewrite sum_frames_app. cbn. rewrite Ht, Hf. unfold saturating_add. lia.
Qed.

Lemma fa_new_built l : Forall (λ r, 0 ≤ mr_length r) l →
  (length (usable_ranges l) ≤ MAX_FREE_RANGES)%nat →
  ∃ s, fa_new l = Ok s ∧ built (usable_ranges l) s.
Proof.
  induction l as [|r l IH] using rev_ind; intros Hl Hlen.
  { eexists. split; [done|]. split_and!; try done; apply buffer_repr_empty. }
  apply Forall_app in Hl as [Hl [Hr _]%Forall_cons].
  unfold usable_ranges in Hlen. rewrite omap_app, length_app in Hlen.
  destruct IH as (s & Hs & Hb); [done|unfold usable_ranges; lia|].
  unfold fa_new in *. rewrite foldM_app, Hs. cbn [foldM mbind outcome_bind].
  destruct (fa_new_step_spec s (usable_ranges l) r) as (s' & -> & Hb'); [done|done| | |].
  - rewrite length_app. unfold usable_ranges. lia.
  - apply Forall_forall. intros x Hx. unfold usable_ranges in Hx.
    apply list_elem_of_omap in Hx as (y & Hy & Hxy). rewrite Forall_forall in Hl.
    unfold usable_range in Hxy. case_match; simplify_eq/=. apply Z.div_pos; [by apply Hl|done].
  - exists s'. split; [done|]. unfold usable_ranges. by rewrite omap_app.
Qed.

(** What the firmware guarantees of the memory map, and what [new] needs. *)
Definition page_aligned (r : MemoryRange) : Prop :=
  mr_kind r = Usable → mr_start r mod PAGE_SIZE = 0.

Lemma usable_range_ok r f : range_ok r → page_aligned r → usable_range r = Some f →
  free_ok f ∧ fr_start f = mr_start r ∧ fr_limit f ≤ mr_end r ∧ mr_kind r = Usable.
Proof.
  unfold usable_range, range_ok, page_aligned. intros (? & ? & ?) Hal Hf.
  case_bool_decide as Hk; [|done]. destruct (Z.eqb_spec (mr_length r / PAGE_SIZE) 0); [done|].
  simplify_eq/=. specialize (Hal Hk). unfold mr_end, saturating_add.
  split_and!; [|done| |done]; [constructor|]; unfold fr_limit, PAGE_SIZE in *; simpl;
    done || (Z.div_mod_to_equations; lia).
Qed.

(** The usable ranges are in address order; other ranges may be anywhere, as
    a framebuffer that [add_external_range] appended is. *)
Definition usable_sorted (l : list MemoryRange) : Prop :=
  StronglySorted below (filter (λ r, mr_kind r = Usable) l).

Lemma usable_ranges_ok l : Forall range_ok l → Forall page_aligned l → usable_sorted l →
  free_list_ok 0 (usable_ranges l).
Proof.
  unfold usable_sorted. induction l as [|r l IH]; intros Hok Hal Hs; [split; constructor|].
  apply Forall_cons in Hok as [Hr Hok]. apply Forall_cons in Hal as [Har Hal].
  rewrite filter_cons in Hs. unfold usable_ranges. simpl.
  destruct (usable_range r) as [f|] eqn:Hf.
  2:{ apply IH; [done|done|]. case_decide; [by apply StronglySorted_inv in Hs as [? _]|done]. }
  destruct (usable_range_ok r f Hr Har Hf) as (Hfok & _ & Hlim & Hk).
  rewrite decide_True in Hs by done. apply StronglySorted_inv in Hs as [Hs Hb].
  specialize (IH Hok Hal Hs).
  apply free_list_ok_cons. split; [done|]. split; [done|]. intros f2 Hf2.
  apply list_elem_of_omap in Hf2 as (r2 & Hr2 & Hf2).
  rewrite Forall_forall in Hb, Hok, Hal.
  destruct (usable_range_ok r2 f2 (Hok r2 Hr2) (Hal r2 Hr2) Hf2) as (_ & ? & _ & Hk2).
  specialize (Hb r2 ltac:(by apply list_elem_of_filter)).
  unfold fr_below, below in *. lia.
Qed.

Lemma length_usable_ranges l : (length (usable_ranges l) ≤ length l)%nat.
Proof.
  unfold usable_ranges. induction l as [|r l IH]; [done|].
  cbn. change (list_omap _ _ usable_range l) with (omap usable_range l).
  destruct (usable_range r); cbn; lia.
Qed.

Lemma fa_new_wf l : Forall range_ok l → Forall page_aligned l → usable_sorted l →
  (length l ≤ MAX_FREE_RANGES)%nat →
  ∃ s, fa_new l = Ok s ∧ fa_wf 0 s ∧ fa_live s = usable_ranges l ∧
    fa_managed s = usable_ranges l.
Proof.
  intros Hok Hal Hs Hlen. pose proof (usable_ranges_ok l Hok Hal Hs) as Hfl.
  destruct (fa_new_built l) as (s & Hnew & Hb & Hm & Ht & Hf).
  { eapply Forall_impl; [exact Hok|]. intros r (_&?&_). lia. }
  { pose proof (length_usable_ranges l). lia. }
  exists s. split; [done|].
  assert (fa_live s = usable_ranges l) as Hl by apply Hb.
  assert (fa_managed s = usable_ranges l) as Hl' by apply Hm.
  pose proof (length_free_bound 0 s ltac:(lia) ltac:(by rewrite Hl)) as Hbound.
  pose proof (length_addrs (usable_ranges l) (free_list_ok_Forall _ _ Hfl)) as Hlen'.
  unfold free_addrs, PAGE_SIZE in Hbound. rewrite Hl in Hbound.
  split; [|done]. split.
  - by rewrite Hl.
  - by rewrite Hl'.
  - by rewrite Hl.
  - by rewrite Hl'.
  - unfold free_addrs, managed_addrs. by rewrite Hl, Hl'.
  - unfold managed_addrs. rewrite Hl', Ht, Hlen'. lia.
  - unfold free_addrs. rewrite Hl, Hf, Hlen'. lia.
Qed.

(** ** Runs of the allocator

    A run interleaves calls of the three operations; [held] are the frames
    handed out and not yet returned.  [release] may be called with any
    address. *)

Inductive fa_step : FrameAllocator * list Z → FrameAllocator * list Z → Prop :=
  | step_allocate s a s' held :
      fa_allocate s = (Ok a, s') → fa_step (s, held) (s', a :: held)
  | step_allocate_contiguous s n r s' held :
      0 ≤ n → fa_allocate_contiguous n s = (Ok r, s') →
      fa_step (s, held) (s', frames_at (pr_start r) (pr_length r / PAGE_SIZE) ++ held)
  | step_release s a s' held :
      is_u64 a → fa_release a s = (Ok tt, s') →
      fa_step (s, held) (s', filter (λ x, x ≠ a) held)
  | step_allocate_fails s e s' held :
      fa_allocate s = (Err e, s') → fa_step (s, held) (s', held)
  | step_allocate_contiguous_fails s n e s' held :
      0 ≤ n → fa_allocate_contiguous n s = (Err e, s') → fa_step (s, held) (s', held)
  | step_release_fails s a e s' held :
      is_u64 a → fa_release a s = (Err e, s') → fa_step (s, held) (s', held).

Inductive fa_steps : FrameAllocator * list Z → FrameAllocator * list Z → Prop :=
  | fa_steps_refl c : fa_steps c c
  | fa_steps_step c1 c2 c3 : fa_steps c1 c2 → fa_step c2 c3 → fa_steps c1 c3.

(** Every managed frame is free or held, and no frame is both. *)
Definition fa_inv (g : Z) (managed : list Z) (c : FrameAllocator * list Z) : Prop :=
  fa_wf g c.1 ∧ managed_addrs c.1 = managed ∧ managed ≡ₚ c.2 ++ free_addrs c.1.

Lemma NoDup_managed g s : fa_wf g s → NoDup (managed_addrs s).
Proof. intros [_ _ _ Hman _ _ _]. apply (NoDup_addrs 0); [lia|done]. Qed.

Lemma filter_remove (l : list Z) a : NoDup l → a ∈ l → l ≡ₚ a :: filter (λ x, x ≠ a) l.
Proof.
  intros Hnd Ha. apply list_elem_of_split in Ha as (l1 & l2 & ->).
  apply NoDup_app in Hnd as (_ & Hd & [Ha2 _]%NoDup_cons).
  assert (∀ l : list Z, a ∉ l → filter (λ x, x ≠ a) l = l) as Hid.
  { clear. induction l as [|x l IH]; intros Ha; [done|]. apply not_elem_of_cons in Ha as [? ?].
    rewrite filter_cons, decide_True by congruence. by rewrite IH. }
  rewrite filter_app, filter_cons, decide_False by (intros []; done).
  rewrite !Hid; [by rewrite Permutation_middle|done|].
  intros Ha1. apply (Hd a Ha1). by left.
Qed.

Lemma fa_step_inv g managed c c' : 0 ≤ g ≤ 1 →
  fa_inv g managed c → fa_step c c' → fa_inv g managed c'.
Proof.
  intros Hg (Hwf & <- & Hp) Hstep.
  destruct Hstep as [s a s' held H|s n r s' held Hn H|s a s' held Ha H|s e s' held H
    |s n e s' held Hn H|s a e s' held Ha H]; cbn [fst snd] in *.
  - destruct (allocate_cases g s Hwf) as [(_ & H')|(a' & s2 & H' & Hf & Hwf' & Hm' & _ & _)];
      [lia|rewrite H' in H; done|rewrite H' in H; simplify_eq].
    split; [done|]. split; [done|]. rewrite Hp, Hf. simpl.
    by rewrite Permutation_middle.
  - destruct (allocate_contiguous_cases g s n Hwf)
      as [(_ & H')|(i & r' & s2 & rest & H' & _ & _ & _ & Hwf' & Hm' & _ & Hf & Hf')];
      [lia|lia|rewrite H' in H; done|rewrite H' in H; simplify_eq].
    split; [done|]. split; [done|]. cbn [fst snd pr_start pr_length].
    rewrite Z_div_mult by (unfold PAGE_SIZE; lia). rewrite Hp, Hf, Hf'.
    by rewrite (app_assoc held), Permutation_app_swap_app, <- !app_assoc.
  - destruct (release_cases g s a Hwf Hg Ha) as
      [(Hin & Hnin & l1 & l2 & Hl & [(_&_&H')|(s2 & H' & _ & Hwf' & Hf' & Hm' & _)])|(_&H')];
      rewrite H' in H; simplify_eq.
    split; [done|]. split; [done|]. cbn [fst snd].
    pose proof (NoDup_managed g s Hwf) as Hnd. rewrite Hp in Hin, Hnd.
    apply elem_of_app in Hin as [Hin|]; [|done]. apply NoDup_app in Hnd as (Hnd & _ & _).
    rewrite Hp, (filter_remove held a Hnd Hin) at 1. rewrite Hf'.
    unfold free_addrs. rewrite Hl, addrs_app. simpl. by rewrite <- Permutation_middle, Permutation_middle.
  - destruct (allocate_cases g s Hwf) as [(_ & H')|(a' & s2 & H' & _)];
      [lia|rewrite H' in H; by simplify_eq|rewrite H' in H; by simplify_eq].
  - destruct (allocate_contiguous_cases g s n Hwf) as [(_ & H')|(i & r' & s2 & rest & H' & _)];
      [lia|lia|rewrite H' in H; by simplify_eq|rewrite H' in H; by simplify_eq].
  - destruct (release_cases g s a Hwf Hg Ha) as
      [(_ & _ & l1 & l2 & _ & [(_&_&H')|(s2 & H' & _)])|(_&H')];
      rewrite H' in H; by simplify_eq.
Qed.

Lemma fa_steps_inv g managed c c' : 0 ≤ g ≤ 1 →
  fa_inv g managed c → fa_steps c c' → fa_inv g managed c'.
Proof. intros Hg Hc. induction 1; eauto using fa_step_inv. Qed.

(** ** Properties *)

(** An address of a range of a map has the kind of that range. *)
Lemma kind_of_member l r x : StronglySorted disjoint_ranges l → r ∈ l →
  mr_start r ≤ x < mr_end r → kind_of l x = Some (mr_kind r).
Proof.
  intros Hs Hr Hx. induction l as [|r0 l IH]; [by apply not_elem_of_nil in Hr|].
  rewrite kind_of_cons. unfold mr_contains. apply StronglySorted_inv in Hs as [Hs Hb].
  apply elem_of_cons in Hr as [<-|Hr].
  - rewrite (proj2 (Z.leb_le _ _)), (proj2 (Z.ltb_lt _ _)) by lia. done.
  - rewrite Forall_forall in Hb. specialize (Hb r Hr). unfold disjoint_ranges in Hb.
    destruct (Z.leb_spec (mr_start r0) x), (Z.ltb_spec x (mr_end r0)); simpl; [lia|auto..].
Qed.

Lemma usable_addrs_kind l a x : Forall range_ok l → Forall page_aligned l →
  usable_sorted l → StronglySorted disjoint_ranges l →
  a ∈ addrs (usable_ranges l) → a ≤ x < a + PAGE_SIZE → kind_of l x = Some Usable.
Proof.
  intros Hok Hal Hs Hdis Ha Hx. pose proof (usable_ranges_ok l Hok Hal Hs) as [Hfl _].
  apply elem_of_addrs in Ha as (f & Hf & Hb & Ham); [|done].
  apply list_elem_of_omap in Hf as Hf'. destruct Hf' as (r & Hr & Hrf).
  rewrite Forall_forall in Hfl. pose proof (fr_limit_aligned f (Hfl f Hf)).
  pose proof (proj1 (Forall_forall _ _) Hok r Hr) as Hrok.
  pose proof (proj1 (Forall_forall _ _) Hal r Hr) as Hral.
  destruct (usable_range_ok r f Hrok Hral Hrf) as (_ & Hst & Hlim & Hk).
  rewrite (kind_of_member l r x); [by rewrite Hk|done..|].
  unfold PAGE_SIZE in *. Z.div_mod_to_equations. lia.
Qed.

(** C3. From a memory map whose usable ranges are sorted and page-aligned, no sequence of calls hands out
    a frame that is still held: the frames held and the frames free are, without
    repetition, the whole frames of the usable ranges, and every byte of a held
    frame is usable memory.  [release] may be called with any address. *)
Theorem frames_exclusive m s0 s held :
  ms_wf m → Forall page_aligned (ms_live m) → usable_sorted (ms_live m) →
  initialize (Some m) None = (Ok tt, Some s0) → fa_steps (s0, []) (s, held) →
  NoDup (held ++ free_addrs s) ∧
  held ++ free_addrs s ≡ₚ addrs (usable_ranges (ms_live m)) ∧
  (∀ a x, a ∈ held → a ≤ x < a + PAGE_SIZE → kind_at (Some m) x = Some Usable) ∧
  fa_wf 0 s.
Proof.
  intros [Hr Hok Hdis] Hal Hs Hinit Hsteps.
  destruct (fa_new_wf (ms_live m) Hok Hal Hs) as (s0' & Hnew & Hwf & Hl & Hm).
  { by destruct (buffer_repr_length _ _ _ _ Hr). }
  unfold initialize in Hinit. unfold_monad. rewrite Hnew in Hinit. simplify_eq/=.
  destruct (fa_steps_inv 0 (addrs (usable_ranges (ms_live m))) (s0, []) (s, held)) as (Hwf' & Hm' & Hp);
    [lia| |done|].
  { split; [done|]. cbn. unfold managed_addrs, free_addrs. by rewrite Hl, Hm. }
  cbn [fst snd] in *. split_and!; [|done| |done].
  - rewrite <- Hp, <- Hm'. by eapply NoDup_managed.
  - intros a x Ha Hx. apply (usable_addrs_kind (ms_live m) a x); [done..| |done].
    rewrite Hp. apply elem_of_app. by left.
Qed.

(** C7. [release] enters a frame into the free list exactly when it is a
    managed frame that is not free; a double free and a foreign or unaligned
    address are refused, and so is a frame without free neighbour when all 256
    slots are taken.  A refused call changes nothing.  With [g = 1] the free
    list also stays fully coalesced. *)
Theorem release_spec g s a r s' :
  fa_wf g s → 0 ≤ g ≤ 1 → is_u64 a → fa_release a s = (r, s') →
  match r with
  | Ok _ => (a ∈ managed_addrs s) ∧ (a ∉ free_addrs s) ∧
      free_addrs s' ≡ₚ a :: free_addrs s ∧ fa_wf g s' ∧
      managed_addrs s' = managed_addrs s ∧ free_frames s' = free_frames s + 1
  | Err InvalidAddress => ((a ∉ managed_addrs s) ∨ a ∈ free_addrs s) ∧ s' = s
  | Err FreeRangeStorageFull => (a ∈ managed_addrs s) ∧ (a ∉ free_addrs s) ∧
      range_count s = MAX_FREE_RANGES ∧
      (a - PAGE_SIZE ∉ free_addrs s) ∧ (a + PAGE_SIZE ∉ free_addrs s) ∧ s' = s
  | _ => False
  end.
Proof.
  intros Hwf Hg Ha Hrel. destruct (release_cases g s a Hwf Hg Ha) as
    [(Hin & Hnin & l1 & l2 & Hl & [(Hc&Hiso&H)|(s2 & H & _ & Hwf' & Hf & Hm & Hn)])|(Hbad&H)];
    rewrite H in Hrel; simplify_eq.
  - pose proof Hwf as [_ _ Hlive _ _ _ _]. rewrite Hl in Hlive.
    apply free_list_ok_weaken in Hlive; [|lia].
    destruct (isolated_neighbours l1 l2 a Hlive) as [H1 H2]; [by eapply managed_aligned|done|].
    unfold free_addrs in *. rewrite Hl. by rewrite Hl in Hnin.
  - split_and!; [done..| |done|done|done]. rewrite Hf. unfold free_addrs. rewrite Hl, addrs_app.
    by rewrite Permutation_middle.
  - done.
Qed.

(** C20. [allocate] takes the lowest free frame; it fails only when no frame is
    free, and then changes nothing. *)
Theorem allocate_spec g s r s' :
  fa_wf g s → 0 ≤ g → fa_allocate s = (r, s') →
  match r with
  | Ok a => free_addrs s = a :: free_addrs s' ∧ (∀ b, b ∈ free_addrs s → a ≤ b) ∧
      fa_wf g s' ∧ managed_addrs s' = managed_addrs s ∧ free_frames s' = free_frames s - 1
  | Err OutOfMemory => free_addrs s = [] ∧ s' = s
  | _ => False
  end.
Proof.
  intros Hwf Hg Halloc.
  destruct (allocate_cases g s Hwf Hg) as [(H1 & H)|(a & s2 & H & Hf & Hwf' & Hm & Hn & _)];
    rewrite H in Halloc; simplify_eq; [done|].
  split_and!; [done| |done..]. pose proof Hwf as [_ _ Hlive _ _ _ _].
  pose proof (addrs_sorted g _ Hg Hlive) as Hs. change (addrs (fa_live s)) with (free_addrs s) in Hs.
  rewrite Hf in *. apply StronglySorted_inv in Hs as [_ Hs]. rewrite Forall_forall in Hs.
  intros b [->|Hb]%elem_of_cons; [lia|]. specialize (Hs b Hb). lia.
Qed.

(** C21. [allocate_contiguous] succeeds exactly when one free range has room
    for the request, and then takes its frames, contiguous and page-aligned,
    from the start of a largest free range; it fails without effect otherwise. *)
Theorem allocate_contiguous_spec g s n r s' :
  fa_wf g s → 0 ≤ g → 0 ≤ n → fa_allocate_contiguous n s = (r, s') →
  match r with
  | Ok p => 0 < n ≤ fa_largest_free_frames s ∧ pr_length p = n * PAGE_SIZE ∧
      pr_start p mod PAGE_SIZE = 0 ∧
      (∃ f, f ∈ fa_live s ∧ fr_start f = pr_start p ∧
        fr_frames f = fa_largest_free_frames s) ∧
      free_addrs s ≡ₚ frames_at (pr_start p) n ++ free_addrs s' ∧
      fa_wf g s' ∧ managed_addrs s' = managed_addrs s ∧ free_frames s' = free_frames s - n
  | Err OutOfMemory => (n = 0 ∨ fa_largest_free_frames s < n) ∧ s' = s
  | _ => False
  end.
Proof.
  intros Hwf Hg Hn Halloc. destruct (allocate_contiguous_cases g s n Hwf Hg Hn)
    as [(H1 & H)|(i & f & s2 & rest & H & Hb & Hi & Hlf & Hwf' & Hm & Hc & Hf & Hf')];
    rewrite H in Halloc; simplify_eq; [done|]. cbn [pr_start pr_length].
  pose proof Hwf as [_ _ [Hall _] _ _ _ _].
  destruct (proj1 (Forall_lookup _ _) Hall i f Hi).
  split_and!; [lia|lia|done|done| | |done..].
  - exists f. split; [by eapply list_elem_of_lookup_2|done].
  - by rewrite Hf, Hf', Permutation_app_swap_app.
Qed.

(** A frame that was just allocated can always be given back, and then the
    free frames are as before. *)
Theorem allocate_release g s a s1 :
  fa_wf g s → 0 ≤ g ≤ 1 → fa_allocate s = (Ok a, s1) →
  ∃ s2, fa_release a s1 = (Ok tt, s2) ∧ fa_wf g s2 ∧ free_addrs s2 = free_addrs s ∧
    fa_stats s2 = mkStats (total_frames s) (free_frames s) (range_count s2).
Proof.
  intros Hwf Hg Halloc.
  destruct (allocate_cases g s Hwf ltac:(lia))
    as [(_ & H)|(a' & s1' & H & Hf & Hwf1 & Hm & Hn & Hroom)]; rewrite H in Halloc; simplify_eq.
  pose proof Hwf as [_ _ Hlive Hman Hincl Ht _].
  assert (a ∈ managed_addrs s) as Hin by (apply Hincl; rewrite Hf; by left).
  pose proof (managed_limit s a Hman Hin). pose proof (managed_aligned g s a Hwf Hin) as Hal.
  assert (is_u64 a) as Ha.
  { apply elem_of_addrs in Hin as (r & Hr & Hb & _); [|apply Hman].
    destruct Hman as [Hman _]. rewrite Forall_forall in Hman. destruct (Hman r Hr).
    unfold is_u64, PAGE_SIZE in *. lia. }
  pose proof (NoDup_addrs g _ ltac:(lia) Hlive) as Hnd.
  change (addrs (fa_live s)) with (free_addrs s) in Hnd. rewrite Hf in Hnd.
  apply NoDup_cons in Hnd as [Hnin _].
  destruct (release_cases g s1 a Hwf1 Hg Ha) as
    [(_ & _ & l1 & l2 & Hl & [(Hc&Hiso&_)|(s2 & Hr & _ & Hwf2 & Hf2 & Hm2 & Hn2)])|([Hbad|Hbad]&_)].
  - exfalso. pose proof Hwf1 as [_ _ Hlive1 _ _ _ _]. rewrite Hl in Hlive1.
    apply free_list_ok_weaken in Hlive1; [|lia].
    destruct (isolated_neighbours l1 l2 a Hlive1 Hal Hiso) as [_ H2].
    destruct Hroom as [Hroom|Hroom]; [|lia]. unfold free_addrs in Hroom. by rewrite Hl in Hroom.
  - exists s2. split; [done|]. split; [done|]. split.
    + pose proof Hwf2 as [_ _ Hlive2 _ _ _ _].
      apply sorted_unique; [by eapply addrs_sorted; [|done]; lia..|].
      rewrite Hf, Hf2. unfold free_addrs. rewrite Hl, addrs_app. by rewrite Permutation_middle.
    + unfold fa_stats. pose proof Hwf2 as [_ _ _ _ _ Ht2 _]. rewrite Ht2, Hm2, Hm, <- Ht, Hn2, Hn.
      f_equal. lia.
  - by rewrite Hm in Hbad.
  - done.
Qed.

(** ** What [new] does not check *)

Definition no_frames : FrameAllocator := mkFA [] 0 [] 0 0 0.

(** The allocator that [new] builds from a list of usable ranges. *)
Definition fa_of (l : list (Z * Z)) : FrameAllocator :=
  match fa_new ((λ '(start, length_), mkRange start length_ CONVENTIONAL Usable) <$> l) with
  | Ok s => s
  | _ => no_frames
  end.

(** A range that starts off a page boundary hands out an unaligned frame, which
    [release] then refuses: the frame is lost. *)
Lemma unaligned_range_leaks : ∃ s,
  fa_allocate (fa_of [(0x1800, 0x2000)]) = (Ok 0x1800, s) ∧
  fa_release 0x1800 s = (Err InvalidAddress, s).
Proof. eexists. by vm_compute. Qed.

(** When the map is not in address order, a free frame can be released again. *)
Lemma unsorted_map_double_free : ∃ s,
  fa_release 0x1000 (fa_of [(0x10000, 0x1000); (0x1000, 0x2000)]) = (Ok tt, s) ∧
  fst (fa_allocate s) = Ok 0x1000 ∧
  0x1000 ∈ addrs (fa_live (snd (fa_allocate s))).
Proof.
  eexists. split; [by vm_compute|]. split; [by vm_compute|].
  apply (bool_decide_unpack _). by vm_compute.
Qed.

(** ** Witnesses *)

Definition demo_fa : FrameAllocator := fa_of [(0x1000, 0x9000); (0x10000, 0x2000)].

Lemma demo_fa_wf : fa_wf 0 demo_fa.
Proof.
  destruct (fa_new_wf ((λ '(start, length_), mkRange start length_ CONVENTIONAL Usable) <$>
    [(0x1000, 0x9000); (0x10000, 0x2000)])) as (s & Hnew & Hwf & _).
  - repeat constructor; by vm_compute.
  - repeat constructor; by vm_compute.
  - unfold usable_sorted. cbn. apply SSorted_cons; [repeat constructor|]. apply Forall_singleton. by vm_compute.
  - vm_compute. lia.
  - unfold demo_fa, fa_of. by rewrite Hnew.
Qed.

Lemma demo_map_aligned : Forall page_aligned (ms_live demo_map).
Proof. repeat constructor; by vm_compute. Qed.

Lemma demo_map_sorted : usable_sorted (ms_live demo_map).
Proof.
  change (StronglySorted below [range_of (mkDescriptor CONVENTIONAL 0x1000 9)]).
  repeat constructor.
Qed.

(** Two frames are taken and one is given back. *)
Lemma frames_exclusive_witness : ∃ s0 s, fa_steps (s0, []) (s, [0x2000]) ∧
  NoDup (0x2000 :: free_addrs s) ∧ length (free_addrs s) = 8%nat.
Proof.
  pose (s0 := fa_of [(0x1000, 0x9000)]). pose (s1 := snd (fa_allocate s0)).
  pose (s2 := snd (fa_allocate s1)). pose (s3 := snd (fa_release 0x1000 s2)).
  assert (fa_steps (s0, []) (s3, [0x2000])) as Hsteps.
  { apply fa_steps_step with (s2, [0x2000; 0x1000]).
    - apply fa_steps_step with (s1, [0x1000]).
      + apply fa_steps_step with (s0, []); [constructor|]. constructor. by vm_compute.
      + constructor. by vm_compute.
    - apply (step_release s2 0x1000 s3 [0x2000; 0x1000]); by vm_compute. }
  exists s0, s3. split; [exact Hsteps|]. split; [|by vm_compute].
  apply (frames_exclusive demo_map s0 s3 [0x2000] demo_map_wf demo_map_aligned demo_map_sorted).
  - by vm_compute.
  - exact Hsteps.
Defined.

Lemma release_spec_witness :
  fa_release 0x1000 demo_fa = (Err InvalidAddress, demo_fa) ∧
  (∃ s', fa_release 0x1000 (snd (fa_allocate demo_fa)) = (Ok tt, s')).
Proof.
  split.
  - pose proof (release_spec 0 demo_fa 0x1000) as H.
    assert (fst (fa_release 0x1000 demo_fa) = Err InvalidAddress) as Hr by by vm_compute.
    destruct (fa_release 0x1000 demo_fa) as [r s']. simpl in Hr. subst r.
    destruct (H _ _ demo_fa_wf ltac:(lia) ltac:(done) eq_refl) as [_ ->]. done.
  - eexists. by vm_compute.
Defined.

Lemma allocate_spec_witness :
  free_addrs demo_fa = 0x1000 :: free_addrs (snd (fa_allocate demo_fa)).
Proof.
  apply (allocate_spec 0 demo_fa (Ok 0x1000) (snd (fa_allocate demo_fa)) demo_fa_wf); [lia|].
  by vm_compute.
Defined.

Lemma allocate_contiguous_spec_witness :
  pr_start (mkPhysicalRange 0x1000 0x3000) mod PAGE_SIZE = 0 ∧
  fa_wf 0 (snd (fa_allocate_contiguous 3 demo_fa)).
Proof.
  destruct (allocate_contiguous_spec 0 demo_fa 3 (Ok (mkPhysicalRange 0x1000 0x3000))
    (snd (fa_allocate_contiguous 3 demo_fa)) demo_fa_wf) as (_ & _ & H1 & _ & _ & H2 & _);
    [lia|lia|by vm_compute|]. done.
Defined.

Lemma allocate_release_witness : ∃ s2,
  fa_release 0x1000 (snd (fa_allocate demo_fa)) = (Ok tt, s2) ∧
  free_addrs s2 = free_addrs demo_fa.
Proof.
  destruct (allocate_release 0 demo_fa 0x1000 (snd (fa_allocate demo_fa)) demo_fa_wf)
    as (s2 & H1 & _ & H2 & _); [lia|by vm_compute|]. by exists s2.
Defined.
