(* ===== verification/Heap.v ===== *)
(** * Heap: the linked-list allocator of [src/allocator/mod.rs] over raw memory,
    and the selection of the heap region from the memory map. *)

From S2P Require Import Prelude Globals Memory Frame.

(** ** Data *)

Definition null : Z := 0.

(** [size_of::<FreeChunk>()] and [align_of::<FreeChunk>()]. *)
Definition SIZE_OF_FREE_CHUNK : Z := 16.
Definition ALIGN_OF_FREE_CHUNK : Z := 8.

(** The fields of the [FreeChunk] at an address. *)
Definition chunk_size (m : mem) (p : Z) : Z := read64 m p.
Definition chunk_next (m : mem) (p : Z) : Z := read64 m (p + 8).
Definition set_size (m : mem) (p v : Z) : mem := write64 m p v.
Definition set_next (m : mem) (p v : Z) : mem := write64 m (p + 8) v.

Record HeapRegion : Type := mkRegion {
  hr_start : Z;
  hr_size : Z;
}.

Inductive HeapError : Type :=
  | AlreadyInitialized | NoConventionalMemory | TooSmall | Misaligned
  | MemoryMapUnavailable | FrameAllocatorUnavailable | MemoryReservationFailed.

(** [core::alloc::Layout] *)
Record Layout : Type := mkLayout {
  layout_size : Z;
  layout_align : Z;
}.

(** [AgnostOSAllocator]: the head pointer, and the memory its links live in. *)
Record Heap : Type := mkHeap {
  head_ptr : Z;
  heap_mem : mem;
}.

(** A [*mut *mut FreeChunk]: the head, or the [next] field of a chunk. *)
Inductive link : Type :=
  | LHead
  | LNext (chunk : Z).

Definition read_link (h : Heap) (l : link) : Z :=
  match l with LHead => head_ptr h | LNext p => chunk_next (heap_mem h) p end.
Definition write_link (h : Heap) (l : link) (v : Z) : Heap :=
  match l with
  | LHead => mkHeap v (heap_mem h)
  | LNext p => mkHeap (head_ptr h) (set_next (heap_mem h) p v)
  end.

(** ** Operations of [AgnostOSAllocator] *)

Definition heap_new (m : mem) : Heap := mkHeap null m.

(** [AgnostOSAllocator::init] *)
Definition heap_init (region : HeapRegion) : M Heap HeapError unit :=
  if hr_size region <? SIZE_OF_FREE_CHUNK then throw TooSmall else
  if negb (is_multiple_of (hr_start region) ALIGN_OF_FREE_CHUNK) then throw Misaligned else
  h ← get;
  let m := set_size (heap_mem h) (hr_start region) (hr_size region) in
  let m := set_next m (hr_start region) null in
  put (mkHeap (hr_start region) m).

(** [initialize_global]: the allocator that the features select; a host build has
    none of its own, and [init_linked_list] is the other crate's. *)
Definition initialize_global (uefi_bin custom_allocator : bool) (init_linked_list : HeapRegion → M Heap HeapError unit)
    (region : HeapRegion) : M Heap HeapError unit :=
  if negb uefi_bin then mret tt else
  if custom_allocator then heap_init region else init_linked_list region;; mret tt.

(** The branch of [alloc] that takes the chunk. *)
Definition alloc_take (h : Heap) (prev : link) (chunk end_ chunk_end : Z) : Heap :=
  let remainder_size := chunk_end - end_ in
  if SIZE_OF_FREE_CHUNK <=? remainder_size then
    let m := set_size (heap_mem h) end_ remainder_size in
    let m := set_next m end_ (chunk_next m chunk) in
    write_link (mkHeap (head_ptr h) m) prev end_
  else write_link h prev (chunk_next (heap_mem h) chunk).

(** The loop of [alloc]; [None] when the fuel runs out. *)
Fixpoint alloc_loop (fuel : nat) (size align : Z) (h : Heap) (current prev : link) :
    option (Z * Heap) :=
  match fuel with
  | O => None
  | S fuel =>
    let chunk := read_link h current in
    if chunk =? null then Some (null, h) else
    let advance := alloc_loop fuel size align h (LNext chunk) (LNext chunk) in
    match checked_sub align 1 with
    | None => Some (null, h)
    | Some alignment_offset =>
      match checked_add chunk alignment_offset with
      | None => advance
      | Some aligned_unmasked =>
        let aligned := Z.land aligned_unmasked (u64_not alignment_offset) in
        match checked_add aligned size with
        | None => advance
        | Some end_ =>
          match checked_add chunk (chunk_size (heap_mem h) chunk) with
          | None => advance
          | Some chunk_end =>
            if end_ <=? chunk_end
            then Some (aligned, alloc_take h prev chunk end_ chunk_end)
            else advance
          end
        end
      end
    end
  end.

(** [GlobalAlloc::alloc] *)
Definition alloc (fuel : nat) (layout : Layout) (h : Heap) : option (Z * Heap) :=
  let size := Z.max (layout_size layout) SIZE_OF_FREE_CHUNK in
  let align := Z.max (layout_align layout) ALIGN_OF_FREE_CHUNK in
  alloc_loop fuel size align h LHead LHead.

(** The first loop of [dealloc]: the link behind the chunks below [chunk]. *)
Fixpoint find_link (fuel : nat) (h : Heap) (chunk : Z) (l : link) : option link :=
  match fuel with
  | O => None
  | S fuel =>
    let p := read_link h l in
    if negb (p =? null) && (p <? chunk) then find_link fuel h chunk (LNext p) else Some l
  end.

(** The second loop of [dealloc]: the chunk whose [next] is [chunk]. *)
Fixpoint find_previous (fuel : nat) (m : mem) (chunk previous current : Z) : option Z :=
  match fuel with
  | O => None
  | S fuel =>
    if negb (current =? null) && negb (current =? chunk)
    then find_previous fuel m chunk current (chunk_next m current) else Some previous
  end.

(** The two merges of [dealloc]: [low] absorbs [high] when it ends there. *)
Definition merge (m : mem) (low high : Z) : mem :=
  match checked_add low (chunk_size m low) with
  | Some end_ =>
    if end_ =? high then
      match checked_add (chunk_size m low) (chunk_size m high) with
      | Some merged_size => set_next (set_size m low merged_size) low (chunk_next m high)
      | None => m
      end
    else m
  | None => m
  end.

(** [GlobalAlloc::dealloc]; [None] when the fuel runs out, [Panic] where the
    assertion of a checked build fails. *)
Definition dealloc (fuel : nat) (ptr : Z) (layout : Layout) (h : Heap) : option (outcome Empty_set Heap) :=
  let size := Z.max (layout_size layout) SIZE_OF_FREE_CHUNK in
  if negb (is_multiple_of ptr ALIGN_OF_FREE_CHUNK) then Some Panic else
  let h := mkHeap (head_ptr h) (set_size (heap_mem h) ptr size) in
  l ← find_link fuel h ptr LHead;
  let h := mkHeap (head_ptr h) (set_next (heap_mem h) ptr (read_link h l)) in
  let h := write_link h l ptr in
  let next := chunk_next (heap_mem h) ptr in
  let m := if next =? null then heap_mem h else merge (heap_mem h) ptr next in
  previous ← find_previous fuel m ptr null (head_ptr h);
  let m := if previous =? null then m else merge m previous ptr in
  Some (Ok (mkHeap (head_ptr h) m)).

(** ** Selection of the heap region

    The statics that [initialize_heap] reads and writes. *)

Record World : Type := mkWorld {
  HEAP_START : Z;
  HEAP_SIZE : Z;
  BOOT_SERVICES_EXITED : bool;
  MEMORY_MAP : option MemoryMapSnapshot;
  FRAME_ALLOCATOR : option FrameAllocator;
}.

Definition set_boot_exited (w : World) : World :=
  mkWorld (HEAP_START w) (HEAP_SIZE w) true (MEMORY_MAP w) (FRAME_ALLOCATOR w).
Definition set_heap (start size : Z) (w : World) : World :=
  mkWorld start size (BOOT_SERVICES_EXITED w) (MEMORY_MAP w) (FRAME_ALLOCATOR w).

(** A call into [memory] or [frame] from [allocator]: it works on its own
    static, and its error becomes a [HeapError]. *)
Definition in_memory {A} (f : M (option MemoryMapSnapshot) MemoryMapError A) (e : HeapError) :
    M World HeapError A := λ w,
  let '(r, m) := f (MEMORY_MAP w) in
  (map_err (λ _, e) r,
   mkWorld (HEAP_START w) (HEAP_SIZE w) (BOOT_SERVICES_EXITED w) m (FRAME_ALLOCATOR w)).
Definition in_frame {A} (f : M (option FrameAllocator) FrameError A) (e : HeapError) :
    M World HeapError A := λ w,
  let '(r, a) := f (FRAME_ALLOCATOR w) in
  (map_err (λ _, e) r,
   mkWorld (HEAP_START w) (HEAP_SIZE w) (BOOT_SERVICES_EXITED w) (MEMORY_MAP w) a).

(** The page of the boot stack, from the address of a local variable. *)
Definition stack_page (stack_marker : Z) : Z := Z.land stack_marker (u64_not (4096 - 1)).

(** [initialize_heap], given the map that [exit_boot_services] returns and the
    address of its local variable [stack_marker]. *)
Definition initialize_heap (memory_map : list MemoryDescriptor) (stack_marker : Z)
    (framebuffer : option (Z * Z)) (kernel_image : Z * Z) : M World HeapError HeapRegion :=
  w ← get;
  if negb (HEAP_SIZE w =? 0) then throw AlreadyInitialized else
  put (set_boot_exited w);;
  in_memory (Memory.initialize memory_map framebuffer) MemoryMapUnavailable;;
  in_memory (Memory.reserve kernel_image.1 kernel_image.2 Memory.Kernel) MemoryReservationFailed;;
  in_memory (Memory.reserve (saturating_sub (stack_page stack_marker) (32 * 4096)) (64 * 4096)
               Memory.Kernel) MemoryReservationFailed;;
  w ← get;
  in_frame (Frame.initialize (MEMORY_MAP w)) FrameAllocatorUnavailable;;
  heap_frames ← in_frame Frame.largest_free_frames FrameAllocatorUnavailable;
  if heap_frames =? 0 then throw NoConventionalMemory else
  heap_range ← in_frame (Frame.allocate_contiguous_owned heap_frames Frame.Heap)
                 FrameAllocatorUnavailable;
  let heap_start := pr_start (opr_range heap_range) in
  let heap_size := pr_length (opr_range heap_range) in
  in_memory (Memory.reserve heap_start heap_size Memory.Kernel) MemoryReservationFailed;;
  w ← get;
  put (set_heap heap_start heap_size w);;
  mret (mkRegion heap_start heap_size).

(** ** The free list in memory *)

(** A free chunk: its address and its size. *)
Abbreviation chunk := (Z * Z)%type (only parsing).

Definition chunk_end (c : chunk) : Z := c.1 + c.2.

(** The chunks [l] lead from the pointer [p] to the pointer [q]. *)
Fixpoint seg (m : mem) (p : Z) (l : list chunk) (q : Z) : Prop :=
  match l with
  | [] => p = q
  | c :: l => p = c.1 ∧ chunk_size m c.1 = c.2 ∧ seg m (chunk_next m c.1) l q
  end.

Definition chunk_ok (lo hi : Z) (c : chunk) : Prop :=
  lo ≤ c.1 ∧ SIZE_OF_FREE_CHUNK ≤ c.2 ∧ chunk_end c ≤ hi.

(** [c] ends below [d], and does not touch it. *)
Definition apart (c d : chunk) : Prop := chunk_end c < d.1.

(** A free list of the heap [\[lo, hi)]: in address order and fully merged. *)
Record list_ok (lo hi : Z) (l : list chunk) : Prop := {
  list_ok_lo : 0 < lo;
  list_ok_hi : hi ≤ u64_max;
  list_ok_chunks : Forall (chunk_ok lo hi) l;
  list_ok_sorted : StronglySorted apart l;
}.

Definition heap_repr (h : Heap) (l : list chunk) : Prop := seg (heap_mem h) (head_ptr h) l null.

(** The link that leads out of a list of chunks. *)
Definition loc (l : list chunk) : link :=
  match last l with None => LHead | Some c => LNext c.1 end.

Lemma loc_snoc l c : loc (l ++ [c]) = LNext c.1.
Proof. unfold loc. by rewrite last_snoc. Qed.

Lemma seg_app m p l1 l2 q : seg m p (l1 ++ l2) q ↔ ∃ r, seg m p l1 r ∧ seg m r l2 q.
Proof.
  revert p. induction l1 as [|c l1 IH]; intros p; simpl.
  - split; [intros; by exists p|by intros (r & <- & ?)].
  - rewrite IH. split.
    + intros (H1 & H2 & r & H3 & H4). by exists r.
    + intros (r & (H1 & H2 & H3) & H4). repeat split; [done..|]. by exists r.
Qed.

Lemma seg_ext m m' p l q :
  (∀ c x, c ∈ l → c.1 ≤ x < c.1 + SIZE_OF_FREE_CHUNK → m' x = m x) →
  seg m p l q → seg m' p l q.
Proof.
  revert p. induction l as [|c l IH]; intros p Hm; [done|]. simpl. intros (-> & Hs & Hl).
  assert (∀ d x, d ∈ l → d.1 ≤ x < d.1 + SIZE_OF_FREE_CHUNK → m' x = m x) as Hm'.
  { intros d x Hd. apply Hm. by right. }
  specialize (Hm c) as Hc. unfold SIZE_OF_FREE_CHUNK in Hc.
  unfold chunk_size, chunk_next in *. split; [done|]. split.
  - rewrite (read64_ext m); [done|]. intros x Hx. apply Hc; [by left|lia].
  - rewrite (read64_ext m); [by apply IH|]. intros x Hx. apply Hc; [by left|lia].
Qed.

Lemma read_loc h l q : seg (heap_mem h) (head_ptr h) l q → read_link h (loc l) = q.
Proof.
  destruct l as [|c l _] using rev_ind; [done|]. rewrite loc_snoc.
  intros (r & _ & Hc)%seg_app. by destruct Hc as (-> & _ & ->).
Qed.

Lemma list_ok_app lo hi l1 l2 :
  list_ok lo hi (l1 ++ l2) ↔
  list_ok lo hi l1 ∧ list_ok lo hi l2 ∧ (∀ c d, c ∈ l1 → d ∈ l2 → apart c d).
Proof.
  split.
  - intros [H1 H2 H3 H4]. rewrite Forall_app in H3. rewrite StronglySorted_app in H4.
    destruct H3, H4 as (? & ? & ?). done.
  - intros ([H1 H2 H3 H4] & [_ _ H5 H6] & H7). split; [done|done|by apply Forall_app|].
    by apply StronglySorted_app.
Qed.

Lemma list_ok_cons lo hi c l :
  list_ok lo hi (c :: l) ↔
  chunk_ok lo hi c ∧ list_ok lo hi l ∧ (∀ d, d ∈ l → apart c d).
Proof.
  split.
  - intros [H1 H2 [H3 H3']%Forall_cons [H4 H4']%StronglySorted_inv].
    rewrite Forall_forall in H4'. done.
  - intros (H3 & [H1 H2 H3' H4] & H4'). split; [done|done|by constructor|].
    constructor; [done|]. by apply Forall_forall.
Qed.

Lemma list_ok_in lo hi l c : list_ok lo hi l → c ∈ l → chunk_ok lo hi c.
Proof. intros [_ _ H _] Hc. rewrite Forall_forall in H. auto. Qed.

(** Writing the link behind [l1] redirects it; only the last chunk changes. *)
Lemma write_loc lo hi h l1 q v :
  list_ok lo hi l1 → is_u64 v → seg (heap_mem h) (head_ptr h) l1 q →
  seg (heap_mem (write_link h (loc l1) v)) (head_ptr (write_link h (loc l1) v)) l1 v ∧
  (∀ x, (∀ c, c ∈ l1 → ¬ (c.1 ≤ x < c.1 + SIZE_OF_FREE_CHUNK)) →
    heap_mem (write_link h (loc l1) v) x = heap_mem h x).
Proof.
  intros Hok Hv. destruct l1 as [|c l1 _] using rev_ind; [done|].
  rewrite loc_snoc. cbn [write_link heap_mem head_ptr].
  apply list_ok_app in Hok as (H1 & H2 & H3).
  assert (∀ d, d ∈ l1 → apart d c) as Hc by (intros; apply H3; [done|by left]).
  intros (r & Hl1 & -> & Hs & _)%seg_app. split.
  - apply seg_app. exists c.1. split.
    + eapply seg_ext; [|exact Hl1]. intros d x Hd Hx. apply write64_outside.
      specialize (Hc d Hd). pose proof (list_ok_in _ _ _ _ H1 Hd) as (? & ? & ?).
      unfold apart, chunk_end, SIZE_OF_FREE_CHUNK in *. lia.
    + simpl. unfold chunk_size, chunk_next, set_next. split; [done|]. split.
      * rewrite read_write_other by lia. done.
      * by apply read_write_same.
  - intros x Hx. apply write64_outside. specialize (Hx c). unfold SIZE_OF_FREE_CHUNK in Hx.
    intros ?. apply Hx; [apply elem_of_app; right; by left|lia].
Qed.

(** Writing a header at [p], clear of the chunks of [l], keeps [l]. *)
Lemma seg_header m p l q a v w :
  (∀ c, c ∈ l → c.1 + SIZE_OF_FREE_CHUNK ≤ a ∨ a + SIZE_OF_FREE_CHUNK ≤ c.1) →
  seg m p l q → seg (set_next (set_size m a v) a w) p l q.
Proof.
  intros Hl. apply seg_ext. intros c x Hc Hx. specialize (Hl c Hc).
  unfold set_next, set_size, SIZE_OF_FREE_CHUNK in *. rewrite !write64_outside by lia. done.
Qed.

Lemma header_read m a v w : is_u64 v → is_u64 w →
  chunk_size (set_next (set_size m a v) a w) a = v ∧
  chunk_next (set_next (set_size m a v) a w) a = w.
Proof.
  intros Hv Hw. unfold chunk_size, chunk_next, set_next, set_size. split.
  - rewrite read_write_other by lia. by apply read_write_same.
  - by apply read_write_same.
Qed.

(** ** Allocation, on the list *)

Definition align_up (a align : Z) : Z := (a + (align - 1)) / align * align.

(** What is left of the chunk [c] behind the allocation that ends at [end_]. *)
Definition remainder (c : chunk) (end_ : Z) : list chunk :=
  if SIZE_OF_FREE_CHUNK <=? chunk_end c - end_ then [(end_, chunk_end c - end_)] else [].

(** First fit: the first chunk that can hold the aligned block is taken, and
    the part behind the block stays free if it can hold a header. *)
Fixpoint first_fit (size align : Z) (l : list chunk) : option (Z * list chunk) :=
  match l with
  | [] => None
  | c :: l =>
    let aligned := align_up c.1 align in
    if aligned + size <=? chunk_end c then Some (aligned, remainder c (aligned + size) ++ l)
    else '(p, l') ← first_fit size align l; Some (p, c :: l')
  end.

(** The layout as [alloc] uses it. *)
Definition block_size (layout : Layout) : Z := Z.max (layout_size layout) SIZE_OF_FREE_CHUNK.
Definition block_align (layout : Layout) : Z := Z.max (layout_align layout) ALIGN_OF_FREE_CHUNK.

(** [Layout]'s invariants: the alignment is a power of two, and the size
    rounded up to it does not exceed [isize::MAX]. *)
Definition layout_ok (layout : Layout) : Prop :=
  0 ≤ layout_size layout < 2 ^ 63 ∧ ∃ k, 0 ≤ k < 63 ∧ layout_align layout = 2 ^ k.

Lemma block_align_pow layout : layout_ok layout → ∃ k, 3 ≤ k < 63 ∧ block_align layout = 2 ^ k.
Proof.
  intros (_ & k & Hk & He). unfold block_align, ALIGN_OF_FREE_CHUNK. rewrite He.
  destruct (Z.le_gt_cases k 3).
  - exists 3. split; [lia|]. pose proof (Z.pow_le_mono_r 2 k 3). change (2 ^ 3) with 8 in *. lia.
  - exists k. split; [lia|]. pose proof (Z.pow_le_mono_r 2 3 k). change (2 ^ 3) with 8 in *. lia.
Qed.

Lemma align_up_bounds a align : 0 < align → a ≤ align_up a align < a + align ∧
  align_up a align mod align = 0.
Proof.
  intros. unfold align_up. split; [Z.div_mod_to_equations; lia|]. by apply Z_mod_mult.
Qed.

(** The overflow checks of the loop refuse only chunks that do not fit. *)
Lemma alloc_body {A} a e size k (advance zero : A) (taken : Z → Z → A) :
  0 < a → a < e → e ≤ u64_max → 0 < size < 2 ^ 63 + 16 → 3 ≤ k < 63 →
  match checked_sub (2 ^ k) 1 with
  | None => zero
  | Some off =>
    match checked_add a off with
    | None => advance
    | Some un =>
      match checked_add (Z.land un (u64_not off)) size with
      | None => advance
      | Some end_ => if end_ <=? e then taken (Z.land un (u64_not off)) end_ else advance
      end
    end
  end = if align_up a (2 ^ k) + size <=? e 
      then taken (align_up a (2 ^ k)) (align_up a (2 ^ k) + size) else advance.
Proof.
  intros Ha Hae He Hs Hk. pose proof (Z.pow_pos_nonneg 2 k).
  pose proof (Z.pow_le_mono_r 2 3 k). change (2 ^ 3) with 8 in *. change (2 ^ 63) with 9223372036854775808 in *.
  rewrite checked_sub_Some by lia. unfold checked_add.
  pose proof (align_up_bounds a (2 ^ k)) as [Hb Hm]; [lia|].
  destruct (Z.ltb_spec (a + (2 ^ k - 1)) U64_SIZE) as [Hlt|Hge].
  - rewrite land_not_low by (unfold is_u64; lia). change (_ / _ * _) with (align_up a (2 ^ k)).
    destruct (Z.ltb_spec (align_up a (2 ^ k) + size) U64_SIZE); [done|].
    by rewrite (proj2 (Z.leb_gt _ _)) by lia.
  - assert (U64_SIZE ≤ align_up a (2 ^ k)) as Hbig.
    { unfold align_up.
      assert (U64_SIZE = 2 ^ (64 - k) * 2 ^ k) as Hpow.
      { rewrite <- Z.pow_add_r by lia. by replace (64 - k + k) with 64 by lia. }
      rewrite Hpow. apply Z.mul_le_mono_nonneg_r; [lia|]. apply Z.div_le_lower_bound; lia. }
    by rewrite (proj2 (Z.leb_gt _ _)) by lia.
Qed.

Definition in_chunks (x : Z) (l : list chunk) : Prop := ∃ c, c ∈ l ∧ c.1 ≤ x < chunk_end c.

Lemma remainder_ok lo hi c b size l :
  list_ok lo hi (c :: l) → c.1 ≤ b → SIZE_OF_FREE_CHUNK ≤ size →
  b + size ≤ chunk_end c → list_ok lo hi (remainder c (b + size) ++ l).
Proof.
  intros (Hc & Hl & Hd)%list_ok_cons Hb Hs He. unfold remainder.
  destruct (Z.leb_spec SIZE_OF_FREE_CHUNK (chunk_end c - (b + size))); [|done].
  apply list_ok_cons. destruct Hc as (? & ? & ?). split; [|split; [done|]].
  - unfold chunk_ok, chunk_end, SIZE_OF_FREE_CHUNK in *. simpl. lia.
  - intros d Hd'. specialize (Hd d Hd'). unfold apart, chunk_end in *. simpl. lia.
Qed.

(** Taking a chunk: the link before it leads on to what is left of it. *)
Lemma alloc_take_spec lo hi h l1 c l2 end_ :
  list_ok lo hi (l1 ++ c :: l2) → heap_repr h (l1 ++ c :: l2) →
  c.1 + SIZE_OF_FREE_CHUNK ≤ end_ → end_ ≤ chunk_end c →
  let h' := alloc_take h (loc l1) c.1 end_ (chunk_end c) in
  heap_repr h' (l1 ++ remainder c end_ ++ l2) ∧
  (∀ x, ¬ in_chunks x (l1 ++ c :: l2) → heap_mem h' x = heap_mem h x).
Proof.
  intros Hok Hh Hlo Hhi h'. pose proof Hok as (H1 & H2 & H3)%list_ok_app.
  pose proof H2 as (Hc & H2' & Hd)%list_ok_cons. destruct Hc as (Hc1 & Hc2 & Hc3).
  pose proof H1 as [Hpos Hmax _ _]. pose proof H1 as H1'.
  unfold heap_repr in Hh. apply seg_app in Hh as (r & Hl1 & Hcs). destruct Hcs as (-> & Hsz & Hl2).
  set (next := chunk_next (heap_mem h) c.1) in *.
  assert (is_u64 next) as Hnext.
  { destruct l2 as [|d l2]; simpl in Hl2; [subst next; by rewrite Hl2|].
    destruct Hl2 as (-> & _). apply list_ok_cons in H2' as ((? & ? & ?) & _).
    unfold is_u64, chunk_end, SIZE_OF_FREE_CHUNK in *. lia. }
  assert (∀ d, d ∈ l1 → chunk_end d < c.1) as Hbelow by (intros d Hd'; apply (H3 d c Hd'); by left).
  assert (∀ d, d ∈ l2 → chunk_end c < d.1) as Habove by exact Hd.
  assert (∀ x, ¬ in_chunks x (l1 ++ c :: l2) → ∀ d, d ∈ l1 → ¬ (d.1 ≤ x < d.1 + SIZE_OF_FREE_CHUNK))
    as Hout.
  { intros x Hx d Hd' Hr. apply Hx. exists d. split; [apply elem_of_app; by left|].
    pose proof (list_ok_in _ _ _ _ H1' Hd') as (? & ? & ?). unfold chunk_end in *. lia. }
  assert (∀ d, d ∈ l1 → SIZE_OF_FREE_CHUNK ≤ d.2) as Hsz1.
  { intros d Hd'. apply (list_ok_in _ _ _ _ H1' Hd'). }
  subst h'. unfold alloc_take, remainder.
  destruct (Z.leb_spec SIZE_OF_FREE_CHUNK (chunk_end c - end_)) as [Hrem|Hrem].
  - set (m := set_next (set_size (heap_mem h) end_ (chunk_end c - end_)) end_
                (chunk_next (set_size (heap_mem h) end_ (chunk_end c - end_)) c.1)).
    assert (chunk_next (set_size (heap_mem h) end_ (chunk_end c - end_)) c.1 = next) as Hn.
    { unfold chunk_next, set_size. apply read_write_other. unfold SIZE_OF_FREE_CHUNK in *. lia. }
    subst m. rewrite Hn.
    set (h2 := mkHeap (head_ptr h) (set_next (set_size (heap_mem h) end_ (chunk_end c - end_)) end_ next)).
    assert (seg (heap_mem h2) (head_ptr h2) l1 c.1) as Hl1'.
    { apply seg_header; [|done]. intros d Hd'. specialize (Hbelow d Hd'). specialize (Hsz1 d Hd').
      unfold chunk_end, SIZE_OF_FREE_CHUNK in *. lia. }
    destruct (write_loc lo hi h2 l1 c.1 end_ H1') as [Hw1 Hw2];
      [unfold is_u64, SIZE_OF_FREE_CHUNK in *; lia|done|].
    split.
    + apply seg_app. exists end_. split; [exact Hw1|].
      assert (seg (heap_mem h2) end_ ((end_, chunk_end c - end_) :: l2) null) as Hs2.
      { destruct (header_read (heap_mem h) end_ (chunk_end c - end_) next) as [Hr1 Hr2];
          [unfold is_u64, chunk_end, SIZE_OF_FREE_CHUNK in *; lia|done|].
        simpl. split; [done|]. split; [exact Hr1|]. rewrite Hr2.
        apply seg_header; [|done]. intros d Hd'. specialize (Habove d Hd').
        unfold SIZE_OF_FREE_CHUNK in *. lia. }
      eapply seg_ext; [|exact Hs2]. intros d x Hd' Hx. apply Hw2. intros e He.
      specialize (Hbelow e He). specialize (Hsz1 e He). unfold chunk_end, SIZE_OF_FREE_CHUNK in *.
      apply elem_of_cons in Hd' as [->|Hd']; simpl in *; [lia|]. specialize (Habove d Hd'). lia.
    + intros x Hx. rewrite Hw2 by auto. cbn. unfold set_next, set_size.
      assert (¬ (c.1 ≤ x < chunk_end c)) as Hxc.
      { intros ?. apply Hx. exists c. split; [apply elem_of_app; right; by left|done]. }
      unfold SIZE_OF_FREE_CHUNK in *. rewrite !write64_outside by lia. done.
  - fold next. destruct (write_loc lo hi h l1 c.1 next H1' Hnext Hl1) as [Hw1 Hw2]. split; [|auto].
    apply seg_app. exists next. split; [exact Hw1|]. simpl.
    eapply seg_ext; [|exact Hl2]. intros d x Hd' Hx. apply Hw2. intros e He.
    specialize (Hbelow e He). specialize (Hsz1 e He). specialize (Habove d Hd').
    unfold chunk_end, SIZE_OF_FREE_CHUNK in *. lia.
Qed.

Lemma alloc_loop_spec lo hi layout l2 fuel h l1 :
  layout_ok layout → list_ok lo hi (l1 ++ l2) → heap_repr h (l1 ++ l2) →
  (length l2 < fuel)%nat →
  match first_fit (block_size layout) (block_align layout) l2 with
  | None => alloc_loop fuel (block_size layout) (block_align layout) h (loc l1) (loc l1) = Some (null, h)
  | Some (p, l2') => ∃ h',
      alloc_loop fuel (block_size layout) (block_align layout) h (loc l1) (loc l1) = Some (p, h') ∧
      heap_repr h' (l1 ++ l2') ∧
      (∀ x, ¬ in_chunks x (l1 ++ l2) → heap_mem h' x = heap_mem h x)
  end.
Proof.
  intros Hlay. destruct (block_align_pow layout Hlay) as (k & Hk & Hal).
  assert (SIZE_OF_FREE_CHUNK ≤ block_size layout < 2 ^ 63 + 16) as Hsize.
  { destruct Hlay as [? _]. unfold block_size, SIZE_OF_FREE_CHUNK. lia. }
  rewrite Hal. revert fuel l1. induction l2 as [|c l2 IH]; intros fuel l1 Hok Hh Hfuel;
    (destruct fuel as [|fuel]; [simpl in Hfuel; lia|]).
  - cbn [first_fit alloc_loop]. rewrite app_nil_r in Hh. rewrite (read_loc _ _ null Hh). done.
  - specialize (IH fuel (l1 ++ [c])). rewrite <- app_assoc in IH. simpl app in IH.
    specialize (IH Hok Hh ltac:(simpl in Hfuel; lia)).
    pose proof Hok as (_ & ((Hc1 & Hc2 & Hc3) & _)%list_ok_cons & _)%list_ok_app.
    pose proof Hok as [Hpos Hmax _ _].
    pose proof Hh as (r & Hl1 & (-> & Hsz & _))%seg_app.
    cbn [first_fit alloc_loop]. rewrite (read_loc _ _ _ Hl1).
    rewrite (proj2 (Z.eqb_neq c.1 null)) by (unfold null; lia).
    rewrite Hsz. rewrite (checked_add_Some c.1 c.2)
      by (unfold is_u64, chunk_end, SIZE_OF_FREE_CHUNK in *; lia).
    rewrite loc_snoc in IH. change (c.1 + c.2) with (chunk_end c).
    cbn iota beta.
    pose proof (align_up_bounds c.1 (2 ^ k) ltac:(apply Z.pow_pos_nonneg; lia)) as [Hup _].
    rewrite (alloc_body c.1 (chunk_end c) (block_size layout) k _ _
      (λ a e, Some (a, alloc_take h (loc l1) c.1 e (chunk_end c)))); [|unfold chunk_end, SIZE_OF_FREE_CHUNK in *; lia..].
    destruct (Z.leb_spec (align_up c.1 (2 ^ k) + block_size layout) (chunk_end c)) as [Hfit|_].
    + destruct (alloc_take_spec lo hi h l1 c l2 (align_up c.1 (2 ^ k) + block_size layout) Hok Hh);
        [lia|done|]. eauto.
    + destruct (first_fit _ _ l2) as [[p l2']|]; cbn [mbind option_bind]; [|done].
      by rewrite <- app_assoc in IH.
Qed.

(** ** Deallocation, on the list *)

(** [c] absorbs the first chunk behind it when it ends there. *)
Definition merge_next (c : chunk) (l : list chunk) : list chunk :=
  match l with
  | d :: t => if chunk_end c =? d.1 then (c.1, c.2 + d.2) :: t else c :: l
  | [] => [c]
  end.

(** Insertion in address order, merging with both neighbours. *)
Fixpoint insert_free (p size : Z) (l : list chunk) : list chunk :=
  match l with
  | [] => [(p, size)]
  | d :: t =>
    if d.1 <? p then
      if chunk_end d =? p then merge_next (d.1, d.2 + size) t else d :: insert_free p size t
    else merge_next (p, size) l
  end.

(** The block [\[p, p + size)] lies in the heap and clear of the free chunks. *)
Definition block_clear (lo hi p size : Z) (l : list chunk) : Prop :=
  lo ≤ p ∧ SIZE_OF_FREE_CHUNK ≤ size ∧ p + size ≤ hi ∧
  ∀ d, d ∈ l → chunk_end d ≤ p ∨ p + size ≤ d.1.

Lemma block_split lo hi p size l : list_ok lo hi l → block_clear lo hi p size l →
  ∃ l1 l2, l = l1 ++ l2 ∧ (∀ d, d ∈ l1 → chunk_end d ≤ p) ∧ (∀ d, d ∈ l2 → p + size ≤ d.1).
Proof.
  induction l as [|c l IH]; intros Hok (Hlo & Hs & Hhi & Hcl).
  { exists [], []. split; [done|]. split; intros d Hd; by apply not_elem_of_nil in Hd. }
  apply list_ok_cons in Hok as (Hc & Hok & Hd).
  destruct (Hcl c ltac:(by left)) as [Hle|Hge].
  - destruct IH as (l1 & l2 & -> & H1 & H2); [done| |].
    { split_and!; [done..|]. intros d Hd'. apply Hcl. by right. }
    exists (c :: l1), l2. split_and!; [done| |done]. intros d [->|Hd']%elem_of_cons; auto.
  - exists [], (c :: l). split; [done|]. split; [intros d Hd'; by apply not_elem_of_nil in Hd'|].
    intros d [->|Hd']%elem_of_cons; [done|]. specialize (Hd d Hd').
    destruct Hc as (? & ? & ?). unfold apart, chunk_end, SIZE_OF_FREE_CHUNK in *. lia.
Qed.

(** Insertion behind the chunks below the block. *)
Lemma insert_free_nil p size l2 : 0 < size → (∀ d, d ∈ l2 → p + size ≤ d.1) →
  insert_free p size l2 = merge_next (p, size) l2.
Proof.
  intros Hs H2. destruct l2 as [|c l2]; [done|]. simpl. specialize (H2 c ltac:(by left)).
  by rewrite (proj2 (Z.ltb_ge _ _)) by lia.
Qed.

Lemma insert_free_snoc lo hi p size l1 d l2 :
  list_ok lo hi (l1 ++ [d]) → chunk_end d ≤ p → 0 < size → (∀ d, d ∈ l2 → p + size ≤ d.1) →
  insert_free p size ((l1 ++ [d]) ++ l2) =
  l1 ++ (if chunk_end d =? p then merge_next (d.1, d.2 + size) l2
         else d :: merge_next (p, size) l2).
Proof.
  intros Hok Hd Hs H2. rewrite <- app_assoc. simpl app.
  assert (d.1 < p) as Hdp.
  { apply list_ok_app in Hok as (_ & ((? & ? & ?) & _)%list_ok_cons & _).
    unfold chunk_end, SIZE_OF_FREE_CHUNK in *. lia. }
  induction l1 as [|e l1 IH]; simpl.
  - rewrite (proj2 (Z.ltb_lt _ _)) by lia. destruct (chunk_end d =? p); [done|].
    by rewrite insert_free_nil.
  - simpl in Hok. apply list_ok_cons in Hok as ((? & ? & ?) & Hok & He).
    specialize (He d ltac:(apply elem_of_app; right; by left)).
    unfold apart, chunk_end, SIZE_OF_FREE_CHUNK in *.
    rewrite (proj2 (Z.ltb_lt e.1 p)), (proj2 (Z.eqb_neq (e.1 + e.2) p)) by lia.
    f_equal. by apply IH.
Qed.

(** The free bytes after the insertion: the old ones and the block. *)
Lemma in_chunks_cons x c l : in_chunks x (c :: l) ↔ c.1 ≤ x < chunk_end c ∨ in_chunks x l.
Proof.
  unfold in_chunks. split.
  - intros (d & [->|Hd]%elem_of_cons & Hx); [by left|right; eauto].
  - intros [Hx|(d & Hd & Hx)]; [exists c|exists d]; rewrite elem_of_cons; auto.
Qed.

Lemma in_chunks_nil x : ¬ in_chunks x [].
Proof. intros (d & Hd & _). by apply not_elem_of_nil in Hd. Qed.

Lemma in_chunks_app x l1 l2 : in_chunks x (l1 ++ l2) ↔ in_chunks x l1 ∨ in_chunks x l2.
Proof.
  induction l1 as [|c l1 IH]; simpl.
  - pose proof (in_chunks_nil x). tauto.
  - rewrite !in_chunks_cons, IH. tauto.
Qed.

Lemma merge_next_bytes lo hi x c l : list_ok lo hi l → 0 < c.2 →
  in_chunks x (merge_next c l) ↔ c.1 ≤ x < chunk_end c ∨ in_chunks x l.
Proof.
  intros Hok Hs. destruct l as [|d t]; simpl; [by rewrite in_chunks_cons|].
  destruct (Z.eqb_spec (chunk_end c) d.1) as [He|_]; rewrite !in_chunks_cons; [|done].
  apply list_ok_cons in Hok as ((? & ? & ?) & _).
  unfold chunk_end, SIZE_OF_FREE_CHUNK in *. simpl.
  destruct (Z.lt_ge_cases x d.1); intuition lia.
Qed.

Lemma merge_next_ok lo hi c l : chunk_ok lo hi c → list_ok lo hi l →
  (∀ d, d ∈ l → chunk_end c ≤ d.1) →
  list_ok lo hi (merge_next c l) ∧ (∀ d, d ∈ merge_next c l → c.1 ≤ d.1).
Proof.
  intros Hc Hok Hd. destruct l as [|d t]; simpl.
  - split; [|by intros d ->%list_elem_of_singleton]. apply list_ok_cons. split; [done|].
    split; [done|]. intros d Hd'. by apply not_elem_of_nil in Hd'.
  - pose proof Hok as (Hdok & Ht & Hapart)%list_ok_cons.
    specialize (Hd d ltac:(by left)) as Hcd. destruct Hc as (? & ? & ?), Hdok as (? & ? & ?).
    destruct (Z.eqb_spec (chunk_end c) d.1) as [He|Hne].
    + split.
      * apply list_ok_cons. split; [|split; [done|]].
        -- unfold chunk_ok, chunk_end, SIZE_OF_FREE_CHUNK in *. simpl. lia.
        -- intros e He'. specialize (Hapart e He'). unfold apart, chunk_end in *. simpl. lia.
      * intros e [->|He']%elem_of_cons; [simpl; lia|]. specialize (Hapart e He').
        unfold apart, chunk_end, SIZE_OF_FREE_CHUNK in *. lia.
    + split.
      * apply list_ok_cons. split; [done|]. split; [done|]. intros e [->|He']%elem_of_cons.
        -- unfold apart. lia.
        -- specialize (Hapart e He'). unfold apart, chunk_end, SIZE_OF_FREE_CHUNK in *. lia.
      * intros e [->|He']%elem_of_cons; [lia|]. specialize (Hd e He').
        unfold chunk_end, SIZE_OF_FREE_CHUNK in *. lia.
Qed.

Lemma insert_free_ok lo hi p size l : list_ok lo hi l → block_clear lo hi p size l →
  list_ok lo hi (insert_free p size l) ∧
  (∀ x, in_chunks x (insert_free p size l) ↔ in_chunks x l ∨ p ≤ x < p + size).
Proof.
  intros Hok Hcl. destruct (block_split lo hi p size l Hok Hcl) as (l1 & l2 & -> & H1 & H2).
  destruct Hcl as (Hlo & Hs & Hhi & _). unfold SIZE_OF_FREE_CHUNK in Hs.
  assert (chunk_ok lo hi (p, size)) as Hc by (unfold chunk_ok, chunk_end, SIZE_OF_FREE_CHUNK; simpl; lia).
  pose proof Hok as (Hok1 & Hok2 & H12)%list_ok_app.
  destruct l1 as [|d l1 _] using rev_ind.
  - simpl app in *. rewrite insert_free_nil by (done || lia). split; [by apply merge_next_ok|].
    intros x. rewrite (merge_next_bytes lo hi) by (done || (simpl; lia)).
    unfold chunk_end. simpl. tauto.
  - specialize (H1 d ltac:(apply elem_of_app; right; by left)).
    rewrite (insert_free_snoc lo hi) by (done || lia).
    pose proof Hok1 as (Hok1' & ((? & ? & ?) & _)%list_ok_cons & Hd)%list_ok_app.
    assert (∀ e, e ∈ l1 → chunk_end e < d.1) as Hd' by (intros; apply Hd; [done|by left]).
    destruct (Z.eqb_spec (chunk_end d) p) as [He|He].
    + assert (chunk_end (d.1, d.2 + size) = p + size) as Hend by (unfold chunk_end in *; simpl; lia).
      destruct (merge_next_ok lo hi (d.1, d.2 + size) l2) as [Hm Hm'];
        [unfold chunk_ok; rewrite Hend; unfold chunk_end, SIZE_OF_FREE_CHUNK in *; simpl; lia|done|by rewrite Hend|].
      split.
      * apply list_ok_app. split; [done|]. split; [done|]. intros a b Ha Hb.
        specialize (Hd' a Ha). specialize (Hm' b Hb). unfold apart. simpl in Hm'. lia.
      * intros x. rewrite !in_chunks_app, in_chunks_cons.
        rewrite (merge_next_bytes lo hi) by (done || (unfold SIZE_OF_FREE_CHUNK in *; simpl; lia)).
        rewrite Hend. pose proof (in_chunks_nil x). unfold chunk_end, SIZE_OF_FREE_CHUNK in *.
        simpl. destruct (Z.lt_ge_cases x p); intuition lia.
    + destruct (merge_next_ok lo hi (p, size) l2) as [Hm Hm']; [done|done|done|]. split.
      * change (d :: ?l) with ([d] ++ l). rewrite app_assoc. apply list_ok_app.
        split; [done|]. split; [done|]. intros a b Ha Hb. specialize (Hm' b Hb). simpl in Hm'.
        apply elem_of_app in Ha as [Ha| ->%list_elem_of_singleton]; unfold apart; [|lia].
        specialize (Hd' a Ha). unfold chunk_end, SIZE_OF_FREE_CHUNK in *. lia.
      * intros x. rewrite !in_chunks_app, !in_chunks_cons.
        rewrite (merge_next_bytes lo hi) by (done || (simpl; lia)).
        pose proof (in_chunks_nil x). unfold chunk_end. simpl. tauto.
Qed.

(** ** Deallocation, in memory *)

Lemma find_link_spec h p l2 l1 fuel :
  heap_repr h (l1 ++ l2) → (∀ d, d ∈ l1 ++ l2 → d.1 ≠ null) → (length l2 < fuel)%nat →
  ∀ k1 k2, l2 = k1 ++ k2 → (∀ d, d ∈ k1 → d.1 < p) → (∀ d, d ∈ k2 → p ≤ d.1) →
  find_link fuel h p (loc l1) = Some (loc (l1 ++ k1)).
Proof.
  revert l1 fuel. induction l2 as [|c l2 IH]; intros l1 fuel Hh Hnn Hf k1 k2 Hk Hk1 Hk2;
    (destruct fuel as [|fuel]; [simpl in Hf; lia|]); cbn [find_link].
  - symmetry in Hk. apply app_nil in Hk as [-> ->]. rewrite app_nil_r in *.
    by rewrite (read_loc _ _ _ Hh).
  - pose proof Hh as (r & Hl1 & (-> & _))%seg_app. rewrite (read_loc _ _ _ Hl1).
    rewrite (proj2 (Z.eqb_neq c.1 null)) by (apply Hnn, elem_of_app; right; by left). cbn [negb andb].
    destruct k1 as [|c' k1]; simpl in Hk.
    + rewrite app_nil_r. specialize (Hk2 c ltac:(rewrite <- Hk; by left)).
      by rewrite (proj2 (Z.ltb_ge _ _)) by lia.
    + injection Hk as <- Hk. rewrite (proj2 (Z.ltb_lt _ _)) by (apply Hk1; by left).
      rewrite <- loc_snoc with (l := l1).
      replace (l1 ++ c :: k1) with ((l1 ++ [c]) ++ k1) by (by rewrite <- app_assoc).
      apply (IH (l1 ++ [c]) fuel) with (k2 := k2);
        [by rewrite <- app_assoc|by rewrite <- app_assoc|simpl in Hf; lia|done| |done].
      intros d Hd. apply Hk1. by right.
Qed.

Lemma find_previous_spec m p l1 cur prev fuel :
  seg m cur l1 p → (∀ d, d ∈ l1 → d.1 ≠ null ∧ d.1 ≠ p) → (length l1 < fuel)%nat →
  find_previous fuel m p prev cur = Some (match last l1 with None => prev | Some d => d.1 end).
Proof.
  revert cur prev fuel. induction l1 as [|c l1 IH]; intros cur prev fuel Hs Hnn Hf;
    (destruct fuel as [|fuel]; [simpl in Hf; lia|]); cbn [find_previous].
  - simpl in Hs. subst cur. by rewrite Z.eqb_refl, andb_false_r.
  - destruct Hs as (-> & _ & Hs). destruct (Hnn c ltac:(by left)) as [H1 H2].
    rewrite (proj2 (Z.eqb_neq c.1 null)), (proj2 (Z.eqb_neq c.1 p)) by done. cbn [negb andb].
    rewrite (IH _ c.1); [|done| |simpl in Hf; lia].
    + destruct l1 as [|e l1]; [done|]. rewrite last_cons_cons.
      destruct (last (e :: l1)) eqn:He; [done|]. by apply last_None in He.
    + intros d Hd. apply Hnn. by right.
Qed.

(** A merge in memory is a merge of two neighbours of the list. *)
Lemma merge_spec lo hi m p l1 c d l2 :
  seg m p (l1 ++ c :: d :: l2) null →
  0 < lo → hi ≤ u64_max → Forall (chunk_ok lo hi) (l1 ++ c :: d :: l2) →
  StronglySorted (λ a b, chunk_end a ≤ b.1) (l1 ++ c :: d :: l2) →
  seg (merge m c.1 d.1) p
    (l1 ++ (if chunk_end c =? d.1 then (c.1, c.2 + d.2) :: l2 else c :: d :: l2)) null ∧
  (∀ x, ¬ (c.1 ≤ x < c.1 + SIZE_OF_FREE_CHUNK) → merge m c.1 d.1 x = m x).
Proof.
  intros Hseg Hlo Hhi Hok Hsort.
  apply Forall_app in Hok as [Hok1 [Hc [Hd Hok2]%Forall_cons]%Forall_cons].
  rewrite Forall_forall in Hok1, Hok2. destruct Hc as (? & ? & ?), Hd as (? & ? & ?).
  apply StronglySorted_app in Hsort as (Hsort1 & _ & Hsort2).
  apply StronglySorted_inv in Hsort2 as [Hsort2 Hc].
  apply StronglySorted_inv in Hsort2 as [_ Hd].
  apply Forall_cons in Hc as [Hcd Hc]. rewrite Forall_forall in Hc, Hd.
  pose proof Hseg as (r & Hs1 & Hs2)%seg_app. destruct Hs2 as (-> & Hcs & Hs2).
  destruct Hs2 as (Hcn & Hds & Hs2).
  unfold merge. rewrite Hcs.
  rewrite checked_add_Some by (unfold is_u64, chunk_end, SIZE_OF_FREE_CHUNK in *; lia).
  change (c.1 + c.2) with (chunk_end c).
  destruct (Z.eqb_spec (chunk_end c) d.1) as [He|He]; [|done].
  rewrite Hds. rewrite checked_add_Some by (unfold is_u64, chunk_end, SIZE_OF_FREE_CHUNK in *; lia).
  assert (is_u64 (chunk_next m d.1)) as Hn.
  { destruct l2 as [|e l2]; [simpl in Hs2; rewrite Hs2; unfold is_u64, null; lia|].
    destruct Hs2 as (-> & _). specialize (Hok2 e ltac:(by left)) as (? & ? & ?).
    unfold is_u64, chunk_end, SIZE_OF_FREE_CHUNK in *. lia. }
  split.
  - apply seg_app. exists c.1. split.
    + apply seg_header; [|done]. intros e Hin.
      specialize (Hsort1 e c Hin ltac:(by left)).
      specialize (Hok1 e Hin) as (? & ? & ?). unfold chunk_end, SIZE_OF_FREE_CHUNK in *. lia.
    + destruct (header_read m c.1 (c.2 + d.2) (chunk_next m d.1)) as [Hr1 Hr2];
        [unfold is_u64, chunk_end, SIZE_OF_FREE_CHUNK in *; lia|done|].
      simpl. split; [done|]. split; [exact Hr1|]. rewrite Hr2.
      apply seg_header; [|done]. intros e Hin. specialize (Hc e Hin).
      unfold chunk_end, SIZE_OF_FREE_CHUNK in *. lia.
  - intros x Hx. unfold set_next, set_size, SIZE_OF_FREE_CHUNK in *.
    rewrite !write64_outside by lia. done.
Qed.

Lemma weaken_sorted l : StronglySorted apart l → StronglySorted (λ a b, chunk_end a ≤ b.1) l.
Proof.
  induction 1 as [|a l _ IH Ha]; constructor; [done|]. eapply Forall_impl; [exact Ha|].
  unfold apart. intros b Hb. lia.
Qed.

(** The header of the block is written and linked in behind [l1]. *)
Lemma dealloc_link lo hi h l1 l2 p size q :
  list_ok lo hi (l1 ++ l2) → block_clear lo hi p size (l1 ++ l2) →
  (∀ d, d ∈ l1 → chunk_end d ≤ p) → (∀ d, d ∈ l2 → p + size ≤ d.1) →
  heap_repr h (l1 ++ l2) → seg (set_size (heap_mem h) p size) (head_ptr h) l1 q →
  seg (set_size (heap_mem h) p size) q l2 null →
  let h2 := mkHeap (head_ptr h) (set_next (set_size (heap_mem h) p size) p q) in
  let h3 := write_link h2 (loc l1) p in
  heap_repr h3 (l1 ++ (p, size) :: l2) ∧ chunk_next (heap_mem h3) p = q ∧
  (∀ x, ¬ in_chunks x (l1 ++ l2) → ¬ (p ≤ x < p + size) → heap_mem h3 x = heap_mem h x).
Proof.
  intros Hok Hcl H1 H2 Hh Hq1 Hq2 h2 h3. destruct Hcl as (Hlo & Hs & Hhi & _).
  pose proof Hok as (Hok1 & Hok2 & _)%list_ok_app. pose proof Hok as [Hpos Hmax _ _].
  assert (∀ d, d ∈ l1 → d.1 + SIZE_OF_FREE_CHUNK ≤ p) as H1'.
  { intros d Hd. specialize (H1 d Hd). pose proof (list_ok_in _ _ _ _ Hok1 Hd) as (? & ? & ?).
    unfold chunk_end in *. lia. }
  assert (is_u64 q) as Hqu.
  { destruct l2 as [|d l2]; simpl in Hq2; [subst q; by vm_compute|]. destruct Hq2 as (-> & _).
    pose proof (list_ok_in _ _ _ d Hok2 ltac:(by left)) as (? & ? & ?).
    unfold is_u64, chunk_end, SIZE_OF_FREE_CHUNK in *. lia. }
  assert (∀ x, ¬ (p + 8 ≤ x < p + 16) → heap_mem h2 x = set_size (heap_mem h) p size x) as Hh2.
  { intros x Hx. apply write64_outside. lia. }
  destruct (write_loc lo hi h2 l1 q p Hok1) as [Hw1 Hw2].
  { unfold is_u64, SIZE_OF_FREE_CHUNK in *. lia. }
  { eapply seg_ext; [|exact Hq1]. intros d x Hd Hx. apply Hh2. specialize (H1' d Hd).
    unfold SIZE_OF_FREE_CHUNK in *. lia. }
  fold h3 in Hw1, Hw2.
  assert (∀ x, p ≤ x → heap_mem h3 x = heap_mem h2 x) as Hh3.
  { intros x Hx. apply Hw2. intros d Hd. specialize (H1' d Hd). lia. }
  destruct (header_read (heap_mem h) p size q) as [Hr1 Hr2];
    [unfold is_u64, SIZE_OF_FREE_CHUNK in *; lia|done|].
  assert (chunk_next (heap_mem h3) p = q) as Hn.
  { rewrite <- Hr2. apply read64_ext. intros x Hx. apply Hh3. lia. }
  split_and!; [|done|].
  - apply seg_app. exists p. split; [exact Hw1|]. simpl. split; [done|]. split.
    + rewrite <- Hr1. apply read64_ext. intros x Hx. apply Hh3. lia.
    + rewrite Hn. eapply seg_ext; [|exact Hq2]. intros d x Hd Hx. specialize (H2 d Hd).
      unfold SIZE_OF_FREE_CHUNK in *. rewrite Hh3 by lia. apply Hh2. lia.
  - intros x Hx Hxp. rewrite Hw2.
    + cbn. unfold set_next, set_size, SIZE_OF_FREE_CHUNK in *. rewrite !write64_outside by lia. done.
    + intros d Hd Hxd. apply Hx. exists d. split; [apply elem_of_app; by left|].
      pose proof (list_ok_in _ _ _ _ Hok1 Hd) as (? & ? & ?). unfold chunk_end in *. lia.
Qed.

(** The block between its neighbours, before the merges. *)
Lemma block_in_list lo hi l1 c l2 :
  list_ok lo hi (l1 ++ l2) → chunk_ok lo hi c →
  (∀ d, d ∈ l1 → chunk_end d ≤ c.1) → (∀ d, d ∈ l2 → chunk_end c ≤ d.1) →
  Forall (chunk_ok lo hi) (l1 ++ c :: l2) ∧
  StronglySorted (λ a b, chunk_end a ≤ b.1) (l1 ++ c :: l2).
Proof.
  intros Hok Hc H1 H2. pose proof Hok as ([_ _ Hf1 Hs1] & [_ _ Hf2 Hs2] & H12)%list_ok_app. split.
  - apply Forall_app. split; [done|]. by constructor.
  - apply StronglySorted_app. split_and!.
    + intros a b Ha [->|Hb]%elem_of_cons; [auto|]. specialize (H12 a b Ha Hb).
      unfold apart in H12. lia.
    + by apply weaken_sorted.
    + constructor; [by apply weaken_sorted|]. by apply Forall_forall.
Qed.

Lemma merge_next_step lo hi m p l1 c l2 :
  list_ok lo hi (l1 ++ l2) → chunk_ok lo hi c →
  (∀ d, d ∈ l1 → chunk_end d ≤ c.1) → (∀ d, d ∈ l2 → chunk_end c ≤ d.1) →
  seg m p (l1 ++ c :: l2) null →
  let m' := if chunk_next m c.1 =? null then m else merge m c.1 (chunk_next m c.1) in
  seg m' p (l1 ++ merge_next c l2) null ∧
  (∀ x, ¬ (c.1 ≤ x < c.1 + SIZE_OF_FREE_CHUNK) → m' x = m x).
Proof.
  intros Hok Hc H1 H2 Hs m'. destruct (block_in_list lo hi l1 c l2 Hok Hc H1 H2) as [Hf Hsort].
  pose proof Hok as [Hpos Hmax _ _].
  pose proof Hs as (r & _ & Hcs)%seg_app. destruct Hcs as (_ & _ & Hl2).
  subst m'. destruct l2 as [|d l2].
  - simpl in Hl2. by rewrite Hl2.
  - destruct Hl2 as (Hn & _). rewrite Hn.
    pose proof Hok as (_ & ((? & _) & _)%list_ok_cons & _)%list_ok_app.
    rewrite (proj2 (Z.eqb_neq d.1 null)) by (unfold null; lia).
    by apply (merge_spec lo hi).
Qed.

Lemma merge_previous_step lo hi m p l1 c l2 fuel :
  list_ok lo hi (l1 ++ l2) → chunk_ok lo hi c →
  (∀ d, d ∈ l1 → chunk_end d ≤ c.1) → (∀ d, d ∈ l2 → chunk_end c ≤ d.1) →
  seg m p (l1 ++ merge_next c l2) null → (length l1 < fuel)%nat →
  ∃ prev, find_previous fuel m c.1 null p = Some prev ∧
    let m' := if prev =? null then m else merge m prev c.1 in
    seg m' p (insert_free c.1 c.2 (l1 ++ l2)) null ∧
    (∀ x, (∀ d, d ∈ l1 → ¬ (d.1 ≤ x < d.1 + SIZE_OF_FREE_CHUNK)) → m' x = m x).
Proof.
  intros Hok Hc H1 H2 Hs Hf. pose proof Hok as (Hok1 & Hok2 & _)%list_ok_app.
  pose proof Hok as [Hpos Hmax _ _]. destruct c as [a size].
  pose proof Hc as (Hc1 & Hc2 & Hc3). cbn [fst snd] in *.
  destruct (merge_next_ok lo hi (a, size) l2 Hc Hok2 H2) as [Hmok Hmle].
  assert (∃ n t, merge_next (a, size) l2 = (a, n) :: t ∧
    ∀ b k, b + k = a → merge_next (b, k + size) l2 = (b, k + n) :: t) as (n & t & Hmn & Hprev).
  { destruct l2 as [|d l2]; cbn [merge_next fst snd]; [eauto|].
    assert (∀ b k, b + k = a → chunk_end (b, k + size) = chunk_end (a, size)) as Hbk.
    { unfold chunk_end. simpl. lia. }
    destruct (Z.eqb_spec (chunk_end (a, size)) d.1) as [He|He];
      (do 2 eexists; split; [done|]); intros b k Hb; rewrite (Hbk b k Hb).
    - rewrite (proj2 (Z.eqb_eq _ _)) by done. by rewrite Z.add_assoc.
    - by rewrite (proj2 (Z.eqb_neq _ _)) by done. }
  pose proof Hs as (r & Hl1 & Hr)%seg_app. rewrite Hmn in Hr. destruct Hr as (-> & _).
  cbn [fst] in Hl1. rewrite (find_previous_spec m a l1 p null fuel Hl1); [|clear -H1 Hok1 Hpos|done].
  2:{ intros d Hd. specialize (H1 d Hd). pose proof (list_ok_in _ _ _ _ Hok1 Hd) as (? & ? & ?).
      unfold chunk_end, SIZE_OF_FREE_CHUNK, null in *. simpl in *. lia. }
  eexists. split; [done|]. destruct l1 as [|d l1 _] using rev_ind; simpl last.
  - simpl app in *. rewrite insert_free_nil by (unfold SIZE_OF_FREE_CHUNK in *; done || lia). done.
  - rewrite last_snoc. pose proof Hok1 as (Hok1' & (Hd & _)%list_ok_cons & Hd1)%list_ok_app.
    pose proof Hd as (Hd2 & Hd3 & Hd4). rewrite (proj2 (Z.eqb_neq d.1 null)) by (unfold null; lia).
    specialize (H1 d ltac:(apply elem_of_app; right; by left)).
    rewrite (insert_free_snoc lo hi) by (unfold SIZE_OF_FREE_CHUNK in *; done || lia).
    rewrite Hmn in Hs, Hmok, Hmle |- *. rewrite <- app_assoc in Hs.
    destruct (block_in_list lo hi l1 d ((a, n) :: t)) as [Hbf Hbs]; [|done| | |].
    { apply list_ok_app. split; [done|]. split; [done|]. intros e f He Hff.
      specialize (Hd1 e d He ltac:(by left)). specialize (Hmle f Hff).
      unfold apart, chunk_end, SIZE_OF_FREE_CHUNK in *. simpl in *. lia. }
    { intros e He. specialize (Hd1 e d He ltac:(by left)). unfold apart in Hd1. lia. }
    { intros e He. specialize (Hmle e He). simpl in *. lia. }
    destruct (merge_spec lo hi m p l1 d (a, n) t Hs Hpos Hmax Hbf Hbs) as [Hm1 Hm2]. simpl in Hm1, Hm2.
    split; [|intros x Hx; apply Hm2, Hx, elem_of_app; right; by left].
    destruct (Z.eqb_spec (chunk_end d) a) as [He|He]; [|exact Hm1].
    by rewrite (Hprev d.1 d.2) by exact He.
Qed.

Lemma dealloc_spec_list lo hi layout h l p fuel :
  list_ok lo hi l → heap_repr h l → block_clear lo hi p (block_size layout) l →
  p mod ALIGN_OF_FREE_CHUNK = 0 → (length l < fuel)%nat →
  ∃ h', dealloc fuel p layout h = Some (Ok h') ∧
    heap_repr h' (insert_free p (block_size layout) l) ∧
    (∀ x, ¬ in_chunks x l → ¬ (p ≤ x < p + block_size layout) → heap_mem h' x = heap_mem h x).
Proof.
  intros Hok Hh Hcl Hal Hf. destruct (block_split lo hi p _ l Hok Hcl) as (l1 & l2 & -> & H1 & H2).
  pose proof Hcl as (Hlo & Hs & Hhi & Hclr). pose proof Hok as [Hpos Hmax Hall Hsort].
  unfold dealloc. rewrite (proj2 (is_multiple_of_spec p ALIGN_OF_FREE_CHUNK ltac:(done)) Hal). cbn [negb].
  change (Z.max (layout_size layout) SIZE_OF_FREE_CHUNK) with (block_size layout).
  set (size := block_size layout) in *. set (c := (p, size)).
  assert (∀ d, d ∈ l1 ++ l2 → SIZE_OF_FREE_CHUNK ≤ d.2 ∧ lo ≤ d.1) as Hsz.
  { intros d Hd. rewrite Forall_forall in Hall. by destruct (Hall d Hd) as (? & ? & ?). }
  set (h1 := mkHeap (head_ptr h) (set_size (heap_mem h) p size)).
  assert (heap_repr h1 (l1 ++ l2)) as Hh1.
  { eapply seg_ext; [|exact Hh]. intros d x Hd Hx. apply write64_outside.
    specialize (Hclr d Hd). specialize (Hsz d Hd).
    unfold chunk_end, SIZE_OF_FREE_CHUNK in *. lia. }
  assert (find_link fuel h1 p LHead = Some (loc l1)) as ->.
  { apply (find_link_spec h1 p (l1 ++ l2) [] fuel Hh1) with (k2 := l2); [|done|done| |].
    - intros d Hd. specialize (Hsz d Hd). unfold null. lia.
    - intros d Hd. specialize (H1 d Hd). specialize (Hsz d ltac:(apply elem_of_app; by left)).
      unfold chunk_end, SIZE_OF_FREE_CHUNK in *. lia.
    - intros d Hd. specialize (H2 d Hd). unfold SIZE_OF_FREE_CHUNK in *. lia. }
  cbn [mbind option_bind].
  pose proof Hh1 as (q & Hq1 & Hq2)%seg_app. rewrite (read_loc h1 l1 q Hq1).
  pose proof (dealloc_link lo hi h l1 l2 p size q Hok Hcl H1 H2 Hh Hq1 Hq2) as Hlink.
  set (h2 := mkHeap (head_ptr h1) (set_next (heap_mem h1) p q)).
  cbv zeta in Hlink.
  change (mkHeap (head_ptr h) (set_next (set_size (heap_mem h) p size) p q)) with h2 in Hlink.
  set (h3 := write_link h2 (loc l1) p) in *. destruct Hlink as (Hh3 & _ & Hm3).
  assert (chunk_ok lo hi c) as Hc by (unfold chunk_ok, chunk_end, c; simpl; lia).
  destruct (merge_next_step lo hi (heap_mem h3) (head_ptr h3) l1 c l2 Hok Hc H1 H2 Hh3) as (Hs4 & Hm4).
  cbn [c fst] in Hs4, Hm4.
  set (m4 := if chunk_next (heap_mem h3) p =? null then heap_mem h3
             else merge (heap_mem h3) p (chunk_next (heap_mem h3) p)) in *.
  destruct (merge_previous_step lo hi m4 (head_ptr h3) l1 c l2 fuel Hok Hc H1 H2 Hs4)
    as (prev & Hprev & Hs5 & Hm5); [rewrite length_app in Hf; lia|].
  cbn [c fst snd] in Hprev, Hs5, Hm5. rewrite Hprev. cbn [mbind option_bind].
  eexists. split; [done|]. split; [exact Hs5|]. cbn [heap_mem].
  intros x Hx Hxp. rewrite Hm5, Hm4, Hm3; [done|done|done| |].
  - unfold SIZE_OF_FREE_CHUNK in *. lia.
  - intros d Hd Hxd. apply Hx. exists d. split; [apply elem_of_app; by left|].
    specialize (Hsz d ltac:(apply elem_of_app; by left)). unfold chunk_end. lia.
Qed.

(** ** Calls as the list sees them *)

(** Enough fuel for any free list of the heap: a chunk takes 16 bytes. *)
Definition heap_fuel (lo hi : Z) : nat := S (Z.to_nat ((hi - lo) / SIZE_OF_FREE_CHUNK)).

Lemma list_ok_length lo hi l : list_ok lo hi l → ∀ b, lo ≤ b → b ≤ hi → (∀ c, c ∈ l → b ≤ c.1) →
  b + Z.of_nat (length l) * SIZE_OF_FREE_CHUNK ≤ hi.
Proof.
  induction l as [|c l IH]; intros Hok b Hb Hbh Hmin; [simpl; lia|].
  apply list_ok_cons in Hok as ((? & ? & ?) & Hok & Hd).
  specialize (Hmin c ltac:(by left)). cbn [length]. rewrite Nat2Z.inj_succ.
  unfold chunk_end, SIZE_OF_FREE_CHUNK in *.
  assert (c.1 + 16 + Z.of_nat (length l) * 16 ≤ hi); [|lia].
  apply IH; [done|lia|lia|]. intros d Hd'. specialize (Hd d Hd'). unfold apart, chunk_end in Hd. lia.
Qed.

Lemma heap_fuel_enough lo hi l : lo ≤ hi → list_ok lo hi l → (length l < heap_fuel lo hi)%nat.
Proof.
  intros Hle Hok. pose proof (list_ok_length lo hi l Hok lo ltac:(lia) Hle) as H.
  unfold heap_fuel, SIZE_OF_FREE_CHUNK in *.
  assert (lo + Z.of_nat (length l) * 16 ≤ hi) as Hb.
  { apply H. intros c Hc. by destruct (list_ok_in _ _ _ _ Hok Hc). }
  Z.div_mod_to_equations. lia.
Qed.

Lemma block_size_bounds layout : layout_ok layout →
  SIZE_OF_FREE_CHUNK ≤ block_size layout < 2 ^ 63 + 16 ∧ layout_size layout ≤ block_size layout.
Proof. intros [? _]. unfold block_size, SIZE_OF_FREE_CHUNK. lia. Qed.

Lemma block_align_divides layout p : layout_ok layout →
  p mod block_align layout = 0 → p mod layout_align layout = 0.
Proof.
  intros (_ & k & Hk & Hal) Hp. unfold block_align, ALIGN_OF_FREE_CHUNK in Hp. rewrite Hal in *.
  destruct (Z.le_gt_cases k 3) as [Hk3|Hk3].
  - pose proof (Z.pow_le_mono_r 2 k 3 ltac:(lia) Hk3). change (2 ^ 3) with 8 in *.
    rewrite Z.max_r in Hp by lia. apply Z.mod_divide; [pose proof (Z.pow_pos_nonneg 2 k); lia|].
    apply Z.divide_trans with 8; [|by apply Z.mod_divide].
    exists (2 ^ (3 - k)). rewrite <- Z.pow_add_r by lia. by replace (3 - k + k) with 3 by lia.
  - pose proof (Z.pow_le_mono_r 2 3 k ltac:(lia) ltac:(lia)). change (2 ^ 3) with 8 in *.
    by rewrite Z.max_l in Hp by lia.
Qed.

(** A block can hold the header of a chunk. *)
Lemma block_align_chunk layout p : layout_ok layout → p mod block_align layout = 0 → p mod ALIGN_OF_FREE_CHUNK = 0.
Proof.
  intros (_ & k & Hk & Hal) Hp. unfold block_align, ALIGN_OF_FREE_CHUNK in *. rewrite Hal in Hp.
  destruct (Z.le_gt_cases k 3) as [Hk3|Hk3].
  - pose proof (Z.pow_le_mono_r 2 k 3 ltac:(lia) Hk3). change (2 ^ 3) with 8 in *. by rewrite Z.max_r in Hp by lia.
  - pose proof (Z.pow_le_mono_r 2 3 k ltac:(lia) ltac:(lia)). change (2 ^ 3) with 8 in *. rewrite Z.max_l in Hp by lia.
    apply Z.mod_divide; [done|]. apply Z.divide_trans with (2 ^ k); [|apply Z.mod_divide; [lia|done]].
    exists (2 ^ (k - 3)). change 8 with (2 ^ 3). rewrite <- Z.pow_add_r by lia. by replace (k - 3 + 3) with k by lia.
Qed.

(** What first fit hands out: a free, aligned block that is then not free. *)
Lemma first_fit_spec lo hi layout l p l' : layout_ok layout → list_ok lo hi l →
  first_fit (block_size layout) (block_align layout) l = Some (p, l') →
  list_ok lo hi l' ∧ lo ≤ p ∧ p + block_size layout ≤ hi ∧ p mod block_align layout = 0 ∧
  (∀ x, p ≤ x < p + block_size layout → in_chunks x l) ∧
  (∀ x, in_chunks x l' → in_chunks x l ∧ ¬ (p ≤ x < p + block_size layout)).
Proof.
  intros Hlay. pose proof (block_size_bounds layout Hlay) as [[Hs _] _].
  destruct (block_align_pow layout Hlay) as (k & Hk & Hal).
  assert (0 < block_align layout) as Hpos by (rewrite Hal; apply Z.pow_pos_nonneg; lia).
  revert l'. induction l as [|c l IH]; intros l' Hok Hff; [done|]. cbn [first_fit] in Hff.
  pose proof Hok as (Hc & Hl & Hd)%list_ok_cons. destruct Hc as (Hc1 & Hc2 & Hc3).
  pose proof (align_up_bounds c.1 (block_align layout) Hpos) as [Hup Hmod].
  set (a := align_up c.1 (block_align layout)) in *.
  destruct (Z.leb_spec (a + block_size layout) (chunk_end c)) as [Hfit|_].
  - injection Hff as <- <-. split_and!; [|lia|lia|done| |].
    + apply (remainder_ok lo hi c a (block_size layout) l Hok); lia.
    + intros x Hx. apply in_chunks_cons. left. lia.
    + intros x. rewrite in_chunks_app, in_chunks_cons. unfold remainder.
      intros [Hx|Hx].
      * destruct (SIZE_OF_FREE_CHUNK <=? _); [|by apply in_chunks_nil in Hx].
        apply in_chunks_cons in Hx as [Hx|Hx]; [|by apply in_chunks_nil in Hx].
        unfold chunk_end, SIZE_OF_FREE_CHUNK in *. simpl in Hx. split; [left|]; lia.
      * split; [by right|]. destruct Hx as (d & Hd' & Hx). specialize (Hd d Hd').
        unfold apart in Hd. lia.
  - destruct (first_fit _ _ l) as [[p2 l2]|] eqn:Hf; [|done]. cbn in Hff. injection Hff as <- <-.
    destruct (IH l2 Hl eq_refl) as (Hok2 & ? & ? & ? & Hin & Hout). split_and!; [|done|done|done| |].
    + apply list_ok_cons. split; [done|]. split; [done|]. intros d Hd'.
      destruct Hok2 as [_ _ Hf2 _]. rewrite Forall_forall in Hf2.
      destruct (Hf2 d Hd') as (? & ? & ?).
      destruct (Hout d.1) as [(e & He & Hx) _].
      { exists d. split; [done|]. unfold chunk_end, SIZE_OF_FREE_CHUNK in *. lia. }
      specialize (Hd e He). unfold apart in *. lia.
    + intros x Hx. apply in_chunks_cons. right. auto.
    + intros x. rewrite !in_chunks_cons. intros [Hx|Hx].
      * split; [by left|]. intros Hb. destruct (Hin x Hb) as (e & He & Hxe). specialize (Hd e He).
        unfold apart in Hd. lia.
      * destruct (Hout x Hx). auto.
Qed.

(** ** Runs of the allocator

    [live] are the blocks handed out and not yet returned.  Their owners write
    to their bytes as they like. *)

Abbreviation blocks := (list (Z * Layout)) (only parsing).

Inductive heap_call (lo hi : Z) : Heap * blocks → Heap * blocks → Prop :=
  | call_alloc h layout p h' live :
      layout_ok layout → alloc (heap_fuel lo hi) layout h = Some (p, h') → p ≠ null →
      heap_call lo hi (h, live) (h', (p, layout) :: live)
  | call_alloc_fails h layout h' live :
      layout_ok layout → alloc (heap_fuel lo hi) layout h = Some (null, h') →
      heap_call lo hi (h, live) (h', live)
  | call_dealloc h p layout h' live1 live2 :
      dealloc (heap_fuel lo hi) p layout h = Some (Ok h') →
      heap_call lo hi (h, live1 ++ (p, layout) :: live2) (h', live1 ++ live2).

Inductive heap_step (lo hi : Z) : Heap * blocks → Heap * blocks → Prop :=
  | step_call c c' : heap_call lo hi c c' → heap_step lo hi c c'
  | step_write h live p layout x v :
      (p, layout) ∈ live → p ≤ x < p + layout_size layout →
      heap_step lo hi (h, live)
        (mkHeap (head_ptr h) (λ y, if y =? x then v else heap_mem h y), live).

Inductive heap_steps (lo hi : Z) : Heap * blocks → Heap * blocks → Prop :=
  | heap_steps_refl c : heap_steps lo hi c c
  | heap_steps_step c1 c2 c3 :
      heap_steps lo hi c1 c2 → heap_step lo hi c2 c3 → heap_steps lo hi c1 c3.

Definition in_block (x : Z) (b : Z * Layout) : Prop := b.1 ≤ x < b.1 + block_size b.2.

Definition block_ok (lo hi : Z) (b : Z * Layout) : Prop :=
  layout_ok b.2 ∧ lo ≤ b.1 ∧ b.1 + block_size b.2 ≤ hi ∧ b.1 mod block_align b.2 = 0.

Definition disjoint_blocks (b1 b2 : Z * Layout) : Prop :=
  b1.1 + block_size b1.2 ≤ b2.1 ∨ b2.1 + block_size b2.2 ≤ b1.1.

(** The free chunks and the live blocks share no byte. *)
Record heap_inv (lo hi : Z) (c : Heap * blocks) (l : list chunk) : Prop := {
  hi_bounds : lo ≤ hi;
  hi_repr : heap_repr c.1 l;
  hi_list : list_ok lo hi l;
  hi_blocks : Forall (block_ok lo hi) c.2;
  hi_disjoint : ForallOrdPairs disjoint_blocks c.2;
  hi_live : ∀ b x, b ∈ c.2 → in_block x b → ¬ in_chunks x l;
}.

Lemma alloc_cases lo hi h l layout : lo ≤ hi → heap_repr h l → list_ok lo hi l → layout_ok layout →
  match first_fit (block_size layout) (block_align layout) l with
  | None => alloc (heap_fuel lo hi) layout h = Some (null, h)
  | Some (p, l') => ∃ h', alloc (heap_fuel lo hi) layout h = Some (p, h') ∧ heap_repr h' l' ∧
      (∀ x, ¬ in_chunks x l → heap_mem h' x = heap_mem h x)
  end.
Proof.
  intros Hle Hh Hok Hlay.
  pose proof (alloc_loop_spec lo hi layout l (heap_fuel lo hi) h [] Hlay Hok Hh) as H.
  apply H, heap_fuel_enough; done.
Qed.

Lemma block_disjoint_chunks lo hi l p size : list_ok lo hi l → 0 < size →
  (∀ x, p ≤ x < p + size → ¬ in_chunks x l) →
  ∀ d, d ∈ l → chunk_end d ≤ p ∨ p + size ≤ d.1.
Proof.
  intros Hok Hs H d Hd. pose proof (list_ok_in _ _ _ _ Hok Hd) as (? & ? & ?).
  unfold SIZE_OF_FREE_CHUNK in *.
  destruct (Z.le_gt_cases (chunk_end d) p); [by left|right].
  destruct (Z.le_gt_cases (p + size) d.1); [done|exfalso].
  apply (H (Z.max p d.1)); [unfold chunk_end in *; lia|].
  exists d. split; [done|]. unfold chunk_end in *. lia.
Qed.

Lemma ForallOrdPairs_app_cons {A} (R : A → A → Prop) (l1 l2 : list A) a :
  ForallOrdPairs R (l1 ++ a :: l2) → ForallOrdPairs R (l1 ++ l2) ∧
  (∀ b, b ∈ l1 ++ l2 → R a b ∨ R b a).
Proof.
  induction l1 as [|c l1 IH]; simpl; intros H; inversion_clear H as [|? ? Hf Hp].
  - split; [done|]. rewrite Forall_forall in Hf. auto.
  - destruct (IH Hp) as [H1 H2]. rewrite Forall_app, Forall_cons in Hf.
    destruct Hf as (Hf1 & Hca & Hf2). split.
    + constructor; [|done]. by apply Forall_app.
    + intros b [->|Hb]%elem_of_cons; auto.
Qed.

Lemma in_block_disjoint b1 b2 x : disjoint_blocks b1 b2 ∨ disjoint_blocks b2 b1 →
  in_block x b1 → in_block x b2 → False.
Proof. unfold disjoint_blocks, in_block. lia. Qed.

Lemma heap_call_inv lo hi c c' l : heap_inv lo hi c l → heap_call lo hi c c' →
  ∃ l', heap_inv lo hi c' l' ∧
    ∀ b x, b ∈ c.2 → b ∈ c'.2 → in_block x b → heap_mem c'.1 x = heap_mem c.1 x.
Proof.
  intros [Hle Hh Hok Hb Hd Hl] Hcall.
  destruct Hcall as [h layout p h' live Hlay Halloc Hp|h layout h' live Hlay Halloc
    |h p layout h' live1 live2 Hde]; cbn [fst snd] in *.
  - pose proof (alloc_cases lo hi h l layout Hle Hh Hok Hlay) as H.
    destruct (first_fit _ _ l) as [[p2 l2]|] eqn:Hff; [|rewrite H in Halloc; by simplify_eq].
    destruct H as (h2 & Ha & Hh2 & Hm). rewrite Ha in Halloc. injection Halloc as -> ->.
    destruct (first_fit_spec lo hi layout l p l2 Hlay Hok Hff) as (Hok2 & Hp1 & Hp2 & Hp3 & Hin & Hout).
    exists l2. split; [split; cbn [fst snd]|].
    + done.
    + done.
    + done.
    + by constructor.
    + constructor; [|done]. apply Forall_forall. intros b Hbl.
      pose proof (block_size_bounds layout Hlay) as [[? _] _]. unfold SIZE_OF_FREE_CHUNK in *.
      rewrite Forall_forall in Hb. destruct (Hb b Hbl) as (Hbl' & _).
      pose proof (block_size_bounds b.2 Hbl') as [[? _] _]. unfold SIZE_OF_FREE_CHUNK in *.
      unfold disjoint_blocks. simpl.
      destruct (Z.le_gt_cases (p + block_size layout) b.1); [by left|right].
      destruct (Z.le_gt_cases (b.1 + block_size b.2) p); [done|exfalso].
      apply (Hl b (Z.max p b.1)); [done|unfold in_block; lia|]. apply Hin. lia.
    + intros b x [->|Hbl]%elem_of_cons Hx Hc; destruct (Hout x Hc) as [Hc1 Hc2]; [by apply Hc2|].
      by apply (Hl b x).
    + intros b x Hbl _ Hx. apply Hm. by apply (Hl b).
  - pose proof (alloc_cases lo hi h l layout Hle Hh Hok Hlay) as H.
    destruct (first_fit _ _ l) as [[p2 l2]|] eqn:Hff.
    + destruct H as (h2 & Ha & _). rewrite Ha in Halloc. injection Halloc as -> ->. exfalso.
      destruct (first_fit_spec lo hi layout l null l2 Hlay Hok Hff) as (_ & Hp1 & _).
      destruct Hok as [Hpos _ _ _]. unfold null in Hp1. lia.
    + rewrite H in Halloc. injection Halloc as <-. exists l. done.
  - destruct (ForallOrdPairs_app_cons _ _ _ _ Hd) as [Hd1 Hd2].
    assert ((p, layout) ∈ live1 ++ (p, layout) :: live2) as Hin by (apply elem_of_app; right; by left).
    rewrite Forall_app, Forall_cons in Hb. destruct Hb as (Hb1 & (Hlay & Hp1 & Hp2 & Hp3) & Hb2).
    cbn [fst snd] in *. pose proof (block_size_bounds layout Hlay) as [[Hs _] _].
    assert (block_clear lo hi p (block_size layout) l) as Hcl.
    { split_and!; [done..|]. apply (block_disjoint_chunks lo hi); [done|unfold SIZE_OF_FREE_CHUNK in *; lia|].
      intros x Hx. by apply (Hl _ x Hin). }
    destruct (dealloc_spec_list lo hi layout h l p (heap_fuel lo hi) Hok Hh Hcl) as (h2 & Hde2 & Hh2 & Hm);
      [by apply (block_align_chunk layout)|by apply heap_fuel_enough|].
    rewrite Hde2 in Hde. injection Hde as ->.
    destruct (insert_free_ok lo hi p (block_size layout) l Hok Hcl) as [Hok2 Hbytes].
    assert (∀ b, b ∈ live1 ++ live2 → b ∈ live1 ++ (p, layout) :: live2) as Hsub.
    { intros b. rewrite !elem_of_app, elem_of_cons. tauto. }
    assert (∀ b x, b ∈ live1 ++ live2 → in_block x b → ¬ (p ≤ x < p + block_size layout)) as Hsep.
    { intros b x Hbl Hx Hxp. destruct (in_block_disjoint (p, layout) b x); auto. }
    exists (insert_free p (block_size layout) l). split; [split; cbn [fst snd]|].
    + done.
    + done.
    + done.
    + by apply Forall_app.
    + done.
    + intros b x Hbl Hx [Hc|Hc]%Hbytes; [by apply (Hl b x (Hsub b Hbl))|by apply (Hsep b x)].
    + intros b x Hbl Hbl' Hx. apply Hm; [by apply (Hl b x)|by apply (Hsep b x)].
Qed.

Lemma heap_step_inv lo hi c c' l : heap_inv lo hi c l → heap_step lo hi c c' →
  ∃ l', heap_inv lo hi c' l'.
Proof.
  intros Hinv Hstep. destruct Hstep as [c c' Hcall|h live p layout x v Hin Hx].
  - destruct (heap_call_inv lo hi c c' l Hinv Hcall) as (l' & Hinv' & _). by exists l'.
  - destruct Hinv as [Hle Hh Hok Hb Hd Hl]. cbn [fst snd] in *.
    exists l. split; cbn [fst snd]; [done| |done..].
    eapply seg_ext; [|exact Hh]. intros c y Hc Hy. cbn. destruct (Z.eqb_spec y x) as [->|]; [|done].
    exfalso. rewrite Forall_forall in Hb. destruct (Hb _ Hin) as (Hlay & _).
    pose proof (block_size_bounds layout Hlay) as [_ Hs]. cbn [fst snd] in *.
    apply (Hl _ x Hin); [unfold in_block; simpl; lia|]. exists c. split; [done|].
    pose proof (list_ok_in _ _ _ _ Hok Hc) as (? & ? & ?). unfold chunk_end in *. lia.
Qed.

Lemma heap_steps_inv lo hi c c' l : heap_inv lo hi c l → heap_steps lo hi c c' →
  ∃ l', heap_inv lo hi c' l'.
Proof.
  intros Hinv Hsteps. induction Hsteps as [c|c1 c2 c3 _ IH Hstep]; [eauto|].
  destruct (IH Hinv) as [l2 Hinv2]. by eapply heap_step_inv.
Qed.

(** ** Initialisation *)

(** A region that [init] may be given: it lies in the address space, not at
    its start. *)
Definition region_ok (r : HeapRegion) : Prop :=
  0 < hr_start r ∧ 0 ≤ hr_size r ∧ hr_start r + hr_size r ≤ u64_max.

Lemma heap_init_spec r h : region_ok r →
  match heap_init r h with
  | (Ok _, h') => SIZE_OF_FREE_CHUNK ≤ hr_size r ∧ hr_start r mod ALIGN_OF_FREE_CHUNK = 0 ∧
      heap_inv (hr_start r) (hr_start r + hr_size r) (h', []) [(hr_start r, hr_size r)]
  | (Err e, h') => h' = h ∧
      (e = TooSmall ∧ hr_size r < SIZE_OF_FREE_CHUNK ∨
       e = Misaligned ∧ hr_start r mod ALIGN_OF_FREE_CHUNK ≠ 0)
  | (Panic, _) => False
  end.
Proof.
  intros (Hs & Hsz & Hend). unfold heap_init. unfold_monad.
  destruct (Z.ltb_spec (hr_size r) SIZE_OF_FREE_CHUNK); [auto|].
  destruct (is_multiple_of (hr_start r) ALIGN_OF_FREE_CHUNK) eqn:Hal; cbn [negb].
  2:{ split; [done|]. right. split; [done|]. intros Hm.
      apply is_multiple_of_spec in Hm; [congruence|done]. }
  apply is_multiple_of_spec in Hal; [|done]. cbn beta iota zeta.
  split; [done|]. split; [done|].
  destruct (header_read (heap_mem h) (hr_start r) (hr_size r) null) as [Hr1 Hr2];
    [unfold is_u64; lia|done|].
  split; cbn [fst snd]; [lia| | |constructor|constructor|].
  - unfold heap_repr. cbn. auto.
  - split; [lia|lia| |repeat constructor]. apply Forall_singleton.
    unfold chunk_ok, chunk_end. simpl. lia.
  - intros b x Hb. by apply not_elem_of_nil in Hb.
Qed.

(** ** The heap region *)

Lemma in_memory_ok {A} (f : M (option MemoryMapSnapshot) MemoryMapError A) e w a w1 :
  in_memory f e w = (Ok a, w1) → ∃ m, f (MEMORY_MAP w) = (Ok a, m) ∧
    w1 = mkWorld (HEAP_START w) (HEAP_SIZE w) (BOOT_SERVICES_EXITED w) m (FRAME_ALLOCATOR w).
Proof.
  unfold in_memory. destruct (f (MEMORY_MAP w)) as [[?| |] m]; intros; simplify_eq/=. eauto.
Qed.

Lemma in_frame_ok {A} (f : M (option FrameAllocator) FrameError A) e w a w1 :
  in_frame f e w = (Ok a, w1) → ∃ m, f (FRAME_ALLOCATOR w) = (Ok a, m) ∧
    w1 = mkWorld (HEAP_START w) (HEAP_SIZE w) (BOOT_SERVICES_EXITED w) (MEMORY_MAP w) m.
Proof.
  unfold in_frame. destruct (f (FRAME_ALLOCATOR w)) as [[?| |] m]; intros; simplify_eq/=. eauto.
Qed.

Lemma reserve_ok start length_ kind mm mm' :
  Memory.reserve start length_ kind mm = (Ok tt, mm') →
  ∃ m m', mm = Some m ∧ mm' = Some m' ∧ reserve_range start length_ kind m = (Ok tt, m').
Proof.
  unfold Memory.reserve. unfold_monad. destruct mm as [m|]; [|done]. cbn beta iota zeta.
  destruct (reserve_range start length_ kind m) as [[[]| |] m'] eqn:Hr; intros; simplify_eq. eauto.
Qed.

Lemma locked_ok {A} (f : M FrameAllocator FrameError A) st a st' :
  locked f st = (Ok a, st') → ∃ s s', st = Some s ∧ st' = Some s' ∧ f s = (Ok a, s').
Proof.
  unfold locked. unfold_monad. destruct st as [s|]; [|done]. cbn beta iota zeta.
  destruct (f s) as [[?| |] s'] eqn:Hf; intros; simplify_eq. eauto.
Qed.

(** The map from which the frame allocator is built: the firmware map, less
    the framebuffer, the kernel image and the boot stack. *)
Definition boot_map (ds : list MemoryDescriptor) (stack_marker : Z)
    (framebuffer : option (Z * Z)) (image : Z * Z) (m2 : MemoryMapSnapshot) : Prop :=
  ∃ m0 m1, Memory.initialize ds framebuffer None = (Ok tt, Some m0) ∧
    reserve_range image.1 image.2 Memory.Kernel m0 = (Ok tt, m1) ∧
    reserve_range (saturating_sub (stack_page stack_marker) (32 * 4096)) (64 * 4096)
      Memory.Kernel m1 = (Ok tt, m2).

(** The states that a successful [initialize_heap] went through. *)
Lemma initialize_heap_steps ds stack_marker framebuffer image w r w' :
  MEMORY_MAP w = None → FRAME_ALLOCATOR w = None →
  initialize_heap ds stack_marker framebuffer image w = (Ok r, w') →
  ∃ m2 fa fa' m3, boot_map ds stack_marker framebuffer image m2 ∧
    fa_new (ms_live m2) = Ok fa ∧ fa_largest_free_frames fa ≠ 0 ∧
    fa_allocate_contiguous (fa_largest_free_frames fa) fa
      = (Ok (mkPhysicalRange (hr_start r) (hr_size r)), fa') ∧
    reserve_range (hr_start r) (hr_size r) Memory.Kernel m2 = (Ok tt, m3) ∧
    w' = mkWorld (hr_start r) (hr_size r) true (Some m3) (Some fa').
Proof.
  intros Hm Hf Hinit. unfold initialize_heap in Hinit.
  apply M_bind_ok in Hinit as (w0 & w1 & [= <- <-] & Hinit).
  destruct (negb _); [done|].
  apply M_bind_ok in Hinit as ([] & w1 & [= <-] & Hinit).
  apply M_bind_ok in Hinit as ([] & w1 & (mm & Hmm & ->)%in_memory_ok & Hinit).
  apply M_bind_ok in Hinit as ([] & w1 & (mm1 & Hm1 & ->)%in_memory_ok & Hinit).
  apply M_bind_ok in Hinit as ([] & w1 & (mm2 & Hm2 & ->)%in_memory_ok & Hinit).
  cbn in Hmm, Hm1, Hm2. rewrite Hm in Hmm.
  apply reserve_ok in Hm1 as (m0 & m1 & -> & -> & Hr1).
  apply reserve_ok in Hm2 as (? & m2 & [= <-] & -> & Hr2).
  apply M_bind_ok in Hinit as (w0 & w1 & [= <- <-] & Hinit).
  apply M_bind_ok in Hinit as ([] & w1 & (fm & Hfm & ->)%in_frame_ok & Hinit).
  cbn in Hfm. rewrite Hf in Hfm. unfold Frame.initialize in Hfm. unfold_monad.
  destruct (fa_new (ms_live m2)) as [fa| |] eqn:Hnew; [|done..]. cbn in Hfm. simplify_eq.
  apply M_bind_ok in Hinit as (n & w1 & (fm & Hn & ->)%in_frame_ok & Hinit).
  apply locked_ok in Hn as (s & s' & [= <-] & -> & [= <- <-]).
  destruct (Z.eqb_spec (fa_largest_free_frames fa) 0) as [|Hpos]; [done|].
  apply M_bind_ok in Hinit as (range & w1 & (fm & Hn & ->)%in_frame_ok & Hinit).
  apply M_bind_ok in Hn as (p & s & (? & fa' & [= <-] & -> & Hn)%locked_ok & Hret).
  injection Hret as <- <-.
  apply M_bind_ok in Hinit as ([] & w1 & (mm & Hm3 & ->)%in_memory_ok & Hinit).
  apply reserve_ok in Hm3 as (? & m3 & [= <-] & -> & Hr3).
  cbn in Hinit, Hr3. injection Hinit as <- <-.
  exists m2, fa, fa', m3. split; [by exists m0, m1|]. destruct p. by cbn.
Qed.

Lemma reserve_range_kinds m start length_ kind m' x :
  ms_repr m → Forall (λ r, 0 ≤ mr_start r) (ms_live m) → is_u64 start → is_u64 length_ →
  reserve_range start length_ kind m = (Ok tt, m') →
  kind_of (ms_live m') x =
    (if decide (start ≤ x < start + length_) then const kind <$> kind_of (ms_live m) x
     else kind_of (ms_live m) x).
Proof.
  intros Hs Hpos Hst Hlen Hres. pose proof (reserve_range_eq m start length_ kind Hs Hst Hlen) as H.
  rewrite Hres in H. unfold reserve_spec in H. unfold is_u64 in *.
  case_decide; [done|]. case_decide; [done|]. destruct (existsb _ _); [|done].
  destruct H as (s'' & [= <-] & _ & Hl). rewrite Hl. apply kind_of_pieces; [lia..|done].
Qed.

(** ** Properties *)

(** C4. Between the calls of [alloc] and [dealloc] and the writes of the block
    owners to their own bytes, every live block lies in the heap region, is
    aligned as its layout asks and shares no byte with another live block, and
    [alloc] always returns. *)
Theorem heap_safe region h0 h1 h live :
  region_ok region → heap_init region h0 = (Ok tt, h1) →
  let lo := hr_start region in let hi := hr_start region + hr_size region in
  heap_steps lo hi (h1, []) (h, live) →
  Forall (λ b, lo ≤ b.1 ∧ b.1 + layout_size b.2 ≤ hi ∧ b.1 mod layout_align b.2 = 0) live ∧
  ForallOrdPairs disjoint_blocks live ∧
  (∀ layout, layout_ok layout → ∃ p h', alloc (heap_fuel lo hi) layout h = Some (p, h')).
Proof.
  intros Hr Hinit lo hi Hsteps. pose proof (heap_init_spec region h0 Hr) as H.
  rewrite Hinit in H. destruct H as (_ & _ & Hinv).
  destruct (heap_steps_inv lo hi _ _ _ Hinv Hsteps) as (l & [Hle Hh Hok Hb Hd Hl]).
  cbn [fst snd] in *. split_and!; [|done|].
  - eapply Forall_impl; [exact Hb|]. intros b (Hlay & ? & ? & ?).
    pose proof (block_size_bounds b.2 Hlay) as [_ ?]. split_and!; [lia|lia|by apply block_align_divides].
  - intros layout Hlay. pose proof (alloc_cases lo hi h l layout Hle Hh Hok Hlay) as H.
    destruct (first_fit _ _ l) as [[p l']|]; [|eauto]. destruct H as (h' & ? & _). eauto.
Qed.

(** C13. A call of [alloc] or [dealloc] changes no byte of a block that stays
    live: the headers are only ever written to free memory. *)
Theorem heap_preserves_data region h0 h1 c c' :
  region_ok region → heap_init region h0 = (Ok tt, h1) →
  let lo := hr_start region in let hi := hr_start region + hr_size region in
  heap_steps lo hi (h1, []) c → heap_call lo hi c c' →
  ∀ b x, b ∈ c.2 → b ∈ c'.2 → b.1 ≤ x < b.1 + layout_size b.2 →
  heap_mem c'.1 x = heap_mem c.1 x.
Proof.
  intros Hr Hinit lo hi Hsteps Hcall b x Hb Hb' Hx. pose proof (heap_init_spec region h0 Hr) as H.
  rewrite Hinit in H. destruct H as (_ & _ & Hinv).
  destruct (heap_steps_inv lo hi _ _ _ Hinv Hsteps) as (l & Hinv').
  destruct (heap_call_inv lo hi _ _ _ Hinv' Hcall) as (l' & _ & Hm). apply (Hm b x Hb Hb').
  destruct Hinv' as [_ _ _ Hblocks _ _]. rewrite Forall_forall in Hblocks.
  destruct (Hblocks b Hb) as (Hlay & _). pose proof (block_size_bounds b.2 Hlay) as [_ ?].
  unfold in_block. lia.
Qed.

(** C16. [alloc] over the pointers in memory is first fit over the list of free
    chunks, with the part behind the block kept free when it can hold a
    header; it returns null and changes nothing exactly when no chunk fits. *)
Theorem alloc_refines_first_fit lo hi h l layout :
  lo ≤ hi → list_ok lo hi l → heap_repr h l → layout_ok layout →
  match first_fit (block_size layout) (block_align layout) l with
  | None => alloc (heap_fuel lo hi) layout h = Some (null, h)
  | Some (p, l') => ∃ h', alloc (heap_fuel lo hi) layout h = Some (p, h') ∧ heap_repr h' l' ∧
      list_ok lo hi l' ∧ p mod layout_align layout = 0 ∧
      (∀ x, p ≤ x < p + block_size layout → in_chunks x l ∧ ¬ in_chunks x l')
  end.
Proof.
  intros Hle Hok Hh Hlay. pose proof (alloc_cases lo hi h l layout Hle Hh Hok Hlay) as H.
  destruct (first_fit _ _ l) as [[p l']|] eqn:Hff; [|done]. destruct H as (h' & Ha & Hh' & _).
  destruct (first_fit_spec lo hi layout l p l' Hlay Hok Hff) as (? & ? & ? & ? & Hin & Hout).
  exists h'. split_and!; [done|done|done|by apply block_align_divides|]. intros x Hx. split; [auto|]. intros Hc. by apply (Hout x Hc).
Qed.

(** A live block can be given back: the assertion of [dealloc] holds of it. *)
Lemma dealloc_live lo hi h live p layout l : heap_inv lo hi (h, live) l → (p, layout) ∈ live →
  ∃ h', dealloc (heap_fuel lo hi) p layout h = Some (Ok h').
Proof.
  intros [Hle Hh Hok Hb Hd Hl] Hin. cbn [fst snd] in *. rewrite Forall_forall in Hb. destruct (Hb _ Hin) as (Hlay & Hp1 & Hp2 & Hp3).
  cbn [fst snd] in *. pose proof (block_size_bounds layout Hlay) as [[Hs _] _].
  assert (block_clear lo hi p (block_size layout) l) as Hcl.
  { split_and!; [done..|]. apply (block_disjoint_chunks lo hi); [done|unfold SIZE_OF_FREE_CHUNK in *; lia|]. intros x Hx. by apply (Hl _ x Hin). }
  destruct (dealloc_spec_list lo hi layout h l p (heap_fuel lo hi) Hok Hh Hcl) as (h' & Hde & _);
    [by apply (block_align_chunk layout)|by apply heap_fuel_enough|by exists h'].
Qed.

(** C18. [dealloc] of a pointer that is aligned for a chunk header returns: it
    enters the block into the free list in address order, merged with both
    neighbours, so that the free bytes are the old ones and those of the block.
    The blocks that [alloc] hands out are aligned so; at any other pointer the
    assertion of a checked build panics. *)
Theorem dealloc_refines_insert lo hi h l p layout :
  lo ≤ hi → list_ok lo hi l → heap_repr h l → block_clear lo hi p (block_size layout) l →
  (p mod ALIGN_OF_FREE_CHUNK = 0 →
   ∃ h', dealloc (heap_fuel lo hi) p layout h = Some (Ok h') ∧
    heap_repr h' (insert_free p (block_size layout) l) ∧
    list_ok lo hi (insert_free p (block_size layout) l) ∧
    (∀ x, in_chunks x (insert_free p (block_size layout) l) ↔
       in_chunks x l ∨ p ≤ x < p + block_size layout)) ∧
  (p mod ALIGN_OF_FREE_CHUNK ≠ 0 → dealloc (heap_fuel lo hi) p layout h = Some Panic) ∧
  (∀ layout' h' q, layout_ok layout' → alloc (heap_fuel lo hi) layout' h = Some (q, h') → q mod ALIGN_OF_FREE_CHUNK = 0).
Proof.
  intros Hle Hok Hh Hcl. split_and!.
  - intros Hal. destruct (dealloc_spec_list lo hi layout h l p (heap_fuel lo hi) Hok Hh Hcl Hal) as (h' & ? & ? & _).
    { by apply heap_fuel_enough. }
    destruct (insert_free_ok lo hi p (block_size layout) l Hok Hcl). eauto.
  - intros Hal. unfold dealloc. destruct (is_multiple_of p ALIGN_OF_FREE_CHUNK) eqn:Hm; [|done].
    by apply is_multiple_of_spec in Hm.
  - intros layout' h' q Hlay Ha. pose proof (alloc_cases lo hi h l layout' Hle Hh Hok Hlay) as H.
    destruct (first_fit _ _ l) as [[q' l']|] eqn:Hff; [|rewrite H in Ha; by injection Ha as <- _].
    destruct H as (h2 & Ha2 & _). rewrite Ha2 in Ha. injection Ha as <- _.
    apply (block_align_chunk layout'); [done|]. by destruct (first_fit_spec lo hi layout' l q' l' Hlay Hok Hff) as (_ & _ & _ & ? & _).
Qed.

(** The heap region that [initialize_heap] selects is page-aligned and as
    large as the largest usable range; it consists of memory that was usable
    after the framebuffer, the kernel image and the boot stack were reserved;
    afterwards the memory map owns it as kernel memory, the frame allocator
    will not hand out any part of it, and [HEAP_START] and [HEAP_SIZE] name it. *)
Lemma initialize_heap_owned ds stack_marker framebuffer image w r w' :
  MEMORY_MAP w = None → FRAME_ALLOCATOR w = None →
  initialize_heap ds stack_marker framebuffer image w = (Ok r, w') →
  ∃ m2 m3 fa, boot_map ds stack_marker framebuffer image m2 ∧
    w' = mkWorld (hr_start r) (hr_size r) true (Some m3) (Some fa) ∧
    (ms_wf m2 → Forall page_aligned (ms_live m2) → usable_sorted (ms_live m2) →
     0 < hr_size r ∧ hr_size r mod PAGE_SIZE = 0 ∧
     0 ≤ hr_start r ∧ hr_start r mod PAGE_SIZE = 0 ∧ hr_start r + hr_size r ≤ u64_max ∧
     (∀ f, f ∈ usable_ranges (ms_live m2) → fr_frames f * PAGE_SIZE ≤ hr_size r) ∧
     (∀ x, hr_start r ≤ x < hr_start r + hr_size r →
        kind_at (Some m2) x = Some Usable ∧ kind_at (Some m3) x = Some Memory.Kernel) ∧
     (∀ a, a ∈ free_addrs fa → (a + PAGE_SIZE ≤ hr_start r ∨ hr_start r + hr_size r ≤ a) ∧
        ∀ x, a ≤ x < a + PAGE_SIZE → kind_at (Some m2) x = Some Usable)).
Proof.
  intros Hm Hf Hinit.
  destruct (initialize_heap_steps _ _ _ _ _ _ _ Hm Hf Hinit)
    as (m2 & fa & fa' & m3 & Hboot & Hnew & Hpos & Halloc & Hres & Hw').
  exists m2, m3, fa'. split; [done|]. split; [done|]. intros [Hrep Hok Hdis] Hal Hs.
  destruct (fa_new_wf (ms_live m2) Hok Hal Hs) as (fa2 & Hnew2 & Hwf & Hlive & Hman);
    [by destruct (buffer_repr_length _ _ _ _ Hrep)|].
  rewrite Hnew in Hnew2. injection Hnew2 as <-.
  destruct (allocate_contiguous_cases 0 fa (fa_largest_free_frames fa) Hwf)
    as [(_ & H)|(i & f & fa2 & rest & H & Hb & Hi & Hlf & Hwf' & _ & _ & Hf1 & Hf2)];
    [lia| |rewrite H in Halloc; done|rewrite H in Halloc].
  { unfold fa_largest_free_frames. induction (take _ _); simpl; lia. }
  injection Halloc as Hst Hsz <-. pose proof Hwf as [_ _ [Hall _] _ _ _ _].
  pose proof (proj1 (Forall_lookup _ _) Hall i f Hi) as Hfok. pose proof Hfok as [? ? Hlim ?].
  assert (fr_limit f = hr_start r + hr_size r) as Hend by (unfold fr_limit; lia).
  assert (∀ x, hr_start r ≤ x < hr_start r + hr_size r → kind_of (ms_live m2) x = Some Usable) as Hus.
  { intros x Hx. apply list_elem_of_lookup_2 in Hi. rewrite Hlive in Hi.
    apply list_elem_of_omap in Hi as (mr & Hmr & Hmf).
    pose proof (proj1 (Forall_forall _ _) Hok mr Hmr) as Hrok.
    pose proof (proj1 (Forall_forall _ _) Hal mr Hmr) as Hral.
    destruct (usable_range_ok mr f Hrok Hral Hmf) as (_ & ? & ? & <-).
    apply kind_of_member; [done|done|lia]. }
  split_and!; [unfold PAGE_SIZE in *; lia|rewrite <- Hsz; apply Z_mod_mult|lia|by rewrite <- Hst|lia| | |].
  - intros g Hg. rewrite <- Hsz. apply Z.mul_le_mono_nonneg_r; [done|].
    apply largest_free_frames_spec. by rewrite Hlive.
  - intros x Hx. split; [by apply Hus|]. unfold kind_at. cbn.
    change (ms_kind_at m3 x) with (kind_of (ms_live m3) x).
    rewrite (reserve_range_kinds m2 (hr_start r) (hr_size r) Memory.Kernel m3 x); [|done| | | |done].
    + rewrite decide_True, Hus by done. done.
    + eapply Forall_impl; [exact Hok|]. by intros ? (? & _).
    + unfold is_u64, PAGE_SIZE in *. lia.
    + unfold is_u64, PAGE_SIZE in *. lia.
  - pose proof Hwf as [_ _ Hl0 _ _ _ _].
    pose proof (NoDup_addrs 0 _ ltac:(lia) Hl0) as Hnd.
    change (addrs (fa_live fa)) with (free_addrs fa) in Hnd. intros a Ha. split.
    2:{ intros x Hx. apply (usable_addrs_kind (ms_live m2) a x); [done..| |done]. rewrite <- Hlive.
        change (addrs (fa_live fa)) with (free_addrs fa). rewrite Hf1. rewrite Hf2 in Ha.
        set_solver. }
    assert (a mod PAGE_SIZE = 0) as Haa.
    { pose proof Hwf' as [_ _ [Hall' _] _ _ _ _]. by apply elem_of_addrs in Ha as (_&_&_&?). }
    destruct (decide (a + PAGE_SIZE ≤ hr_start r ∨ hr_start r + hr_size r ≤ a)) as [?|Hov]; [done|exfalso].
    assert (a ∈ frames_at (fr_start f) (fa_largest_free_frames fa)) as Hin.
    { apply elem_of_frames_at. unfold PAGE_SIZE in *. Z.div_mod_to_equations. lia. }
    rewrite Hf1 in Hnd. rewrite Hf2 in Ha. apply NoDup_app in Hnd as (_ & Hd1 & (_ & Hd2 & _)%NoDup_app).
    apply elem_of_app in Ha as [Ha|Ha]; [apply (Hd1 a Ha), elem_of_app; by left|by apply (Hd2 a)].
Qed.

(** ** What [alloc] leaves behind *)

Definition demo_region : HeapRegion := mkRegion 0x1010 0x100.
Definition demo_heap : Heap := snd (heap_init demo_region (heap_new (λ _, 0))).
Definition demo_fuel : nat := heap_fuel 0x1010 0x1110.
Definition after_alloc (layout : Layout) (h : Heap) : Z * Heap :=
  match alloc demo_fuel layout h with Some r => r | None => (null, h) end.

(** The header of the part behind a block starts where the block ends: after a
    block of 17 bytes it is not aligned for a [FreeChunk]. *)
Lemma alloc_misaligned_header :
  head_ptr (snd (after_alloc (mkLayout 17 1) demo_heap)) mod ALIGN_OF_FREE_CHUNK = 1.
Proof. by vm_compute. Qed.

(** The bytes in front of an aligned block leave the free list for good: a
    second allocation after the release finds no room where the first did. *)
Lemma alloc_padding_lost :
  let layout := mkLayout 16 64 in
  let '(p, h) := after_alloc layout demo_heap in
  p = 0x1040 ∧
  match dealloc demo_fuel p layout h with
  | Some (Ok h) => head_ptr h = 0x1040 ∧ chunk_size (heap_mem h) 0x1040 = 0xd0
  | _ => False
  end.
Proof. by vm_compute. Qed.

(** ** Witnesses *)

Lemma demo_region_ok : region_ok demo_region.
Proof. by vm_compute. Qed.

Lemma demo_heap_init : heap_init demo_region (heap_new (λ _, 0)) = (Ok tt, demo_heap).
Proof. done. Qed.

Lemma layout_ok_pow size k : 0 ≤ size < 2 ^ 63 → 0 ≤ k < 63 → layout_ok (mkLayout size (2 ^ k)).
Proof. intros. split; [done|]. by exists k. Qed.

Definition demo_layout : Layout := mkLayout 24 (2 ^ 5).
Lemma demo_layout_ok : layout_ok demo_layout.
Proof. by apply layout_ok_pow. Qed.

Lemma demo_alloc_step : heap_call 0x1010 0x1110 (demo_heap, [])
  (snd (after_alloc demo_layout demo_heap), [(0x1020, demo_layout)]).
Proof.
  apply call_alloc; [apply demo_layout_ok| |done].
  unfold after_alloc. change (alloc demo_fuel) with (alloc (heap_fuel 0x1010 0x1110)).
  destruct (alloc _ demo_layout demo_heap) as [[p h]|] eqn:Ha; [|by vm_compute in Ha].
  f_equal. f_equal. assert (fst <$> alloc (heap_fuel 0x1010 0x1110) demo_layout demo_heap = Some 0x1020)
    as Hp by by vm_compute. rewrite Ha in Hp. by injection Hp.
Qed.

Lemma heap_safe_witness :
  Forall (λ b, 0x1010 ≤ b.1 ∧ b.1 + layout_size b.2 ≤ 0x1110 ∧ b.1 mod layout_align b.2 = 0)
    [(0x1020, demo_layout)].
Proof.
  apply (heap_safe demo_region (heap_new (λ _, 0)) demo_heap
    (snd (after_alloc demo_layout demo_heap)) [(0x1020, demo_layout)] demo_region_ok demo_heap_init).
  apply heap_steps_step with (demo_heap, []); [constructor|]. apply step_call, demo_alloc_step.
Defined.

(** A second block is taken while the first is live. *)
Definition demo_second : Heap :=
  snd (after_alloc (mkLayout 8 (2 ^ 3)) (snd (after_alloc demo_layout demo_heap))).

Lemma demo_second_step : heap_call 0x1010 0x1110
  (snd (after_alloc demo_layout demo_heap), [(0x1020, demo_layout)])
  (demo_second, [(0x1038, mkLayout 8 (2 ^ 3)); (0x1020, demo_layout)]).
Proof.
  apply call_alloc; [by apply layout_ok_pow| |done].
  unfold demo_second. set (h0 := snd (after_alloc demo_layout demo_heap)). unfold after_alloc.
  change (alloc demo_fuel) with (alloc (heap_fuel 0x1010 0x1110)).
  assert (fst <$> alloc (heap_fuel 0x1010 0x1110) (mkLayout 8 (2 ^ 3)) h0 = Some 0x1038) as Hp
    by by vm_compute.
  destruct (alloc _ (mkLayout 8 (2 ^ 3)) h0) as [[p h]|]; [|done]. by injection Hp as ->.
Qed.

Lemma heap_preserves_data_witness :
  heap_mem demo_second 0x1020 = heap_mem (snd (after_alloc demo_layout demo_heap)) 0x1020.
Proof.
  refine (heap_preserves_data demo_region (heap_new (λ _, 0)) demo_heap
    (snd (after_alloc demo_layout demo_heap), [(0x1020, demo_layout)])
    (demo_second, [(0x1038, mkLayout 8 (2 ^ 3)); (0x1020, demo_layout)])
    demo_region_ok demo_heap_init _ demo_second_step (0x1020, demo_layout) 0x1020 _ _ _).
  - apply heap_steps_step with (demo_heap, []); [constructor|]. apply step_call, demo_alloc_step.
  - by left.
  - right. by left.
  - simpl. lia.
Defined.

Lemma demo_list_ok : list_ok 0x1010 0x1110 [(0x1010, 0x100)].
Proof. split; [done|done|by apply Forall_singleton; vm_compute|repeat constructor]. Qed.

Lemma demo_heap_repr : heap_repr demo_heap [(0x1010, 0x100)].
Proof. by vm_compute. Qed.

Lemma alloc_refines_first_fit_witness : ∃ h',
  alloc (heap_fuel 0x1010 0x1110) demo_layout demo_heap = Some (0x1020, h') ∧
  heap_repr h' [(0x1038, 0xd8)].
Proof.
  destruct (alloc_refines_first_fit 0x1010 0x1110 demo_heap [(0x1010, 0x100)] demo_layout
    ltac:(lia) demo_list_ok demo_heap_repr demo_layout_ok) as (h' & H1 & H2 & _).
  by exists h'.
Defined.

Lemma dealloc_refines_insert_witness : ∃ h',
  dealloc (heap_fuel 0x1000 0x1110) 0x1000 (mkLayout 8 8) demo_heap = Some (Ok h') ∧ heap_repr h' [(0x1000, 0x110)].
Proof.
  destruct (dealloc_refines_insert 0x1000 0x1110 demo_heap [(0x1010, 0x100)] 0x1000 (mkLayout 8 8)) as [Hal _].
  - lia.
  - split; [done|done|by apply Forall_singleton; vm_compute|repeat constructor].
  - apply demo_heap_repr.
  - split_and!; [done|done|done|]. intros d ->%list_elem_of_singleton. right. by vm_compute.
  - destruct Hal as (h' & H1 & H2 & _); [by vm_compute|]. by exists h'.
Defined.

(** A machine with 1 MiB at 0x100000: the image takes two pages of it. *)
Definition demo_world : World := mkWorld 0 0 false None None.
Definition demo_firmware : list MemoryDescriptor :=
  [mkDescriptor CONVENTIONAL 0x100000 256; mkDescriptor MMIO 0x80000000 16].
Definition demo_heap_init_result : outcome HeapError HeapRegion * World :=
  initialize_heap demo_firmware 0x1c0100 (Some (0x80000000, 0x4000)) (0x100000, 0x2000) demo_world.

Definition demo_m2 : MemoryMapSnapshot :=
  match Memory.initialize demo_firmware (Some (0x80000000, 0x4000)) None with
  | (Ok tt, Some m0) =>
    snd (reserve_range (saturating_sub (stack_page 0x1c0100) (32 * 4096)) (64 * 4096) Memory.Kernel
      (snd (reserve_range 0x100000 0x2000 Memory.Kernel m0)))
  | _ => mkSnapshot [] 0
  end.

Lemma demo_m2_boot : ∀ m2,
  boot_map demo_firmware 0x1c0100 (Some (0x80000000, 0x4000)) (0x100000, 0x2000) m2 → m2 = demo_m2.
Proof.
  intros m2 (m0 & m1 & H0 & H1 & H2). unfold demo_m2. rewrite H0.
  cbn [fst snd] in H1, H2. rewrite H1. cbn [snd]. by rewrite H2.
Qed.

Lemma demo_m2_live : ms_live demo_m2 =
  [mkRange 0x100000 0x2000 CONVENTIONAL Memory.Kernel; mkRange 0x102000 0x9e000 CONVENTIONAL Usable;
   mkRange 0x1a0000 0x40000 CONVENTIONAL Memory.Kernel; mkRange 0x1e0000 0x20000 CONVENTIONAL Usable;
   mkRange 0x80000000 0x4000 MMIO Device; mkRange 0x80004000 0xc000 MMIO Device].
Proof. by vm_compute. Qed.

Lemma demo_m2_wf : ms_wf demo_m2 ∧ Forall page_aligned (ms_live demo_m2) ∧ usable_sorted (ms_live demo_m2).
Proof.
  split; [split|]; [by split_and!; vm_compute; try lia| | |]; rewrite demo_m2_live.
  - repeat (apply Forall_cons; split); [by vm_compute..|done].
  - repeat (apply SSorted_cons; [|repeat (apply Forall_cons; split); [left; by vm_compute..|done]]).
    constructor.
  - split.
    + repeat (apply Forall_cons; split); [by vm_compute..|done].
    + cbn. repeat (apply SSorted_cons; [|repeat (apply Forall_cons; split); [by vm_compute..|done]]).
      constructor.
Qed.

Lemma initialize_heap_owned_witness : ∃ fa m3,
  demo_heap_init_result =
    (Ok (mkRegion 0x102000 0x9e000), mkWorld 0x102000 0x9e000 true (Some m3) (Some fa)) ∧
  kind_at (Some m3) 0x102000 = Some Memory.Kernel.
Proof.
  destruct demo_heap_init_result as [o w'] eqn:Hr.
  assert (o = Ok (mkRegion 0x102000 0x9e000)) as ->.
  { assert (fst demo_heap_init_result = Ok (mkRegion 0x102000 0x9e000)) as H by by vm_compute.
    by rewrite Hr in H. }
  destruct (initialize_heap_owned demo_firmware 0x1c0100 (Some (0x80000000, 0x4000))
    (0x100000, 0x2000) demo_world (mkRegion 0x102000 0x9e000) w' eq_refl eq_refl Hr)
    as (m2 & m3 & fa & Hboot & -> & H).
  exists fa, m3. split; [done|]. apply demo_m2_boot in Hboot as ->.
  destruct demo_m2_wf as (H1 & H2 & H3). destruct (H H1 H2 H3) as (_ & _ & _ & _ & _ & _ & Hk & _).
  apply Hk. by vm_compute.
Defined.
