(* ===== verification/Paging.v ===== *)
(** * Paging: virtual ranges, the page-table arena and the bootstrap mappings of
    [src/paging.rs].

    The page tables themselves belong to the x86_64 crate: its mappers are an
    interface here, with their documented behaviour as laws. *)

From S2P Require Import Prelude Globals Memory Frame.

(** ** Virtual ranges *)

Inductive VirtualRangeError : Type := Empty | Misaligned | NonCanonical | Overflow.

Record VirtualRange : Type := mkVirtualRange {
  vr_start : Z;
  vr_length : Z;
}.

Definition is_canonical (address : Z) : bool :=
  (address <=? LOW_CANONICAL_MAX) || (HIGH_CANONICAL_MIN <=? address).

(** [VirtualRange::new] *)
Definition VirtualRange_new (start length : Z) : outcome VirtualRangeError VirtualRange :=
  if length =? 0 then Err Empty else
  if negb (is_multiple_of start PAGE_SIZE) || negb (is_multiple_of length PAGE_SIZE)
  then Err Misaligned else
  last ← sub_u64 length 1;
  end_ ← ok_or (checked_add start last) Overflow;
  if negb (is_canonical start) || negb (is_canonical end_) then Err NonCanonical else
  Ok (mkVirtualRange start length).

(** [VirtualRange::end_exclusive] *)
Definition end_exclusive (r : VirtualRange) : outcome VirtualRangeError Z :=
  add_u64 (vr_start r) (vr_length r).

Record VirtualMemoryLayout : Type := mkVirtualLayout {
  vl_kernel : VirtualRange;
  vl_heap : VirtualRange;
  vl_framebuffer : VirtualRange;
  vl_mmio : VirtualRange;
  vl_stacks : VirtualRange;
}.

(** [region]: a compile-time panic when the range is invalid. *)
Definition region (start : Z) : outcome VirtualRangeError VirtualRange :=
  match VirtualRange_new start (2 ^ 40) with
  | Ok range => Ok range
  | _ => Panic
  end.

(** [VirtualMemoryLayout::new] *)
Definition VirtualMemoryLayout_new : outcome VirtualRangeError VirtualMemoryLayout :=
  kernel ← region KERNEL_BASE;
  heap ← region HEAP_BASE;
  framebuffer ← region FRAMEBUFFER_BASE;
  mmio ← region MMIO_BASE;
  stacks ← region STACK_BASE;
  Ok (mkVirtualLayout kernel heap framebuffer mmio stacks).

(** ** The page-table arena *)

Inductive PagingError : Type :=
  | AlreadyInitialized | NotInitialized | AddressTooLarge | InvalidPageTableSize
  | MappingFailed | UnmappingFailed | NotDeviceMemory
  | Frame (e : FrameError)
  | MemoryMap (e : MemoryMapError)
  | Range (e : VirtualRangeError).

Record PageTableArena : Type := mkArena {
  arena_frames : list (option OwnedFrame);
  arena_addresses : list Z;
  arena_count : nat;
}.

(** [PageTableArena::new] *)
Definition arena_new : PageTableArena :=
  mkArena (replicate MAX_PAGE_TABLE_FRAMES None) (replicate MAX_PAGE_TABLE_FRAMES 0) 0.

Record PageTableRoot : Type := mkRoot {
  root_frame : OwnedFrame;
  root_arena : PageTableArena;
}.

(** [PageTableFlags], as the set of the names that the code combines. *)
Inductive flag : Type := PRESENT | WRITABLE | NO_CACHE | NO_EXECUTE.
Abbreviation flags := (list flag) (only parsing).

Section arena.
(** The address of [PAGE_TABLE_STORAGE]. *)
Context (PAGE_TABLE_STORAGE : Z).

Definition storage_address (index : nat) : Z := PAGE_TABLE_STORAGE + Z.of_nat index * PAGE_SIZE.

(** [PageTableArena::reserve_frame].  The empty table that it stores to the
    frame is part of the mapper's tables. *)
Definition reserve_frame (arena : PageTableArena) : outcome PagingError (option Z * PageTableArena) :=
  if Nat.eqb (arena_count arena) MAX_PAGE_TABLE_FRAMES then Ok (None, arena) else
  let address := storage_address (arena_count arena + 1) in
  match from_reserved address Frame.PageTable with
  | None => Ok (None, arena)
  | Some owned =>
    addresses ← array_set (arena_addresses arena) (arena_count arena) address;
    frames ← array_set (arena_frames arena) (arena_count arena) (Some owned);
    Ok (Some address, mkArena frames addresses (S (arena_count arena)))
  end.

(** The arenas that calls of [allocate_frame] lead to. *)
Inductive arena_steps : PageTableArena → PageTableArena → Prop :=
  | arena_steps_refl a : arena_steps a a
  | arena_steps_step a1 a2 a3 o :
      arena_steps a1 a2 → reserve_frame a2 = Ok (o, a3) → arena_steps a1 a3.

(** ** The mapper interface

    [T] are the tables in memory.  [map_to] and [unmap] are the methods of
    [Mapper<Size4KiB>], for [OffsetPageTable] and [RecursivePageTable]; they take
    frames for intermediate tables from the arena.  [translate] is the
    4 KiB mapping of a page that the processor finds in the tables. *)

Inductive mapper_kind : Type := Offset | Recursive.

Record Mapper (T : Type) : Type := mkMapper {
  map_to : mapper_kind → T → PageTableArena → Z → Z → flags → bool * T * PageTableArena;
  unmap : mapper_kind → T → Z → option Z * T;
  clear_root : T → Z → T;
  set_recursive : T → Z → Z → flags → T;
  translate : T → Z → option (Z * flags);
}.
Arguments map_to {T} _.
Arguments unmap {T} _.
Arguments clear_root {T} _.
Arguments set_recursive {T} _.
Arguments translate {T} _.

(** The level-4 index of an address. *)
Definition p4_index (address : Z) : Z := Z.land (Z.shiftr address 39) 511.

(** The documented behaviour of the crate on the tables that [initialize] builds,
    where no slot maps the tables themselves yet and every mapping is present;
    the device mappings of a running kernel rely on [DeviceMapperLaws] only. *)
Class MapperLaws {T : Type} (m : Mapper T) : Prop := {
  map_to_law k t arena page frame fl :
    let '(ok, t', arena') := map_to m k t arena page frame fl in
    arena_steps arena arena' ∧
    (ok = true → translate m t page = None) ∧
    (∀ p, translate m t' p =
       if ok && (p =? page) then Some (frame, fl) else translate m t p);
  unmap_law k t page :
    let '(r, t') := unmap m k t page in
    (∀ frame, r = Some frame → fst <$> translate m t page = Some frame) ∧
    (∀ p, translate m t' p =
       if bool_decide (is_Some r) && (p =? page) then None else translate m t p);
  clear_root_law t root p : translate m (clear_root m t root) p = None;
  set_recursive_law t root index fl p :
    p4_index p ≠ index → translate m (set_recursive m t root index fl) p = translate m t p;
}.

(** The pages whose translation a call on the mapper may not disturb: those
    outside the slot through which the tables map themselves, where every new
    table appears. *)
Definition ordinary (q : Z) : Prop := q mod PAGE_SIZE = 0 ∧ p4_index q ≠ RECURSIVE_INDEX.

(** The same documentation for what the device mappings need, and no more: for
    ordinary pages and mappings that are present.  A page that has a mapping can
    be unmapped, which returns its frame and removes that mapping only. *)
Class DeviceMapperLaws {T : Type} (m : Mapper T) : Prop := {
  device_map_law k t arena page frame fl : ordinary page → PRESENT ∈ fl →
    let '(ok, t', arena') := map_to m k t arena page frame fl in
    (ok = true → translate m t page = None) ∧
    (∀ q, ordinary q → translate m t' q =
       if ok && (q =? page) then Some (frame, fl) else translate m t q);
  device_unmap_law k t page frame fl : ordinary page → PRESENT ∈ fl → translate m t page = Some (frame, fl) →
    let '(r, t') := unmap m k t page in
    r = Some frame ∧ ∀ q, ordinary q → translate m t' q = if q =? page then None else translate m t q;
}.
End arena.

Arguments map_to {T} _.
Arguments unmap {T} _.
Arguments clear_root {T} _.
Arguments set_recursive {T} _.
Arguments translate {T} _.

(** ** Mapping *)

(** The statics of [paging], the tables in memory and CR3. *)
Record PagingState (T : Type) : Type := mkPaging {
  PAGE_TABLE_ROOT : option PageTableRoot;
  PAGING_ACTIVE : bool;
  tables : T;
  cr3 : option Z;
}.
Arguments mkPaging {T} _ _ _ _.
Arguments PAGE_TABLE_ROOT {T} _.
Arguments PAGING_ACTIVE {T} _.
Arguments tables {T} _.
Arguments cr3 {T} _.

(** [PhysAddr::new] panics on an address of more than 52 bits. *)
Definition PhysAddr_new {E} (address : Z) : outcome E Z :=
  if address <? 2 ^ 52 then Ok address else Panic.
(** [VirtAddr::new] panics on a non-canonical address. *)
Definition VirtAddr_new {E} (address : Z) : outcome E Z :=
  if is_canonical address then Ok address else Panic.

(** [recursive_table_address] *)
Definition recursive_table_address : Z :=
  let index := RECURSIVE_INDEX in
  Z.lor (Z.lor (Z.lor (Z.lor (Z.shiftl index 39) (Z.shiftl index 30)) (Z.shiftl index 21))
    (Z.shiftl index 12)) 0xffff000000000000.

Section paging.
Context {T : Type} (m : Mapper T) (PAGE_TABLE_STORAGE : Z).
(** [size_of::<PageTable>()] *)
Context (page_table_size : Z).

Abbreviation P := (M (PagingState T) PagingError) (only parsing).

(** [with_offset_mapper] and [with_recursive_mapper]: the operation works on
    the tables and the arena of the root. *)
Definition with_mapper {A} (operation : T → PageTableArena → outcome PagingError A * T * PageTableArena) :
    P A :=
  s ← get;
  match PAGE_TABLE_ROOT s with
  | None => throw NotInitialized
  | Some root =>
    let '(r, t, arena) := operation (tables s) (root_arena root) in
    put (mkPaging (Some (mkRoot (root_frame root) arena)) (PAGING_ACTIVE s) t (cr3 s));;
    lift r
  end.

(** [Page::containing_address] and [PhysFrame::containing_address] round down. *)
Definition containing_address (address : Z) : Z := address / PAGE_SIZE * PAGE_SIZE.

Definition map_on_mapper (k : mapper_kind) (virtual_address physical_address : Z) (fl : flags)
    (t : T) (arena : PageTableArena) : outcome PagingError unit * T * PageTableArena :=
  match VirtAddr_new virtual_address, PhysAddr_new physical_address with
  | Ok virtual_address, Ok physical_address =>
    let page := containing_address virtual_address in
    let frame := containing_address physical_address in
    let '(ok, t, arena) := map_to m k t arena page frame fl in
    (if (ok : bool) then Ok tt else Err MappingFailed, t, arena)
  | Err e, _ | _, Err e => (Err e, t, arena)
  | _, _ => (Panic, t, arena)
  end.

Definition active_mapper (active : bool) : mapper_kind := if active then Recursive else Offset.

Definition map_page (virtual_address physical_address : Z) (fl : flags) : P unit :=
  range ← lift (map_err Range (VirtualRange_new virtual_address PAGE_SIZE));
  if negb (is_multiple_of physical_address PAGE_SIZE) then throw (Range Misaligned) else
  s ← get;
  with_mapper (map_on_mapper (active_mapper (PAGING_ACTIVE s)) (vr_start range) physical_address fl).

(** [map_device_page], given the value of [MEMORY_MAP]. *)
Definition map_device_page (memory_map : option MemoryMapSnapshot)
    (virtual_address physical_address : Z) : P unit :=
  if negb (is_multiple_of physical_address PAGE_SIZE) then throw (Range Misaligned) else
  if negb (bool_decide (kind_at memory_map physical_address = Some Device))
  then throw NotDeviceMemory else
  map_page virtual_address physical_address [PRESENT; WRITABLE; NO_CACHE; NO_EXECUTE].

Definition unmap_on_mapper (k : mapper_kind) (virtual_address : Z) (t : T) (arena : PageTableArena) :
    outcome PagingError Z * T * PageTableArena :=
  match VirtAddr_new virtual_address with
  | Ok virtual_address =>
    let '(r, t) := unmap m k t (containing_address virtual_address) in
    (ok_or r UnmappingFailed, t, arena)
  | Err e => (Err e, t, arena)
  | Panic => (Panic, t, arena)
  end.

Definition unmap_page (virtual_address : Z) : P Z :=
  range ← lift (map_err Range (VirtualRange_new virtual_address PAGE_SIZE));
  s ← get;
  with_mapper (unmap_on_mapper (active_mapper (PAGING_ACTIVE s)) (vr_start range)).

(** The loop of [map_range], over the number of pages left. *)
Fixpoint map_pages (n : nat) (address last : Z) (fl : flags) : P unit :=
  if negb (address <? last) then mret tt else
  match n with
  | O => lift Panic
  | S n =>
    map_page address address fl;;
    address ← lift (add_u64 address PAGE_SIZE);
    map_pages n address last fl
  end.

Definition map_range (start length : Z) (fl : flags) : P unit :=
  end_ ← lift (ok_or (checked_add start length) AddressTooLarge);
  let first := start / PAGE_SIZE * PAGE_SIZE in
  last ← lift (if is_multiple_of end_ PAGE_SIZE then Ok end_ else
    up ← ok_or (checked_add end_ (PAGE_SIZE - 1)) AddressTooLarge;
    Ok (up / PAGE_SIZE * PAGE_SIZE));
  map_pages (Z.to_nat ((last - first) / PAGE_SIZE)) first last fl.

(** The mappings that [initialize] installs after creating the root. *)
Definition initialize_mappings (framebuffer kernel_image : Z * Z) (heap_start heap_size stack_marker : Z) :
    P unit :=
  let mask := u64_not (PAGE_SIZE - 1) in
  let image_start := Z.land kernel_image.1 mask in
  image_end ← lift (ok_or (checked_add kernel_image.1 kernel_image.2) AddressTooLarge);
  map_range image_start (saturating_sub image_end image_start) [PRESENT; WRITABLE];;
  (if negb (heap_size =? 0)
   then map_range heap_start heap_size [PRESENT; WRITABLE; NO_EXECUTE] else mret tt);;
  let framebuffer_start := Z.land framebuffer.1 mask in
  framebuffer_end ← lift (ok_or (checked_add framebuffer.1 framebuffer.2) AddressTooLarge);
  map_range framebuffer_start (saturating_sub framebuffer_end framebuffer_start)
    [PRESENT; WRITABLE; NO_CACHE; NO_EXECUTE];;
  let stack_page := Z.land stack_marker mask in
  map_range (saturating_sub stack_page (31 * PAGE_SIZE)) (62 * PAGE_SIZE)
    [PRESENT; WRITABLE; NO_EXECUTE].

(** [paging::initialize], given [HEAP_START], [HEAP_SIZE] and the address of its
    local variable [stack_marker]. *)
Definition initialize (framebuffer kernel_image : Z * Z) (heap_start heap_size stack_marker : Z) :
    P unit :=
  s ← get;
  match PAGE_TABLE_ROOT s with
  | Some _ => throw AlreadyInitialized
  | None =>
    if negb (page_table_size =? PAGE_SIZE) then throw InvalidPageTableSize else
    let address := storage_address PAGE_TABLE_STORAGE 0 in
    owned ← lift (ok_or (from_reserved address Frame.PageTable) AddressTooLarge);
    put (mkPaging (Some (mkRoot owned arena_new)) (PAGING_ACTIVE s)
           (clear_root m (tables s) address) (cr3 s));;
    initialize_mappings framebuffer kernel_image heap_start heap_size stack_marker;;
    root_address ← lift (PhysAddr_new address);
    s ← get;
    put (mkPaging (PAGE_TABLE_ROOT s) true
           (set_recursive m (tables s) root_address RECURSIVE_INDEX [PRESENT; WRITABLE])
           (Some (containing_address root_address)))
  end.
End paging.

(** ** Pages *)

Lemma page_end_canonical v : is_u64 v → v mod PAGE_SIZE = 0 →
  v + 4095 < U64_SIZE ∧ is_canonical (v + 4095) = is_canonical v.
Proof.
  unfold is_u64, PAGE_SIZE, is_canonical, LOW_CANONICAL_MAX, HIGH_CANONICAL_MIN. intros Hv Hm.
  split; [Z.div_mod_to_equations; lia|]. apply eq_true_iff_eq.
  rewrite !orb_true_iff, !Z.leb_le. Z.div_mod_to_equations. lia.
Qed.

Lemma VirtualRange_page v : is_u64 v →
  VirtualRange_new v PAGE_SIZE =
    if is_multiple_of v PAGE_SIZE then
      if is_canonical v then Ok (mkVirtualRange v PAGE_SIZE) else Err NonCanonical
    else Err Misaligned.
Proof.
  intros Hv. unfold VirtualRange_new. change (PAGE_SIZE =? 0) with false. cbn beta iota.
  change (is_multiple_of PAGE_SIZE PAGE_SIZE) with true.
  destruct (is_multiple_of v PAGE_SIZE) eqn:Hal; [|done]. cbn [negb orb].
  apply is_multiple_of_spec in Hal; [|done]. destruct (page_end_canonical v Hv Hal) as [Hlt Hc].
  unfold_monad. change (checked_sub PAGE_SIZE 1) with (Some 4095). cbn beta iota.
  rewrite checked_add_Some by (unfold is_u64 in *; lia). cbn beta iota. rewrite Hc.
  by destruct (is_canonical v).
Qed.

Lemma containing_aligned a : a mod PAGE_SIZE = 0 → containing_address a = a.
Proof. unfold containing_address, PAGE_SIZE. intros. Z.div_mod_to_equations. lia. Qed.

(** The operations on one page, as calls on the mapper. *)
Section pages.
Context {T : Type} (m : Mapper T).

Definition with_tables (t : T) (root : PageTableRoot) (s : PagingState T) : PagingState T :=
  mkPaging (Some root) (PAGING_ACTIVE s) t (cr3 s).

Lemma map_page_run s v p fl root : is_u64 v → PAGE_TABLE_ROOT s = Some root → p mod PAGE_SIZE = 0 →
  map_page m v p fl s =
    if negb (is_multiple_of v PAGE_SIZE) then (Err (Range Misaligned), s) else
    if negb (is_canonical v) then (Err (Range NonCanonical), s) else
    if p <? 2 ^ 52 then
      let '(ok, t, arena) := map_to m (active_mapper (PAGING_ACTIVE s)) (tables s) (root_arena root) v p fl in
      (if (ok : bool) then Ok tt else Err MappingFailed, with_tables t (mkRoot (root_frame root) arena) s)
    else (Panic, s).
Proof.
  intros Hv Hroot Hp. unfold map_page. unfold_monad. rewrite VirtualRange_page by done.
  destruct (is_multiple_of v PAGE_SIZE) eqn:Hal; [|done]. apply is_multiple_of_spec in Hal; [|done].
  destruct (is_canonical v) eqn:Hc; [|done]. cbn beta iota zeta.
  rewrite (proj2 (is_multiple_of_spec p PAGE_SIZE ltac:(done)) Hp). cbn [negb].
  unfold with_mapper. unfold_monad. rewrite Hroot. cbn [vr_start]. unfold map_on_mapper, VirtAddr_new, PhysAddr_new. rewrite Hc.
  destruct (p <? 2 ^ 52).
  - rewrite !containing_aligned by done. by destruct (map_to m _ _ _ v p fl) as [[[] t] arena].
  - destruct root, s. cbn in *. by rewrite Hroot.
Qed.

Lemma unmap_page_run s v root : is_u64 v → PAGE_TABLE_ROOT s = Some root → v mod PAGE_SIZE = 0 → is_canonical v = true →
  unmap_page m v s =
    let '(r, t) := unmap m (active_mapper (PAGING_ACTIVE s)) (tables s) v in (ok_or r UnmappingFailed, with_tables t root s).
Proof.
  intros Hv Hroot Hal Hc. unfold unmap_page. unfold_monad. rewrite VirtualRange_page, Hc by done.
  rewrite (proj2 (is_multiple_of_spec v PAGE_SIZE ltac:(done)) Hal). cbn beta iota zeta.
  unfold with_mapper. unfold_monad. rewrite Hroot. cbn [vr_start]. unfold unmap_on_mapper, VirtAddr_new. rewrite Hc, containing_aligned by done.
  destruct (unmap m _ (tables s) v) as [[f|] t]; by destruct root.
Qed.
End pages.

Section mapping.
Context {T : Type} (m : Mapper T) (STORAGE : Z) {laws : MapperLaws STORAGE m}.

(** A call on the mapper keeps everything but the tables and the arena. *)
Definition same_root (s s' : PagingState T) : Prop :=
  PAGING_ACTIVE s' = PAGING_ACTIVE s ∧ cr3 s' = cr3 s ∧
  match PAGE_TABLE_ROOT s with
  | None => PAGE_TABLE_ROOT s' = None
  | Some root => ∃ arena, PAGE_TABLE_ROOT s' = Some (mkRoot (root_frame root) arena) ∧
      arena_steps STORAGE (root_arena root) arena
  end.

Lemma arena_steps_trans a1 a2 a3 :
  arena_steps STORAGE a1 a2 → arena_steps STORAGE a2 a3 → arena_steps STORAGE a1 a3.
Proof. intros H1 H2. revert H1. induction H2 as [|a2 a3 a4 o _ IH Hr]; intros H1; [done|]. apply (arena_steps_step _ a1 a3 a4 o); [by apply IH|done]. Qed.

Lemma same_root_refl s : same_root s s.
Proof.
  split; [done|]. split; [done|]. destruct (PAGE_TABLE_ROOT s) as [[f a]|]; [|done].
  exists a. split; [done|constructor].
Qed.

Lemma same_root_trans s1 s2 s3 : same_root s1 s2 → same_root s2 s3 → same_root s1 s3.
Proof.
  intros (H1 & H2 & H3) (H4 & H5 & H6). split; [congruence|]. split; [congruence|].
  destruct (PAGE_TABLE_ROOT s1) as [r|].
  - destruct H3 as (a & Ha & Hs). rewrite Ha in H6. destruct H6 as (a2 & Ha2 & Hs2).
    exists a2. split; [done|]. by eapply arena_steps_trans.
  - by rewrite H3 in H6.
Qed.

(** The translation of [s'] is that of [s] with the page [v] added. *)
Definition translation (s : PagingState T) : Z → option (Z * flags) := translate m (tables s).

(** What [map_page] does, on every branch. *)
Lemma map_page_cases s v p fl root : is_u64 v → 0 ≤ p → PAGE_TABLE_ROOT s = Some root →
  ∃ r s', map_page m v p fl s = (r, s') ∧ same_root s s' ∧
    match r with
    | Ok _ => v mod PAGE_SIZE = 0 ∧ p mod PAGE_SIZE = 0 ∧ is_canonical v = true ∧ p < 2 ^ 52 ∧
        translation s v = None ∧
        ∀ q, translation s' q = if q =? v then Some (p, fl) else translation s q
    | Err e => (∀ q, translation s' q = translation s q) ∧
        (e = Range Misaligned ∧ (v mod PAGE_SIZE ≠ 0 ∨ is_canonical v = true ∧ p mod PAGE_SIZE ≠ 0) ∨
         e = Range NonCanonical ∧ v mod PAGE_SIZE = 0 ∧ is_canonical v = false ∨
         e = MappingFailed ∧ v mod PAGE_SIZE = 0 ∧ is_canonical v = true ∧ p mod PAGE_SIZE = 0)
    | Panic => s' = s ∧ v mod PAGE_SIZE = 0 ∧ p mod PAGE_SIZE = 0 ∧ is_canonical v = true ∧ 2 ^ 52 ≤ p
    end.
Proof.
  intros Hv Hp Hroot. unfold map_page. unfold_monad. rewrite VirtualRange_page by done.
  pose proof (same_root_refl s).
  destruct (is_multiple_of v PAGE_SIZE) eqn:Hal.
  2:{ do 2 eexists. split; [done|]. split; [done|]. split; [done|]. left. split; [done|left].
      rewrite <- is_multiple_of_spec by done. by rewrite Hal. }
  apply is_multiple_of_spec in Hal; [|done].
  destruct (is_canonical v) eqn:Hc; cbn beta iota zeta.
  2:{ do 2 eexists. split; [done|]. split; [done|]. split; [done|]. right. by left. }
  destruct (is_multiple_of p PAGE_SIZE) eqn:Halp; cbn [negb].
  2:{ do 2 eexists. split; [done|]. split; [done|]. split; [done|]. left. split; [done|right].
      split; [done|]. rewrite <- is_multiple_of_spec by done. by rewrite Halp. }
  apply is_multiple_of_spec in Halp; [|done].
  unfold with_mapper. unfold_monad. rewrite Hroot. cbn [vr_start].
  unfold map_on_mapper, VirtAddr_new, PhysAddr_new. rewrite Hc.
  destruct (Z.ltb_spec p (2 ^ 52)).
  2:{ do 2 eexists. split; [done|]. destruct root. cbn.
      assert (mkPaging (Some (mkRoot root_frame0 root_arena0)) (PAGING_ACTIVE s) (tables s) (cr3 s) = s)
        as -> by (destruct s; simpl in *; by rewrite Hroot).
      done. }
  rewrite !containing_aligned by done.
  pose proof (map_to_law STORAGE (active_mapper (PAGING_ACTIVE s)) (tables s) (root_arena root) v p fl)
    as Hlaw.
  destruct (map_to m _ (tables s) (root_arena root) v p fl) as [[ok t] arena].
  destruct Hlaw as (Harena & Hnone & Htr).
  destruct ok; (do 2 eexists; split; [done|]; split;
    [split; [done|split; [done|]]; rewrite Hroot; by exists arena|]).
  - split_and!; [done..|by apply Hnone|exact Htr].
  - split; [exact Htr|]. right. by right.
Qed.

(** The pages that a range of addresses touches. *)
Definition covered (first last q : Z) : bool :=
  (first <=? q) && (q <? last) && (q mod PAGE_SIZE =? 0).

Lemma covered_spec first last q :
  covered first last q = true ↔ first ≤ q < last ∧ q mod PAGE_SIZE = 0.
Proof. unfold covered. rewrite !andb_true_iff, Z.leb_le, Z.ltb_lt, Z.eqb_eq. tauto. Qed.

(** The loop of [map_range]. *)
Lemma map_pages_spec n s address last fl root :
  PAGE_TABLE_ROOT s = Some root → 0 ≤ address → last ≤ u64_max →
  address mod PAGE_SIZE = 0 → last mod PAGE_SIZE = 0 →
  n = Z.to_nat ((last - address) / PAGE_SIZE) →
  ∃ r s', map_pages m n address last fl s = (r, s') ∧ same_root s s' ∧
    match r with
    | Ok _ => (∀ q, covered address last q = true → translation s q = None) ∧
        ∀ q, translation s' q = if covered address last q then Some (q, fl) else translation s q
    | Err _ => ∃ mid, address ≤ mid < last ∧
        ∀ q, translation s' q = if covered address mid q then Some (q, fl) else translation s q
    | Panic => ∃ q, address ≤ q < last ∧ 2 ^ 52 ≤ q
    end.
Proof.
  revert s address root. induction n as [|n IH]; intros s address root Hroot Ha Hl Hma Hml Hn.
  - simpl. destruct (Z.ltb_spec address last).
    { exfalso. unfold PAGE_SIZE in *. Z.div_mod_to_equations. lia. }
    do 2 eexists. split; [done|]. split; [by apply same_root_refl|].
    assert (∀ q, covered address last q = false) as Hc.
    { intros q. apply not_true_iff_false. rewrite covered_spec. lia. }
    split; intros q; by rewrite Hc.
  - cbn [map_pages]. destruct (Z.ltb_spec address last) as [Hlt|].
    2:{ exfalso. unfold PAGE_SIZE in *. Z.div_mod_to_equations. lia. }
    cbn [negb]. unfold mbind at 1, M_bind at 1.
    destruct (map_page_cases s address address fl root) as (r & s1 & -> & Hs1 & Hr);
      [unfold is_u64; lia|done|done|].
    destruct r as [[]|e|].
    + destruct Hr as (_ & _ & _ & _ & Hnone & Htr).
      assert (address + PAGE_SIZE ≤ last) as Hnext by (unfold PAGE_SIZE in *; Z.div_mod_to_equations; lia).
      unfold_monad. rewrite checked_add_Some by (unfold is_u64, PAGE_SIZE in *; lia). cbn beta iota.
      pose proof Hs1 as (_ & _ & Hroot1). rewrite Hroot in Hroot1.
      destruct Hroot1 as (arena & Hroot1 & _).
      destruct (IH s1 (address + PAGE_SIZE) _ Hroot1) as (r & s2 & -> & Hs2 & Hr2);
        [unfold PAGE_SIZE in *; lia|done|unfold PAGE_SIZE in *; Z.div_mod_to_equations; lia|done
        |unfold PAGE_SIZE in *; Z.div_mod_to_equations; lia|].
      exists r, s2. split; [done|]. split; [by eapply same_root_trans|].
      assert (∀ mid q, address + PAGE_SIZE ≤ mid →
        covered address mid q = (q =? address) || covered (address + PAGE_SIZE) mid q) as Hcov.
      { intros mid q Hmid. apply eq_true_iff_eq. rewrite orb_true_iff, Z.eqb_eq, !covered_spec.
        unfold PAGE_SIZE in *. Z.div_mod_to_equations. lia. }
      destruct r as [[]|e|].
      * destruct Hr2 as [Hn2 Ht2]. split.
        -- intros q. rewrite Hcov by done. intros [->%Z.eqb_eq|Hq]%orb_true_iff; [done|].
           specialize (Hn2 q Hq). rewrite Htr in Hn2. by case_match.
        -- intros q. rewrite Ht2, Htr, Hcov by done. destruct (Z.eqb_spec q address) as [->|]; [|done].
           by case_match.
      * destruct Hr2 as (mid & Hmid & Ht2). exists mid. split; [unfold PAGE_SIZE in *; lia|].
        intros q. rewrite Ht2, Htr, Hcov by lia. destruct (Z.eqb_spec q address) as [->|]; [|done].
        by case_match.
      * destruct Hr2 as (q & Hq & Hbig). exists q. unfold PAGE_SIZE in *. lia.
    + do 2 eexists. split; [done|]. split; [done|]. destruct Hr as [Htr _].
      exists address. split; [lia|]. intros q. rewrite Htr.
      assert (covered address address q = false) as ->; [|done].
      apply not_true_iff_false. rewrite covered_spec. lia.
    + do 2 eexists. split; [done|]. split; [done|]. exists address. lia.
Qed.

(** The first and the last page boundary of a range. *)
Definition page_floor (a : Z) : Z := a / PAGE_SIZE * PAGE_SIZE.
Definition page_ceil (a : Z) : Z := (a + (PAGE_SIZE - 1)) / PAGE_SIZE * PAGE_SIZE.

Lemma page_bounds a : page_floor a ≤ a < page_floor a + PAGE_SIZE ∧
  a ≤ page_ceil a < a + PAGE_SIZE ∧ page_floor a mod PAGE_SIZE = 0 ∧ page_ceil a mod PAGE_SIZE = 0.
Proof. unfold page_floor, page_ceil, PAGE_SIZE. Z.div_mod_to_equations. lia. Qed.

Lemma map_range_cases s start length fl root :
  PAGE_TABLE_ROOT s = Some root → 0 ≤ start → 0 ≤ length →
  ∃ r s', map_range m start length fl s = (r, s') ∧ same_root s s' ∧
    let first := page_floor start in let last := page_ceil (start + length) in
    match r with
    | Ok _ => last ≤ u64_max ∧
        (∀ q, covered first last q = true → translation s q = None) ∧
        ∀ q, translation s' q = if covered first last q then Some (q, fl) else translation s q
    | Err AddressTooLarge => u64_max < last ∧ s' = s ∨
        ∃ mid, first ≤ mid < last ∧
          ∀ q, translation s' q = if covered first mid q then Some (q, fl) else translation s q
    | Err _ => ∃ mid, first ≤ mid < last ∧
        ∀ q, translation s' q = if covered first mid q then Some (q, fl) else translation s q
    | Panic => ∃ q, first ≤ q < last ∧ 2 ^ 52 ≤ q
    end.
Proof.
  intros Hroot Hs Hl. unfold map_range. unfold_monad. unfold checked_add at 1.
  pose proof (page_bounds start) as (Hf1 & _ & Hf2 & _).
  pose proof (page_bounds (start + length)) as (Hc0 & Hc1 & Hc4 & Hc2).
  destruct (Z.ltb_spec (start + length) U64_SIZE).
  2:{ do 2 eexists. split; [done|]. split; [by apply same_root_refl|]. left. split; [lia|done]. }
  cbn beta iota.
  assert ((if is_multiple_of (start + length) PAGE_SIZE then Ok (start + length)
    else match match checked_add (start + length) (PAGE_SIZE - 1) with
               | Some a => Ok a | None => Err AddressTooLarge end with
         | Ok up => Ok (up / PAGE_SIZE * PAGE_SIZE) | Err e => Err e | Panic => Panic end)
    = if page_ceil (start + length) <? U64_SIZE then Ok (page_ceil (start + length))
      else Err AddressTooLarge) as ->.
  { destruct (is_multiple_of (start + length) PAGE_SIZE) eqn:Hal.
    - apply is_multiple_of_spec in Hal; [|done].
      assert (page_ceil (start + length) = start + length) as ->; [|by rewrite (proj2 (Z.ltb_lt _ _))].
      unfold PAGE_SIZE in *. Z.div_mod_to_equations. lia.
    - assert ((start + length) mod PAGE_SIZE ≠ 0) as Hal'.
      { rewrite <- is_multiple_of_spec by done. by rewrite Hal. }
      unfold checked_add. destruct (Z.ltb_spec (start + length + (PAGE_SIZE - 1)) U64_SIZE).
      + rewrite (proj2 (Z.ltb_lt _ _)); [done|]. unfold PAGE_SIZE in *. Z.div_mod_to_equations. lia.
      + rewrite (proj2 (Z.ltb_ge _ _)); [done|]. unfold PAGE_SIZE in *. Z.div_mod_to_equations. lia. }
  destruct (Z.ltb_spec (page_ceil (start + length)) U64_SIZE).
  2:{ do 2 eexists. split; [done|]. split; [by apply same_root_refl|]. left. split; [lia|done]. }
  change (start / PAGE_SIZE * PAGE_SIZE) with (page_floor start).
  assert (0 ≤ page_floor start) by (unfold PAGE_SIZE in *; Z.div_mod_to_equations; lia).
  destruct (map_pages_spec _ s (page_floor start) (page_ceil (start + length)) fl root Hroot
    ltac:(lia) ltac:(lia) Hf2 Hc2 eq_refl) as (r & s' & -> & Hs' & Hr).
  exists r, s'. split; [done|]. split; [done|].
  destruct r as [[]|e|]; [split; [lia|done]| |done]. destruct e; auto.
Qed.
End mapping.

(** ** The arena *)

(** An arena after [n] reservations: the first [n] child tables are taken, in
    the order of their addresses. *)
Definition arena_at (STORAGE : Z) (n : nat) (a : PageTableArena) : Prop :=
  arena_count a = n ∧ (n ≤ MAX_PAGE_TABLE_FRAMES)%nat ∧
  length (arena_frames a) = MAX_PAGE_TABLE_FRAMES ∧
  length (arena_addresses a) = MAX_PAGE_TABLE_FRAMES ∧
  ∀ i, (i < n)%nat → arena_addresses a !! i = Some (storage_address STORAGE (i + 1)) ∧
    arena_frames a !! i = Some (from_reserved (storage_address STORAGE (i + 1)) Frame.PageTable).

Lemma arena_new_at STORAGE : arena_at STORAGE 0 arena_new.
Proof. split_and!; try done; [lia|]. intros i Hi. lia. Qed.

(** [reserve_frame] hands out every child table once, in order, and then
    nothing; it never panics. *)
Lemma reserve_frame_spec STORAGE n a :
  STORAGE mod PAGE_SIZE = 0 → arena_at STORAGE n a →
  if decide (n < MAX_PAGE_TABLE_FRAMES)%nat then
    ∃ a', reserve_frame STORAGE a = Ok (Some (storage_address STORAGE (n + 1)), a') ∧
      arena_at STORAGE (S n) a'
  else reserve_frame STORAGE a = Ok (None, a).
Proof.
  intros Hal (Hc & Hn & Hf & Ha & Hi). unfold reserve_frame. rewrite Hc.
  case_decide as Hlt; [rewrite (proj2 (Nat.eqb_neq _ _)) by lia|by rewrite (proj2 (Nat.eqb_eq _ _)) by lia].
  assert (from_reserved (storage_address STORAGE (n + 1)) Frame.PageTable
    = Some (mkOwnedFrame (storage_address STORAGE (n + 1)) Frame.PageTable)) as Hfr.
  { unfold from_reserved, FrameAddress_new.
    assert (is_multiple_of (storage_address STORAGE (n + 1)) PAGE_SIZE = true) as ->; [|done].
    apply is_multiple_of_spec; [done|]. unfold storage_address. by rewrite Z_mod_plus_full. }
  rewrite Hfr. unfold_monad. rewrite !array_set_ok by lia. cbn beta iota.
  eexists. split; [done|]. split_and!; cbn; [lia|lia|by rewrite length_insert..|].
  intros i Hin. destruct (decide (i = n)) as [->|Hne].
  - rewrite !list_lookup_insert_eq by lia. by rewrite Hfr.
  - rewrite !list_lookup_insert_ne by done. apply Hi. lia.
Qed.

Lemma arena_steps_at STORAGE n a a' : STORAGE mod PAGE_SIZE = 0 →
  arena_at STORAGE n a → arena_steps STORAGE a a' → ∃ n', (n ≤ n')%nat ∧ arena_at STORAGE n' a'.
Proof.
  intros Hal Ha Hs. induction Hs as [a|a1 a2 a3 o _ IH Hr]; [eauto|].
  destruct (IH Ha) as (n2 & Hle & H2). pose proof (reserve_frame_spec STORAGE n2 a2 Hal H2) as H.
  case_decide.
  - destruct H as (a4 & H & H4). rewrite H in Hr. simplify_eq. exists (S n2). split; [lia|done].
  - rewrite H in Hr. simplify_eq. eauto.
Qed.

(** ** The boot mappings *)

Definition BOOT_STACK_LOW (stack_marker : Z) : Z :=
  saturating_sub (page_floor stack_marker) (31 * PAGE_SIZE).

(** The translation that [initialize] sets up. *)
Definition boot_translation (framebuffer image : Z * Z) (heap_start heap_size stack_marker q : Z) :
    option (Z * flags) :=
  let in_range start length := covered (page_floor start) (page_ceil (start + length)) q in
  if in_range (BOOT_STACK_LOW stack_marker) (62 * PAGE_SIZE) then Some (q, [PRESENT; WRITABLE; NO_EXECUTE])
  else if in_range framebuffer.1 framebuffer.2
  then Some (q, [PRESENT; WRITABLE; NO_CACHE; NO_EXECUTE])
  else if negb (heap_size =? 0) && in_range heap_start heap_size
  then Some (q, [PRESENT; WRITABLE; NO_EXECUTE])
  else if in_range image.1 image.2 then Some (q, [PRESENT; WRITABLE])
  else None.

Section boot.
Context {T : Type} (m : Mapper T) (STORAGE : Z) {laws : MapperLaws STORAGE m}.

Lemma land_page a : is_u64 a → Z.land a (u64_not (PAGE_SIZE - 1)) = page_floor a.
Proof. intros Ha. exact (land_not_low a 12 Ha ltac:(lia)). Qed.

Lemma map_range_ok s start length fl root s' :
  PAGE_TABLE_ROOT s = Some root → 0 ≤ start → 0 ≤ length →
  map_range m start length fl s = (Ok tt, s') →
  same_root STORAGE s s' ∧ ∃ arena, PAGE_TABLE_ROOT s' = Some (mkRoot (root_frame root) arena) ∧
  ∀ q, translation m s' q =
    if covered (page_floor start) (page_ceil (start + length)) q then Some (q, fl) else translation m s q.
Proof.
  intros Hroot Hs Hl Hmap.
  destruct (map_range_cases m STORAGE s start length fl root Hroot Hs Hl) as (r & s2 & Hr & Hsame & Hm).
  rewrite Hr in Hmap. simplify_eq. split; [done|].
  pose proof Hsame as (_ & _ & H). rewrite Hroot in H. destruct H as (arena & H & _).
  exists arena. split; [done|]. apply Hm.
Qed.

Lemma initialize_mappings_ok s root framebuffer image heap_start heap_size stack_marker s' :
  PAGE_TABLE_ROOT s = Some root →
  is_u64 framebuffer.1 → 0 ≤ framebuffer.2 → is_u64 image.1 → 0 ≤ image.2 →
  0 ≤ heap_start → 0 ≤ heap_size → is_u64 stack_marker →
  (∀ q, translation m s q = None) →
  initialize_mappings m framebuffer image heap_start heap_size stack_marker s = (Ok tt, s') →
  same_root STORAGE s s' ∧
  ∀ q, translation m s' q = boot_translation framebuffer image heap_start heap_size stack_marker q.
Proof.
  intros Hroot Hf1 Hf2 Hi1 Hi2 Hh1 Hh2 Hst Hempty Hinit. unfold initialize_mappings in Hinit.
  rewrite !land_page in Hinit by done.
  apply M_bind_ok in Hinit as (e1 & s1 & He1 & Hinit).
  apply M_bind_ok in Hinit as ([] & s2 & Hm1 & Hinit).
  apply M_bind_ok in Hinit as ([] & s3 & Hm2 & Hinit).
  apply M_bind_ok in Hinit as (e2 & s4 & He2 & Hinit).
  apply M_bind_ok in Hinit as ([] & s5 & Hm3 & Hm4).
  assert (∀ a b s (e : Z) s1, (lift (ok_or (checked_add a b) AddressTooLarge) :
    M (PagingState T) PagingError Z) s = (Ok e, s1) → e = a + b ∧ s1 = s) as Hadd.
  { intros a b s0 e s0'. unfold lift, ok_or, checked_add. destruct (_ <? _); cbn; intros; by simplify_eq. }
  apply Hadd in He1 as [-> ->]. apply Hadd in He2 as [-> ->].
  pose proof (page_bounds image.1) as [Hb1 _]. pose proof (page_bounds framebuffer.1) as [Hb2 _].
  pose proof (page_bounds stack_marker) as [Hb3 _]. unfold is_u64 in *.
  assert (∀ a n, page_floor (page_floor a) = page_floor a ∧
    (page_floor a ≤ a → 0 ≤ n → page_floor a + saturating_sub (a + n) (page_floor a) = a + n)) as Hfl.
  { intros a n. split; [|unfold saturating_sub; lia]. unfold page_floor.
    by rewrite Z.div_mul by done. }
  assert (∀ a, 0 ≤ a → 0 ≤ page_floor a) as Hpos.
  { intros a Ha. unfold page_floor, PAGE_SIZE. Z.div_mod_to_equations. lia. }
  apply (map_range_ok s _ _ _ root) in Hm1 as (Hs1 & a1 & Hr1 & Ht1);
    [|done|apply Hpos; lia|unfold saturating_sub; lia].
  rewrite (proj1 (Hfl image.1 0)), (proj2 (Hfl image.1 image.2)) in Ht1 by lia.
  assert (same_root STORAGE s s3 ∧ ∃ a, PAGE_TABLE_ROOT s3 = Some (mkRoot (root_frame root) a) ∧
    ∀ q, translation m s3 q =
      if negb (heap_size =? 0) && covered (page_floor heap_start) (page_ceil (heap_start + heap_size)) q
      then Some (q, [PRESENT; WRITABLE; NO_EXECUTE]) else translation m s2 q) as (Hs3 & a3 & Hr3 & Ht3).
  { destruct (negb (heap_size =? 0)).
    - destruct (map_range_ok _ _ _ _ _ _ Hr1 Hh1 Hh2 Hm2) as (H1 & a & H2 & H3). cbn [root_frame] in H2.
      split; [by eapply same_root_trans|]. by exists a.
    - injection Hm2 as <-. split; [done|]. by exists a1. }
  apply (map_range_ok s3 _ _ _ (mkRoot (root_frame root) a3)) in Hm3 as (Hs5 & a5 & Hr5 & Ht5);
    [|done|apply Hpos; lia|unfold saturating_sub; lia].
  rewrite (proj1 (Hfl framebuffer.1 0)), (proj2 (Hfl framebuffer.1 framebuffer.2)) in Ht5 by lia.
  apply (map_range_ok s5 _ _ _ (mkRoot (root_frame root) a5)) in Hm4 as (Hs6 & a6 & Hr6 & Ht6);
    [|done|unfold saturating_sub; lia|done].
  split.
  { apply (same_root_trans STORAGE s s5 s'); [|done]. by apply (same_root_trans STORAGE s s3 s5). }
  intros q. rewrite Ht6, Ht5, Ht3, Ht1, Hempty. done.
Qed.
End boot.

(** ** Virtual ranges *)

Lemma p4_index_mod a : p4_index a = a / 2 ^ 39 mod 512.
Proof.
  unfold p4_index. rewrite Z.shiftr_div_pow2 by lia. exact (Z.land_ones _ 9 ltac:(lia)).
Qed.

(** [VirtualRange::new], exactly: the first failing check names the error. *)
Lemma VirtualRange_new_spec start length_ : is_u64 start → is_u64 length_ →
  VirtualRange_new start length_ =
    if decide (length_ = 0) then Err Empty else
    if decide (start mod PAGE_SIZE ≠ 0 ∨ length_ mod PAGE_SIZE ≠ 0) then Err Misaligned else
    if decide (U64_SIZE < start + length_) then Err Overflow else
    if is_canonical start && is_canonical (start + length_ - 1)
    then Ok (mkVirtualRange start length_) else Err NonCanonical.
Proof.
  unfold is_u64. intros Hs Hl. unfold VirtualRange_new, is_multiple_of.
  change (PAGE_SIZE =? 0) with false. cbn beta iota.
  destruct (Z.eqb_spec length_ 0) as [->|Hne]; [done|]. rewrite (decide_False (P:=length_ = 0)) by done.
  destruct (Z.eqb_spec (start mod PAGE_SIZE) 0) as [H1|H1]; cbn [negb orb];
    [|by rewrite decide_True by auto].
  destruct (Z.eqb_spec (length_ mod PAGE_SIZE) 0) as [H2|H2]; cbn [negb orb];
    [|by rewrite decide_True by auto].
  rewrite decide_False by tauto. unfold_monad. rewrite checked_sub_Some by lia. cbn beta iota.
  unfold checked_add. replace (start + (length_ - 1)) with (start + length_ - 1) by lia.
  destruct (Z.ltb_spec (start + length_ - 1) U64_SIZE).
  - rewrite decide_False by lia. by destruct (is_canonical start), (is_canonical (start + length_ - 1)).
  - by rewrite decide_True by lia.
Qed.

(** A range may span the non-canonical hole, and the end of one may not be
    representable. *)
Lemma VirtualRange_spans_hole :
  ∃ r, VirtualRange_new 0 0xfffffffffffff000 = Ok r ∧ is_canonical (vr_start r + 0x800000000000) = false.
Proof. by exists (mkVirtualRange 0 0xfffffffffffff000). Qed.

Lemma VirtualRange_end_overflows :
  ∃ r, VirtualRange_new 0xfffffffffffff000 PAGE_SIZE = Ok r ∧ end_exclusive r = Panic.
Proof. by exists (mkVirtualRange 0xfffffffffffff000 PAGE_SIZE). Qed.

Definition in_virtual_range (a : Z) (r : VirtualRange) : Prop :=
  vr_start r ≤ a < vr_start r + vr_length r.

(** ** Properties *)

(** The fixed layout is valid at compile time: its five windows consist of
    canonical addresses, are pairwise disjoint and keep clear of the level-4
    slot of the recursive mapping, whose table address is the one the mapper
    uses. *)
Theorem layout_valid : ∃ l, VirtualMemoryLayout_new = Ok l ∧
  let windows := [vl_kernel l; vl_heap l; vl_framebuffer l; vl_mmio l; vl_stacks l] in
  (∀ r a, r ∈ windows → in_virtual_range a r → is_canonical a = true ∧ p4_index a ≠ RECURSIVE_INDEX) ∧
  ForallOrdPairs (λ r1 r2, ∀ a, in_virtual_range a r1 → ¬ in_virtual_range a r2) windows ∧
  (∀ i, i ∈ [39; 30; 21; 12] →
     Z.land (Z.shiftr recursive_table_address i) 511 = RECURSIVE_INDEX).
Proof.
  exists (mkVirtualLayout (mkVirtualRange KERNEL_BASE (2 ^ 40)) (mkVirtualRange HEAP_BASE (2 ^ 40))
    (mkVirtualRange FRAMEBUFFER_BASE (2 ^ 40)) (mkVirtualRange MMIO_BASE (2 ^ 40))
    (mkVirtualRange STACK_BASE (2 ^ 40))).
  split; [by vm_compute|]. cbn. split_and!.
  - intros r a Hr Ha. rewrite p4_index_mod. unfold in_virtual_range, is_canonical in *.
    unfold KERNEL_BASE, HEAP_BASE, FRAMEBUFFER_BASE, MMIO_BASE, STACK_BASE in Hr.
    unfold RECURSIVE_INDEX, HIGH_CANONICAL_MIN, LOW_CANONICAL_MAX.
    change (2 ^ 40) with 1099511627776 in *. change (2 ^ 39) with 549755813888.
    rewrite !elem_of_cons in Hr.
    destruct Hr as [->|[->|[->|[->|[->|Hr%not_elem_of_nil]]]]]; [..|done]; cbn in Ha;
      (split; [rewrite orb_true_iff, !Z.leb_le; lia|Z.div_mod_to_equations; lia]).
  - unfold in_virtual_range. repeat constructor; cbn;
      unfold KERNEL_BASE, HEAP_BASE, FRAMEBUFFER_BASE, MMIO_BASE, STACK_BASE; lia.
  - intros i Hi. rewrite !elem_of_cons in Hi.
    destruct Hi as [->|[->|[->|[->|Hi%not_elem_of_nil]]]]; [by vm_compute..|done].
Qed.

Section properties.
Context {T : Type} (m : Mapper T) (STORAGE : Z) {laws : MapperLaws STORAGE m}.

(** After a successful [initialize], outside the recursive slot the
    processor maps exactly the pages of the kernel image, the heap, the
    framebuffer and the boot stack window, each to itself with the flags of
    its kind (only the image executable, the framebuffer uncached); CR3 holds
    the root and paging is active. *)
Lemma initialize_maps s framebuffer image heap_start heap_size stack_marker s' :
  is_u64 framebuffer.1 → 0 ≤ framebuffer.2 → is_u64 image.1 → 0 ≤ image.2 →
  0 ≤ heap_start → 0 ≤ heap_size → is_u64 stack_marker → STORAGE mod PAGE_SIZE = 0 →
  initialize m STORAGE PAGE_SIZE framebuffer image heap_start heap_size stack_marker s = (Ok tt, s') →
  PAGE_TABLE_ROOT s = None ∧ PAGING_ACTIVE s' = true ∧ cr3 s' = Some STORAGE ∧
  (∃ n arena, PAGE_TABLE_ROOT s' = Some (mkRoot (mkOwnedFrame STORAGE Frame.PageTable) arena) ∧
     arena_at STORAGE n arena) ∧
  ∀ q, p4_index q ≠ RECURSIVE_INDEX → translate m (tables s') q =
    boot_translation framebuffer image heap_start heap_size stack_marker q.
Proof.
  intros Hf1 Hf2 Hi1 Hi2 Hh1 Hh2 Hst Hal Hinit. unfold initialize in Hinit.
  apply M_bind_ok in Hinit as (s0 & s1 & [= <- <-] & Hinit).
  destruct (PAGE_TABLE_ROOT s) eqn:Hroot; [done|]. rewrite Z.eqb_refl in Hinit. cbn [negb] in Hinit.
  assert (storage_address STORAGE 0 = STORAGE) as Ha0 by (unfold storage_address; lia).
  rewrite Ha0 in Hinit.
  apply M_bind_ok in Hinit as (owned & s1 & Hown & Hinit).
  assert (owned = mkOwnedFrame STORAGE Frame.PageTable ∧ s1 = s) as [-> ->].
  { unfold from_reserved, FrameAddress_new in Hown.
    rewrite (proj2 (is_multiple_of_spec STORAGE PAGE_SIZE ltac:(done)) Hal) in Hown. unfold lift in Hown. cbn in Hown. by simplify_eq. }
  apply M_bind_ok in Hinit as ([] & s1 & [= <-] & Hinit).
  apply M_bind_ok in Hinit as ([] & s2 & Hmaps & Hinit).
  apply M_bind_ok in Hinit as (ra & s3 & Hra & Hinit).
  apply M_bind_ok in Hinit as (s4 & s5 & [= <- <-] & Hinit).
  assert (ra = STORAGE ∧ s3 = s2) as [-> ->].
  { unfold lift, PhysAddr_new in Hra. by case_match; simplify_eq. }
  injection Hinit as <-.
  apply (initialize_mappings_ok m STORAGE _ (mkRoot (mkOwnedFrame STORAGE Frame.PageTable) arena_new))
    in Hmaps as [Hsame Htr]; [|done..|intros q; apply (clear_root_law STORAGE)].
  cbn [PAGING_ACTIVE cr3 PAGE_TABLE_ROOT tables]. split_and!; [done|done|by rewrite containing_aligned| |].
  - destruct Hsame as (_ & _ & arena & Hr & Hst2). cbn in Hr, Hst2.
    destruct (arena_steps_at STORAGE 0 _ _ Hal (arena_new_at STORAGE) Hst2) as (n & _ & Hn).
    by exists n, arena.
  - intros q Hq. rewrite (set_recursive_law STORAGE) by done. apply Htr.
Qed.

(** C25. [map_range] returns; when it succeeds it maps exactly the pages that
    the range touches, all unmapped before, each to itself, and an aligned
    range does not spill into the next page.  A failure leaves a prefix of them
    mapped, and only a range that reaches beyond the 52-bit physical addresses
    panics. *)
Theorem map_range_identity s start length_ fl root :
  PAGE_TABLE_ROOT s = Some root → 0 ≤ start → 0 ≤ length_ →
  let first := page_floor start in let last := page_ceil (start + length_) in
  ∃ r s', map_range m start length_ fl s = (r, s') ∧
  match r with
  | Ok _ => last ≤ u64_max ∧
      (∀ q, covered first last q = true → translate m (tables s) q = None) ∧
      (∀ q, translate m (tables s') q =
         if covered first last q then Some (q, fl) else translate m (tables s) q) ∧
      ((start + length_) mod PAGE_SIZE = 0 → last = start + length_)
  | Err _ => u64_max < last ∧ s' = s ∨ ∃ mid, first ≤ mid < last ∧
      ∀ q, translate m (tables s') q =
         if covered first mid q then Some (q, fl) else translate m (tables s) q
  | Panic => 2 ^ 52 < last
  end.
Proof.
  intros Hroot Hs Hl first last.
  destruct (map_range_cases m STORAGE s start length_ fl root Hroot Hs Hl) as (r & s' & Hr & _ & H).
  exists r, s'. split; [done|]. destruct r as [[]|e|].
  - destruct H as (H1 & H2 & H3). split_and!; [done..|]. subst last. unfold page_ceil, PAGE_SIZE.
    intros. Z.div_mod_to_equations. lia.
  - destruct e; auto.
  - destruct H as (q & Hq & Hbig). lia.
Qed.
End properties.

(** C30. For an address outside the slot of the tables' self-mapping,
    [map_device_page] maps only memory that the map classifies as a device,
    never executable or cached, onto a page that was free, and changes the
    translation of no other page outside that slot; [unmap_page] then returns
    the frame and leaves the translation of all these pages as it was.  An error
    changes no translation of theirs, and the only panic is a device address
    above 52 bits. *)
Theorem map_device_page_policy {T : Type} (m : Mapper T) `{!DeviceMapperLaws m} memory_map s v p root r s' :
  is_u64 v → is_u64 p → p4_index v ≠ RECURSIVE_INDEX → PAGE_TABLE_ROOT s = Some root →
  map_device_page m memory_map v p s = (r, s') →
  match r with
  | Ok _ => kind_at memory_map p = Some Device ∧ p mod PAGE_SIZE = 0 ∧ ordinary v ∧
      translate m (tables s) v = None ∧
      (∀ q, ordinary q → translate m (tables s') q =
         if q =? v then Some (p, [PRESENT; WRITABLE; NO_CACHE; NO_EXECUTE])
         else translate m (tables s) q) ∧
      ∃ s2, unmap_page m v s' = (Ok p, s2) ∧ ∀ q, ordinary q → translate m (tables s2) q = translate m (tables s) q
  | Err _ => ∀ q, ordinary q → translate m (tables s') q = translate m (tables s) q
  | Panic => kind_at memory_map p = Some Device ∧ 2 ^ 52 ≤ p
  end.
Proof.
  intros Hv Hp Hslot Hroot Hmap. unfold map_device_page in Hmap.
  destruct (is_multiple_of p PAGE_SIZE) eqn:Halp; cbn [negb] in Hmap; [|by injection Hmap as <- <-].
  apply is_multiple_of_spec in Halp; [|done].
  case_bool_decide as Hk; cbn [negb] in Hmap; [|by injection Hmap as <- <-].
  rewrite (map_page_run m s v p _ root Hv Hroot Halp) in Hmap.
  destruct (is_multiple_of v PAGE_SIZE) eqn:Halv; cbn [negb] in Hmap; [|by injection Hmap as <- <-].
  apply is_multiple_of_spec in Halv; [|done]. assert (ordinary v) as Hov by done.
  destruct (is_canonical v) eqn:Hc; cbn [negb] in Hmap; [|by injection Hmap as <- <-].
  destruct (Z.ltb_spec p (2 ^ 52)); [|by injection Hmap as <- <-].
  pose proof (device_map_law (active_mapper (PAGING_ACTIVE s)) (tables s) (root_arena root) v p
    [PRESENT; WRITABLE; NO_CACHE; NO_EXECUTE] Hov ltac:(by left)) as Hlaw.
  destruct (map_to m _ (tables s) _ v p _) as [[[] t] arena]; injection Hmap as <- <-; cbn [tables with_tables]; destruct Hlaw as [Hok Htr]; [|exact Htr].
  pose proof (Hok eq_refl) as Hnone. split_and!; try done.
  rewrite (unmap_page_run m _ v (mkRoot (root_frame root) arena)) by done. cbn [PAGING_ACTIVE with_tables tables].
  pose proof (device_unmap_law (active_mapper (PAGING_ACTIVE s)) t v p
    [PRESENT; WRITABLE; NO_CACHE; NO_EXECUTE] Hov ltac:(by left)) as Htr2.
  rewrite (Htr v Hov), Z.eqb_refl in Htr2. destruct (unmap m _ t v) as [o t2]. destruct (Htr2 eq_refl) as [-> Htr3]. eexists. split; [reflexivity|]. cbn [tables with_tables].
  intros q Hq. rewrite Htr3, (Htr q Hq) by done. cbn [andb]. by destruct (Z.eqb_spec q v) as [->|].
Qed.


(** ** A mapper

    Tables as a finite map from pages to translations; a page of a 2 MiB region
    without a mapping takes one intermediate table from the arena. *)

Abbreviation demo_tables := (gmap Z (Z * flags)) (only parsing).

Definition demo_needs_table (t : demo_tables) (page : Z) : bool :=
  negb (existsb (λ q, q / 2 ^ 21 =? page / 2 ^ 21) (map_to_list t).*1).

Definition demo_map_to (STORAGE : Z) (k : mapper_kind) (t : demo_tables) (arena : PageTableArena)
    (page frame : Z) (fl : flags) : bool * demo_tables * PageTableArena :=
  match t !! page with
  | Some _ => (false, t, arena)
  | None =>
    if demo_needs_table t page then
      match reserve_frame STORAGE arena with
      | Ok (Some _, arena) => (true, <[page := (frame, fl)]> t, arena)
      | _ => (false, t, arena)
      end
    else (true, <[page := (frame, fl)]> t, arena)
  end.

Definition demo_mapper (STORAGE : Z) : Mapper demo_tables :=
  mkMapper _ (demo_map_to STORAGE)
    (λ k t page, match t !! page with
                 | Some (frame, _) => (Some frame, delete page t)
                 | None => (None, t)
                 end)
    (λ t root, ∅) (λ t root index fl, t) (λ t q, t !! q).

#[export] Instance demo_mapper_laws STORAGE : MapperLaws STORAGE (demo_mapper STORAGE).
Proof.
  split.
  - intros k t arena page frame fl. simpl. unfold demo_map_to.
    destruct (t !! page) eqn:Hpage; [repeat split; try done; constructor|].
    assert (∀ q, <[page:=(frame, fl)]> t !! q = if true && (q =? page) then Some (frame, fl) else t !! q)
      as Hins.
    { intros q. cbn. destruct (Z.eqb_spec q page) as [->|]; [by rewrite lookup_insert_eq|].
      by rewrite lookup_insert_ne. }
    destruct (demo_needs_table t page).
    + destruct (reserve_frame STORAGE arena) as [[[a|] arena']| |] eqn:Hr;
        (split; [|done]); [|constructor..].
      by eapply arena_steps_step; [constructor|].
    + split; [constructor|done].
  - intros k t page. simpl. destruct (t !! page) as [[frame fl]|] eqn:Hpage.
    + split; [by intros ? [= <-]|]. intros q. cbn.
      destruct (Z.eqb_spec q page) as [->|]; [by rewrite lookup_delete_eq|by rewrite lookup_delete_ne].
    + split; [done|]. intros q. done.
  - intros t root p. apply lookup_empty.
  - done.
Qed.

#[export] Instance demo_device_laws STORAGE : DeviceMapperLaws (demo_mapper STORAGE).
Proof.
  split.
  - intros k t arena page frame fl _ _. pose proof (map_to_law STORAGE (m:=demo_mapper STORAGE) k t arena page frame fl) as H.
    destruct (map_to (demo_mapper STORAGE) k t arena page frame fl) as [[ok t'] arena']. destruct H as (_ & Hnone & Htr).
    split; [done|]. by intros q _.
  - intros k t page frame fl _ _ Htr. pose proof (unmap_law STORAGE (m:=demo_mapper STORAGE) k t page) as H.
    cbn [translate unmap demo_mapper] in *. rewrite Htr in *. split; [done|]. intros q _. by destruct H as [_ ->].
Qed.

(** ** Witnesses *)

Definition demo_storage : Z := 0x400000.
Definition demo_paging : PagingState demo_tables := mkPaging None false ∅ None.
Definition demo_root : PageTableRoot := mkRoot (mkOwnedFrame demo_storage Frame.PageTable) arena_new.
Definition demo_mapped : PagingState demo_tables := mkPaging (Some demo_root) false ∅ None.

Definition demo_initialized : outcome PagingError unit * PagingState demo_tables :=
  initialize (demo_mapper demo_storage) demo_storage PAGE_SIZE (0x80000000, 0x2100) (0x100000, 0x2000)
    0x200000 0x1000 0x300123 demo_paging.

Lemma demo_initialized_eq : demo_initialized = (Ok tt, snd demo_initialized).
Proof.
  assert (fst demo_initialized = Ok tt) as <- by by vm_compute. apply surjective_pairing.
Qed.

Lemma initialize_maps_witness :
  translate (demo_mapper demo_storage) (tables (snd demo_initialized)) 0x80002000
    = Some (0x80002000, [PRESENT; WRITABLE; NO_CACHE; NO_EXECUTE]).
Proof.
  refine (_ (initialize_maps (demo_mapper demo_storage) demo_storage demo_paging
    (0x80000000, 0x2100) (0x100000, 0x2000) 0x200000 0x1000 0x300123 _ _ _ _ _ _ _ _ _
    demo_initialized_eq)).
  1: intros (_ & _ & _ & _ & H); rewrite H; by vm_compute.
  all: by vm_compute.
Defined.

Lemma map_range_identity_witness : ∃ r s',
  map_range (demo_mapper demo_storage) 0x1000 0x2000 [PRESENT] demo_mapped = (r, s') ∧ r = Ok tt.
Proof.
  destruct (map_range_identity (demo_mapper demo_storage) demo_storage demo_mapped 0x1000 0x2000
    [PRESENT] demo_root eq_refl ltac:(lia) ltac:(lia)) as (r & s' & Hr & _).
  exists r, s'. split; [exact Hr|].
  assert (fst (map_range (demo_mapper demo_storage) 0x1000 0x2000 [PRESENT] demo_mapped) = Ok tt) as H
    by by vm_compute.
  by rewrite Hr in H.
Defined.

Lemma map_device_page_policy_witness : ∃ s',
  map_device_page (demo_mapper demo_storage) (Some demo_map) MMIO_BASE 0x100000 demo_mapped = (Ok tt, s')
  ∧ translate (demo_mapper demo_storage) (tables s') MMIO_BASE
    = Some (0x100000, [PRESENT; WRITABLE; NO_CACHE; NO_EXECUTE]).
Proof.
  destruct (map_device_page (demo_mapper demo_storage) (Some demo_map) MMIO_BASE 0x100000 demo_mapped)
    as [r s'] eqn:Hr.
  assert (r = Ok tt) as ->.
  { assert (fst (map_device_page (demo_mapper demo_storage) (Some demo_map) MMIO_BASE 0x100000 demo_mapped)
      = Ok tt) as H by by vm_compute. by rewrite Hr in H. }
  exists s'. split; [done|].
  destruct (map_device_page_policy (demo_mapper demo_storage) (Some demo_map) demo_mapped
    MMIO_BASE 0x100000 demo_root (Ok tt) s' ltac:(done) ltac:(done) ltac:(done) eq_refl Hr) as (_ & _ & Hv & _ & H & _).
  by rewrite (H MMIO_BASE Hv).
Defined.
