(* ===== verification/Context.v ===== *)
(** * Context: task stacks and the context switch of [src/task/stack.rs] and
    [src/task/context.rs], over a small model of the processor. *)

From S2P Require Import Prelude Globals.

(** ** Contexts and stacks *)

Record TaskContext : Type := mkContext {
  stack_pointer : Z;
  c_rbx : Z;
  c_rbp : Z;
  c_r12 : Z;
  c_r13 : Z;
  c_r14 : Z;
  c_r15 : Z;
}.

(** [TaskContext::new] *)
Definition TaskContext_new : TaskContext := mkContext 0 0 0 0 0 0 0.

(** The [bytes] of a [TaskStack]; its address is an argument of the methods. *)
Abbreviation TaskStack := (list Z) (only parsing).

(** [TaskStack::new] *)
Definition TaskStack_new : TaskStack := replicate (Z.to_nat TASK_STACK_SIZE) 0.

(** [TaskStack::top], for a stack at address [base]. *)
Definition top (base : Z) : Z := Z.land (base + TASK_STACK_SIZE) (u64_not 15).

(** [copy_nonoverlapping] of words to an offset of the stack. *)
Definition write_words (bytes : TaskStack) (offset : nat) (words : list Z) : TaskStack :=
  let data := words ≫= le_bytes 8 in
  take offset bytes ++ data ++ drop (offset + length data) bytes.

(** The frame that a new task starts with; [trampoline] is the address of
    [task_trampoline]. *)
Definition initial_frame (context : TaskContext) (trampoline : Z) : list Z :=
  [c_rbx context; c_rbp context; c_r12 context; c_r13 context; c_r14 context; c_r15 context;
   trampoline].

(** [TaskStack::initialize_frame] *)
Definition initialize_frame (trampoline base : Z) (bytes : TaskStack) (context : TaskContext) :
    Z * TaskStack :=
  let stack_pointer := top base - STACK_FRAME_WORDS * 8 in
  (stack_pointer,
   write_words bytes (Z.to_nat (stack_pointer - base)) (initial_frame context trampoline)).

(** ** The processor *)

Inductive reg : Type := RSP | RBX | RBP | R12 | R13 | R14 | R15 | RDI | RSI.
#[export] Instance reg_eq_dec : EqDecision reg.
Proof. solve_decision. Defined.

Record Cpu : Type := mkCpu {
  regs : reg → Z;
  rip : Z;
  ram : mem;
}.

Definition set_reg (r : reg) (v : Z) (c : Cpu) : Cpu :=
  mkCpu (λ r', if decide (r' = r) then v else regs c r') (rip c) (ram c).
Definition set_ram (m : mem) (c : Cpu) : Cpu := mkCpu (regs c) (rip c) m.
Definition set_rip (v : Z) (c : Cpu) : Cpu := mkCpu (regs c) v (ram c).

(** The instructions that its assembly uses. *)
Inductive instr : Type :=
  | Push (r : reg)
  | Pop (r : reg)
  | Store (base src : reg)
  | Load (dst base : reg)
  | Ret.

Definition wrap (x : Z) : Z := x mod U64_SIZE.

Definition exec (i : instr) (c : Cpu) : Cpu :=
  match i with
  | Push r =>
    let sp := wrap (regs c RSP - 8) in
    set_reg RSP sp (set_ram (write64 (ram c) sp (regs c r)) c)
  | Pop r =>
    let v := read64 (ram c) (regs c RSP) in
    set_reg r v (set_reg RSP (wrap (regs c RSP + 8)) c)
  | Store base src => set_ram (write64 (ram c) (regs c base) (regs c src)) c
  | Load dst base => set_reg dst (read64 (ram c) (regs c base)) c
  | Ret =>
    let v := read64 (ram c) (regs c RSP) in
    set_rip v (set_reg RSP (wrap (regs c RSP + 8)) c)
  end.

(** The inline assembly of [switch]. *)
Definition switch_code : list instr :=
  [Push R15; Push R14; Push R13; Push R12; Push RBP; Push RBX;
   Store RDI RSP;
   Load RSP RSI;
   Pop RBX; Pop RBP; Pop R12; Pop R13; Pop R14; Pop R15;
   Ret].

(** That block with its operands, the addresses of the two contexts, in RDI and
    RSI.  It is not the whole of the function [switch]: the function is not
    naked, and what the compiler puts in front of the block has run before.
    [Ret] leaves through the word that was on top of the stack when the block of
    the context [to] was entered. *)
Definition switch_block (from to : Z) (c : Cpu) : Cpu :=
  fold_left (λ c i, exec i c) switch_code (set_reg RSI to (set_reg RDI from c)).

Definition callee_saved : list reg := [RBX; RBP; R12; R13; R14; R15].

(** ** The switch *)

(** The memory that [switch_block] leaves: six registers below the stack pointer, and
    the new stack pointer in the context [from]. *)
Definition saved (c : Cpu) (from : Z) : mem :=
  let sp := regs c RSP in
  write64 (write64 (write64 (write64 (write64 (write64 (write64 (ram c)
    (sp - 8) (regs c R15)) (sp - 16) (regs c R14)) (sp - 24) (regs c R13))
    (sp - 32) (regs c R12)) (sp - 40) (regs c RBP)) (sp - 48) (regs c RBX))
    from (sp - 48).

Lemma wrap_small x : is_u64 x → wrap x = x.
Proof. unfold is_u64, wrap. intros. by apply Z.mod_small. Qed.

(** [switch_block], instruction by instruction. *)
Lemma switch_run c from to : 48 ≤ regs c RSP < U64_SIZE →
  let m := saved c from in let sp := read64 m to in
  is_u64 sp → sp + 56 < U64_SIZE →
  let c' := switch_block from to c in
  ram c' = m ∧ regs c' RSP = sp + 56 ∧ rip c' = read64 m (sp + 48) ∧
  regs c' RBX = read64 m sp ∧ regs c' RBP = read64 m (sp + 8) ∧
  regs c' R12 = read64 m (sp + 16) ∧ regs c' R13 = read64 m (sp + 24) ∧
  regs c' R14 = read64 m (sp + 32) ∧ regs c' R15 = read64 m (sp + 40) ∧
  regs c' RDI = from ∧ regs c' RSI = to.
Proof.
  intros Hsp m sp Hu Hend c'. unfold is_u64 in Hu.
  assert (∀ k k', 0 ≤ k ≤ 40 → k' = k + 8 → wrap (regs c RSP - k - 8) = regs c RSP - k') as Hw.
  { intros k k' Hk ->. rewrite wrap_small; [lia|unfold is_u64; lia]. }
  assert (∀ k k', 0 ≤ k ≤ 48 → k' = k + 8 → wrap (sp + k + 8) = sp + k') as Hw2.
  { intros k k' Hk ->. rewrite wrap_small; [lia|unfold is_u64; lia]. }
  subst c'. destruct c as [r pc ram0]. cbn [regs] in *.
  unfold switch_block. cbv -[wrap read64 write64 Z.add Z.sub m sp saved Z.lt Z.le].
  replace (wrap (r RSP - 8)) with (r RSP - 8) by (symmetry; apply wrap_small; unfold is_u64; lia).
  rewrite (Hw 8 16), (Hw 16 24), (Hw 24 32), (Hw 32 40), (Hw 40 48) by lia.
  match goal with |- context [read64 ?t to] => change t with m end. fold sp.
  replace (wrap (sp + 8)) with (sp + 8) by (symmetry; apply wrap_small; unfold is_u64; lia).
  rewrite (Hw2 8 16), (Hw2 16 24), (Hw2 24 32), (Hw2 32 40), (Hw2 40 48), (Hw2 48 56) by lia.
  split_and!; reflexivity.
Qed.

(** The areas of [n] bytes at [p] and of [k] bytes at [q] do not overlap. *)
Definition disjoint_areas (p n q k : Z) : Prop := p + n ≤ q ∨ q + k ≤ p.

Lemma saved_words c from : disjoint_areas from 8 (regs c RSP - 48) 48 → 48 ≤ regs c RSP < U64_SIZE →
  Forall (λ r, is_u64 (regs c r)) callee_saved →
  let m := saved c from in let sp := regs c RSP in
  read64 m from = sp - 48 ∧ read64 m (sp - 48) = regs c RBX ∧ read64 m (sp - 40) = regs c RBP ∧
  read64 m (sp - 32) = regs c R12 ∧ read64 m (sp - 24) = regs c R13 ∧
  read64 m (sp - 16) = regs c R14 ∧ read64 m (sp - 8) = regs c R15.
Proof.
  unfold callee_saved, saved, disjoint_areas. rewrite !Forall_cons.
  intros Hd Hsp (H1 & H2 & H3 & H4 & H5 & H6 & _).
  repeat split;
    repeat (rewrite read_write_other by lia);
    (rewrite read_write_same; [done|unfold is_u64 in *; lia || done]).
Qed.

Lemma saved_other c from q : disjoint_areas from 8 q 8 → disjoint_areas (regs c RSP - 48) 48 q 8 →
  read64 (saved c from) q = read64 (ram c) q.
Proof. unfold disjoint_areas, saved. intros. by rewrite !read_write_other by lia. Qed.

(** ** Properties *)

(** C24. The assembly of a context switch, there and back: when the block has
    switched from [A] to [B] and later, with [A]'s stack and context intact,
    switches back to [A], then [A] goes on at the address that was on top of its
    stack when the block was entered, with the stack pointer above that word and
    with RBX, RBP and R12 to R15 as they were; RDI and RSI are not restored, they
    hold the operands of the second switch.  So the word on top decides: it is
    the return address only if the compiler has pushed nothing in front of the
    block, and after a push of a register, as in the prologue of a function
    that has to save RDI and RSI, [A] goes on at that register's value. *)
Theorem switch_round_trip c0 c2 A B :
  let sp0 := regs c0 RSP in let sp2 := regs c2 RSP in
  48 ≤ sp0 → sp0 + 8 < U64_SIZE → Forall (λ r, is_u64 (regs c0 r)) callee_saved →
  disjoint_areas A 8 (sp0 - 48) 56 →
  (** [B] was a saved context, away from [A]'s area *)
  is_u64 (read64 (saved c0 A) B) → read64 (saved c0 A) B + 56 < U64_SIZE →
  (** meanwhile [A]'s context and stack were not written *)
  (∀ x, sp0 - 48 ≤ x < sp0 + 8 ∨ A ≤ x < A + 8 → ram c2 x = ram (switch_block A B c0) x) →
  (** and the second switch saves [B] elsewhere *)
  48 ≤ sp2 < U64_SIZE → disjoint_areas (sp2 - 48) 48 (sp0 - 48) 56 →
  disjoint_areas B 8 (sp0 - 48) 56 → disjoint_areas B 8 A 8 → disjoint_areas (sp2 - 48) 48 A 8 →
  let c3 := switch_block B A c2 in
  (∀ r, r ∈ callee_saved → regs c3 r = regs c0 r) ∧ regs c3 RDI = B ∧ regs c3 RSI = A ∧
  regs c3 RSP = sp0 + 8 ∧ rip c3 = read64 (ram c0) sp0 ∧
  (∀ r c, c0 = exec (Push r) c → is_u64 (regs c r) → rip c3 = regs c r).
Proof.
  intros sp0 sp2 Hlo Hhi Hregs HA Hu Hend Hkeep Hsp2 HB HB2 HBA HBA2 c3.
  destruct (switch_run c0 A B ltac:(unfold sp0 in *; lia) Hu Hend) as [Hram _]. rewrite Hram in Hkeep.
  assert (disjoint_areas A 8 (regs c0 RSP - 48) 48) as HA'
    by (unfold disjoint_areas in *; fold sp0; lia).
  destruct (saved_words c0 A HA' ltac:(fold sp0; lia) Hregs) as (HAsp & H1 & H2 & H3 & H4 & H5 & H6).
  fold sp0 in HAsp, H1, H2, H3, H4, H5, H6.
  assert (read64 (saved c0 A) sp0 = read64 (ram c0) sp0) as H7.
  { apply saved_other; unfold disjoint_areas in *; fold sp0; lia. }
  assert (∀ q, sp0 - 48 ≤ q ≤ sp0 ∨ q = A → read64 (saved c2 B) q = read64 (saved c0 A) q) as Hread.
  { intros q Hq. rewrite saved_other; [|unfold disjoint_areas in *; fold sp2; lia..].
    apply read64_ext. intros x Hx. apply Hkeep. lia. }
  assert (read64 (saved c2 B) A = sp0 - 48) as HAsp2 by (rewrite Hread by auto; exact HAsp).
  destruct (switch_run c2 B A Hsp2) as (_ & Hrsp & Hrip & G1 & G2 & G3 & G4 & G5 & G6 & G7 & G8);
    [rewrite HAsp2; unfold is_u64; lia|rewrite HAsp2; lia|].
  rewrite HAsp2 in *. fold c3 in Hrsp, Hrip, G1, G2, G3, G4, G5, G6, G7, G8.
  replace (sp0 - 48 + 8) with (sp0 - 40) in G2 by lia.
  replace (sp0 - 48 + 16) with (sp0 - 32) in G3 by lia.
  replace (sp0 - 48 + 24) with (sp0 - 24) in G4 by lia.
  replace (sp0 - 48 + 32) with (sp0 - 16) in G5 by lia.
  replace (sp0 - 48 + 40) with (sp0 - 8) in G6 by lia.
  replace (sp0 - 48 + 48) with sp0 in Hrip by lia.
  rewrite Hread in G1, G2, G3, G4, G5, G6, Hrip by lia.
  split_and!; [|done|done|lia|congruence|].
  2:{ intros r c -> Hr. rewrite Hrip, H7. change (read64 (write64 (ram c) sp0 (regs c r)) sp0 = regs c r). by apply read_write_same. }
  intros r Hr. unfold callee_saved in Hr. rewrite !elem_of_cons in Hr.
  destruct Hr as [->|[->|[->|[->|[->|[->|Hr%not_elem_of_nil]]]]]]; congruence || done.
Qed.

(** ** The first run of a task *)

(** A stack lies in memory at [base]. *)
Definition stack_at (m : mem) (base : Z) (bytes : TaskStack) : Prop :=
  ∀ i b, bytes !! i = Some b → m (base + Z.of_nat i) = b.

Lemma top_aligned base : is_u64 (base + TASK_STACK_SIZE) → base mod 16 = 0 →
  top base = base + TASK_STACK_SIZE.
Proof.
  intros Hu Hal. unfold top. rewrite (land_not_low _ 4) by (done || lia).
  change (2 ^ 4) with 16. unfold TASK_STACK_SIZE in *. Z.div_mod_to_equations. lia.
Qed.

Lemma initialize_frame_spec trampoline base bytes context :
  0 ≤ base → is_u64 (base + TASK_STACK_SIZE) → base mod 16 = 0 →
  length bytes = Z.to_nat TASK_STACK_SIZE →
  let '(sp, bytes') := initialize_frame trampoline base bytes context in
  sp = base + 4040 ∧ length bytes' = Z.to_nat TASK_STACK_SIZE ∧
  (∀ i, (i < 4040)%nat → bytes' !! i = bytes !! i) ∧
  drop 4040 bytes' = initial_frame context trampoline ≫= le_bytes 8.
Proof.
  intros Hb Hu Hal Hlen. unfold initialize_frame. rewrite top_aligned by done.
  unfold TASK_STACK_SIZE, STACK_FRAME_WORDS in *.
  replace (base + 4 * 1024 - 7 * 8) with (base + 4040) by lia.
  replace (Z.to_nat (base + 4040 - base)) with 4040%nat by lia.
  change (Z.to_nat (4 * 1024)) with 4096%nat in *. unfold write_words.
  set (data := initial_frame context trampoline ≫= le_bytes 8).
  assert (length data = 56%nat) as Hd by done.
  assert (length (take 4040 bytes) = 4040%nat) as Ht by (rewrite length_take; lia).
  rewrite Hd. rewrite (drop_ge bytes) by lia. rewrite app_nil_r. split_and!.
  - done.
  - rewrite length_app. lia.
  - intros i Hi. rewrite lookup_app_l by lia. by rewrite lookup_take_lt.
  - rewrite <- Ht at 1. by rewrite drop_app_length.
Qed.

(** A context that [initialize_frame] prepared starts its task: switching
    to it enters the trampoline with the registers of the context and the
    stack pointer at the top of the task's own stack. *)
Theorem switch_first_run c from to trampoline base bytes context sp bytes' :
  0 ≤ base → is_u64 (base + TASK_STACK_SIZE) → base mod 16 = 0 →
  length bytes = Z.to_nat TASK_STACK_SIZE → Forall is_u64 (initial_frame context trampoline) →
  initialize_frame trampoline base bytes context = (sp, bytes') →
  stack_at (ram c) base bytes' → read64 (ram c) to = sp →
  48 ≤ regs c RSP < U64_SIZE →
  disjoint_areas from 8 to 8 → disjoint_areas (regs c RSP - 48) 48 to 8 →
  disjoint_areas from 8 base TASK_STACK_SIZE →
  disjoint_areas (regs c RSP - 48) 48 base TASK_STACK_SIZE →
  let c' := switch_block from to c in
  rip c' = trampoline ∧ regs c' RSP = base + TASK_STACK_SIZE ∧
  regs c' <$> callee_saved = [c_rbx context; c_rbp context; c_r12 context; c_r13 context;
                              c_r14 context; c_r15 context].
Proof.
  intros Hb Hu Hal Hlen Hwords Hinit Hst Hto Hsp D1 D2 D3 D4 c'.
  pose proof (initialize_frame_spec trampoline base bytes context Hb Hu Hal Hlen) as H.
  rewrite Hinit in H. destruct H as (-> & _ & _ & Hframe).
  assert (read64 (saved c from) to = base + 4040) as Hread by (by rewrite saved_other).
  unfold TASK_STACK_SIZE, is_u64 in *. unfold disjoint_areas in *.
  destruct (switch_run c from to Hsp) as (_ & Hrsp & Hrip & G);
    [rewrite Hread; unfold is_u64; lia|rewrite Hread; lia|].
  rewrite Hread in *. fold c' in Hrsp, Hrip, G.
  assert (∀ (j : nat) v, (j < 7)%nat → initial_frame context trampoline !! j = Some v →
    read64 (saved c from) (base + 4040 + 8 * Z.of_nat j) = v) as Hword.
  { intros j v Hj Hv. rewrite saved_other by (unfold disjoint_areas; lia).
    apply read64_bytes; [by apply (proj1 (Forall_lookup _ _) Hwords j)|]. intros i Hi.
    replace (base + 4040 + 8 * Z.of_nat j + i)
      with (base + Z.of_nat (4040 + (8 * j + Z.to_nat i))) by lia.
    apply Hst. rewrite <- lookup_drop, Hframe. clear -Hj Hv Hi.
    destruct j as [|[|[|[|[|[|[|j]]]]]]]; [..|lia]; injection Hv as <-.
    all: assert (i = 0 ∨ i = 1 ∨ i = 2 ∨ i = 3 ∨ i = 4 ∨ i = 5 ∨ i = 6 ∨ i = 7) as Hi' by lia;
      destruct_or! Hi'; by subst i. }
  destruct G as (G1 & G2 & G3 & G4 & G5 & G6 & _).
  split; [rewrite Hrip, <- (Hword 6%nat trampoline) by (done || lia); f_equal; lia|].
  split; [lia|]. unfold callee_saved. cbn [fmap list_fmap].
  rewrite G1, G2, G3, G4, G5, G6.
  rewrite <- (Hword 0%nat (c_rbx context)), <- (Hword 1%nat (c_rbp context)), <- (Hword 2%nat (c_r12 context)),
    <- (Hword 3%nat (c_r13 context)), <- (Hword 4%nat (c_r14 context)), <- (Hword 5%nat (c_r15 context))
    by (done || lia).
  repeat match goal with |- _ :: _ = _ :: _ => apply (f_equal2 cons) end; [f_equal; lia..|done].
Qed.

(** The stack pointer at the entry of the trampoline is a multiple of 16, where
    the C calling convention has a return address on top. *)
Lemma initial_stack_pointer base : base mod 16 = 0 → (base + TASK_STACK_SIZE) mod 16 = 0.
Proof. unfold TASK_STACK_SIZE. intros. Z.div_mod_to_equations. lia. Qed.

(** ** Witnesses *)

(** Two contexts at 0x100 and 0x200; [A] runs on a stack at 0x2000. *)
Definition demo_frame : Z * TaskStack :=
  initialize_frame 0x7777 0x4000 TaskStack_new (mkContext 0 1 2 3 4 5 6).

Definition demo_ram : mem := λ x,
  if (0x4000 <=? x) && (x <? 0x5000) then nth (Z.to_nat (x - 0x4000)) (snd demo_frame) 0
  else write64 (write64 (λ _, 0) 0x200 (fst demo_frame)) 0x2000 0x1234 x.

Definition demo_cpu : Cpu :=
  mkCpu (λ r, match r with RSP => 0x2000 | RBX => 11 | RBP => 12 | R12 => 13 | R13 => 14
              | R14 => 15 | R15 => 16 | _ => 0 end) 0x500 demo_ram.

Lemma switch_first_run_witness :
  rip (switch_block 0x100 0x200 demo_cpu) = 0x7777 ∧ regs (switch_block 0x100 0x200 demo_cpu) RSP = 0x5000.
Proof.
  destruct (switch_first_run demo_cpu 0x100 0x200 0x7777 0x4000 TaskStack_new
    (mkContext 0 1 2 3 4 5 6) (fst demo_frame) (snd demo_frame)) as (H1 & H2 & _).
  - lia.
  - by vm_compute.
  - done.
  - by vm_compute.
  - repeat (apply Forall_cons; split); [by vm_compute..|done].
  - by vm_compute.
  - intros i b Hi. cbn [demo_cpu ram]. unfold demo_ram.
    assert (i < 4096)%nat as Hlt.
    { apply lookup_lt_Some in Hi. by assert (length (snd demo_frame) = 4096%nat) as <- by by vm_compute. }
    rewrite (proj2 (Z.leb_le _ _)), (proj2 (Z.ltb_lt _ _)) by lia. cbn [andb].
    replace (Z.to_nat (0x4000 + Z.of_nat i - 0x4000)) with i by lia.
    by apply nth_lookup_Some.
  - by vm_compute.
  - by vm_compute.
  - left. by vm_compute.
  - right. by vm_compute.
  - left. by vm_compute.
  - left. by vm_compute.
  - split; [exact H1|exact H2].
Defined.

(** The task at 0x200 is entered and at once switches back. *)
Definition demo_switched : Cpu := switch_block 0x100 0x200 demo_cpu.

Lemma switch_round_trip_witness :
  regs (switch_block 0x200 0x100 demo_switched) RBX = 11 ∧
  rip (switch_block 0x200 0x100 demo_switched) = 0x1234.
Proof.
  destruct (switch_round_trip demo_cpu demo_switched 0x100 0x200) as (H1 & _ & _ & _ & H3 & _).
  - by vm_compute.
  - by vm_compute.
  - repeat (apply Forall_cons; split); [by vm_compute..|done].
  - left. by vm_compute.
  - by vm_compute.
  - by vm_compute.
  - done.
  - by vm_compute.
  - right. by vm_compute.
  - left. by vm_compute.
  - right. by vm_compute.
  - right. by vm_compute.
  - split; [by rewrite (H1 RBX) by (by left)|]. rewrite H3. by vm_compute.
Defined.
