(* ===== verification/Task.v ===== *)
(** * Task: the cooperative scheduler of [src/task/mod.rs]. *)

From S2P Require Import Prelude Globals Context.

(** ** Data *)

Record TaskId : Type := mkTaskId {
  id_index : nat;
  id_generation : Z;
}.

Inductive TaskState : Type :=
  | Ready | Running | Sleeping (until : Z) | Blocked | Finished | Cancelled.

Inductive TaskAction : Type := Yield | SleepUntil (tick : Z) | Block | Exit.

Inductive SchedulerError : Type := NoTaskSlots | InvalidTask | TaskNotFinished.

#[export] Instance TaskState_eq_dec : EqDecision TaskState.
Proof. solve_decision. Defined.
#[export] Instance TaskId_eq_dec : EqDecision TaskId.
Proof. solve_decision. Defined.

(** [E] stands for the function pointers [fn() -> TaskAction]. *)
Record Task (E : Type) : Type := mkTask {
  entry : E;
  task_state : TaskState;
}.
Arguments mkTask {E} _ _.
Arguments entry {E} _.
Arguments task_state {E} _.

Record SchedulerStats : Type := mkStats {
  task_count : nat;
  ready : nat;
  sleeping : nat;
  blocked : nat;
  running : nat;
  finished : nat;
  cancelled : nat;
}.

Record Scheduler (E : Type) : Type := mkScheduler {
  tasks : list (option (Task E));
  stacks : list TaskStack;
  contexts : list TaskContext;
  generations : list Z;
  current : option TaskId;
  next : nat;
}.
Arguments mkScheduler {E} _ _ _ _ _ _.
Arguments tasks {E} _.
Arguments stacks {E} _.
Arguments contexts {E} _.
Arguments generations {E} _.
Arguments current {E} _.
Arguments next {E} _.

(** The position of the first element that satisfies [p]. *)
Fixpoint find_index {A} (p : A → bool) (l : list A) : option nat :=
  match l with
  | [] => None
  | x :: l => if p x then Some 0%nat else S <$> find_index p l
  end.

Definition is_none {A} (o : option A) : bool := match o with None => true | Some _ => false end.

(** [Finished | Cancelled] *)
Definition is_terminal (s : TaskState) : bool :=
  match s with Finished | Cancelled => true | _ => false end.

(** [generation.wrapping_add(1).max(1)] on a [u32]. *)
Definition next_generation (g : Z) : Z := Z.max ((g + 1) mod 2 ^ 32) 1.

Section scheduler.
(** The task bodies run in a world of their own: the scheduler is locked while
    a task runs, so a body cannot reach it. *)
Context {E W : Type} (call : E → W → TaskAction * W).
(** The address of [task_trampoline] and of each stack. *)
Context (trampoline : Z) (stack_base : nat → Z).

Abbreviation Sched := (Scheduler E) (only parsing).

Definition set_tasks (l : list (option (Task E))) (s : Sched) : Sched :=
  mkScheduler l (stacks s) (contexts s) (generations s) (current s) (next s).
Definition set_stacks (l : list TaskStack) (s : Sched) : Sched :=
  mkScheduler (tasks s) l (contexts s) (generations s) (current s) (next s).
Definition set_contexts (l : list TaskContext) (s : Sched) : Sched :=
  mkScheduler (tasks s) (stacks s) l (generations s) (current s) (next s).
Definition set_generations (l : list Z) (s : Sched) : Sched :=
  mkScheduler (tasks s) (stacks s) (contexts s) l (current s) (next s).
Definition set_current (c : option TaskId) (s : Sched) : Sched :=
  mkScheduler (tasks s) (stacks s) (contexts s) (generations s) c (next s).
Definition set_next (n : nat) (s : Sched) : Sched :=
  mkScheduler (tasks s) (stacks s) (contexts s) (generations s) (current s) n.

(** [Scheduler::new] *)
Definition Scheduler_new : Sched :=
  mkScheduler (replicate MAX_TASKS None) (replicate MAX_TASKS TaskStack_new)
    (replicate MAX_TASKS TaskContext_new) (replicate MAX_TASKS 0) None 0.

(** [Scheduler::spawn] *)
Definition spawn (f : E) : M Sched SchedulerError TaskId :=
  self ← get;
  index ← lift (ok_or (find_index is_none (tasks self)) NoTaskSlots);
  l ← lift (array_set (tasks self) index (Some (mkTask f Ready)));
  put (set_tasks l self);;
  self ← get;
  g ← lift (array_get (generations self) index);
  l ← lift (array_set (generations self) index (next_generation g));
  put (set_generations l self);;
  mret (mkTaskId index (next_generation g)).

(** [Scheduler::valid_task] *)
Definition valid_task (task : TaskId) (s : Sched) : outcome SchedulerError (option (Task E)) :=
  if Nat.leb MAX_TASKS (id_index task) then Err InvalidTask else
  g ← array_get (generations s) (id_index task);
  if negb (g =? id_generation task) then Err InvalidTask else
  array_get (tasks s) (id_index task).

(** [valid_task(task)?.ok_or(InvalidTask)?] *)
Definition live_task (task : TaskId) (s : Sched) : outcome SchedulerError (Task E) :=
  o ← valid_task task s; ok_or o InvalidTask.

(** [Scheduler::state], [context] and [stack]: [None] for a stale handle. *)
Definition state (s : Sched) (task : TaskId) : option TaskState :=
  match live_task task s with Ok t => Some (task_state t) | _ => None end.
Definition context (s : Sched) (task : TaskId) : option TaskContext :=
  match live_task task s with Ok _ => contexts s !! id_index task | _ => None end.
Definition stack (s : Sched) (task : TaskId) : option TaskStack :=
  match live_task task s with Ok _ => stacks s !! id_index task | _ => None end.

(** [self.tasks\[index\].as_mut()] with a new state. *)
Definition store_state (index : nat) (st : TaskState) : M Sched SchedulerError unit :=
  self ← get;
  slot ← lift (array_get (tasks self) index);
  t ← lift (ok_or slot InvalidTask);
  l ← lift (array_set (tasks self) index (Some (mkTask (entry t) st)));
  put (set_tasks l self).

(** [Scheduler::wake] *)
Definition wake (task : TaskId) : M Sched SchedulerError unit :=
  self ← get;
  t ← lift (live_task task self);
  if bool_decide (task_state t = Blocked) then store_state (id_index task) Ready else mret tt.

(** [Scheduler::cancel] *)
Definition cancel (task : TaskId) : M Sched SchedulerError unit :=
  self ← get;
  t ← lift (live_task task self);
  if negb (is_terminal (task_state t)) then store_state (id_index task) Cancelled else mret tt.

(** [Scheduler::reap] *)
Definition reap (task : TaskId) : M Sched SchedulerError unit :=
  self ← get;
  t ← lift (live_task task self);
  if negb (is_terminal (task_state t)) then throw TaskNotFinished else
  l ← lift (array_set (tasks self) (id_index task) None);
  c ← lift (array_set (contexts self) (id_index task) TaskContext_new);
  put (set_contexts c (set_tasks l self)).

(** The loop body of [wake_expired]. *)
Definition wake_one (now : Z) (slot : option (Task E)) : option (Task E) :=
  match slot with
  | Some t =>
    match task_state t with
    | Sleeping until => if until <=? now then Some (mkTask (entry t) Ready) else Some t
    | _ => Some t
    end
  | None => None
  end.

(** [Scheduler::wake_expired] *)
Definition wake_expired (now : Z) (s : Sched) : Sched :=
  set_tasks (map (wake_one now) (tasks s)) s.

Definition is_ready (slot : option (Task E)) : bool :=
  match slot with Some t => bool_decide (task_state t = Ready) | None => false end.

(** [Scheduler::find_next_ready]: the slots in round-robin order from [next]. *)
Definition find_next_ready (s : Sched) : option nat :=
  find (λ index, is_ready (mjoin (tasks s !! index)))
    (map (λ offset, (next s + offset) mod MAX_TASKS)%nat (seq 0 MAX_TASKS)).

(** The state that an action leads to. *)
Definition action_state (now : Z) (action : TaskAction) : TaskState :=
  match action with
  | Yield => Ready
  | SleepUntil until => if until <=? now then Ready else Sleeping until
  | Block => Blocked
  | Exit => Finished
  end.

(** What [run_next] does before it calls the entry of slot [index]. *)
Definition dispatch (index : nat) : M Sched SchedulerError (TaskId * E) :=
  self ← get;
  g ← lift (array_get (generations self) index);
  let task_id := mkTaskId index g in
  c ← lift (array_get (contexts self) index);
  b ← lift (array_get (stacks self) index);
  let '(sp, b) := initialize_frame trampoline (stack_base index) b c in
  l ← lift (array_set (stacks self) index b);
  put (set_stacks l self);;
  self ← get;
  l ← lift (array_set (contexts self) index
        (mkContext sp (c_rbx c) (c_rbp c) (c_r12 c) (c_r13 c) (c_r14 c) (c_r15 c)));
  put (set_contexts l self);;
  self ← get;
  put (set_current (Some task_id) self);;
  self ← get;
  slot ← lift (array_get (tasks self) index);
  t ← lift (ok_or slot InvalidTask);
  store_state index Running;;
  mret (task_id, entry t).

(** A method of the scheduler, with the world of the tasks alongside. *)
Definition on_scheduler {A} (m : M Sched SchedulerError A) : M (Sched * W) SchedulerError A :=
  λ '(s, w), let '(r, s) := m s in (r, (s, w)).
Definition call_entry (f : E) : M (Sched * W) SchedulerError TaskAction :=
  λ '(s, w), let '(a, w) := call f w in (Ok a, (s, w)).

(** [Scheduler::run_next] *)
Definition run_next (now : Z) : M (Sched * W) SchedulerError (option TaskId) :=
  on_scheduler (s ← get; put (wake_expired now s));;
  s ← on_scheduler get;
  match find_next_ready s with
  | None => mret None
  | Some index =>
    '(task_id, f) ← on_scheduler (dispatch index);
    action ← call_entry f;
    on_scheduler (store_state index (action_state now action));;
    on_scheduler (s ← get; put (set_next ((index + 1) mod MAX_TASKS)%nat (set_current None s)));;
    mret (Some task_id)
  end.

(** The loop of [run_ready], with [n] dispatches of the budget left. *)
Fixpoint run_ready_loop (now : Z) (n dispatched : nat) : M (Sched * W) SchedulerError nat :=
  match n with
  | O => mret dispatched
  | S n =>
    o ← run_next now;
    match o with
    | None => mret dispatched
    | Some _ => run_ready_loop now n (S dispatched)
    end
  end.

(** [Scheduler::run_ready] *)
Definition run_ready (now : Z) (budget : nat) : M (Sched * W) SchedulerError nat :=
  run_ready_loop now budget 0.

(** The loop body of [stats]. *)
Definition count_task (s : SchedulerStats) (slot : option (Task E)) : SchedulerStats :=
  match slot with
  | None => s
  | Some t =>
    let '(mkStats n r sl b ru f c) := s in
    match task_state t with
    | Ready => mkStats (S n) (S r) sl b ru f c
    | Sleeping _ => mkStats (S n) r (S sl) b ru f c
    | Blocked => mkStats (S n) r sl (S b) ru f c
    | Running => mkStats (S n) r sl b (S ru) f c
    | Finished => mkStats (S n) r sl b ru (S f) c
    | Cancelled => mkStats (S n) r sl b ru f (S c)
    end
  end.

(** [Scheduler::stats] *)
Definition stats (s : Sched) : SchedulerStats :=
  fold_left count_task (tasks s) (mkStats 0 0 0 0 0 0 0).
End scheduler.

(** ** The invariant *)

Lemma find_index_Some {A} (p : A → bool) l i :
  find_index p l = Some i ↔ ∃ x, l !! i = Some x ∧ p x = true ∧
    ∀ j y, (j < i)%nat → l !! j = Some y → p y = false.
Proof.
  revert i. induction l as [|x l IH]; intros i; simpl.
  { split; [done|]. by intros (? & ? & _). }
  destruct (p x) eqn:Hp.
  - split.
    + intros [= <-]. exists x. split_and!; [done|done|lia].
    + intros (y & Hy & Hpy & Hmin). destruct i as [|i]; [done|].
      specialize (Hmin 0%nat x ltac:(lia) eq_refl). congruence.
  - rewrite fmap_Some. split.
    + intros (j & (y & Hy & Hpy & Hmin)%IH & ->). exists y. split_and!; [done|done|].
      intros [|k] z Hk Hz; [by simplify_eq/=|]. apply (Hmin k); [lia|done].
    + intros (y & Hy & Hpy & Hmin). destruct i as [|i]; [simplify_eq/=; congruence|].
      exists i. split; [|done]. apply IH. exists y. split_and!; [done|done|].
      intros k z Hk Hz. apply (Hmin (S k)); [lia|done].
Qed.

Lemma find_index_None {A} (p : A → bool) l :
  find_index p l = None ↔ ∀ x, x ∈ l → p x = false.
Proof.
  induction l as [|x l IH]; simpl.
  - split; [|done]. intros _ x Hx. by apply not_elem_of_nil in Hx.
  - destruct (p x) eqn:Hp.
    + split; [done|]. intros H. specialize (H x ltac:(by left)). congruence.
    + rewrite fmap_None, IH. split.
      * intros H y [->|Hy]%elem_of_cons; auto.
      * intros H y Hy. apply H. by right.
Qed.

Lemma find_seq {B} (p : B → bool) (f : nat → B) n :
  match find p (map f (seq 0 n)) with
  | Some y => ∃ k, (k < n)%nat ∧ y = f k ∧ p y = true ∧ ∀ j, (j < k)%nat → p (f j) = false
  | None => ∀ k, (k < n)%nat → p (f k) = false
  end.
Proof.
  assert (∀ m, match find p (map f (seq m n)) with
    | Some y => ∃ k, (m ≤ k < m + n)%nat ∧ y = f k ∧ p y = true ∧
        ∀ j, (m ≤ j < k)%nat → p (f j) = false
    | None => ∀ k, (m ≤ k < m + n)%nat → p (f k) = false
    end) as H.
  { induction n as [|n IH]; intros m; simpl; [lia|]. destruct (p (f m)) eqn:Hp.
    - exists m. split_and!; [lia|lia|done|done|lia].
    - specialize (IH (S m)). destruct (find p _).
      + destruct IH as (k & Hk & -> & Hpk & Hmin). exists k. split_and!; [lia|lia|done|done|].
        intros j Hj. destruct (decide (j = m)) as [->|]; [done|]. apply Hmin. lia.
      + intros k Hk. destruct (decide (k = m)) as [->|]; [done|]. apply IH. lia. }
  specialize (H 0%nat). simpl in H. destruct (find p _).
  - destruct H as (k & Hk & Hy & Hp & Hmin). exists k. split_and!; [lia|done|done|].
    intros j Hj. apply Hmin. lia.
  - intros k Hk. apply H. lia.
Qed.

Section proofs.
Context {E W : Type} (call : E → W → TaskAction * W) (trampoline : Z) (stack_base : nat → Z).
(** The stacks lie in memory, 16-byte aligned. *)
Hypothesis stack_base_ok : ∀ i,
  0 ≤ stack_base i ∧ is_u64 (stack_base i + TASK_STACK_SIZE) ∧ stack_base i mod 16 = 0.

Implicit Types (s : Scheduler E) (w : W).

(** The task in a slot. *)
Definition task_at s (i : nat) : option (Task E) := mjoin (tasks s !! i).

(** The invariant between calls: no task is running. *)
Record sched_wf s : Prop := {
  wf_tasks : length (tasks s) = MAX_TASKS;
  wf_stacks : length (stacks s) = MAX_TASKS;
  wf_contexts : length (contexts s) = MAX_TASKS;
  wf_generations : length (generations s) = MAX_TASKS;
  wf_next : (next s < MAX_TASKS)%nat;
  wf_current : current s = None;
  wf_stack_size : Forall (λ b, length b = Z.to_nat TASK_STACK_SIZE) (stacks s);
  wf_generation_range : Forall (λ g, 0 ≤ g < 2 ^ 32) (generations s);
  wf_not_running : ∀ i t, task_at s i = Some t → task_state t ≠ Running;
}.

Lemma Scheduler_new_wf : sched_wf (Scheduler_new (E:=E)).
Proof.
  split; try done; try (by apply Forall_replicate).
  - unfold MAX_TASKS. cbn. lia.
  - intros i t Ht. unfold task_at in Ht. cbn [Scheduler_new tasks] in Ht.
    destruct (replicate MAX_TASKS None !! i) as [o|] eqn:Hi; [|done].
    apply lookup_replicate in Hi as [-> _]. done.
Qed.

Lemma task_at_lookup s i t : task_at s i = Some t ↔ tasks s !! i = Some (Some t).
Proof.
  unfold task_at. destruct (tasks s !! i) as [[?|]|]; cbn; split; intros H; congruence.
Qed.

Lemma next_generation_range g : 0 ≤ g < 2 ^ 32 →
  1 ≤ next_generation g < 2 ^ 32 ∧ next_generation g ≠ g.
Proof.
  intros Hg. unfold next_generation. change (2 ^ 32) with 4294967296 in *.
  Z.div_mod_to_equations. lia.
Qed.

(** The [k]-th later generation of a slot is a different one, up to the wrap. *)
Fixpoint later_generation (k : nat) (g : Z) : Z :=
  match k with O => g | S k => next_generation (later_generation k g) end.

Lemma next_generation_iter g k : 1 ≤ g < 2 ^ 32 →
  later_generation k g = (g - 1 + Z.of_nat k) mod (2 ^ 32 - 1) + 1.
Proof.
  intros Hg. change (2 ^ 32) with 4294967296 in *. induction k as [|k IH]; cbn [later_generation].
  - rewrite Z.mod_small by lia. lia.
  - rewrite IH. unfold next_generation. change (2 ^ 32) with 4294967296 in *.
    Z.div_mod_to_equations. lia.
Qed.

Lemma next_generation_iter_ne g k : 1 ≤ g < 2 ^ 32 → (0 < k)%nat → Z.of_nat k < 2 ^ 32 - 1 →
  later_generation k g ≠ g.
Proof.
  intros Hg Hk Hlt. rewrite next_generation_iter by done. change (2 ^ 32) with 4294967296 in *.
  Z.div_mod_to_equations. lia.
Qed.

(** ** Single operations *)

Lemma live_task_cases s id : sched_wf s →
  match live_task id s with
  | Ok t => (id_index id < MAX_TASKS)%nat ∧ generations s !! id_index id = Some (id_generation id) ∧
      task_at s (id_index id) = Some t
  | Err e => e = InvalidTask ∧
      ((MAX_TASKS ≤ id_index id)%nat ∨ generations s !! id_index id ≠ Some (id_generation id) ∨
       task_at s (id_index id) = None)
  | Panic => False
  end.
Proof.
  intros [Ht _ _ Hg _ _ _ _ _]. unfold live_task, valid_task. unfold_monad.
  destruct (Nat.leb_spec MAX_TASKS (id_index id)) as [|Hlt]; [auto|].
  destruct (lookup_lt_is_Some_2 (generations s) (id_index id)) as [g Hgi]; [lia|].
  destruct (lookup_lt_is_Some_2 (tasks s) (id_index id)) as [o Ho]; [lia|].
  rewrite (array_get_ok _ _ _ Hgi), (array_get_ok _ _ _ Ho). unfold task_at. rewrite Ho, Hgi. cbn.
  destruct (Z.eqb_spec g (id_generation id)) as [->|Hne]; cbn [negb].
  - destruct o as [t|]; [done|]. auto.
  - split; [done|]. right. left. congruence.
Qed.

(** Changing the state of an occupied slot. *)
Definition with_state s (i : nat) (t : Task E) (st : TaskState) : Scheduler E :=
  set_tasks (<[i := Some (mkTask (entry t) st)]> (tasks s)) s.

Lemma store_state_ok s i t st : (i < length (tasks s))%nat → task_at s i = Some t →
  store_state i st s = (Ok tt, with_state s i t st).
Proof.
  intros Hi Ht%task_at_lookup. unfold store_state. unfold_monad. cbn beta iota zeta.
  rewrite (array_get_ok _ _ _ Ht). cbn. by rewrite array_set_ok.
Qed.

Lemma task_at_insert s i j o : (i < length (tasks s))%nat →
  task_at (set_tasks (<[i := o]> (tasks s)) s) j = if decide (j = i) then o else task_at s j.
Proof.
  intros Hi. unfold task_at. cbn. case_decide as Hj.
  - subst. by rewrite list_lookup_insert_eq.
  - by rewrite list_lookup_insert_ne.
Qed.

Lemma task_at_lt s i t : sched_wf s → task_at s i = Some t → (i < length (tasks s))%nat.
Proof. intros _ Ht%task_at_lookup. by eapply lookup_lt_Some. Qed.

Lemma with_state_wf s i t st : sched_wf s → task_at s i = Some t → st ≠ Running →
  sched_wf (with_state s i t st).
Proof.
  intros Hwf Ht Hst. pose proof (task_at_lt s i t Hwf Ht) as Hi. destruct Hwf.
  split; try done; [unfold with_state; cbn; by rewrite length_insert|].
  intros j t'. unfold with_state. rewrite task_at_insert by done. case_decide; [|eauto].
  by intros [= <-].
Qed.

Lemma wake_cases s id : sched_wf s →
  match live_task id s with
  | Ok t => wake id s = (Ok tt, if decide (task_state t = Blocked)
                                then with_state s (id_index id) t Ready else s)
  | _ => wake id s = (Err InvalidTask, s)
  end.
Proof.
  intros Hwf. pose proof (live_task_cases s id Hwf) as H. unfold wake. unfold_monad. cbn beta iota zeta.
  destruct (live_task id s) as [t|e|]; [|by destruct H as [-> _]|done].
  destruct H as (_ & _ & Ht). case_bool_decide; [rewrite decide_True by done|by rewrite decide_False by done].
  apply store_state_ok; [by eapply task_at_lt|done].
Qed.

Lemma cancel_cases s id : sched_wf s →
  match live_task id s with
  | Ok t => cancel id s = (Ok tt, if is_terminal (task_state t) then s
                                  else with_state s (id_index id) t Cancelled)
  | _ => cancel id s = (Err InvalidTask, s)
  end.
Proof.
  intros Hwf. pose proof (live_task_cases s id Hwf) as H. unfold cancel. unfold_monad. cbn beta iota zeta.
  destruct (live_task id s) as [t|e|]; [|by destruct H as [-> _]|done].
  destruct H as (_ & _ & Ht). destruct (is_terminal (task_state t)); cbn [negb]; [done|].
  apply store_state_ok; [by eapply task_at_lt|done].
Qed.

(** The slot [i] emptied. *)
Definition emptied s (i : nat) : Scheduler E :=
  set_contexts (<[i := TaskContext_new]> (contexts s)) (set_tasks (<[i := None]> (tasks s)) s).

Lemma reap_cases s id : sched_wf s →
  match live_task id s with
  | Ok t => reap id s = if is_terminal (task_state t) then (Ok tt, emptied s (id_index id))
                        else (Err TaskNotFinished, s)
  | _ => reap id s = (Err InvalidTask, s)
  end.
Proof.
  intros Hwf. pose proof (live_task_cases s id Hwf) as H. unfold reap. unfold_monad. cbn beta iota zeta.
  destruct (live_task id s) as [t|e|]; [|by destruct H as [-> _]|done].
  destruct H as (Hi & _ & Ht). destruct (is_terminal (task_state t)); cbn [negb]; [|done].
  rewrite array_set_ok by (by rewrite (wf_tasks s Hwf)). cbn.
  by rewrite array_set_ok by (by rewrite (wf_contexts s Hwf)).
Qed.

Lemma emptied_wf s i : sched_wf s → (i < MAX_TASKS)%nat → sched_wf (emptied s i).
Proof.
  intros Hwf Hi. destruct Hwf. unfold emptied.
  split; cbn; rewrite ?length_insert; try done.
  intros j t Ht. change (task_at (set_tasks (<[i:=None]> (tasks s)) s) j = Some t) in Ht.
  rewrite task_at_insert in Ht by lia. case_decide; [done|eauto].
Qed.

(** The slot [i] filled by [spawn]. *)
Definition spawned s (i : nat) (f : E) (g : Z) : Scheduler E :=
  set_generations (<[i := next_generation g]> (generations s))
    (set_tasks (<[i := Some (mkTask f Ready)]> (tasks s)) s).

Lemma spawn_cases s f : sched_wf s →
  match find_index is_none (tasks s) with
  | None => spawn f s = (Err NoTaskSlots, s) ∧ ∀ i, (i < MAX_TASKS)%nat → is_Some (task_at s i)
  | Some i => (i < MAX_TASKS)%nat ∧ task_at s i = None ∧
      (∀ j, (j < i)%nat → is_Some (task_at s j)) ∧
      ∃ g, generations s !! i = Some g ∧ 0 ≤ g < 2 ^ 32 ∧
        spawn f s = (Ok (mkTaskId i (next_generation g)), spawned s i f g)
  end.
Proof.
  intros Hwf. unfold spawn. unfold_monad. cbn beta iota zeta.
  destruct (find_index is_none (tasks s)) as [i|] eqn:Hf.
  - apply find_index_Some in Hf as (o & Hi & Ho & Hmin). pose proof (lookup_lt_Some _ _ _ Hi) as Hlt.
    rewrite (wf_tasks s Hwf) in Hlt. destruct o; [done|].
    destruct (lookup_lt_is_Some_2 (generations s) i) as [g Hg]; [by rewrite (wf_generations s Hwf)|].
    split; [done|]. split; [unfold task_at; by rewrite Hi|]. split.
    { intros j Hj. destruct (lookup_lt_is_Some_2 (tasks s) j) as [o Hoj];
        [rewrite (wf_tasks s Hwf); lia|]. specialize (Hmin j o Hj Hoj).
      unfold task_at. rewrite Hoj. by destruct o. }
    exists g. split; [done|]. split; [by apply (proj1 (Forall_lookup _ _) (wf_generation_range s Hwf) i)|].
    rewrite array_set_ok by (by rewrite (wf_tasks s Hwf)). cbn.
    rewrite (array_get_ok _ _ _ Hg). by rewrite array_set_ok by (by rewrite (wf_generations s Hwf)).
  - split; [done|]. intros i Hi. destruct (lookup_lt_is_Some_2 (tasks s) i) as [o Ho];
      [by rewrite (wf_tasks s Hwf)|]. rewrite find_index_None in Hf.
    specialize (Hf o (list_elem_of_lookup_2 _ _ _ Ho)). unfold task_at. rewrite Ho. by destruct o.
Qed.

Lemma spawned_wf s i f g : sched_wf s → (i < MAX_TASKS)%nat → 0 ≤ g < 2 ^ 32 →
  sched_wf (spawned s i f g).
Proof.
  intros Hwf Hi Hg. destruct Hwf. unfold spawned.
  split; cbn; rewrite ?length_insert; try done.
  - apply Forall_insert; [done|]. pose proof (next_generation_range g Hg). lia.
  - intros j t Ht. change (task_at (set_tasks (<[i:=Some (mkTask f Ready)]> (tasks s)) s) j = Some t) in Ht.
    rewrite task_at_insert in Ht by lia. case_decide; [|eauto]. by injection Ht as <-.
Qed.

Lemma wake_expired_at now s i : task_at (wake_expired now s) i = wake_one now (task_at s i).
Proof.
  unfold task_at, wake_expired. cbn. rewrite list_lookup_fmap. by destruct (tasks s !! i) as [[t|]|].
Qed.

Lemma wake_expired_wf now s : sched_wf s → sched_wf (wake_expired now s).
Proof.
  intros Hwf. pose proof Hwf as [Ht _ _ _ _ _ _ _ Hr].
  split; try apply Hwf; [cbn; by rewrite length_map|].
  intros i t. rewrite wake_expired_at. destruct (task_at s i) as [t0|] eqn:Hi; [|done].
  specialize (Hr i t0 Hi). cbn. destruct (task_state t0) eqn:Hst; try (by intros [= <-]; congruence).
  destruct (_ <=? _); intros [= <-]; [done|]. congruence.
Qed.

(** ** Dispatch *)

(** The stack and the context of slot [i], ready to be switched to. *)
Definition prepared s (i : nat) : Prop :=
  ∃ c b, contexts s !! i = Some c ∧ stacks s !! i = Some b ∧
    stack_pointer c = stack_base i + 4040 ∧
    drop 4040 b = initial_frame c trampoline ≫= le_bytes 8.

Lemma dispatch_ok s i t : sched_wf s → task_at s i = Some t →
  ∃ g s', generations s !! i = Some g ∧
    dispatch trampoline stack_base i s = (Ok (mkTaskId i g, entry t), s') ∧
    tasks s' = <[i := Some (mkTask (entry t) Running)]> (tasks s) ∧
    generations s' = generations s ∧ next s' = next s ∧ current s' = Some (mkTaskId i g) ∧
    length (stacks s') = MAX_TASKS ∧ length (contexts s') = MAX_TASKS ∧
    Forall (λ b, length b = Z.to_nat TASK_STACK_SIZE) (stacks s') ∧ prepared s' i ∧
    (∀ j, j ≠ i → stacks s' !! j = stacks s !! j ∧ contexts s' !! j = contexts s !! j).
Proof.
  intros Hwf Ht. pose proof (task_at_lt s i t Hwf Ht) as Hi. pose proof Ht as Hti.
  apply task_at_lookup in Hti. pose proof Hwf as [H1 H2 H3 H4 _ _ H7 _ _].
  destruct (lookup_lt_is_Some_2 (generations s) i) as [g Hg]; [lia|].
  destruct (lookup_lt_is_Some_2 (contexts s) i) as [c Hc]; [lia|].
  destruct (lookup_lt_is_Some_2 (stacks s) i) as [b Hb]; [lia|].
  destruct (stack_base_ok i) as (B1 & B2 & B3).
  pose proof (initialize_frame_spec trampoline (stack_base i) b c B1 B2 B3
    (proj1 (Forall_lookup _ _) H7 i b Hb)) as Hinit.
  unfold dispatch. unfold_monad. cbn beta iota zeta.
  rewrite (array_get_ok _ _ _ Hg), (array_get_ok _ _ _ Hc), (array_get_ok _ _ _ Hb). cbn beta iota zeta.
  destruct (initialize_frame trampoline (stack_base i) b c) as [sp b'].
  destruct Hinit as (-> & Hlen & _ & Hframe).
  rewrite array_set_ok by lia. cbn beta iota zeta.
  cbn [set_stacks contexts]. rewrite array_set_ok by lia. cbn beta iota zeta.
  cbn [set_contexts set_current tasks set_stacks]. rewrite (array_get_ok _ _ _ Hti). cbn beta iota zeta.
  rewrite (store_state_ok _ i t) by done. cbn beta iota zeta.
  exists g. eexists. split; [done|]. split; [done|].
  unfold prepared, with_state, set_tasks, set_current, set_contexts, set_stacks.
  cbn [tasks generations next current stacks contexts].
  rewrite !length_insert. split_and!; [done..|by apply Forall_insert| |].
  - eexists _, b'. rewrite !list_lookup_insert_eq by lia. split; [done|]. split; [done|]. by cbn.
  - intros j Hj. by rewrite !list_lookup_insert_ne by done.
Qed.

(** The distance of a slot from [next] in round-robin order. *)
Definition offset s (j : nat) : nat := ((j + MAX_TASKS - next s) mod MAX_TASKS)%nat.

Lemma offset_spec s j k : (next s < MAX_TASKS)%nat → (k < MAX_TASKS)%nat → (j < MAX_TASKS)%nat →
  (offset s j < MAX_TASKS)%nat ∧ ((next s + offset s j) mod MAX_TASKS)%nat = j ∧
  (((next s + k) mod MAX_TASKS)%nat = j → k = offset s j).
Proof.
  unfold offset, MAX_TASKS. intros. repeat split; zify;
    rewrite ?Nat2Z.inj_mod in *; zify; rewrite ?Nat2Z.inj_mod in *; zify; Z.div_mod_to_equations; lia.
Qed.

Definition ready_at s (i : nat) : Prop := ∃ t, task_at s i = Some t ∧ task_state t = Ready.

Lemma is_ready_spec s i : is_ready (mjoin (tasks s !! i)) = true ↔ ready_at s i.
Proof.
  unfold ready_at, task_at. destruct (mjoin (tasks s !! i)) as [t|]; cbn.
  - rewrite bool_decide_eq_true. split; [eauto|]. by intros (? & [= <-] & ?).
  - split; [done|]. by intros (? & ? & _).
Qed.

(** The slot found is the ready one that comes first in round-robin order. *)
Lemma find_next_ready_spec s : sched_wf s →
  match find_next_ready s with
  | Some i => (i < MAX_TASKS)%nat ∧ ready_at s i ∧
      ∀ j, ready_at s j → (offset s i ≤ offset s j)%nat
  | None => ∀ j, ¬ ready_at s j
  end.
Proof.
  intros Hwf. pose proof (wf_next s Hwf) as Hn. unfold find_next_ready.
  pose proof (find_seq (λ index, is_ready (mjoin (tasks s !! index)))
    (λ offset, (next s + offset) mod MAX_TASKS)%nat MAX_TASKS) as H.
  assert (∀ j, ready_at s j → (j < MAX_TASKS)%nat) as Hlt.
  { intros j (t & Ht & _). rewrite <- (wf_tasks s Hwf). by eapply task_at_lt. }
  destruct (find _ _) as [i|].
  - destruct H as (k & Hk & -> & Hp & Hmin). apply is_ready_spec in Hp.
    split; [by apply Hlt|]. split; [done|]. intros j Hj.
    destruct (offset_spec s ((next s + k) mod MAX_TASKS) k Hn Hk (Hlt _ Hp)) as (_ & _ & Hoff).
    rewrite <- (Hoff eq_refl). destruct (Nat.le_gt_cases k (offset s j)) as [|Hgt]; [done|].
    specialize (Hmin (offset s j) Hgt). cbv beta in Hmin.
    destruct (offset_spec s j 0 Hn ltac:(lia) (Hlt _ Hj)) as (_ & Hoj & _). rewrite Hoj in Hmin.
    apply is_ready_spec in Hj. congruence.
  - intros j Hj. destruct (offset_spec s j 0 Hn ltac:(unfold MAX_TASKS; lia) (Hlt _ Hj)) as (Hjo & Hoj & _).
    specialize (H (offset s j) Hjo). cbv beta in H. rewrite Hoj in H.
    apply is_ready_spec in Hj. congruence.
Qed.

(** What a dispatch of slot [i] makes of the awakened scheduler [s1]. *)
Definition dispatched s1 (i : nat) (t : Task E) (st : TaskState) s2 : Prop :=
  tasks s2 = <[i := Some (mkTask (entry t) st)]> (tasks s1) ∧
  generations s2 = generations s1 ∧ next s2 = ((i + 1) mod MAX_TASKS)%nat ∧ current s2 = None ∧
  prepared s2 i ∧
  (∀ j, j ≠ i → stacks s2 !! j = stacks s1 !! j ∧ contexts s2 !! j = contexts s1 !! j).

Lemma action_state_not_running now a : action_state now a ≠ Running.
Proof. destruct a; cbn; [done| |done|done]. by destruct (_ <=? _). Qed.

Lemma run_next_cases now s w : sched_wf s →
  let s1 := wake_expired now s in
  match find_next_ready s1 with
  | None => run_next call trampoline stack_base now (s, w) = (Ok None, (s1, w)) ∧
      ∀ j, ¬ ready_at s1 j
  | Some i => ∃ t g a w' s2, task_at s1 i = Some t ∧ task_state t = Ready ∧
      generations s !! i = Some g ∧ call (entry t) w = (a, w') ∧
      run_next call trampoline stack_base now (s, w) = (Ok (Some (mkTaskId i g)), (s2, w')) ∧
      dispatched s1 i t (action_state now a) s2 ∧ sched_wf s2 ∧ (i < MAX_TASKS)%nat ∧
      (∀ j, ready_at s1 j → (offset s1 i ≤ offset s1 j)%nat)
  end.
Proof.
  intros Hwf s1. pose proof (wake_expired_wf now s Hwf) as Hwf1. fold s1 in Hwf1.
  pose proof (find_next_ready_spec s1 Hwf1) as Hfind.
  unfold run_next, on_scheduler, call_entry. unfold_monad. cbn beta iota zeta. fold s1.
  destruct (find_next_ready s1) as [i|]; [|done].
  destruct Hfind as (Hi & (t & Ht & Hready) & Hmin).
  destruct (dispatch_ok s1 i t Hwf1 Ht) as (g & s2 & Hg & Hd & Ht2 & Hg2 & Hn2 & Hc2 & Hl1 & Hl2 & Hf2 & Hp & Ho).
  rewrite Hd. cbn beta iota zeta.
  destruct (call (entry t) w) as [a w'] eqn:Ha. cbn beta iota zeta.
  assert (length (tasks s2) = MAX_TASKS) as Hlen by (rewrite Ht2, length_insert; apply Hwf1).
  assert (task_at s2 i = Some (mkTask (entry t) Running)) as Hs2.
  { unfold task_at. rewrite Ht2, list_lookup_insert_eq by (by rewrite (wf_tasks s1 Hwf1)). done. }
  rewrite (store_state_ok s2 i _ _ ltac:(lia) Hs2). cbn beta iota zeta.
  exists t, g, a, w'. eexists. split_and!; [done|done|done|done|done| | |done|done].
  - unfold dispatched, with_state, set_next, set_current, set_tasks. cbn. rewrite Ht2, list_insert_insert_eq.
    split_and!; [done..|exact Hp|exact Ho].
  - destruct Hwf1. split; cbn.
    + by rewrite length_insert.
    + done.
    + done.
    + by rewrite Hg2.
    + change ((i + 1) mod MAX_TASKS < MAX_TASKS)%nat. by apply Nat.mod_upper_bound.
    + done.
    + done.
    + by rewrite Hg2.
    + intros j t' Hj. change (task_at (with_state s2 i (mkTask (entry t) Running) (action_state now a)) j = Some t') in Hj.
      unfold with_state in Hj. rewrite task_at_insert in Hj by lia. case_decide as Hji.
      * injection Hj as <-. apply action_state_not_running.
      * unfold task_at in Hj. rewrite Ht2, list_lookup_insert_ne in Hj by done. by eapply (wf_not_running0 j).
Qed.

(** ** Runs of the scheduler *)

Inductive sched_op : Type :=
  | OpSpawn (f : E)
  | OpWake (id : TaskId)
  | OpCancel (id : TaskId)
  | OpReap (id : TaskId)
  | OpRunNext (now : Z).

(** What a call did, by the slot it touched. *)
Inductive event : Type :=
  | Spawned (i : nat)
  | Reaped (i : nat)
  | Dispatched (i : nat)
  | Quiet.

#[local] Instance event_eq_dec : EqDecision event.
Proof. solve_decision. Defined.

Definition run_op (op : sched_op) (c : Scheduler E * W) : event * (Scheduler E * W) :=
  let '(s, w) := c in
  match op with
  | OpSpawn f =>
    match spawn f s with (Ok id, s) => (Spawned (id_index id), (s, w)) | (_, s) => (Quiet, (s, w)) end
  | OpWake id => (Quiet, (snd (wake id s), w))
  | OpCancel id => (Quiet, (snd (cancel id s), w))
  | OpReap id =>
    match reap id s with (Ok _, s) => (Reaped (id_index id), (s, w)) | (_, s) => (Quiet, (s, w)) end
  | OpRunNext now =>
    match run_next call trampoline stack_base now c with
    | (Ok (Some id), c) => (Dispatched (id_index id), c)
    | (_, c) => (Quiet, c)
    end
  end.

Fixpoint run_ops (ops : list sched_op) (c : Scheduler E * W) : list event * (Scheduler E * W) :=
  match ops with
  | [] => ([], c)
  | op :: ops =>
    let '(e, c) := run_op op c in
    let '(log, c) := run_ops ops c in (e :: log, c)
  end.

Lemma wake_snd s id : sched_wf s →
  snd (wake id s) = s ∨ ∃ t, task_at s (id_index id) = Some t ∧ task_state t = Blocked ∧
    snd (wake id s) = with_state s (id_index id) t Ready.
Proof.
  intros Hwf. pose proof (wake_cases s id Hwf) as H. pose proof (live_task_cases s id Hwf) as Hl.
  destruct (live_task id s) as [t| |]; rewrite H; [|by left..]. destruct Hl as (_ & _ & Ht).
  case_decide; [right; eauto|by left].
Qed.

Lemma cancel_snd s id : sched_wf s →
  snd (cancel id s) = s ∨ ∃ t, task_at s (id_index id) = Some t ∧
    snd (cancel id s) = with_state s (id_index id) t Cancelled.
Proof.
  intros Hwf. pose proof (cancel_cases s id Hwf) as H. pose proof (live_task_cases s id Hwf) as Hl.
  destruct (live_task id s) as [t| |]; rewrite H; [|by left..]. destruct Hl as (_ & _ & Ht).
  destruct (is_terminal _); [by left|right; eauto].
Qed.

(** Every call preserves the invariant. *)
Lemma run_op_wf op s w : sched_wf s → sched_wf (snd (run_op op (s, w))).1.
Proof.
  intros Hwf. destruct op as [f|id|id|id|now]; cbn [run_op].
  - pose proof (spawn_cases s f Hwf) as H. destruct (find_index _ _) as [i|].
    + destruct H as (Hi & _ & _ & g & _ & Hg & ->). by apply spawned_wf.
    + by destruct H as [-> _].
  - destruct (wake_snd s id Hwf) as [->|(t & Ht & _ & ->)]; [done|by apply with_state_wf].
  - destruct (cancel_snd s id Hwf) as [->|(t & Ht & ->)]; [done|by apply with_state_wf].
  - pose proof (reap_cases s id Hwf) as H. pose proof (live_task_cases s id Hwf) as Hl.
    destruct (live_task id s) as [t| |]; rewrite H; [|done..]. destruct Hl as (Hi & _).
    destruct (is_terminal _); [by apply emptied_wf|done].
  - pose proof (run_next_cases now s w Hwf) as H. cbv zeta in H. destruct (find_next_ready _) as [i|].
    + by destruct H as (t & g & a & w' & s2 & _ & _ & _ & _ & -> & _ & Hwf2 & _).
    + destruct H as [-> _]. by apply wake_expired_wf.
Qed.

(** The slot keeps its generation and its task, in whatever state. *)
Definition slot_same s s' (i : nat) : Prop :=
  generations s' !! i = generations s !! i ∧ entry <$> task_at s' i = entry <$> task_at s i.

Lemma with_state_same s k t st i : sched_wf s → task_at s k = Some t →
  slot_same s (with_state s k t st) i.
Proof.
  intros Hwf Ht. split; [done|]. unfold with_state.
  rewrite task_at_insert by (by eapply task_at_lt). case_decide; [|done]. subst. by rewrite Ht.
Qed.

Lemma wake_expired_same s now i : slot_same s (wake_expired now s) i.
Proof.
  split; [done|]. rewrite wake_expired_at. destruct (task_at s i) as [t|]; [|done]. cbn.
  destruct (task_state t); try done. by destruct (_ <=? _).
Qed.

(** How a call changes the slots. *)
Lemma run_op_slots op s w : sched_wf s →
  let '(e, (s', _)) := run_op op (s, w) in
  match e with
  | Spawned j => (∃ g, generations s !! j = Some g ∧ generations s' !! j = Some (next_generation g)) ∧
      task_at s j = None ∧ is_Some (task_at s' j) ∧ (∀ i, i ≠ j → slot_same s s' i)
  | Reaped j => is_Some (task_at s j) ∧ task_at s' j = None ∧
      generations s' = generations s ∧ (∀ i, i ≠ j → slot_same s s' i)
  | _ => ∀ i, slot_same s s' i
  end.
Proof.
  intros Hwf. destruct op as [f|id|id|id|now]; cbn [run_op].
  - pose proof (spawn_cases s f Hwf) as H. destruct (find_index _ _) as [j|].
    + destruct H as (Hj & Hnone & _ & g & Hg & _ & ->). cbn [id_index].
      assert (∀ i, task_at (spawned s j f g) i = if decide (i = j) then Some (mkTask f Ready) else task_at s i)
        as Hat by (intros i; apply task_at_insert; by rewrite (wf_tasks s Hwf)).
      split; [exists g; split; [done|]; cbn; by rewrite list_lookup_insert_eq
        by (by rewrite (wf_generations s Hwf))|].
      split; [done|]. split; [by rewrite Hat, decide_True|]. intros i Hi. split.
      * cbn. by rewrite list_lookup_insert_ne.
      * by rewrite Hat, decide_False.
    + by destruct H as [-> _].
  - intros i. destruct (wake_snd s id Hwf) as [->|(t & Ht & _ & ->)]; [done|by apply with_state_same].
  - intros i. destruct (cancel_snd s id Hwf) as [->|(t & Ht & ->)]; [done|by apply with_state_same].
  - pose proof (reap_cases s id Hwf) as H. pose proof (live_task_cases s id Hwf) as Hl.
    destruct (live_task id s) as [t| |]; rewrite H; [|done..]. destruct Hl as (Hi & _ & Ht).
    destruct (is_terminal _); [|done].
    assert (∀ i, task_at (emptied s (id_index id)) i = if decide (i = id_index id) then None else task_at s i)
      as Hat by (intros i; apply (task_at_insert s); by rewrite (wf_tasks s Hwf)).
    split; [by rewrite Ht|]. split; [by rewrite Hat, decide_True|]. split; [done|].
    intros i Hne. split; [done|]. by rewrite Hat, decide_False.
  - pose proof (run_next_cases now s w Hwf) as H. cbv zeta in H. destruct (find_next_ready _) as [j|].
    + destruct H as (t & g & a & w' & s2 & Ht & _ & _ & _ & -> & (Hts & Hg & _) & _ & Hj & _).
      intros i. destruct (wake_expired_same s now i) as [H1 H2]. split; [by rewrite Hg|].
      rewrite <- H2. unfold task_at. rewrite Hts.
      destruct (decide (i = j)) as [->|Hne]; [|by rewrite list_lookup_insert_ne].
      rewrite list_lookup_insert_eq by (by rewrite (wf_tasks _ (wake_expired_wf now s Hwf))).
      change (mjoin (tasks (wake_expired now s) !! j)) with (task_at (wake_expired now s) j).
      by rewrite Ht.
    + destruct H as [-> _]. intros i. apply wake_expired_same.
Qed.

(** A ready task stays ready until it is dispatched or cancelled, and only
    dispatches move the round-robin position. *)
Definition cancels (i : nat) (op : sched_op) : Prop :=
  match op with OpCancel id => id_index id = i | _ => False end.

Lemma with_state_ready s k t st i : sched_wf s → task_at s k = Some t →
  ready_at s i → (k = i → st = Ready) → ready_at (with_state s k t st) i.
Proof.
  intros Hwf Ht Hi Hk. unfold ready_at, with_state. rewrite task_at_insert by (by eapply task_at_lt).
  case_decide as Hik; [|exact Hi]. rewrite Hk by done. by exists (mkTask (entry t) Ready).
Qed.

Lemma wake_expired_ready s now i : ready_at s i → ready_at (wake_expired now s) i.
Proof.
  intros (t & Ht & Hst). exists t. rewrite wake_expired_at, Ht. cbn. by rewrite Hst.
Qed.

Lemma run_op_ready op s w i : sched_wf s → ready_at s i → ¬ cancels i op →
  let '(e, (s', _)) := run_op op (s, w) in
  match op with
  | OpRunNext _ => e = Dispatched i ∨ ready_at s' i ∧ (offset s' i < offset s i)%nat
  | _ => ready_at s' i ∧ next s' = next s
  end.
Proof.
  intros Hwf Hi Hc. pose proof Hi as (ti & Hti & Hri).
  pose proof (task_at_lt s i ti Hwf Hti) as Hlt. rewrite (wf_tasks s Hwf) in Hlt.
  destruct op as [f|id|id|id|now]; cbn [run_op].
  - pose proof (spawn_cases s f Hwf) as H. destruct (find_index _ _) as [j|].
    + destruct H as (Hj & Hnone & _ & g & Hg & _ & ->). split; [|done].
      unfold ready_at, spawned. exists ti. split; [|done].
      change (task_at (set_tasks (<[j:=Some (mkTask f Ready)]> (tasks s)) s) i = Some ti).
      rewrite task_at_insert by (by rewrite (wf_tasks s Hwf)). rewrite decide_False; [done|].
      intros ->. congruence.
    + by destruct H as [-> _].
  - destruct (wake_snd s id Hwf) as [->|(t & Ht & Hb & ->)]; [done|]. split; [|done].
    by apply with_state_ready.
  - destruct (cancel_snd s id Hwf) as [->|(t & Ht & ->)]; [done|]. split; [|done].
    apply with_state_ready; [done|done|done|]. intros. by destruct Hc.
  - pose proof (reap_cases s id Hwf) as H. pose proof (live_task_cases s id Hwf) as Hl.
    destruct (live_task id s) as [t| |]; rewrite H; [|done..]. destruct Hl as (Hid & _ & Ht).
    destruct (is_terminal (task_state t)) eqn:Hterm; [|done]. split; [|done]. exists ti. split; [|done].
    change (task_at (set_tasks (<[id_index id:=None]> (tasks s)) s) i = Some ti).
    rewrite task_at_insert by (by rewrite (wf_tasks s Hwf)). rewrite decide_False; [done|].
    intros ->. rewrite Hti in Ht. injection Ht as <-. by rewrite Hri in Hterm.
  - pose proof (wake_expired_ready s now i Hi) as Hi1.
    pose proof (run_next_cases now s w Hwf) as H. cbv zeta in H. destruct (find_next_ready _) as [j|].
    + destruct H as (t & g & a & w' & s2 & Ht & _ & _ & _ & -> & (Hts & _ & Hn & _) & _ & Hj & Hmin).
      cbn [id_index]. destruct (decide (i = j)) as [->|Hne]; [by left|right]. split.
      * destruct Hi1 as (t1 & Ht1 & Hr1). exists t1. split; [|done].
        unfold task_at. rewrite Hts, list_lookup_insert_ne by done. exact Ht1.
      * specialize (Hmin i Hi1). pose proof (wf_next s Hwf) as Hns. unfold offset in *. rewrite Hn.
        change (next (wake_expired now s)) with (next s) in Hmin. unfold MAX_TASKS in *.
        clear -Hmin Hns Hlt Hj Hne. zify. rewrite ?Nat2Z.inj_mod in *. zify.
        rewrite ?Nat2Z.inj_mod in *. zify. Z.div_mod_to_equations. lia.
    + exfalso. destruct H as [_ H]. by apply (H i).
Qed.

(** ** Counting *)

Definition is_run (op : sched_op) : bool := match op with OpRunNext _ => true | _ => false end.
Definition runs (ops : list sched_op) : nat := length (List.filter is_run ops).
Definition count_spawned (i : nat) (log : list event) : nat :=
  length (List.filter (λ e, bool_decide (e = Spawned i)) log).

(** The stats count every live slot once, in the field of its state. *)
Definition in_state (p : TaskState → bool) s : nat :=
  length (List.filter (λ slot, match slot with Some t => p (task_state t) | None => false end) (tasks s)).

Lemma stats_spec s :
  let p := stats s in
  task_count p = in_state (λ _, true) s ∧
  ready p = in_state (λ st, match st with Ready => true | _ => false end) s ∧
  sleeping p = in_state (λ st, match st with Sleeping _ => true | _ => false end) s ∧
  blocked p = in_state (λ st, match st with Blocked => true | _ => false end) s ∧
  running p = in_state (λ st, match st with Running => true | _ => false end) s ∧
  finished p = in_state (λ st, match st with Finished => true | _ => false end) s ∧
  cancelled p = in_state (λ st, match st with Cancelled => true | _ => false end) s.
Proof.
  unfold stats, in_state.
  assert (∀ l n r sl b ru f c,
    let p := fold_left count_task l (mkStats n r sl b ru f c) in
    let cnt q := length (List.filter (λ slot : option (Task E),
      match slot with Some t => q (task_state t) | None => false end) l) in
    task_count p = (n + cnt (λ _, true))%nat ∧
    ready p = (r + cnt (λ st, match st with Ready => true | _ => false end))%nat ∧
    sleeping p = (sl + cnt (λ st, match st with Sleeping _ => true | _ => false end))%nat ∧
    blocked p = (b + cnt (λ st, match st with Blocked => true | _ => false end))%nat ∧
    running p = (ru + cnt (λ st, match st with Running => true | _ => false end))%nat ∧
    finished p = (f + cnt (λ st, match st with Finished => true | _ => false end))%nat ∧
    cancelled p = (c + cnt (λ st, match st with Cancelled => true | _ => false end))%nat) as H;
    [|apply (H (tasks s) 0 0 0 0 0 0 0)%nat].
  induction l as [|[t|] l IH]; intros n r sl b ru f c; cbn [fold_left]; [cbn; lia| |apply IH].
  cbn [count_task]. destruct (task_state t) eqn:Hst; cbn [List.filter]; rewrite Hst; cbn [length];
    match goal with |- context [fold_left count_task l (mkStats ?n ?r ?sl ?b ?ru ?f ?c)] =>
      pose proof (IH n r sl b ru f c) as H end; cbv zeta in *; lia.
Qed.

(** ** Handles across runs *)

Lemma count_spawned_cons i e log :
  count_spawned i (e :: log) = ((if decide (e = Spawned i) then 1 else 0) + count_spawned i log)%nat.
Proof.
  unfold count_spawned. cbn [List.filter]. case_decide as H.
  - by rewrite bool_decide_eq_true_2.
  - by rewrite bool_decide_eq_false_2.
Qed.

(** The slot [i] after its task of generation [g] was reaped and [k] tasks
    took its place. *)
Definition retired s (i : nat) (g : Z) (k : nat) : Prop :=
  generations s !! i = Some (later_generation k g) ∧ (k = 0%nat → task_at s i = None).

(** The slot [i] holds the task [f] under generation [g]. *)
Definition holds s (i : nat) (g : Z) (f : E) : Prop :=
  generations s !! i = Some g ∧ entry <$> task_at s i = Some f.

Lemma retired_step op s w e s' w' i g k : sched_wf s → retired s i g k →
  run_op op (s, w) = (e, (s', w')) →
  retired s' i g ((if decide (e = Spawned i) then 1 else 0) + k)%nat.
Proof.
  intros Hwf [Hg Hk] Hop. pose proof (run_op_slots op s w Hwf) as H. rewrite Hop in H.
  assert (slot_same s s' i → retired s' i g k) as Hsame.
  { intros [H1 H2]. split; [congruence|]. intros ->. specialize (Hk eq_refl).
    rewrite Hk in H2. by destruct (task_at s' i). }
  destruct e as [j|j|j|].
  - destruct H as ((g' & Hg1 & Hg2) & Hnone & Hsome & Hother). case_decide as Hj.
    + injection Hj as ->. split; [|lia]. cbn. congruence.
    + apply Hsame, Hother. congruence.
  - rewrite decide_False by done. destruct H as (_ & Hnone & Hg2 & Hother).
    destruct (decide (i = j)) as [->|Hj]; [|by apply Hsame, Hother].
    split; cbn [Nat.add]; [by rewrite Hg2|done].
  - rewrite decide_False by done. by apply Hsame.
  - rewrite decide_False by done. by apply Hsame.
Qed.

Lemma holds_step op s w e s' w' i g f : sched_wf s → holds s i g f →
  run_op op (s, w) = (e, (s', w')) →
  e ≠ Spawned i ∧ if decide (e = Reaped i) then retired s' i g 0 else holds s' i g f.
Proof.
  intros Hwf [Hg Hf] Hop. pose proof (run_op_slots op s w Hwf) as H. rewrite Hop in H.
  assert (slot_same s s' i → holds s' i g f) as Hsame.
  { intros [H1 H2]. split; congruence. }
  destruct e as [j|j|j|].
  - destruct H as (_ & Hnone & _ & Hother). rewrite decide_False by done.
    destruct (decide (i = j)) as [->|Hj]; [by rewrite Hnone in Hf|].
    split; [congruence|]. by apply Hsame, Hother.
  - destruct H as (_ & Hnone & Hg2 & Hother). split; [done|]. case_decide as Hj.
    + injection Hj as ->. split; [cbn; congruence|done].
    + apply Hsame, Hother. congruence.
  - split; [done|]. rewrite decide_False by done. by apply Hsame.
  - split; [done|]. rewrite decide_False by done. by apply Hsame.
Qed.

Lemma run_ops_cons op ops c log c' : run_ops (op :: ops) c = (log, c') →
  ∃ e c1 log1, run_op op c = (e, c1) ∧ run_ops ops c1 = (log1, c') ∧ log = e :: log1.
Proof.
  cbn [run_ops]. destruct (run_op op c) as [e c1] eqn:He. destruct (run_ops ops c1) as [log1 c2] eqn:Hr.
  intros Heq. exists e, c1, log1. by simplify_eq.
Qed.

Lemma run_ops_wf ops s w : sched_wf s → sched_wf (snd (run_ops ops (s, w))).1.
Proof.
  revert s w. induction ops as [|op ops IH]; intros s w Hwf; [done|]. cbn [run_ops].
  pose proof (run_op_wf op s w Hwf) as Hwf1. destruct (run_op op (s, w)) as [e [s1 w1]].
  specialize (IH s1 w1 Hwf1). by destruct (run_ops ops (s1, w1)).
Qed.

Lemma retired_run ops s w log s' w' i g k : sched_wf s → retired s i g k →
  run_ops ops (s, w) = (log, (s', w')) → sched_wf s' ∧ retired s' i g (count_spawned i log + k).
Proof.
  revert s w log k. induction ops as [|op ops IH]; intros s w log k Hwf Hr Hrun.
  { by injection Hrun as <- <- <-. }
  apply run_ops_cons in Hrun as (e & [s1 w1] & log1 & He & Hrun & ->).
  pose proof (run_op_wf op s w Hwf) as Hwf1. rewrite He in Hwf1.
  pose proof (retired_step op s w e s1 w1 i g k Hwf Hr He) as Hr1.
  destruct (IH s1 w1 log1 _ Hwf1 Hr1 Hrun) as [Hwf2 Hr2]. split; [done|].
  rewrite count_spawned_cons. by replace (_ + _ + k)%nat with
    (count_spawned i log1 + ((if decide (e = Spawned i) then 1 else 0) + k))%nat by lia.
Qed.

Lemma holds_run ops s w log s' w' i g f : sched_wf s → holds s i g f →
  run_ops ops (s, w) = (log, (s', w')) →
  sched_wf s' ∧ if decide (Reaped i ∈ log) then retired s' i g (count_spawned i log)
  else holds s' i g f.
Proof.
  revert s w log. induction ops as [|op ops IH]; intros s w log Hwf Hh Hrun.
  { injection Hrun as <- <- <-. split; [done|]. by rewrite decide_False by (by apply not_elem_of_nil). }
  apply run_ops_cons in Hrun as (e & [s1 w1] & log1 & He & Hrun & ->).
  pose proof (run_op_wf op s w Hwf) as Hwf1. rewrite He in Hwf1.
  destruct (holds_step op s w e s1 w1 i g f Hwf Hh He) as [Hne Hh1].
  rewrite count_spawned_cons, (decide_False (P:=e = Spawned i)) by done. destruct (decide (e = Reaped i)) as [->|Hnr].
  - rewrite decide_True by (by left).
    destruct (retired_run ops s1 w1 log1 s' w' i g 0 Hwf1 Hh1 Hrun) as [Hwf2 Hr2]. split; [done|].
    by rewrite Nat.add_0_r in Hr2.
  - destruct (IH s1 w1 log1 Hwf1 Hh1 Hrun) as [Hwf2 Hr2]. split; [done|].
    destruct (decide (Reaped i ∈ log1)) as [Hin|Hin].
    + rewrite decide_True by (by right). done.
    + rewrite decide_False; [done|]. rewrite elem_of_cons. intros [?|?]; [congruence|done].
Qed.

(** ** Properties *)

(** The slot can run at tick [now]: it is ready, or its deadline is reached. *)
Definition runnable (now : Z) s (i : nat) : Prop :=
  ∃ t, task_at s i = Some t ∧
    (task_state t = Ready ∨ ∃ until, task_state t = Sleeping until ∧ until ≤ now).

Lemma runnable_awake now s i : runnable now s i ↔ ready_at (wake_expired now s) i.
Proof.
  unfold runnable, ready_at. rewrite wake_expired_at. split.
  - intros (t & -> & [Hr|(u & Hs & Hu)]); cbn.
    + rewrite Hr. eauto.
    + rewrite Hs, (proj2 (Z.leb_le _ _)) by done. eauto.
  - destruct (task_at s i) as [t|]; [|by intros (? & ? & _)]. cbn. intros (t' & Ht & Hr).
    exists t. split; [done|]. destruct (task_state t) as [| |u| | |] eqn:Hs; simplify_eq; auto;
      try congruence.
    destruct (Z.leb_spec u now); simplify_eq; [eauto|congruence].
Qed.

(** A dispatch: [run_next] never fails; it wakes every sleeper whose
    deadline is reached, runs the first runnable slot in round-robin order
    with its stack frame and context prepared, records the state its action
    asks for, leaves every other slot alone and moves [next] behind the slot;
    it returns [None] only when no slot is runnable. *)
Theorem run_next_spec now s w : sched_wf s →
  match run_next call trampoline stack_base now (s, w) with
  | (Ok (Some id), (s', w')) => let i := id_index id in
      sched_wf s' ∧ runnable now s i ∧ generations s !! i = Some (id_generation id) ∧
      (∀ j, runnable now s j → (offset s i ≤ offset s j)%nat) ∧
      (∃ t a, task_at s i = Some t ∧ call (entry t) w = (a, w') ∧
        task_at s' i = Some (mkTask (entry t) (action_state now a))) ∧
      (∀ j, j ≠ i → task_at s' j = wake_one now (task_at s j) ∧
        stacks s' !! j = stacks s !! j ∧ contexts s' !! j = contexts s !! j) ∧
      prepared s' i ∧ generations s' = generations s ∧ next s' = ((i + 1) mod MAX_TASKS)%nat
  | (Ok None, (s', w')) => s' = wake_expired now s ∧ w' = w ∧ ∀ j, ¬ runnable now s j
  | _ => False
  end.
Proof using stack_base_ok.
  intros Hwf. pose proof (run_next_cases now s w Hwf) as H. cbv zeta in H.
  destruct (find_next_ready _) as [i|].
  - destruct H as (t & g & a & w' & s2 & Ht & Hr & Hg & Ha & -> & (Hts & Hgs & Hn & Hc & Hp & Ho) & Hwf2 & Hi & Hmin).
    cbn [id_index id_generation]. pose proof Ht as Ht1. rewrite wake_expired_at in Ht1.
    destruct (task_at s i) as [t0|] eqn:Ht0; [|done].
    assert (entry t0 = entry t) as He.
    { cbn in Ht1. destruct (task_state t0); try destruct (_ <=? _); by simplify_eq. }
    assert (∀ j, task_at s2 j = if decide (j = i) then Some (mkTask (entry t) (action_state now a))
      else wake_one now (task_at s j)) as Hat.
    { intros j. rewrite <- wake_expired_at.
      rewrite <- (task_at_insert (wake_expired now s)) by (cbn; by rewrite length_map, (wf_tasks s Hwf)).
      unfold task_at. by rewrite Hts. }
    split; [done|]. split; [apply runnable_awake; by exists t|]. split; [done|].
    split; [intros j Hj%runnable_awake; by apply (Hmin j)|].
    split; [exists t0, a; rewrite He; split_and!; [done|done|by rewrite Hat, decide_True]|].
    split; [|by split_and!]. intros j Hj. rewrite Hat, decide_False by done. by split; [|apply Ho].
  - destruct H as [-> H]. split_and!; [done|done|]. intros j Hj%runnable_awake. by apply (H j).
Qed.

(** C12. Round-robin fairness: a ready task that nobody cancels is dispatched
    within as many calls of [run_next] as its distance from [next] (at most
    [MAX_TASKS]), whatever is spawned, woken, cancelled or reaped meanwhile and
    whatever the tasks do. *)
Theorem round_robin ops s w i :
  sched_wf s → ready_at s i → Forall (λ op, ¬ cancels i op) ops → (offset s i < runs ops)%nat →
  Dispatched i ∈ fst (run_ops ops (s, w)).
Proof using stack_base_ok.
  revert s w. induction ops as [|op ops IH]; intros s w Hwf Hi Hc Hruns; [by apply Nat.nlt_0_r in Hruns|].
  apply Forall_cons in Hc as [Hop Hc]. cbn [run_ops].
  pose proof (run_op_ready op s w i Hwf Hi Hop) as H. pose proof (run_op_wf op s w Hwf) as Hwf1.
  destruct (run_op op (s, w)) as [e [s1 w1]]. cbn in Hwf1.
  assert (e = Dispatched i ∨ ready_at s1 i ∧ (offset s1 i < runs ops)%nat) as [->|[Hi1 Ho1]].
  { unfold runs in *. destruct op; cbn [List.filter is_run length] in Hruns;
      try (destruct H as [? Hn]; right; unfold offset in *; rewrite Hn; split; [done|lia]).
    destruct H as [->|[? ?]]; [by left|]. right. split; [done|lia]. }
  - destruct (run_ops ops (s1, w1)). by left.
  - specialize (IH s1 w1 Hwf1 Hi1 Hc Ho1). destruct (run_ops ops (s1, w1)). by right.
Qed.

(** C14. A handle names one task: whatever calls follow its [spawn] (fewer than
    2^32 - 1 later spawns into its slot), it is accepted exactly until its task
    is reaped, and all that time it names the task that was spawned. *)
Theorem handle_unique f s w id s0 ops log s' w' :
  sched_wf s → spawn f s = (Ok id, s0) → run_ops ops (s0, w) = (log, (s', w')) →
  Z.of_nat (count_spawned (id_index id) log) < 2 ^ 32 - 1 →
  if decide (Reaped (id_index id) ∈ log) then live_task id s' = Err InvalidTask
  else ∃ t, live_task id s' = Ok t ∧ entry t = f.
Proof using stack_base_ok.
  intros Hwf Hspawn Hrun Hcount. pose proof (spawn_cases s f Hwf) as H.
  destruct (find_index is_none (tasks s)) as [i|]; [|destruct H; congruence].
  destruct H as (Hi & _ & _ & g & Hg & Hr & H). rewrite H in Hspawn. injection Hspawn as <- <-.
  cbn [id_index] in *. pose proof (next_generation_range g Hr) as [Hg1 _].
  pose proof (spawned_wf s i f g Hwf Hi Hr) as Hwf0.
  assert (holds (spawned s i f g) i (next_generation g) f) as Hh.
  { split; [cbn; by rewrite list_lookup_insert_eq by (by rewrite (wf_generations s Hwf))|].
    change (entry <$> task_at (set_tasks (<[i:=Some (mkTask f Ready)]> (tasks s)) s) i = Some f).
    by rewrite task_at_insert, decide_True by (try done; by rewrite (wf_tasks s Hwf)). }
  destruct (holds_run ops _ w log s' w' i _ f Hwf0 Hh Hrun) as [Hwf' Hend].
  pose proof (live_task_cases s' (mkTaskId i (next_generation g)) Hwf') as Hl. cbn [id_index id_generation] in Hl.
  destruct (decide (Reaped i ∈ log)).
  - destruct Hend as [He Hk]. destruct (live_task _ s') as [t|e'|]; [exfalso|by destruct Hl as [-> _]|done].
    destruct Hl as (_ & Hge & Hte). destruct (decide (count_spawned i log = 0%nat)) as [Hz|Hz].
    + rewrite (Hk Hz) in Hte. done.
    + rewrite He in Hge. injection Hge as Hge. revert Hge. apply next_generation_iter_ne; [done|lia|done].
  - destruct Hend as [He Hk]. destruct (task_at s' i) as [t0|]; [|done]. cbn in Hk. injection Hk as Hk.
    destruct (live_task _ s') as [t|e'|].
    + destruct Hl as (_ & _ & [= <-]). eauto.
    + destruct Hl as (_ & [Hc|[Hc|Hc]]); [lia|congruence|done].
    + done.
Qed.

(** The life of a slot, as the documentation of the states describes it:
    which call may take a slot from one state to the next ([None] is free). *)
Inductive lifecycle (i : nat) : sched_op → option TaskState → option TaskState → Prop :=
  | life_stay op o : lifecycle i op o o
  | life_spawn f : lifecycle i (OpSpawn f) None (Some Ready)
  | life_wake id : id_index id = i → lifecycle i (OpWake id) (Some Blocked) (Some Ready)
  | life_cancel id st : id_index id = i → is_terminal st = false →
      lifecycle i (OpCancel id) (Some st) (Some Cancelled)
  | life_reap id st : id_index id = i → is_terminal st = true →
      lifecycle i (OpReap id) (Some st) None
  | life_due now until : until ≤ now →
      lifecycle i (OpRunNext now) (Some (Sleeping until)) (Some Ready)
  | life_run now st a : (st = Ready ∨ ∃ until, st = Sleeping until ∧ until ≤ now) →
      lifecycle i (OpRunNext now) (Some st) (Some (action_state now a)).

Lemma lifecycle_wake now s i :
  lifecycle i (OpRunNext now) (task_state <$> task_at s i) (task_state <$> task_at (wake_expired now s) i).
Proof.
  rewrite wake_expired_at. destruct (task_at s i) as [t|]; cbn; [|constructor].
  destruct (task_state t) as [| |u| | |] eqn:Hs; cbn; rewrite ?Hs; try constructor.
  destruct (Z.leb_spec u now); cbn; [by constructor|rewrite Hs; constructor].
Qed.

(** C33. The slots refine the life cycle: every call takes every slot through
    one of its steps, so a sleeper runs only at its deadline, a blocked task
    only after a wake, and a finished or cancelled task never again. *)
Theorem run_op_lifecycle op s w i : sched_wf s →
  lifecycle i op (task_state <$> task_at s i)
    (task_state <$> task_at (fst (snd (run_op op (s, w)))) i).
Proof using stack_base_ok.
  intros Hwf.
  assert (∀ k t st, task_at s k = Some t → lifecycle k op (Some (task_state t)) (Some st) →
    lifecycle i op (task_state <$> task_at s i) (task_state <$> task_at (with_state s k t st) i)) as Hws.
  { intros k t st Ht Hl. unfold with_state. rewrite task_at_insert by (by eapply task_at_lt).
    case_decide; [|constructor]. subst k. by rewrite Ht. }
  destruct op as [f|id|id|id|now]; cbn [run_op].
  - pose proof (spawn_cases s f Hwf) as H. destruct (find_index _ _) as [j|].
    + destruct H as (Hj & Hnone & _ & g & _ & _ & ->). cbn [fst snd].
      change (task_at (spawned s j f g) i) with (task_at (set_tasks (<[j:=Some (mkTask f Ready)]> (tasks s)) s) i).
      rewrite task_at_insert by (by rewrite (wf_tasks s Hwf)). case_decide; [|constructor].
      subst. rewrite Hnone. constructor.
    + destruct H as [-> _]. constructor.
  - cbn [fst snd]. destruct (wake_snd s id Hwf) as [->|(t & Ht & Hb & ->)]; [constructor|].
    apply Hws; [done|]. rewrite Hb. by constructor.
  - cbn [fst snd]. pose proof (cancel_cases s id Hwf) as H. pose proof (live_task_cases s id Hwf) as Hl.
    destruct (live_task id s) as [t| |]; rewrite H; [|constructor..]. destruct Hl as (_ & _ & Ht).
    cbn [snd]. destruct (is_terminal _) eqn:?; [constructor|]. apply Hws; [done|]. by constructor.
  - pose proof (reap_cases s id Hwf) as H. pose proof (live_task_cases s id Hwf) as Hl.
    destruct (live_task id s) as [t| |]; rewrite H; [|constructor..]. destruct Hl as (Hi & _ & Ht).
    destruct (is_terminal _) eqn:?; [|constructor]. cbn [fst snd].
    change (task_at (emptied s (id_index id)) i) with (task_at (set_tasks (<[id_index id:=None]> (tasks s)) s) i).
    rewrite task_at_insert by (by rewrite (wf_tasks s Hwf)). case_decide; [|constructor].
    subst i. rewrite Ht. by constructor.
  - pose proof (run_next_cases now s w Hwf) as H. cbv zeta in H. destruct (find_next_ready _) as [j|].
    + destruct H as (t & g & a & w' & s2 & Ht & Hr & _ & _ & -> & (Hts & _) & _ & Hj & _). cbn [fst snd].
      assert (task_at s2 i = if decide (i = j) then Some (mkTask (entry t) (action_state now a))
        else task_at (wake_expired now s) i) as ->.
      { rewrite <- (task_at_insert (wake_expired now s)) by (cbn; by rewrite length_map, (wf_tasks s Hwf)).
        unfold task_at. by rewrite Hts. }
      case_decide as Hij; [|apply lifecycle_wake]. subst j.
      assert (runnable now s i) as (t0 & -> & Hrun) by (apply runnable_awake; by exists t).
      by apply life_run.
    + destruct H as [-> _]. apply lifecycle_wake.
Qed.

Lemma wake_one_idem now (o : option (Task E)) : wake_one now (wake_one now o) = wake_one now o.
Proof.
  destruct o as [t|]; [|done]. cbn. destruct (task_state t) as [| |u| | |] eqn:Hs; cbn; rewrite ?Hs; try done.
  destruct (u <=? now) eqn:Hu; cbn; [done|]. by rewrite Hs, Hu.
Qed.

Lemma wake_expired_idem now s : wake_expired now (wake_expired now s) = wake_expired now s.
Proof.
  unfold wake_expired, set_tasks. cbn. f_equal. rewrite map_map. apply map_ext, wake_one_idem.
Qed.

Lemma idle_op now s w : sched_wf s → (∀ j, ¬ ready_at (wake_expired now s) j) →
  run_op (OpRunNext now) (s, w) = (Quiet, (wake_expired now s, w)).
Proof.
  intros Hwf Hidle. pose proof (run_next_cases now s w Hwf) as H. cbv zeta in H. cbn [run_op].
  destruct (find_next_ready _) as [j|]; [|by destruct H as [-> _]].
  destruct H as (t & g & a & w' & s2 & Ht & Hr & _). exfalso. apply (Hidle j). by exists t.
Qed.

Lemma idle_run now n s w : sched_wf s → (∀ j, ¬ ready_at (wake_expired now s) j) →
  run_ops (replicate (S n) (OpRunNext now)) (s, w) = (replicate (S n) Quiet, (wake_expired now s, w)).
Proof.
  revert s. induction n as [|n IH]; intros s Hwf Hidle.
  - cbn [replicate run_ops]. by rewrite idle_op.
  - change (replicate (S (S n)) (OpRunNext now)) with (OpRunNext now :: replicate (S n) (OpRunNext now)).
    cbn [run_ops]. rewrite idle_op by done.
    rewrite IH; [by rewrite wake_expired_idem|by apply wake_expired_wf|by rewrite wake_expired_idem].
Qed.

Definition count_dispatched (log : list event) : nat :=
  length (List.filter (λ e, match e with Dispatched _ => true | _ => false end) log).

Lemma count_dispatched_quiet n : count_dispatched (replicate n Quiet) = 0%nat.
Proof. induction n; done. Qed.

Lemma run_ready_loop_spec now budget n0 s w : sched_wf s →
  ∃ n s' w', run_ready_loop call trampoline stack_base now budget n0 (s, w) = (Ok (n0 + n)%nat, (s', w')) ∧
    (n ≤ budget)%nat ∧ sched_wf s' ∧ ((n < budget)%nat → ∀ j, ¬ runnable now s' j) ∧
    (s', w') = snd (run_ops (replicate budget (OpRunNext now)) (s, w)) ∧
    n = count_dispatched (fst (run_ops (replicate budget (OpRunNext now)) (s, w))).
Proof.
  revert n0 s w. induction budget as [|budget IH]; intros n0 s w Hwf; cbn [run_ready_loop].
  { exists 0%nat, s, w. rewrite Nat.add_0_r. split_and!; [done|lia|done|lia|done|done]. }
  pose proof (run_next_cases now s w Hwf) as H. cbv zeta in H. unfold_monad.
  destruct (find_next_ready _) as [i|].
  - destruct H as (t & g & a & w1 & s1 & _ & _ & _ & _ & Hrun & _ & Hwf1 & _). rewrite Hrun.
    destruct (IH (S n0) s1 w1 Hwf1) as (n & s' & w' & Hl & Hn & Hwf' & Hidle & Hs & Hc).
    exists (S n), s', w'. rewrite Hl. cbn [replicate run_ops run_op]. rewrite Hrun.
    destruct (run_ops (replicate budget (OpRunNext now)) (s1, w1)) as [log c]. cbn [fst snd id_index] in *.
    split_and!; [f_equal; f_equal; lia|lia|done| |done|by subst n].
    intros Hlt. apply Hidle. lia.
  - pose proof H as [Hrun Hidle]. rewrite Hrun. exists 0%nat, (wake_expired now s), w.
    rewrite (idle_run now budget s w Hwf Hidle). cbn [fst snd]. rewrite count_dispatched_quiet.
    rewrite Nat.add_0_r. split_and!; [done|lia|by apply wake_expired_wf| |done|done].
    intros _ j Hj%runnable_awake. rewrite wake_expired_idem in Hj. by apply (Hidle j).
Qed.

(** [run_ready] always returns; it dispatches at most [budget] times and
    does what [budget] calls of [run_next] do, and when it stops short of the
    budget no task is runnable. *)
Theorem run_ready_spec now budget s w : sched_wf s →
  ∃ n s' w', run_ready call trampoline stack_base now budget (s, w) = (Ok n, (s', w')) ∧
    (n ≤ budget)%nat ∧ ((n < budget)%nat → ∀ j, ¬ runnable now s' j) ∧
    (s', w') = snd (run_ops (replicate budget (OpRunNext now)) (s, w)) ∧
    n = count_dispatched (fst (run_ops (replicate budget (OpRunNext now)) (s, w))).
Proof using stack_base_ok.
  intros Hwf. destruct (run_ready_loop_spec now budget 0 s w Hwf) as (n & s' & w' & H1 & H2 & _ & H).
  by exists n, s', w'.
Qed.
End proofs.

(** ** Witnesses: a yielding and a sleeping task, counting their calls *)

Definition demo_call (f : TaskAction) (w : nat) : TaskAction * nat := (f, S w).
Definition demo_base (i : nat) : Z := 65536 + 4096 * (Z.of_nat i mod 16).

Lemma demo_base_ok i :
  0 ≤ demo_base i ∧ is_u64 (demo_base i + TASK_STACK_SIZE) ∧ demo_base i mod 16 = 0.
Proof.
  unfold demo_base, is_u64, TASK_STACK_SIZE. pose proof (Z.mod_pos_bound (Z.of_nat i) 16 ltac:(lia)).
  split_and!; [lia|lia|lia|]. replace (65536 + _) with ((4096 + 256 * (Z.of_nat i mod 16)) * 16) by lia.
  apply Z.mod_mul. lia.
Qed.

Definition demo_runs (ops : list (sched_op (E:=TaskAction))) (c : Scheduler TaskAction * nat) :=
  run_ops demo_call 4096 demo_base ops c.
Definition demo_sched : Scheduler TaskAction :=
  fst (snd (demo_runs [OpSpawn Yield; OpSpawn (SleepUntil 10)] (Scheduler_new, 0%nat))).

Lemma demo_sched_wf : sched_wf demo_sched.
Proof. apply run_ops_wf; [apply demo_base_ok|apply Scheduler_new_wf]. Qed.

Lemma run_next_spec_witness :
  fst (run_next demo_call 4096 demo_base 3 (demo_sched, 0%nat)) = Ok (Some (mkTaskId 0 1)) ∧
  ∀ j, runnable 3 demo_sched j → (offset demo_sched 0 ≤ offset demo_sched j)%nat.
Proof.
  pose proof (run_next_spec demo_call 4096 demo_base demo_base_ok 3 demo_sched 0%nat demo_sched_wf) as H.
  assert (fst (run_next demo_call 4096 demo_base 3 (demo_sched, 0%nat)) = Ok (Some (mkTaskId 0 1))) as Hr
    by by vm_compute.
  split; [done|]. destruct (run_next _ _ _ _ _) as [r [s' w']]. cbn [fst] in Hr. subst r. apply H.
Defined.

Lemma round_robin_witness :
  Dispatched 1 ∈ fst (demo_runs [OpRunNext 3; OpSpawn Block; OpRunNext 4] (demo_sched, 0%nat)).
Proof.
  apply (round_robin demo_call 4096 demo_base demo_base_ok).
  - apply demo_sched_wf.
  - exists (mkTask (SleepUntil 10) Ready). split; by vm_compute.
  - repeat (apply Forall_cons; split; [by intros []|]). done.
  - apply (Nat.ltb_lt _ _). by vm_compute.
Defined.

(** The second task, ready after the first ran, goes to sleep. *)
Lemma run_op_lifecycle_witness :
  lifecycle (E:=TaskAction) 1 (OpRunNext 3) (Some Ready) (Some (Sleeping 10)).
Proof.
  set (c := snd (demo_runs [OpRunNext 2] (demo_sched, 0%nat))).
  assert (sched_wf (fst c)) as Hwf by (apply run_ops_wf; [apply demo_base_ok|apply demo_sched_wf]).
  pose proof (run_op_lifecycle demo_call 4096 demo_base demo_base_ok (OpRunNext 3) (fst c) (snd c) 1 Hwf) as H.
  assert (task_state <$> task_at (fst c) 1 = Some Ready) as H1 by by vm_compute.
  assert (task_state <$> task_at (fst (snd (run_op demo_call 4096 demo_base (OpRunNext 3) (fst c, snd c)))) 1
    = Some (Sleeping 10)) as H2 by by vm_compute.
  by rewrite H1, H2 in H.
Defined.

Lemma run_ready_spec_witness :
  fst (run_ready demo_call 4096 demo_base 3 5 (demo_sched, 0%nat)) = Ok 5%nat ∧
  snd (run_ready demo_call 4096 demo_base 3 5 (demo_sched, 0%nat)) =
    snd (run_ops demo_call 4096 demo_base (replicate 5 (OpRunNext 3)) (demo_sched, 0%nat)).
Proof.
  destruct (run_ready_spec demo_call 4096 demo_base demo_base_ok 3 5 demo_sched 0%nat demo_sched_wf)
    as (n & s' & w' & H & _ & _ & Hs & _). rewrite <- Hs, H. split; [|done]. rewrite <- H. by vm_compute.
Defined.

(** The first task is cancelled and reaped, and its slot is spawned again. *)
Definition demo_ops : list (sched_op (E:=TaskAction)) :=
  [OpCancel (mkTaskId 2 1); OpReap (mkTaskId 2 1); OpSpawn Yield].

Lemma handle_unique_witness :
  live_task (mkTaskId 2 1) (fst (snd (demo_runs demo_ops (snd (spawn Block demo_sched), 0%nat)))) =
  Err InvalidTask.
Proof.
  pose proof (handle_unique demo_call 4096 demo_base demo_base_ok Block demo_sched 0%nat (mkTaskId 2 1)
    (snd (spawn Block demo_sched)) demo_ops [Quiet; Reaped 2; Spawned 2]
    (fst (snd (demo_runs demo_ops (snd (spawn Block demo_sched), 0%nat))))
    (snd (snd (demo_runs demo_ops (snd (spawn Block demo_sched), 0%nat))))) as H.
  apply H.
  - apply demo_sched_wf.
  - by vm_compute.
  - by vm_compute.
  - by vm_compute.
Defined.
