(* ===== verification/Text.v ===== *)
(** * Text: Rust strings as sequences of characters.

    A [str] is the list of its [char]s, each a Unicode scalar value; the UTF-8
    encoding is left to the standard library, so a position in a string counts
    characters.  Literals are written as Rocq strings. *)

From S2P Require Import Prelude.
From Stdlib Require Import Ascii String.

Abbreviation char := Z (only parsing).
Abbreviation str := (list Z) (only parsing).

(** A literal: its characters are ASCII. *)
Fixpoint lit (s : string) : str :=
  match s with
  | EmptyString => []
  | String c s => Z.of_nat (nat_of_ascii c) :: lit s
  end.

(** [char::is_whitespace]: the [White_Space] property of Unicode. *)
Definition is_whitespace (c : char) : bool :=
  ((9 <=? c) && (c <=? 13)) || (c =? 0x20) || (c =? 0x85) || (c =? 0xa0) || (c =? 0x1680) ||
  ((0x2000 <=? c) && (c <=? 0x200a)) || (c =? 0x2028) || (c =? 0x2029) || (c =? 0x202f) ||
  (c =? 0x205f) || (c =? 0x3000).

(** [str::starts_with] and [str::strip_prefix]. *)
Fixpoint strip_prefix (p s : str) : option str :=
  match p, s with
  | [], _ => Some s
  | a :: p, b :: s => if a =? b then strip_prefix p s else None
  | _ :: _, [] => None
  end.
Definition starts_with (p s : str) : bool :=
  match strip_prefix p s with Some _ => true | None => false end.

(** [str::trim_start_matches] of a non-empty pattern: every leading copy goes. *)
Fixpoint trim_start_fuel (fuel : nat) (p s : str) : str :=
  match fuel with
  | O => s
  | S fuel => match strip_prefix p s with Some s' => trim_start_fuel fuel p s' | None => s end
  end.
Definition trim_start_matches (p s : str) : str := trim_start_fuel (List.length s) p s.

(** [str::split_whitespace]: the maximal runs of other characters, in order. *)
Fixpoint split_aux (word : str) (s : str) : list str :=
  match s with
  | [] => match word with [] => [] | _ => [word] end
  | c :: s =>
    if is_whitespace c then match word with [] => split_aux [] s | _ => word :: split_aux [] s end
    else split_aux (word ++ [c]) s
  end.
Definition split_whitespace (s : str) : list str := split_aux [] s.

(** [slice::join(" ")] *)
Fixpoint join_space (l : list str) : str :=
  match l with
  | [] => []
  | [w] => w
  | w :: l => w ++ 32 :: join_space l
  end.

(** [{}] of an unsigned integer, from its least significant digit. *)
Fixpoint digits_fuel (fuel : nat) (n : Z) : list Z :=
  match fuel with
  | O => []
  | S fuel => (48 + n mod 10) :: if n / 10 =? 0 then [] else digits_fuel fuel (n / 10)
  end.
(** Twenty digits are enough for a [u64]. *)
Definition show_u64 (n : Z) : str := rev (digits_fuel 20 n).

(** [{:#x}] of an unsigned integer, from its least significant digit. *)
Fixpoint hex_fuel (fuel : nat) (n : Z) : list Z :=
  match fuel with
  | O => []
  | S fuel => (let d := n mod 16 in if d <? 10 then 48 + d else 87 + d) :: if n / 16 =? 0 then [] else hex_fuel fuel (n / 16)
  end.
(** Sixteen digits are enough for a [u64]. *)
Definition show_hex (n : Z) : str := lit "0x" ++ rev (hex_fuel 16 n).

(** The value that a string of digits denotes. *)
Definition digits_value (s : str) : Z := fold_left (λ acc d, acc * 10 + (d - 48)) s 0.
Definition digit_of_hex (d : Z) : Z := if d <? 58 then d - 48 else d - 87.
Definition hex_value (s : str) : Z := fold_left (λ acc d, acc * 16 + digit_of_hex d) s 0.

(** ** Lemmas *)

Lemma strip_prefix_Some p s s' : strip_prefix p s = Some s' ↔ s = p ++ s'.
Proof.
  revert s. induction p as [|a p IH]; intros s; cbn.
  - split; [by intros [= ->]|by intros ->].
  - destruct s as [|b s]; [done|]. destruct (Z.eqb_spec a b) as [->|Hne].
    + rewrite IH. split; [by intros ->|by intros [= ->]].
    + split; [done|]. by intros [= ->].
Qed.

Lemma starts_with_spec p s : starts_with p s = true ↔ ∃ s', s = p ++ s'.
Proof.
  unfold starts_with. destruct (strip_prefix p s) as [s'|] eqn:Hp.
  - apply strip_prefix_Some in Hp. split; [eauto|done].
  - split; [done|]. intros (s' & Hs%strip_prefix_Some). congruence.
Qed.

Lemma digits_fuel_value fuel n : 0 ≤ n < 10 ^ Z.of_nat fuel → (0 < fuel)%nat →
  fold_right (λ d acc, acc * 10 + (d - 48)) 0 (digits_fuel fuel n) = n ∧
  Forall (λ d, 48 ≤ d ≤ 57) (digits_fuel fuel n).
Proof.
  revert n. induction fuel as [|fuel IH]; intros n Hn Hf; [lia|]. cbn [digits_fuel].
  rewrite Nat2Z.inj_succ, Z.pow_succ_r in Hn by lia.
  destruct (Z.eqb_spec (n / 10) 0) as [Hz|Hz]; cbn [fold_right].
  - split; [|constructor; [|constructor]]; Z.div_mod_to_equations; lia.
  - destruct fuel as [|fuel]; [cbn in Hn; Z.div_mod_to_equations; lia|].
    destruct (IH (n / 10)) as [H1 H2]; [|lia|].
    { split; [Z.div_mod_to_equations; lia|]. apply Z.div_lt_upper_bound; lia. }
    rewrite H1. split; [|constructor; [|done]]; Z.div_mod_to_equations; lia.
Qed.

(** Printing and reading back. *)
Lemma show_u64_value n : is_u64 n →
  digits_value (show_u64 n) = n ∧ Forall (λ d, 48 ≤ d ≤ 57) (show_u64 n) ∧ show_u64 n ≠ [].
Proof.
  intros Hn. unfold is_u64 in Hn.
  destruct (digits_fuel_value 20 n) as [H1 H2]; [cbn; lia|lia|].
  unfold show_u64, digits_value.
  split_and!.
  - rewrite <- fold_left_rev_right, rev_involutive. exact H1.
  - by apply Forall_rev.
  - cbn [digits_fuel rev]. by destruct (rev _).
Qed.

(** A digit of [{:x}]. *)
Definition is_hex_digit (d : Z) : Prop := 48 ≤ d ≤ 57 ∨ 97 ≤ d ≤ 102.

Lemma hex_digit_mod n : let d := n mod 16 in let c := if d <? 10 then 48 + d else 87 + d in
  digit_of_hex c = d ∧ is_hex_digit c.
Proof.
  cbv zeta. pose proof (Z.mod_pos_bound n 16 ltac:(lia)). unfold digit_of_hex, is_hex_digit.
  destruct (Z.ltb_spec (n mod 16) 10); [destruct (Z.ltb_spec (48 + n mod 16) 58)|destruct (Z.ltb_spec (87 + n mod 16) 58)]; lia.
Qed.

Lemma hex_fuel_value fuel n : 0 ≤ n < 16 ^ Z.of_nat fuel → (0 < fuel)%nat →
  fold_right (λ d acc, acc * 16 + digit_of_hex d) 0 (hex_fuel fuel n) = n ∧ Forall is_hex_digit (hex_fuel fuel n).
Proof.
  revert n. induction fuel as [|fuel IH]; intros n Hn Hf; [lia|]. cbn [hex_fuel]. cbv zeta.
  pose proof (hex_digit_mod n) as [Hv Hd]. cbv zeta in Hv, Hd. rewrite Nat2Z.inj_succ, Z.pow_succ_r in Hn by lia.
  destruct (Z.eqb_spec (n / 16) 0) as [Hz|Hz]; cbn [fold_right]; rewrite Hv.
  - split; [Z.div_mod_to_equations; lia|by constructor].
  - destruct fuel as [|fuel]; [cbn in Hn; Z.div_mod_to_equations; lia|].
    destruct (IH (n / 16)) as [H1 H2]; [|lia|].
    { split; [Z.div_mod_to_equations; lia|]. apply Z.div_lt_upper_bound; lia. }
    rewrite H1. split; [Z.div_mod_to_equations; lia|by constructor].
Qed.

(** Printing in hexadecimal and reading back. *)
Lemma show_hex_value n : is_u64 n → ∃ digits, show_hex n = lit "0x" ++ digits ∧ hex_value digits = n ∧ Forall is_hex_digit digits.
Proof.
  intros Hn. destruct (hex_fuel_value 16 n) as [H1 H2]; [exact Hn|lia|]. eexists. split; [reflexivity|].
  unfold hex_value. rewrite <- fold_left_rev_right, rev_involutive. split; [exact H1|by apply Forall_rev].
Qed.

