(* ===== verification/Timer.v ===== *)
(** * Timer: PIT ticks, uptime and sleep of [src/timer/mod.rs].

    [TICKS] is the counter the timer interrupt advances; an operation that
    reads it takes its value.  The loops that wait read it again after each
    [halt] or [spin_loop], and the interrupts that arrive meanwhile are a
    parameter. *)

From S2P Require Import Prelude Globals Text.
From Stdlib Require Import String.

Definition u128_max : Z := 2 ^ 128 - 1.

(** Unchecked arithmetic on [u128]. *)
Definition mul_u128 {E} (a b : Z) : outcome E Z := expect (if a * b <=? u128_max then Some (a * b) else None).
Definition add_u128 {E} (a b : Z) : outcome E Z := expect (if a + b <=? u128_max then Some (a + b) else None).

Section timer.
Context {E : Type}.

(** [ticks_for_ms] *)
Definition ticks_for_ms (milliseconds : Z) : outcome E Z :=
  if milliseconds =? 0 then Ok 0 else
  numerator ← mul_u128 milliseconds PIT_FREQUENCY;
  denominator ← mul_u128 PIT_DIVISOR 1000;
  let quotient := numerator / denominator in
  rounded_up ← add_u128 quotient (if is_multiple_of numerator denominator then 0 else 1);
  Ok (Z.min rounded_up u64_max).

(** [uptime_ms] at the counter value [TICKS]. *)
Definition uptime_ms (TICKS : Z) : Z :=
  saturating_mul (saturating_mul TICKS PIT_DIVISOR) 1000 / PIT_FREQUENCY.

(** [format_uptime] *)
Definition format_uptime (uptime_ms : Z) : str :=
  let total_seconds := uptime_ms / 1000 in
  let hours := total_seconds / 3600 in
  let minutes := (total_seconds mod 3600) / 60 in
  let seconds := total_seconds mod 60 in
  show_u64 hours ++ lit " hrs " ++ show_u64 minutes ++ lit " min " ++ show_u64 seconds ++ lit " sec".

(** [uptime] *)
Definition uptime (TICKS : Z) : str := format_uptime (uptime_ms TICKS).

(** [deadline_ms] and [expired] *)
Definition deadline_ms (TICKS ms : Z) : outcome E Z :=
  t ← ticks_for_ms ms; Ok (saturating_add TICKS t).
Definition expired (TICKS deadline : Z) : bool := deadline <=? TICKS.

(** The wait loops: [elapse k] timer interrupts arrive in the [k]-th halt (or
    spin); [None] when the fuel runs out. *)
Fixpoint wait_loop (elapse : nat → Z) (fuel k : nat) (TICKS target : Z) : option Z :=
  if TICKS <? target then
    match fuel with
    | O => None
    | S fuel => wait_loop elapse fuel (S k) ((TICKS + elapse k) mod U64_SIZE) target
    end
  else Some TICKS.

(** [sleep_ms] and [sleep_block], which differ in how they wait: the counter
    when they return.  With interrupts off they return at once, or fail the
    [debug_assert!] of a checked build. *)
Definition sleep (debug_assertions enabled : bool) (elapse : nat → Z) (fuel : nat) (ms TICKS : Z) :
    outcome E (option Z) :=
  if negb enabled then (if debug_assertions then Panic else Ok (Some TICKS)) else
  t ← ticks_for_ms ms;
  let target := saturating_add TICKS t in
  Ok (wait_loop elapse fuel 0 TICKS target).
End timer.

(** ** Lemmas *)

Lemma PIT_values : PIT_FREQUENCY = 1193182 ∧ PIT_DIVISOR = 1193.
Proof. by vm_compute. Qed.

(** The rounded-up quotient. *)
Lemma ticks_for_ms_ok {E} ms : is_u64 ms →
  @ticks_for_ms E ms = Ok (Z.min ((ms * 1193182 + 1192999) / 1193000) u64_max).
Proof.
  intros Hms. unfold is_u64 in Hms. unfold ticks_for_ms.
  change PIT_FREQUENCY with 1193182. change PIT_DIVISOR with 1193.
  destruct (Z.eqb_spec ms 0) as [->|Hne]; [done|].
  unfold mul_u128, add_u128. unfold_monad.
  assert (u128_max = 340282366920938463463374607431768211455) as -> by done.
  rewrite (proj2 (Z.leb_le (ms * 1193182) _)) by lia. change (1193 * 1000 <=? _) with true. cbv iota.
  change (1193 * 1000) with 1193000.
  assert (ms * 1193182 / 1193000 + (if is_multiple_of (ms * 1193182) 1193000 then 0 else 1) =
    (ms * 1193182 + 1192999) / 1193000) as ->.
  { destruct (is_multiple_of (ms * 1193182) 1193000) eqn:Hm.
    - apply is_multiple_of_spec in Hm; [|lia]. Z.div_mod_to_equations. lia.
    - assert (ms * 1193182 mod 1193000 ≠ 0) as Hm'
        by (intros H; apply is_multiple_of_spec in H; [congruence|lia]).
      Z.div_mod_to_equations. lia. }
  rewrite (proj2 (Z.leb_le _ _)); [done|]. Z.div_mod_to_equations. lia.
Qed.

(** The ticks that arrive in the first [n] waits. *)
Fixpoint arrived (elapse : nat → Z) (k n : nat) : Z :=
  match n with O => 0 | S n => elapse k + arrived elapse (S k) n end.

Lemma arrived_nonneg elapse k n : (∀ k, 0 ≤ elapse k) → 0 ≤ arrived elapse k n.
Proof.
  intros H. revert k. induction n as [|n IH]; intros k; cbn; [lia|]. specialize (IH (S k)). specialize (H k). lia.
Qed.

Lemma wait_loop_spec elapse fuel k n TICKS target :
  (∀ k, 0 ≤ elapse k) → 0 ≤ TICKS → (n ≤ fuel)%nat →
  target ≤ TICKS + arrived elapse k n → TICKS + arrived elapse k n < U64_SIZE →
  ∃ j, (j ≤ n)%nat ∧ (wait_loop elapse fuel k TICKS target = Some (TICKS + arrived elapse k j)) ∧
    (target ≤ TICKS + arrived elapse k j) ∧
    ∀ i, (i < j)%nat → TICKS + arrived elapse k i < target.
Proof.
  intros Hpos. revert fuel k TICKS. induction n as [|n IH]; intros fuel k TICKS H0 Hfuel Hreach Hwrap.
  - cbn in Hreach. exists 0%nat. cbn [arrived]. rewrite Z.add_0_r.
    assert ((TICKS <? target) = false) as Hlt by (apply Z.ltb_ge; lia).
    split_and!; [lia| |lia|lia]. by destruct fuel; cbn; rewrite Hlt.
  - destruct fuel as [|fuel]; [lia|]. cbn [wait_loop].
    destruct (Z.ltb_spec TICKS target) as [Hlt|Hge].
    + cbn [arrived] in Hreach, Hwrap. pose proof (arrived_nonneg elapse (S k) n Hpos) as Hr.
      specialize (Hpos k) as Hk. rewrite Z.mod_small by lia.
      destruct (IH fuel (S k) (TICKS + elapse k)) as (j & Hj & -> & Hreached & Hmin); [lia|lia|lia|lia|].
      exists (S j). cbn [arrived]. rewrite Z.add_assoc. split_and!; [lia|done|done|].
      intros [|i] Hi; cbn [arrived]; [lia|]. rewrite Z.add_assoc. apply Hmin. lia.
    + exists 0%nat. cbn [arrived]. rewrite Z.add_0_r. by split_and!; [lia|done|done|lia].
Qed.

Lemma format_uptime_parts ms : is_u64 ms → ∃ h m s,
  format_uptime ms = show_u64 h ++ lit " hrs " ++ show_u64 m ++ lit " min " ++ show_u64 s ++ lit " sec" ∧
  ms / 1000 = h * 3600 + m * 60 + s ∧ 0 ≤ m < 60 ∧ 0 ≤ s < 60 ∧ is_u64 h.
Proof.
  intros Hms. unfold is_u64 in *. unfold format_uptime. do 3 eexists. split; [done|].
  split_and!; Z.div_mod_to_equations; lia.
Qed.

(** ** Properties *)

(** [ticks_for_ms] never overflows and is the least number of timer
    interrupts that spans [ms] milliseconds of the PIT clock (saturated to a
    [u64]); [uptime_ms] turns it back into exactly [ms] for the first 490
    years. *)
Theorem ticks_for_ms_spec {E} ms : is_u64 ms → ∃ t, @ticks_for_ms E ms = Ok t ∧ is_u64 t ∧
  (ms * PIT_FREQUENCY ≤ t * (PIT_DIVISOR * 1000) ∨ t = u64_max) ∧
  (∀ t', 0 ≤ t' → ms * PIT_FREQUENCY ≤ t' * (PIT_DIVISOR * 1000) → t ≤ t') ∧
  (ms ≤ 15000000000000 → uptime_ms t = ms).
Proof.
  intros Hms. rewrite ticks_for_ms_ok by done. eexists. split; [done|]. unfold is_u64 in *.
  unfold uptime_ms, saturating_mul. change PIT_FREQUENCY with 1193182. change PIT_DIVISOR with 1193.
  change (1193 * 1000) with 1193000.
  split_and!; [|Z.div_mod_to_equations; lia|Z.div_mod_to_equations; lia| |].
  - apply Z.min_glb; [|lia]. apply Z.div_pos; lia.
  - intros t' Ht' H. apply Z.min_le_iff. left. Z.div_mod_to_equations. lia.
  - intros Hb. set (q := (ms * 1193182 + 1192999) / 1193000).
    assert (ms * 1193182 ≤ q * 1193000 < ms * 1193182 + 1193000) as Hq
      by (subst q; Z.div_mod_to_equations; lia).
    clearbody q. rewrite !Z.min_l by lia. symmetry. apply (Z.div_unique _ _ _ (q * 1193 * 1000 - 1193182 * ms)); lia.
Qed.

(** A sleep ends, and never early: when the timer interrupts of some
    number of waits reach the deadline, the loop returns at the first wait that
    does, after at least [ms] milliseconds of the PIT clock. *)
Theorem sleep_spec {E} debug elapse fuel n ms TICKS t :
  is_u64 ms → is_u64 TICKS → (∀ k, 0 ≤ elapse k) → (n ≤ fuel)%nat →
  @ticks_for_ms E ms = Ok t → t < u64_max → t ≤ arrived elapse 0 n → TICKS + arrived elapse 0 n < U64_SIZE →
  ∃ j, @sleep E debug true elapse fuel ms TICKS = Ok (Some (TICKS + arrived elapse 0 j)) ∧
    ms * PIT_FREQUENCY ≤ arrived elapse 0 j * (PIT_DIVISOR * 1000) ∧
    (∀ i, (i < j)%nat → arrived elapse 0 i < t).
Proof.
  intros Hms HT Hpos Hfuel Ht Hsat Hreach Hwrap. unfold sleep. cbn [negb]. rewrite Ht. unfold_monad.
  rewrite ticks_for_ms_ok in Ht by done. injection Ht as Ht. unfold is_u64 in *.
  assert (0 ≤ t) as Ht0 by (subst t; apply Z.min_glb; [apply Z.div_pos|]; lia).
  unfold saturating_add. rewrite Z.min_l by lia.
  destruct (wait_loop_spec elapse fuel 0 n TICKS (TICKS + t)) as (j & Hj & -> & Hd & Hmin); [done|lia|done|lia|done|].
  exists j. split; [done|]. split; [|intros i Hi; specialize (Hmin i Hi); lia].
  change PIT_FREQUENCY with 1193182. change PIT_DIVISOR with 1193.
  destruct (Z.min_spec ((ms * 1193182 + 1192999) / 1193000) u64_max) as [[_ Hq]|[Hq1 Hq]];
    rewrite Hq in Ht; clear Hq Hmin; [Z.div_mod_to_equations; lia|lia].
Qed.

Lemma ticks_for_ms_spec_witness : ∃ t, @ticks_for_ms unit 250 = Ok t ∧ uptime_ms t = 250.
Proof.
  destruct (ticks_for_ms_spec (E:=unit) 250) as (t & H & _ & _ & _ & Hu); [done|].
  exists t. split; [exact H|]. apply Hu. lia.
Defined.

Lemma sleep_spec_witness : ∃ j,
  @sleep unit true true (λ _, 3) 10 5 100 = Ok (Some (100 + arrived (λ _, 3) 0 j)).
Proof.
  destruct (sleep_spec (E:=unit) true (λ _, 3) 10 2 5 100 6) as (j & H & _); [done..|lia|lia|done|done|done|done|].
  exists j. exact H.
Defined.
