(* ===== verification/Graphics.v ===== *)
(** * Graphics: the framebuffer and the drawing operations of
    [src/graphics/] (pixel.rs, framebuffer.rs, drawing.rs, text.rs, mod.rs) and
    the colors of [src/color/mod.rs].

    An operation draws into byte-addressed memory and cannot fail; it panics
    where its unchecked arithmetic overflows or an assertion fails. *)

From S2P Require Import Prelude Globals Text.

Abbreviation draw := (outcome Empty_set mem) (only parsing).

(** ** Colors and geometry *)

Record Color : Type := mkColor { r : Z; g : Z; b : Z }.
(** [From<\[u8; 3\]> for Color] *)
Definition Color_from (value : Z * Z * Z) : Color := let '(r, g, b) := value in mkColor r g b.
Definition WHITE : Color := mkColor 255 255 255.
Definition BLACK : Color := mkColor 0 0 0.

Record PixelCoord : Type := mkCoord { x : Z; y : Z }.
Record PixelSize : Type := mkSize { size_width : Z; size_height : Z }.

(** [PixelSize::new] asserts, [PixelSize::try_new] and [Stride::try_new] test. *)
Definition PixelSize_new (width height : Z) : outcome Empty_set PixelSize :=
  if negb (width =? 0) && negb (height =? 0) then Ok (mkSize width height) else Panic.
Definition PixelSize_try_new (width height : Z) : option PixelSize :=
  if (width =? 0) || (height =? 0) then None else Some (mkSize width height).
Definition Stride_try_new (value : Z) : option Z := if value =? 0 then None else Some value.

(** ** Framebuffer *)

(** The pixel formats of the graphics output protocol. *)
Inductive PixelFormat : Type := Rgb | Bgr | Bitmask | BltOnly.

Record Framebuffer : Type := mkFb {
  ptr : Z;
  size : PixelSize;
  stride : Z;
  pixel_format : PixelFormat;
  byte_len : Z;
}.

Inductive FramebufferError : Type :=
  | UnsupportedPixelFormat (format : PixelFormat)
  | InvalidGeometry
  | FramebufferTooSmall (required actual : Z).

Definition width (fb : Framebuffer) : Z := size_width (size fb).
Definition height (fb : Framebuffer) : Z := size_height (size fb).

(** [matches!(pixel_format, PixelFormat::Rgb | PixelFormat::Bgr)] *)
Definition is_rgb_bgr (f : PixelFormat) : bool := match f with Rgb | Bgr => true | _ => false end.

(** [Framebuffer::required_byte_len] *)
Definition required_byte_len (sz : PixelSize) (stride : Z) : option Z :=
  if stride <? size_width sz then None else
  pixels ← checked_mul stride (size_height sz); checked_mul pixels 4.

(** [Framebuffer::from_raw_parts] *)
Definition from_raw_parts (p byte_len : Z) (sz : PixelSize) (stride : Z) (format : PixelFormat) :
    outcome FramebufferError Framebuffer :=
  if negb (is_rgb_bgr format) then Err (UnsupportedPixelFormat format) else
  required ← ok_or (required_byte_len sz stride) InvalidGeometry;
  if byte_len <? required then Err (FramebufferTooSmall required byte_len) else
  Ok (mkFb p sz stride format byte_len).

(** What the graphics output protocol reports of its mode. *)
Record GopMode : Type := mkGop {
  resolution : Z * Z;
  gop_stride : Z;
  gop_format : PixelFormat;
  frame_buffer : Z * Z;
}.

(** [GraphicsOutput::frame_buffer], which asserts that the mode has one: a mode
    of the format [BltOnly] has no memory to write to. *)
Definition gop_frame_buffer {E} (gop : GopMode) : outcome E (Z * Z) :=
  match gop_format gop with BltOnly => Panic | _ => Ok (frame_buffer gop) end.

(** [Framebuffer::new] *)
Definition Framebuffer_new (gop : GopMode) : outcome FramebufferError Framebuffer :=
  sz ← ok_or (PixelSize_try_new (fst (resolution gop)) (snd (resolution gop))) InvalidGeometry;
  st ← ok_or (Stride_try_new (gop_stride gop)) InvalidGeometry;
  framebuffer ← gop_frame_buffer gop;
  from_raw_parts (fst framebuffer) (snd framebuffer) sz st (gop_format gop).

(** [Framebuffer::is_drawable] *)
Definition is_drawable (fb : Framebuffer) : bool :=
  negb (ptr fb =? 0) && is_rgb_bgr (pixel_format fb) &&
  match required_byte_len (size fb) (stride fb) with
  | Some required => required <=? byte_len fb
  | None => false
  end.

Definition write_byte (a v : Z) (m : mem) : mem := λ x, if x =? a then v else m x.

(** [Framebuffer::read_pixel] *)
Definition read_pixel (fb : Framebuffer) (m : mem) (x y : Z) : Color :=
  if negb (is_drawable fb) || (width fb <=? x) || (height fb <=? y) then BLACK else
  match (row ← checked_mul y (stride fb); pixel ← checked_add row x; checked_mul pixel 4) with
  | None => BLACK
  | Some offset =>
    match checked_add offset 4 with
    | None => BLACK
    | Some fin =>
      if byte_len fb <? fin then BLACK else
      let p := ptr fb + offset in
      let '(first, second, third) := (m p, m (p + 1), m (p + 2)) in
      match pixel_format fb with
      | Rgb => mkColor first second third
      | Bgr => mkColor third second first
      | _ => BLACK
      end
    end
  end.

(** [Framebuffer::write_pixel]: whether the pixel was written, and the memory. *)
Definition write_pixel (fb : Framebuffer) (pixel_index : Z) (color : Color) (m : mem) : bool * mem :=
  match (match pixel_format fb with
         | Rgb => Some (r color, g color, b color)
         | Bgr => Some (b color, g color, r color)
         | _ => None
         end) with
  | None => (false, m)
  | Some (c0, c1, c2) =>
    match checked_mul pixel_index 4 with
    | None => (false, m)
    | Some offset =>
      match checked_add offset 4 with
      | None => (false, m)
      | Some fin =>
        if byte_len fb <? fin then (false, m) else
        let p := ptr fb + offset in
        (true, write_byte (p + 2) c2 (write_byte (p + 1) c1 (write_byte p c0 m)))
      end
    end
  end.

(** [core::ptr::copy] (overlap allowed) and [write_bytes]. *)
Definition copy (src dst n : Z) (m : mem) : mem := λ a,
  if (dst <=? a) && (a <? dst + n) then m (src + (a - dst)) else m a.
Definition write_bytes (dst v n : Z) (m : mem) : mem := λ a,
  if (dst <=? a) && (a <? dst + n) then v else m a.

(** [Framebuffer::scroll_rows] *)
Definition scroll_rows (fb : Framebuffer) (rows : Z) (m : mem) : draw :=
  if negb (is_drawable fb) || (rows =? 0) then Ok m else
  row_bytes ← mul_u64 (stride fb) 4;
  if height fb <=? rows then
    n ← mul_u64 (stride fb) (height fb); n ← mul_u64 n 4;
    Ok (write_bytes (ptr fb) 0 n m)
  else
  kept ← sub_u64 (height fb) rows;
  moved_bytes ← mul_u64 kept row_bytes;
  cleared_bytes ← mul_u64 rows row_bytes;
  Ok (write_bytes (ptr fb + moved_bytes) 0 cleared_bytes
        (copy (ptr fb + cleared_bytes) (ptr fb) moved_bytes m)).

(** ** Drawing *)

(** [fb.write_pixel(row * fb.stride() + col, color)], its result ignored. *)
Definition write_at (fb : Framebuffer) (row col : Z) (color : Color) (m : mem) : draw :=
  i ← mul_u64 row (stride fb); i ← add_u64 i col; Ok (snd (write_pixel fb i color m)).

(** [for row in rows { for col in cols { … } }] *)
Definition for_pixels (rows cols : list Z) (body : Z → Z → mem → draw) (m : mem) : draw :=
  foldM (λ m row, foldM (λ m col, body row col m) m cols) m rows.

(** [graphics::scroll_up] *)
Definition scroll_up (fb : Framebuffer) (rows : Z) (m : mem) : draw := scroll_rows fb rows m.

(** [clear_background] *)
Definition clear_background (fb : Framebuffer) (color : Color) (m : mem) : draw :=
  if negb (is_drawable fb) then Ok m else
  for_pixels (seqZ 0 (height fb)) (seqZ 0 (width fb)) (λ row col, write_at fb row col color) m.

(** [draw_rec] *)
Definition draw_rec (fb : Framebuffer) (origin : PixelCoord) (sz : PixelSize) (color : Color) (m : mem) : draw :=
  if negb (is_drawable fb) then Ok m else
  let '(x, y) := (x origin, y origin) in
  match checked_add x (size_width sz), checked_add y (size_height sz) with
  | Some x2, Some y2 =>
    if (width fb <? x2) || (height fb <? y2) then Ok m else
    for_pixels (seqZ y (y2 - y)) (seqZ x (x2 - x)) (λ row col, write_at fb row col color) m
  | _, _ => Ok m
  end.

(** [isize] and [i64]: [try_from] and the checked operations. *)
Definition is_i64 (z : Z) : bool := (- 2 ^ 63 <=? z) && (z <? 2 ^ 63).
Definition to_i64 (z : Z) : option Z := if is_i64 z then Some z else None.

(** The loop body of [draw_circle]. *)
Definition circle_pixel (fb : Framebuffer) (radius_squared center_x center_y w h : Z) (color : Color)
    (delta_y delta_x : Z) (m : mem) : draw :=
  match (x2 ← to_i64 (delta_x * delta_x); y2 ← to_i64 (delta_y * delta_y); to_i64 (y2 + x2)),
        to_i64 (center_x + delta_x), to_i64 (center_y + delta_y) with
  | Some distance_squared, Some x, Some y =>
    if (distance_squared <=? radius_squared) && (0 <=? x) && (0 <=? y) && (x <? w) && (y <? h)
    then write_at fb y x color m else Ok m
  | _, _, _ => Ok m
  end.

(** [draw_circle] *)
Definition draw_circle (fb : Framebuffer) (radius : Z) (center : PixelCoord) (color : Color) (m : mem) : draw :=
  if negb (is_drawable fb) then Ok m else
  match to_i64 radius, to_i64 (x center), to_i64 (y center), to_i64 (width fb), to_i64 (height fb) with
  | Some radius, Some center_x, Some center_y, Some w, Some h =>
    match to_i64 (radius * radius) with
    | None => Ok m
    | Some radius_squared =>
      for_pixels (seqZ (- radius) (2 * radius + 1)) (seqZ (- radius) (2 * radius + 1))
        (circle_pixel fb radius_squared center_x center_y w h color) m
    end
  | _, _, _, _, _ => Ok m
  end.

(** The position and the error term of [draw_line]. *)
Record line_state : Type := mkLine { line_x : Z; line_y : Z; line_error : Z }.

(** One round of the loop of [draw_line] after its pixel: [None] is the early
    [return] on overflow. *)
Definition line_step (delta_x delta_y step_x step_y : Z) (s : line_state) : option line_state :=
  let '(mkLine x y error) := s in
  doubled_error ← to_i64 (error * 2);
  '(x, error) ← (if - delta_y <? doubled_error
    then (next_error ← to_i64 (error - delta_y); next_x ← to_i64 (x + step_x); Some (next_x, next_error))
    else Some (x, error));
  '(y, error) ← (if doubled_error <? delta_x
    then (next_error ← to_i64 (error + delta_x); next_y ← to_i64 (y + step_y); Some (next_y, next_error))
    else Some (y, error));
  Some (mkLine x y error).

(** The pixel of a round. *)
Definition line_pixel (fb : Framebuffer) (w h : Z) (color : Color) (s : line_state) (m : mem) : draw :=
  if (0 <=? line_x s) && (0 <=? line_y s) && (line_x s <? w) && (line_y s <? h)
  then write_at fb (line_y s) (line_x s) color m else Ok m.

(** The loop of [draw_line]: [None] when the fuel runs out. *)
Fixpoint line_loop (fuel : nat) (fb : Framebuffer) (w h x2 y2 delta_x delta_y step_x step_y : Z) (color : Color)
    (s : line_state) (m : mem) : option draw :=
  match fuel with
  | O => None
  | S fuel =>
    match line_pixel fb w h color s m with
    | Ok m =>
      if (line_x s =? x2) && (line_y s =? y2) then Some (Ok m) else
      match line_step delta_x delta_y step_x step_y s with
      | None => Some (Ok m)
      | Some s => line_loop fuel fb w h x2 y2 delta_x delta_y step_x step_y color s m
      end
    | e => Some e
    end
  end.

(** [draw_line] *)
Definition draw_line (fuel : nat) (fb : Framebuffer) (start fin : PixelCoord) (color : Color) (m : mem) : option draw :=
  if negb (is_drawable fb) then Some (Ok m) else
  match to_i64 (width fb), to_i64 (height fb), to_i64 (x fin), to_i64 (y fin), to_i64 (x start), to_i64 (y start) with
  | Some w, Some h, Some x2, Some y2, Some x, Some y =>
    match to_i64 (Z.abs (x - x2)), to_i64 (Z.abs (y - y2)) with
    | Some delta_x, Some delta_y =>
      line_loop fuel fb w h x2 y2 delta_x delta_y (if x <? x2 then 1 else -1) (if y <? y2 then 1 else -1) color
        (mkLine x y (delta_x - delta_y)) m
    | _, _ => Some (Ok m)
    end
  | _, _, _, _, _, _ => Some (Ok m)
  end.

(** ** Text *)

Inductive RasterHeight : Type := Size16 | Size20 | Size24 | Size32.

(** [cell_height], and [font_h] of the console, which is the same. *)
Definition cell_height (sz : RasterHeight) : Z :=
  match sz with Size16 => 16 | Size20 => 20 | Size24 => 24 | Size32 => 32 end + 2.

(** [blend] *)
Definition blend (channel intensity : Z) : Z := channel * intensity / 255 mod 256.

Record RasterizedChar : Type := mkRaster { raster_width : Z; raster : list (list Z) }.

(** The bitmap font: the glyph of a character and the width of a cell. *)
Section text.
Context (get_raster : char → RasterHeight → option RasterizedChar).
Context (get_raster_width : RasterHeight → Z).

Definition FONT_HEIGHT : RasterHeight := Size16.
Definition cell_width (sz : RasterHeight) : Z := get_raster_width sz.

(** The loop body of [draw_glyph]. *)
Definition glyph_pixel (fb : Framebuffer) (origin_x origin_y : Z) (color : Color) (row col intensity : Z) (m : mem) : draw :=
  if intensity =? 0 then Ok m else
  match checked_add origin_x col, checked_add origin_y row with
  | Some x, Some y =>
    if (width fb <=? x) || (height fb <=? y) then Ok m else
    write_at fb y x (mkColor (blend (r color) intensity) (blend (g color) intensity) (blend (b color) intensity)) m
  | _, _ => Ok m
  end.

Definition enumerate {A} (l : list A) : list (Z * A) := zip (seqZ 0 (Z.of_nat (length l))) l.

(** [draw_glyph] *)
Definition draw_glyph (fb : Framebuffer) (glyph : RasterizedChar) (origin_x origin_y : Z) (color : Color) (m : mem) : draw :=
  foldM (λ m '(row, row_data),
    foldM (λ m '(col, intensity), glyph_pixel fb origin_x origin_y color row col intensity m) m (enumerate row_data))
    m (enumerate (raster glyph)).

(** The loop of [draw_text]. *)
Fixpoint draw_chars (fb : Framebuffer) (text : str) (cursor_x origin_y : Z) (color : Color) (sz : RasterHeight) (m : mem) : draw :=
  match text with
  | [] => Ok m
  | ch :: text =>
    if ch =? 10 then Ok m else
    match (match get_raster ch sz with Some g => Some g | None => get_raster 63 FONT_HEIGHT end) with
    | None => draw_chars fb text cursor_x origin_y color sz m
    | Some glyph =>
      m ← draw_glyph fb glyph cursor_x origin_y color m;
      match checked_add cursor_x (raster_width glyph) with
      | None => Ok m
      | Some next_x => draw_chars fb text next_x origin_y color sz m
      end
    end
  end.

(** [draw_text] *)
Definition draw_text (fb : Framebuffer) (text : str) (column row : Z) (color : Color)
    (font_height : option RasterHeight) (m : mem) : draw :=
  if negb (is_drawable fb) then Ok m else
  let sz := match font_height with Some s => s | None => FONT_HEIGHT end in
  cursor_x ← mul_u64 column (cell_width sz);
  origin_y ← mul_u64 row (cell_height sz);
  draw_chars fb text cursor_x origin_y color sz m.
End text.

(** ** Images: what a drawing leaves in memory *)

(** A drawable framebuffer with machine-sized fields. *)
Record fb_ok (fb : Framebuffer) : Prop := {
  fb_drawable : is_drawable fb = true;
  fb_width : 1 ≤ width fb < U64_SIZE;
  fb_height : 1 ≤ height fb < U64_SIZE;
  fb_stride : 0 ≤ stride fb;
  fb_ptr : 0 ≤ ptr fb;
  fb_len : is_u64 (byte_len fb);
}.

Definition visible (fb : Framebuffer) (x y : Z) : Prop := 0 ≤ x < width fb ∧ 0 ≤ y < height fb.

(** The address of a pixel. *)
Definition cell (fb : Framebuffer) (x y : Z) : Z := ptr fb + (y * stride fb + x) * 4.

(** The color of a pixel in memory. *)
Definition pixel (fb : Framebuffer) (m : mem) (x y : Z) : Color :=
  let p := cell fb x y in
  match pixel_format fb with
  | Bgr => mkColor (m (p + 2)) (m (p + 1)) (m p)
  | _ => mkColor (m p) (m (p + 1)) (m (p + 2))
  end.

(** [m'] is [m] with the visible pixels in [P] painted in the colors [C], and
    no other byte changed. *)
Definition painted (fb : Framebuffer) (P : Z → Z → bool) (C : Z → Z → Color) (m m' : mem) : Prop :=
  (∀ x y, visible fb x y → P x y = true → pixel fb m' x y = C x y) ∧
  (∀ a, (∀ x y, visible fb x y → P x y = true → ¬ cell fb x y ≤ a < cell fb x y + 3) → m' a = m a).

Lemma fb_ok_bounds fb : fb_ok fb →
  width fb ≤ stride fb ∧ stride fb * height fb * 4 ≤ byte_len fb ∧ 0 ≤ stride fb * height fb.
Proof.
  intros [Hd Hw Hh Hs Hp Hl]. unfold is_drawable in Hd. apply andb_true_iff in Hd as [_ Hd].
  unfold required_byte_len in Hd. fold (width fb) (height fb) in Hd.
  destruct (Z.ltb_spec (stride fb) (width fb)); [done|].
  assert (0 ≤ stride fb * height fb) by (apply Z.mul_nonneg_nonneg; lia).
  unfold checked_mul in Hd.
  destruct (Z.ltb_spec (stride fb * height fb) U64_SIZE); cbn in Hd; [|done].
  destruct (Z.ltb_spec (stride fb * height fb * 4) U64_SIZE); cbn in Hd; [|done].
  apply Z.leb_le in Hd. lia.
Qed.

(** A visible pixel lies in the mapping. *)
Lemma visible_offset fb x y : fb_ok fb → visible fb x y →
  0 ≤ y * stride fb ∧ y * stride fb + x < stride fb * height fb ∧
  0 ≤ (y * stride fb + x) * 4 ∧ (y * stride fb + x) * 4 + 4 ≤ byte_len fb.
Proof.
  intros Hok [Hx Hy]. destruct (fb_ok_bounds fb Hok) as (H1 & H2 & _). pose proof (fb_stride fb Hok).
  assert (0 ≤ y * stride fb) by (apply Z.mul_nonneg_nonneg; lia).
  assert (y * stride fb + stride fb ≤ stride fb * height fb) by nia. lia.
Qed.

(** Two visible pixels have separate cells. *)
Lemma cells_apart fb x y x' y' : fb_ok fb → visible fb x y → visible fb x' y' →
  (x, y) ≠ (x', y') → cell fb x y + 4 ≤ cell fb x' y' ∨ cell fb x' y' + 4 ≤ cell fb x y.
Proof.
  intros Hok [Hx Hy] [Hx' Hy'] Hne. destruct (fb_ok_bounds fb Hok) as (H1 & _ & _). unfold cell.
  destruct (Z.lt_trichotomy y y') as [Hlt|[->|Hlt]].
  - left. assert (y * stride fb + stride fb ≤ y' * stride fb) by nia. lia.
  - assert (x ≠ x') by congruence. lia.
  - right. assert (y' * stride fb + stride fb ≤ y * stride fb) by nia. lia.
Qed.

Lemma painted_other fb P C m m' x y : fb_ok fb → painted fb P C m m' → visible fb x y → P x y = false →
  pixel fb m' x y = pixel fb m x y.
Proof.
  intros Hok [_ Hm] Hv HP.
  assert (∀ i, 0 ≤ i < 3 → m' (cell fb x y + i) = m (cell fb x y + i)) as H.
  { intros i Hi. apply Hm. intros x' y' Hv' HP' Ha.
    destruct (cells_apart fb x y x' y' Hok Hv Hv'); [|lia|lia]. intros [= -> ->]. congruence. }
  pose proof (H 0 ltac:(lia)) as H0. rewrite Z.add_0_r in H0.
  unfold pixel. rewrite H0, (H 1), (H 2) by lia. done.
Qed.

Lemma painted_none fb P C m : (∀ x y, visible fb x y → P x y = false) → painted fb P C m m.
Proof. intros H. split; [|done]. intros x y Hv HP. rewrite H in HP by done. done. Qed.

Lemma painted_trans fb P Q C m1 m2 m3 : fb_ok fb →
  painted fb P C m1 m2 → painted fb Q C m2 m3 → painted fb (λ x y, P x y || Q x y) C m1 m3.
Proof.
  intros Hok [HP1 HP2] HQ. split.
  - intros x y Hv H. destruct (Q x y) eqn:HQxy; [by apply HQ|].
    rewrite orb_false_r in H. rewrite (painted_other fb Q C m2 m3 x y Hok HQ Hv HQxy). by apply HP1.
  - intros a Ha. destruct HQ as [_ HQ2]. rewrite HQ2; [apply HP2|]; intros x y Hv H; apply Ha; [done| |done|].
    + by rewrite H.
    + by rewrite H, orb_true_r.
Qed.

Lemma painted_ext fb P Q C D m m' : (∀ x y, visible fb x y → P x y = Q x y) →
  (∀ x y, visible fb x y → P x y = true → C x y = D x y) →
  painted fb P C m m' → painted fb Q D m m'.
Proof.
  intros HPQ HCD [H1 H2]. split.
  - intros x y Hv HQ. rewrite <- HPQ in HQ by done. rewrite <- HCD by done. by apply H1.
  - intros a Ha. apply H2. intros x y Hv HP. apply Ha; [done|]. by rewrite <- HPQ.
Qed.

(** A loop of paintings paints the union. *)
Lemma foldM_painted {A} fb (f : mem → A → draw) (Q : A → Z → Z → bool) C l m : fb_ok fb →
  (∀ m a, a ∈ l → ∃ m', f m a = Ok m' ∧ painted fb (Q a) C m m') →
  ∃ m', foldM f m l = Ok m' ∧ painted fb (λ x y, existsb (λ a, Q a x y) l) C m m'.
Proof.
  intros Hok. revert m. induction l as [|a l IH]; intros m H; cbn [foldM].
  - exists m. split; [done|]. by apply painted_none.
  - destruct (H m a) as (m1 & -> & H1); [by left|].
    destruct (IH m1) as (m2 & Hf & H2); [intros; apply H; by right|].
    exists m2. split; [exact Hf|]. by apply (painted_trans _ _ _ _ _ m1).
Qed.

(** One visible pixel. *)
Definition at_point (px py x y : Z) : bool := (x =? px) && (y =? py).

Lemma at_point_spec px py x y : at_point px py x y = true ↔ x = px ∧ y = py.
Proof. unfold at_point. rewrite andb_true_iff, !Z.eqb_eq. done. Qed.

Lemma write_at_painted fb px py C m : fb_ok fb → visible fb px py →
  ∃ m', write_at fb py px (C px py) m = Ok m' ∧ painted fb (at_point px py) C m m'.
Proof.
  intros Hok Hv. destruct (visible_offset fb px py Hok Hv) as (Ho1 & Ho2 & Ho3 & Ho4).
  destruct (fb_ok_bounds fb Hok) as (Hb1 & Hb2 & Hb3). pose proof (fb_len fb Hok) as Hlen.
  unfold is_u64 in Hlen. destruct Hv as [Hx Hy]. unfold write_at.
  rewrite mul_u64_ok by (unfold is_u64; lia). unfold_monad.
  rewrite checked_add_Some by (unfold is_u64; lia). eexists. split; [done|].
  assert (is_rgb_bgr (pixel_format fb) = true) as Hfmt.
  { pose proof (fb_drawable fb Hok) as Hd. unfold is_drawable in Hd. by destruct (is_rgb_bgr _); [|rewrite andb_false_r in Hd]. }
  unfold write_pixel. rewrite checked_mul_Some, checked_add_Some by (unfold is_u64; lia).
  replace (byte_len fb <? _) with false by (symmetry; apply Z.ltb_ge; lia).
  assert (ptr fb + (py * stride fb + px) * 4 = cell fb px py) as Hc by done. rewrite Hc.
  destruct (pixel_format fb) eqn:Hf; try done; cbn [snd]; (split;
    [ intros x y _ [-> ->]%at_point_spec; unfold pixel; rewrite Hf; unfold write_byte;
      repeat (case_match; rewrite ?Z.eqb_eq, ?Z.eqb_neq in *; try lia); by destruct (C px py)
    | intros a Ha; specialize (Ha px py ltac:(by split) ltac:(by apply at_point_spec));
      unfold write_byte; repeat (case_match; rewrite ?Z.eqb_eq, ?Z.eqb_neq in *; try lia); done ]).
Qed.

(** A loop over a rectangle of rows and columns, each of whose rounds paints
    its own pixel or nothing. *)
Lemma for_pixels_painted fb rows cols body (Q : Z → Z → Z → Z → bool) C m : fb_ok fb →
  (∀ row col m, row ∈ rows → col ∈ cols → ∃ m', body row col m = Ok m' ∧ painted fb (Q row col) C m m') →
  ∃ m', for_pixels rows cols body m = Ok m' ∧
    painted fb (λ x y, existsb (λ row, existsb (λ col, Q row col x y) cols) rows) C m m'.
Proof.
  intros Hok H. unfold for_pixels.
  apply (foldM_painted fb _ (λ row x y, existsb (λ col, Q row col x y) cols)); [done|].
  intros m0 row Hrow. apply (foldM_painted fb _ (λ col x y, Q row col x y)); [done|].
  intros m1 col Hcol. by apply H.
Qed.

Lemma existsb_seqZ p a n : existsb p (seqZ a n) = true ↔ ∃ i, a ≤ i < a + n ∧ p i = true.
Proof.
  rewrite existsb_exists. split; intros (i & Hi & Hp); exists i; (split; [|done]).
  - apply list_elem_of_In, elem_of_seqZ in Hi. lia.
  - apply list_elem_of_In, elem_of_seqZ. lia.
Qed.

(** The rectangle from [(x, y)] to [(x2, y2)], exclusive. *)
Definition in_rect (x y x2 y2 px py : Z) : bool := (x <=? px) && (px <? x2) && (y <=? py) && (py <? y2).

Lemma in_rect_spec x y x2 y2 px py : in_rect x y x2 y2 px py = true ↔ x ≤ px < x2 ∧ y ≤ py < y2.
Proof. unfold in_rect. rewrite !andb_true_iff, !Z.leb_le, !Z.ltb_lt. lia. Qed.

Lemma fill_painted fb x y w h color m : fb_ok fb → 0 ≤ x → 0 ≤ y → x + w ≤ width fb → y + h ≤ height fb →
  ∃ m', for_pixels (seqZ y h) (seqZ x w) (λ row col, write_at fb row col color) m = Ok m' ∧
    painted fb (in_rect x y (x + w) (y + h)) (λ _ _, color) m m'.
Proof.
  intros Hok Hx Hy Hw Hh.
  destruct (for_pixels_painted fb (seqZ y h) (seqZ x w) (λ row col, write_at fb row col color)
    (λ row col, at_point col row) (λ _ _, color) m Hok) as (m' & Hr & Hp).
  { intros row col m0 Hrow%elem_of_seqZ Hcol%elem_of_seqZ.
    apply (write_at_painted fb col row (λ _ _, color)); [done|]. split; lia. }
  exists m'. split; [done|]. revert Hp. apply painted_ext; [|done].
  intros px py _. apply eq_true_iff_eq. rewrite existsb_seqZ, in_rect_spec. split.
  - intros (row & Hr1 & (col & Hc & [-> ->]%at_point_spec)%existsb_seqZ). lia.
  - intros [? ?]. exists py. split; [lia|]. apply existsb_seqZ. exists px. split; [lia|]. by apply at_point_spec.
Qed.

(** ** Lines *)

Lemma minor_bound a b u v : 0 < a → 0 ≤ b → u ≤ a → 2 * Z.abs (a * v - b * u) ≤ a → v ≤ b.
Proof.
  intros Ha Hb Hu Hq. destruct (Z.le_gt_cases v b) as [|Hgt]; [done|exfalso].
  assert (a * (b + 1) ≤ a * v) by (apply Z.mul_le_mono_nonneg_l; lia).
  assert (b * u ≤ b * a) by (apply Z.mul_le_mono_nonneg_l; lia). lia.
Qed.

Lemma to_i64_ok z : - 2 ^ 63 ≤ z < 2 ^ 63 → to_i64 z = Some z.
Proof.
  intros H. unfold to_i64, is_i64. by rewrite (proj2 (Z.leb_le _ _)), (proj2 (Z.ltb_lt _ _)) by lia.
Qed.

Section lines.
Context (fb : Framebuffer) (color : Color) (x1 y1 x2 y2 : Z).
Hypothesis Hok : fb_ok fb.

Let dx := Z.abs (x1 - x2).
Let dy := Z.abs (y1 - y2).
Let sx := if x1 <? x2 then 1 else -1.
Let sy := if y1 <? y2 then 1 else -1.
Let N := Z.max dx dy.

Lemma step_cases : ((x1 < x2 ∧ sx = 1) ∨ (x2 ≤ x1 ∧ sx = -1)) ∧ ((y1 < y2 ∧ sy = 1) ∨ (y2 ≤ y1 ∧ sy = -1)).
Proof. unfold sx, sy. destruct (Z.ltb_spec x1 x2); destruct (Z.ltb_spec y1 y2); lia. Qed.

(** The point [i] columns and [j] rows from the start, and the loop state there. *)
Definition line_at (i j : Z) : line_state :=
  mkLine (x1 + sx * i) (y1 + sy * j) (dx * (j + 1) - dy * (i + 1)).

(** The [k]-th point of a Bresenham line: one step along the longer axis for
    each round, and within half a pixel of the ideal line across it. *)
Definition on_line (k i j : Z) : Prop :=
  0 ≤ i ≤ dx ∧ 0 ≤ j ≤ dy ∧ (if dy <=? dx then i = k else j = k) ∧ 2 * Z.abs (dx * j - dy * i) ≤ N.

Lemma on_line_max k i j : on_line k i j → Z.max i j = k.
Proof.
  unfold on_line, N. intros (Hi & Hj & Hk & Hq). destruct (Z.leb_spec dy dx) as [Hle|Hlt]; subst k.
  - assert (j ≤ i); [|lia]. assert (dx = 0 ∨ 0 < dx) as [->|Hdx] by lia; [lia|]. nia.
  - assert (i ≤ j); [|lia]. nia.
Qed.

Lemma on_line_end k i j : on_line k i j → (i = dx ∧ j = dy) ↔ k = N.
Proof.
  unfold on_line, N. intros (Hi & Hj & Hk & Hq).
  destruct (Z.leb_spec dy dx) as [Hle|Hlt]; subst k; (split; [lia|]); intros Heq.
  - rewrite Z.max_l in Heq, Hq by lia. subst i. assert (dx = 0 ∨ 0 < dx) as [?|Hdx] by lia; [lia|]. split; [done|]. nia.
  - rewrite Z.max_r in Heq, Hq by lia. subst j. split; [|done]. nia.
Qed.

Hypothesis Hrange : 0 ≤ x1 < 2 ^ 61 ∧ 0 ≤ x2 < 2 ^ 61 ∧ 0 ≤ y1 < 2 ^ 61 ∧ 0 ≤ y2 < 2 ^ 61.

(** A round before the last goes on to the next point of the line. *)
Lemma line_step_on k i j : on_line k i j → k < N →
  ∃ i' j', line_step dx dy sx sy (line_at i j) = Some (line_at i' j') ∧ on_line (k + 1) i' j'.
Proof.
  intros Hon Hk. pose proof Hon as (Hi & Hj & Hmaj & Hq).
  assert (0 ≤ dx < 2 ^ 61 ∧ 0 ≤ dy < 2 ^ 61) as [Hdx Hdy] by (unfold dx, dy; lia).
  assert (N < 2 ^ 61) by (unfold N; lia).
  set (q := dx * j - dy * i) in *.
  assert (dx * (j + 1) - dy * (i + 1) = q + dx - dy) as He by (unfold q; ring).
  destruct step_cases as [Hsx Hsy].
  assert (∀ i', 0 ≤ i' ≤ dx → - 2 ^ 63 ≤ x1 + sx * i' < 2 ^ 63) as Hxr by (intros; destruct Hsx as [[_ ->]|[_ ->]]; lia).
  assert (∀ j', 0 ≤ j' ≤ dy → - 2 ^ 63 ≤ y1 + sy * j' < 2 ^ 63) as Hyr by (intros; destruct Hsy as [[_ ->]|[_ ->]]; lia).
  (* The coordinates that the major axis and the half-pixel bound leave. *)
  assert (∀ i' j', (i' = i ∨ i' = i + 1) → (j' = j ∨ j' = j + 1) →
    (if dy <=? dx then i' = k + 1 else j' = k + 1) → 2 * Z.abs (dx * j' - dy * i') ≤ N → on_line (k + 1) i' j') as Hnext.
  { intros i' j' Hi' Hj' Hm Hb. unfold on_line, N in *. destruct (Z.leb_spec dy dx) as [Hle|Hlt].
    - rewrite Z.max_l in Hb, Hk by lia. rewrite Z.max_l by lia.
      pose proof (minor_bound dx dy i' j' ltac:(lia) ltac:(lia) ltac:(lia) Hb). split_and!; [lia..|done|done].
    - rewrite Z.max_r in Hb, Hk by lia. rewrite Z.max_r by lia.
      pose proof (minor_bound dy dx j' i' ltac:(lia) ltac:(lia) ltac:(lia) ltac:(lia)). split_and!; [lia..|done|done]. }
  assert (dx * (j + 1) - dy * i = q + dx) as Hqj by (unfold q; ring).
  assert (dx * j - dy * (i + 1) = q - dy) as Hqi by (unfold q; ring).
  assert (if dy <=? dx then - dy < (q + dx - dy) * 2 else (q + dx - dy) * 2 < dx) as Hmove.
  { unfold N in Hq, Hk. destruct (Z.leb_spec dy dx) as [Hle|Hlt].
    - rewrite Z.max_l in Hq, Hk by lia. destruct (Z.eq_dec dx dy) as [Hd|Hd]; [|lia].
      assert (q = dx * (j - i)) as Hqd by (unfold q; rewrite Hd; ring).
      assert (j = i) by nia. subst j. rewrite Z.sub_diag in Hqd. lia.
    - rewrite Z.max_r in Hq by lia. lia. }
  unfold line_step, line_at. rewrite He. rewrite (to_i64_ok ((q + dx - dy) * 2)) by lia. cbn [mbind option_bind].
  assert (∀ i', x1 + sx * i' + sx = x1 + sx * (i' + 1)) as Hxs by (intros; ring).
  assert (∀ j', y1 + sy * j' + sy = y1 + sy * (j' + 1)) as Hys by (intros; ring).
  rewrite Hxs, Hys. clearbody q. clear He.
  destruct (Z.ltb_spec (- dy) ((q + dx - dy) * 2)) as [Hx|Hx];
    destruct (Z.ltb_spec ((q + dx - dy) * 2) dx) as [Hy|Hy].
  - assert (on_line (k + 1) (i + 1) (j + 1)) as Hon'.
    { apply Hnext; [by right|by right|case_match; lia|]. unfold N in *.
      replace (dx * (j + 1) - dy * (i + 1)) with (q + dx - dy) by lia. case_match; lia. }
    pose proof Hon' as (Hi' & Hj' & _).
    rewrite (to_i64_ok (q + dx - dy - dy)), (to_i64_ok (x1 + sx * (i + 1))) by (try apply Hxr; lia). cbn [mbind option_bind].
    rewrite (to_i64_ok (q + dx - dy - dy + dx)), (to_i64_ok (y1 + sy * (j + 1))) by (try apply Hyr; lia). cbn [mbind option_bind].
    exists (i + 1), (j + 1). split; [|done]. do 2 f_equal. lia.
  - assert (on_line (k + 1) (i + 1) j) as Hon'.
    { apply Hnext; [by right|by left|case_match; lia|]. rewrite Hqi. unfold N in *. case_match; lia. }
    pose proof Hon' as (Hi' & Hj' & _).
    rewrite (to_i64_ok (q + dx - dy - dy)), (to_i64_ok (x1 + sx * (i + 1))) by (try apply Hxr; lia). cbn [mbind option_bind].
    exists (i + 1), j. split; [|done]. do 2 f_equal. lia.
  - assert (on_line (k + 1) i (j + 1)) as Hon'.
    { apply Hnext; [by left|by right|case_match; lia|]. rewrite Hqj. unfold N in *. case_match; lia. }
    pose proof Hon' as (Hi' & Hj' & _).
    cbn [mbind option_bind]. rewrite (to_i64_ok (q + dx - dy + dx)), (to_i64_ok (y1 + sy * (j + 1))) by (try apply Hyr; lia). cbn [mbind option_bind].
    exists i, (j + 1). split; [|done]. do 2 f_equal. lia.
  - exfalso. case_match; lia.
Qed.

Definition point_of (p : Z * Z) : Z * Z := (x1 + sx * fst p, y1 + sy * snd p).
Definition on_points (l : list (Z * Z)) (px py : Z) : bool :=
  existsb (λ p, at_point (fst (point_of p)) (snd (point_of p)) px py) l.

Lemma line_pixel_painted i j m : ∃ m', line_pixel fb (width fb) (height fb) color (line_at i j) m = Ok m' ∧
  painted fb (on_points [(i, j)]) (λ _ _, color) m m'.
Proof.
  unfold line_pixel, line_at, on_points, point_of. cbn [line_x line_y fst snd existsb].
  destruct ((0 <=? _) && _ && _ && _) eqn:Hv.
  - rewrite !andb_true_iff, !Z.leb_le, !Z.ltb_lt in Hv.
    destruct (write_at_painted fb (x1 + sx * i) (y1 + sy * j) (λ _ _, color) m Hok) as (m' & Hw & Hp); [split; lia|].
    exists m'. split; [exact Hw|]. revert Hp. by apply painted_ext; [intros; rewrite orb_false_r|].
  - exists m. split; [done|]. apply painted_none. intros px py [Hx Hy]. rewrite orb_false_r.
    destruct (at_point _ _ px py) eqn:Hat; [|done]. apply at_point_spec in Hat as [-> ->].
    rewrite !andb_false_iff, !Z.leb_gt, !Z.ltb_ge in Hv. lia.
Qed.

Lemma line_loop_spec fuel k i j m : on_line k i j → N - k < Z.of_nat fuel →
  ∃ l m', line_loop fuel fb (width fb) (height fb) x2 y2 dx dy sx sy color (line_at i j) m = Some (Ok m') ∧
    painted fb (on_points l) (λ _ _, color) m m' ∧ Z.of_nat (length l) = N - k + 1 ∧ head l = Some (i, j) ∧
    ∀ n i' j', l !! n = Some (i', j') → on_line (k + Z.of_nat n) i' j'.
Proof.
  revert k i j m. induction fuel as [|fuel IH]; intros k i j m Hon Hfuel.
  { exfalso. pose proof (on_line_max k i j Hon). destruct Hon as (? & ? & _). unfold N in Hfuel. lia. }
  pose proof (on_line_end k i j Hon) as Hend. pose proof (on_line_max k i j Hon) as Hmax. pose proof Hon as (Hi & Hj & _).
  cbn [line_loop]. destruct (line_pixel_painted i j m) as (m1 & -> & Hp1).
  assert (((line_x (line_at i j) =? x2) && (line_y (line_at i j) =? y2) = true) ↔ k = N) as Hbreak.
  { rewrite <- Hend, andb_true_iff, !Z.eqb_eq. cbn [line_at line_x line_y].
    destruct step_cases as [[[? ->]|[? ->]] [[? ->]|[? ->]]]; unfold dx, dy; split; intros [? ?]; split; lia. }
  destruct ((line_x (line_at i j) =? x2) && _).
  - exists [(i, j)], m1. split_and!; [done|done| |done|].
    + rewrite (proj1 Hbreak) by done. cbn. lia.
    + intros [|n] i' j' Hn; [|done]. injection Hn as <- <-. by rewrite Z.add_0_r.
  - assert (k < N) as Hk.
    { assert (k ≠ N) by (intros ?%Hbreak; done). unfold N in *. lia. }
    destruct (line_step_on k i j Hon Hk) as (i' & j' & -> & Hon').
    destruct (IH (k + 1) i' j' m1 Hon') as (l & m2 & Hl & Hp2 & Hlen & Hhd & Hpts); [lia|].
    exists ((i, j) :: l), m2. split_and!; [done| |cbn [length]; lia|done|].
    + change (on_points ((i, j) :: l)) with (λ px py, at_point (fst (point_of (i, j))) (snd (point_of (i, j))) px py || on_points l px py).
      apply (painted_trans _ _ _ _ _ m1); [done| |done]. revert Hp1. apply painted_ext; [|done].
      intros px py _. unfold on_points. cbn. by rewrite orb_false_r.
    + intros [|n] a b Hn; [injection Hn as <- <-; by rewrite Z.add_0_r|].
      replace (k + Z.of_nat (S n)) with (k + 1 + Z.of_nat n) by lia. by apply Hpts.
Qed.
End lines.

(** [draw_rec] paints its rectangle when the whole of it is on the screen. *)
Lemma draw_rec_painted fb px py w h color m : fb_ok fb → 0 ≤ px → 0 ≤ py → 0 ≤ w → 0 ≤ h →
  px + w ≤ width fb → py + h ≤ height fb →
  ∃ m', draw_rec fb (mkCoord px py) (mkSize w h) color m = Ok m' ∧
    painted fb (in_rect px py (px + w) (py + h)) (λ _ _, color) m m'.
Proof.
  intros Hok Hx Hy Hw Hh Hfw Hfh. destruct (fb_width fb Hok) as [_ Hbw], (fb_height fb Hok) as [_ Hbh].
  unfold draw_rec. rewrite (fb_drawable fb Hok). cbn [negb x y size_width size_height].
  rewrite !checked_add_Some by (unfold is_u64; lia). rewrite !(proj2 (Z.ltb_ge _ _)) by lia. cbn [orb].
  replace (px + w - px) with w by lia. replace (py + h - py) with h by lia. by apply fill_painted.
Qed.

(** A rectangle that is not all on the screen is not drawn. *)
Lemma draw_rec_outside fb origin sz color m :
  width fb < x origin + size_width sz ∨ height fb < y origin + size_height sz → draw_rec fb origin sz color m = Ok m.
Proof.
  intros Hf. unfold draw_rec. destruct (negb _); [done|].
  destruct (checked_add _ _) as [x2|] eqn:H1; [|done]. destruct (checked_add _ (size_height sz)) as [y2|] eqn:H2; [|done].
  unfold checked_add in *. case_match; [|done]. case_match; [|done]. simplify_eq.
  destruct Hf; [rewrite (proj2 (Z.ltb_lt _ _)) by lia; done|].
  by rewrite orb_comm, (proj2 (Z.ltb_lt _ _)) by lia.
Qed.

Lemma clear_background_painted fb color m : fb_ok fb →
  ∃ m', clear_background fb color m = Ok m' ∧ painted fb (λ _ _, true) (λ _ _, color) m m'.
Proof.
  intros Hok. destruct (fb_width fb Hok) as [Hw _], (fb_height fb Hok) as [Hh _].
  unfold clear_background. rewrite (fb_drawable fb Hok). cbn [negb].
  destruct (fill_painted fb 0 0 (width fb) (height fb) color m Hok ltac:(lia) ltac:(lia) ltac:(lia) ltac:(lia)) as (m' & Hr & Hp).
  exists m'. split; [exact Hr|]. revert Hp. apply painted_ext; [|done].
  intros px py [Hpx Hpy]. apply in_rect_spec. lia.
Qed.

(** ** Properties *)

(** [draw_rec] paints exactly its rectangle when the whole of it is on the
    screen and nothing otherwise; [clear_background] is the rectangle of the
    screen.  Neither panics nor touches a byte outside the visible pixels. *)
Theorem draw_rec_spec fb origin sz color m : fb_ok fb →
  0 ≤ x origin → 0 ≤ y origin → 0 ≤ size_width sz → 0 ≤ size_height sz →
  let fits := x origin + size_width sz ≤ width fb ∧ y origin + size_height sz ≤ height fb in
  (∃ m', draw_rec fb origin sz color m = Ok m' ∧
    (fits → painted fb (in_rect (x origin) (y origin) (x origin + size_width sz) (y origin + size_height sz))
      (λ _ _, color) m m') ∧ (¬ fits → m' = m)) ∧
  ∃ m', clear_background fb color m = Ok m' ∧ painted fb (λ _ _, true) (λ _ _, color) m m'.
Proof.
  intros Hok Hx Hy Hw Hh fits. split; [|by apply clear_background_painted].
  destruct origin as [px py], sz as [w h]. cbn [x y size_width size_height] in *.
  destruct (decide fits) as [Hf|Hf].
  - destruct (draw_rec_painted fb px py w h color m Hok Hx Hy Hw Hh (proj1 Hf) (proj2 Hf)) as (m' & Hr & Hp).
    exists m'. split; [exact Hr|]. split; [done|]. intros Hn. by destruct Hn.
  - exists m. split; [|by split]. apply draw_rec_outside. cbn [x y size_width size_height].
    unfold fits in Hf. lia.
Qed.

(** C35. [draw_line] terminates and draws a Bresenham line: one point for each
    step along the longer axis, from the start to the end, each within half a
    pixel of the ideal line; it paints exactly the visible ones. *)
Theorem draw_line_spec fuel fb start fin color m : fb_ok fb →
  width fb < 2 ^ 63 → height fb < 2 ^ 63 →
  0 ≤ x start < 2 ^ 61 → 0 ≤ y start < 2 ^ 61 → 0 ≤ x fin < 2 ^ 61 → 0 ≤ y fin < 2 ^ 61 →
  let dx := Z.abs (x start - x fin) in let dy := Z.abs (y start - y fin) in
  Z.max dx dy < Z.of_nat fuel →
  ∃ l m', draw_line fuel fb start fin color m = Some (Ok m') ∧
    painted fb (λ px py, bool_decide ((px, py) ∈ l)) (λ _ _, color) m m' ∧
    Z.of_nat (length l) = Z.max dx dy + 1 ∧
    head l = Some (x start, y start) ∧ last l = Some (x fin, y fin) ∧
    ∀ k px py, l !! k = Some (px, py) →
      Z.max (Z.abs (px - x start)) (Z.abs (py - y start)) = Z.of_nat k ∧
      Z.min (x start) (x fin) ≤ px ≤ Z.max (x start) (x fin) ∧
      Z.min (y start) (y fin) ≤ py ≤ Z.max (y start) (y fin) ∧
      2 * Z.abs (dx * Z.abs (py - y start) - dy * Z.abs (px - x start)) ≤ Z.max dx dy.
Proof.
  destruct start as [x1 y1], fin as [x2 y2]. intros Hok Hw Hh Hx1 Hy1 Hx2 Hy2 dx dy Hfuel. cbn [x y] in *.
  assert (0 ≤ x1 < 2 ^ 61 ∧ 0 ≤ x2 < 2 ^ 61 ∧ 0 ≤ y1 < 2 ^ 61 ∧ 0 ≤ y2 < 2 ^ 61) as Hrange by done.
  destruct (fb_width fb Hok) as [Hw0 _], (fb_height fb Hok) as [Hh0 _].
  assert (on_line x1 y1 x2 y2 0 0 0) as Hon0.
  { unfold on_line. rewrite !Z.mul_0_r. split_and!; [lia..|by destruct (_ <=? _)|lia]. }
  destruct (line_loop_spec fb color x1 y1 x2 y2 Hok Hrange fuel 0 0 0 m Hon0) as (l & m' & Hl & Hp & Hlen & Hhd & Hpts); [fold dx dy; lia|].
  fold dx dy in Hl, Hlen.
  destruct (step_cases x1 y1 x2 y2) as [Hsx Hsy].
  assert (∀ k i j, on_line x1 y1 x2 y2 k i j → ∀ px py, point_of x1 y1 x2 y2 (i, j) = (px, py) →
    Z.abs (px - x1) = i ∧ Z.abs (py - y1) = j ∧ (i = dx → px = x2) ∧ (j = dy → py = y2) ∧
    Z.min x1 x2 ≤ px ≤ Z.max x1 x2 ∧ Z.min y1 y2 ≤ py ≤ Z.max y1 y2) as Hpoint.
  { intros k i j (Hi & Hj & _) px py. unfold point_of. cbn [fst snd]. intros [= <- <-].
    destruct Hsx as [[? ->]|[? ->]], Hsy as [[? ->]|[? ->]]; unfold dx, dy; lia. }
  exists (point_of x1 y1 x2 y2 <$> l), m'. split_and!.
  - unfold draw_line. rewrite (fb_drawable fb Hok). cbn [negb x y]. rewrite !to_i64_ok by lia. fold dx dy.
    rewrite <- Hl. f_equal. unfold line_at. f_equal; lia.
  - revert Hp. apply painted_ext; [|done]. intros px py _. apply eq_true_iff_eq.
    rewrite bool_decide_eq_true, list_elem_of_fmap. unfold on_points. rewrite existsb_exists. split.
    + intros (p & Hin & [-> ->]%at_point_spec). exists p. split; [by destruct (point_of x1 y1 x2 y2 p)|by apply list_elem_of_In].
    + intros (p & Hpp & Hin). exists p. split; [by apply list_elem_of_In|]. rewrite <- Hpp. by apply at_point_spec.
  - rewrite length_fmap. lia.
  - destruct l as [|p l]; [done|]. injection Hhd as ->. cbn. unfold point_of. cbn. by rewrite !Z.mul_0_r, !Z.add_0_r.
  - rewrite fmap_last, last_lookup. destruct (l !! Nat.pred (length l)) as [[i j]|] eqn:Hlast.
    + pose proof (Hpts _ _ _ Hlast) as Hon. cbn [fmap option_fmap option_map].
      destruct (Hpoint _ _ _ Hon _ _ eq_refl) as (_ & _ & Hxe & Hye & _).
      pose proof (proj2 (on_line_end x1 y1 x2 y2 _ i j Hon)) as Hend. fold dx dy in Hend.
      destruct Hend as [-> ->]; [lia|]. specialize (Hxe eq_refl). specialize (Hye eq_refl).
      unfold point_of in *. cbn [fst snd] in *. by rewrite Hxe, Hye.
    + apply lookup_ge_None in Hlast. assert (length l ≠ 0%nat) by (destruct l; [done|cbn; lia]). lia.
  - intros k px py Hk. rewrite list_lookup_fmap in Hk. destruct (l !! k) as [[i j]|] eqn:Hlk; [|done].
    cbn in Hk. injection Hk as Hk1 Hk2. pose proof (Hpts _ _ _ Hlk) as Hon.
    destruct (Hpoint _ i j Hon px py) as (-> & -> & _ & _ & Hbx & Hby); [unfold point_of; cbn; congruence|].
    rewrite (on_line_max _ _ _ _ _ _ _ Hon). destruct Hon as (_ & _ & _ & Hq). fold dx dy in Hq. split_and!; lia.
Qed.

Lemma square_sum_bound radius d e : 0 ≤ radius → d * d + e * e ≤ radius * radius →
  - radius ≤ d ≤ radius ∧ - radius ≤ e ≤ radius.
Proof.
  intros Hr Hde. pose proof (Z.square_nonneg d). pose proof (Z.square_nonneg e).
  assert (∀ z, z * z ≤ radius * radius → - radius ≤ z ≤ radius) as H1.
  { intros z Hz. destruct (Z.lt_ge_cases radius (Z.abs z)) as [Hlt|]; [|lia].
    assert (radius * radius < Z.abs z * Z.abs z) by (apply Z.square_lt_mono_nonneg; lia).
    rewrite Z.abs_square in *. lia. }
  split; apply H1; lia.
Qed.

(** [draw_circle] paints exactly the visible pixels of the disk: those at
    integer distance at most [radius] from the center. *)
Theorem draw_circle_spec fb radius center color m : fb_ok fb →
  width fb < 2 ^ 63 → height fb < 2 ^ 63 → 0 ≤ x center < 2 ^ 63 → 0 ≤ y center < 2 ^ 63 →
  0 ≤ radius → radius * radius < 2 ^ 63 →
  ∃ m', draw_circle fb radius center color m = Ok m' ∧
    painted fb (λ px py, (px - x center) * (px - x center) + (py - y center) * (py - y center) <=? radius * radius)
      (λ _ _, color) m m'.
Proof.
  destruct center as [cx cy]. cbn [x y]. intros Hok Hw Hh Hx Hy Hr Hr2.
  destruct (fb_width fb Hok) as [Hw0 _], (fb_height fb Hok) as [Hh0 _].
  assert (∀ d, - radius ≤ d ≤ radius → 0 ≤ d * d ≤ radius * radius) as Hsq by (intros; nia).
  assert (radius < 2 ^ 63) as Hr63 by nia.
  set (Q := λ row col px py, at_point (cx + col) (cy + row) px py && (col * col + row * row <=? radius * radius)).
  destruct (for_pixels_painted fb (seqZ (- radius) (2 * radius + 1)) (seqZ (- radius) (2 * radius + 1))
    (circle_pixel fb (radius * radius) cx cy (width fb) (height fb) color) Q (λ _ _, color) m Hok) as (m' & Hrun & Hp).
  { intros row col m0 Hrow%elem_of_seqZ Hcol%elem_of_seqZ.
    pose proof (Hsq row ltac:(lia)). pose proof (Hsq col ltac:(lia)).
    assert ((∀ px py, visible fb px py → Q row col px py = false) →
      ∃ m', Ok (E:=Empty_set) m0 = Ok m' ∧ painted fb (Q row col) (λ _ _, color) m0 m') as Hskip
      by (intros; exists m0; split; [done|by apply painted_none]).
    unfold circle_pixel. rewrite (to_i64_ok (col * col)), (to_i64_ok (row * row)) by lia. cbn [mbind option_bind].
    destruct (to_i64 (row * row + col * col)) as [d|] eqn:Hd.
    2:{ apply Hskip. intros px py _. unfold Q. unfold to_i64, is_i64 in Hd.
        rewrite (proj2 (Z.leb_le _ _)) in Hd by lia. destruct (Z.ltb_spec (row * row + col * col) (2 ^ 63)); [done|].
        apply andb_false_iff. right. apply Z.leb_gt. lia. }
    unfold to_i64 in Hd. destruct (is_i64 _); [injection Hd as <-|done].
    assert (∀ z, to_i64 z = None → 0 ≤ z → 2 ^ 63 ≤ z) as Hnone.
    { intros z Hz Hz0. unfold to_i64, is_i64 in Hz. rewrite (proj2 (Z.leb_le _ _)) in Hz by lia.
      destruct (Z.ltb_spec z (2 ^ 63)); done. }
    assert (∀ z z', to_i64 z = Some z' → z' = z) as Hsome by (intros z z'; unfold to_i64; case_match; congruence).
    destruct (to_i64 (cx + col)) as [px|] eqn:Hpx; [apply Hsome in Hpx as ->|].
    2:{ apply Hskip. intros px py [? ?]. apply andb_false_iff. left. destruct (at_point _ _ _ _) eqn:Hat; [|done].
        apply at_point_spec in Hat as [-> ->]. specialize (Hnone _ Hpx). lia. }
    destruct (to_i64 (cy + row)) as [py|] eqn:Hpy; [apply Hsome in Hpy as ->|].
    2:{ apply Hskip. intros px py [? ?]. apply andb_false_iff. left. destruct (at_point _ _ _ _) eqn:Hat; [|done].
        apply at_point_spec in Hat as [-> ->]. specialize (Hnone _ Hpy). lia. }
    destruct ((row * row + col * col <=? _) && _ && _ && _ && _) eqn:Hin.
    - rewrite !andb_true_iff, !Z.leb_le, !Z.ltb_lt in Hin.
      destruct (write_at_painted fb (cx + col) (cy + row) (λ _ _, color) m0 Hok) as (m1 & H1 & H2); [split; lia|].
      exists m1. split; [done|]. revert H2. apply painted_ext; [|done]. intros px py _. unfold Q.
      rewrite (proj2 (Z.leb_le (col * col + row * row) _)) by lia. by rewrite andb_true_r.
    - apply Hskip. intros px py [? ?]. unfold Q. apply andb_false_iff.
      destruct (at_point _ _ _ _) eqn:Hat; [right|by left]. apply at_point_spec in Hat as [-> ->].
      rewrite !andb_false_iff, !Z.leb_gt, !Z.ltb_ge in Hin. apply Z.leb_gt. lia. }
  exists m'. split.
  - unfold draw_circle. rewrite (fb_drawable fb Hok). cbn [negb x y]. rewrite !to_i64_ok by lia. exact Hrun.
  - revert Hp. apply painted_ext; [|done]. intros px py _. apply eq_true_iff_eq. rewrite existsb_seqZ, Z.leb_le. split.
    + intros (row & Hrow & (col & Hcol & HQ)%existsb_seqZ). unfold Q in HQ.
      apply andb_true_iff in HQ as [[-> ->]%at_point_spec HQ%Z.leb_le].
      replace (cx + col - cx) with col by lia. replace (cy + row - cy) with row by lia. done.
    + intros Hd. pose proof (square_sum_bound radius (px - cx) (py - cy) Hr Hd).
      exists (py - cy). split; [lia|]. apply existsb_seqZ. exists (px - cx). split; [lia|]. unfold Q.
      apply andb_true_iff. split; [apply at_point_spec; lia|]. apply Z.leb_le. lia.
Qed.

Lemma in_span p n a : p ≤ a < p + n → (p <=? a) && (a <? p + n) = true.
Proof. intros. by rewrite (proj2 (Z.leb_le _ _)), (proj2 (Z.ltb_lt _ _)) by lia. Qed.

Lemma out_span p n a : ¬ p ≤ a < p + n → (p <=? a) && (a <? p + n) = false.
Proof. intros. destruct (Z.leb_spec p a); [|done]. apply Z.ltb_ge. lia. Qed.

(** [scroll_rows] moves the picture up: every visible pixel takes the color
    of the one [rows] below it, the rows that come in are black, and no byte
    outside the framebuffer's rows changes. *)
Lemma scroll_rows_painted fb rows m : fb_ok fb → 0 ≤ rows →
  ∃ m', scroll_rows fb rows m = Ok m' ∧
    (∀ px py, visible fb px py →
      pixel fb m' px py = if py + rows <? height fb then pixel fb m px (py + rows) else BLACK) ∧
    (∀ a, ¬ ptr fb ≤ a < ptr fb + stride fb * height fb * 4 → m' a = m a).
Proof.
  intros Hok Hrows. destruct (fb_ok_bounds fb Hok) as (Hb1 & Hb2 & Hb3). pose proof (fb_stride fb Hok) as Hs.
  pose proof (fb_len fb Hok) as [_ Hlen]. destruct (fb_height fb Hok) as [Hh _].
  unfold scroll_rows. rewrite (fb_drawable fb Hok). cbn [negb orb].
  assert (is_rgb_bgr (pixel_format fb) = true) as Hfmt.
  { pose proof (fb_drawable fb Hok) as Hd. unfold is_drawable in Hd. by destruct (is_rgb_bgr _); [|rewrite andb_false_r in Hd]. }
  destruct (Z.eqb_spec rows 0) as [->|Hne].
  { exists m. split_and!; [done| |done]. intros px py [Hx Hy]. rewrite Z.add_0_r. by rewrite (proj2 (Z.ltb_lt _ _)) by lia. }
  assert (stride fb * 4 ≤ stride fb * height fb * 4) by nia.
  rewrite (mul_u64_ok (stride fb) 4) by (unfold is_u64; lia). cbn [mbind outcome_bind].
  destruct (Z.leb_spec (height fb) rows) as [Hall|Hpart].
  - rewrite mul_u64_ok by (unfold is_u64; lia). cbn [mbind outcome_bind].
    rewrite mul_u64_ok by (unfold is_u64; lia). cbn [mbind outcome_bind]. eexists. split; [done|]. split.
    + intros px py Hv. destruct (visible_offset fb px py Hok Hv) as (Ho1 & Ho2 & Ho3 & Ho4). destruct Hv as [_ Hy].
      rewrite (proj2 (Z.ltb_ge _ _)) by lia. unfold pixel, write_bytes, cell. rewrite !in_span by lia.
      by destruct (pixel_format fb).
    + intros a Ha. unfold write_bytes. by rewrite out_span by lia.
  - rewrite sub_u64_ok by lia. cbn [mbind outcome_bind].
    assert (0 ≤ (height fb - rows) * (stride fb * 4) ≤ stride fb * height fb * 4 ∧ 0 ≤ rows * (stride fb * 4) ∧
      (height fb - rows) * (stride fb * 4) + rows * (stride fb * 4) = stride fb * height fb * 4) as (H1 & H2 & H3) by nia.
    rewrite (mul_u64_ok (height fb - rows)), (mul_u64_ok rows) by (unfold is_u64; lia).
    cbn [mbind outcome_bind]. eexists. split; [done|].
    set (kept := (height fb - rows) * (stride fb * 4)) in *. set (gone := rows * (stride fb * 4)) in *. split.
    + intros px py Hv. destruct (visible_offset fb px py Hok Hv) as (Ho1 & Ho2 & Ho3 & Ho4). destruct Hv as [Hx Hy].
      destruct (Z.ltb_spec (py + rows) (height fb)) as [Hlt|Hge].
      * assert ((py * stride fb + px) * 4 + 4 ≤ kept) as Hk.
        { assert (py * stride fb + stride fb ≤ (height fb - rows) * stride fb) by nia. unfold kept. lia. }
        assert (cell fb px (py + rows) = cell fb px py + gone) as Hc by (unfold cell, gone; ring).
        unfold pixel. rewrite Hc. unfold write_bytes, copy.
        assert (∀ i, 0 ≤ i < 4 → ptr fb + gone + (cell fb px py + i - ptr fb) = cell fb px py + gone + i) as Hsrc by (intros; lia).
        pose proof (Hsrc 0 ltac:(lia)) as Hs0. rewrite !Z.add_0_r in Hs0.
        unfold cell in *. rewrite !(out_span (ptr fb + kept)) by lia. rewrite !(in_span (ptr fb)) by lia.
        by rewrite Hs0, !Hsrc by lia.
      * assert (kept ≤ (py * stride fb + px) * 4) as Hk.
        { assert ((height fb - rows) * stride fb ≤ py * stride fb) by nia. unfold kept. lia. }
        unfold pixel, write_bytes, cell. rewrite !(in_span (ptr fb + kept)) by lia. by destruct (pixel_format fb).
    + intros a Ha. unfold write_bytes, copy. by rewrite !out_span by lia.
Qed.

Lemma elem_of_enumerate {A} (l : list A) k v : (k, v) ∈ enumerate l ↔ 0 ≤ k ∧ l !! Z.to_nat k = Some v.
Proof.
  unfold enumerate. rewrite list_elem_of_lookup. split.
  - intros (i & Hi). rewrite lookup_zip_with in Hi.
    destruct (seqZ 0 (Z.of_nat (length l)) !! i) as [z|] eqn:Hz; [|done]. cbn in Hi.
    destruct (l !! i) as [w|] eqn:Hw; [|done]. cbn in Hi. injection Hi as <- <-.
    apply lookup_seqZ in Hz as [-> Hlt]. split; [lia|]. by rewrite Z.add_0_l, Nat2Z.id.
  - intros [Hk Hv]. exists (Z.to_nat k). rewrite lookup_zip_with.
    pose proof (lookup_lt_Some _ _ _ Hv) as Hlt.
    rewrite (proj2 (lookup_seqZ 0 (Z.of_nat (length l)) (Z.to_nat k) k)) by lia. cbn. by rewrite Hv.
Qed.

(** The intensity that a glyph drawn at an origin gives a pixel. *)
Definition intensity_at (glyph : RasterizedChar) (ox oy px py : Z) : Z :=
  if (ox <=? px) && (oy <=? py) then
    match raster glyph !! Z.to_nat (py - oy) ≫= (λ row, row !! Z.to_nat (px - ox)) with Some i => i | None => 0 end
  else 0.

Definition glyph_color (glyph : RasterizedChar) (ox oy : Z) (color : Color) (px py : Z) : Color :=
  let i := intensity_at glyph ox oy px py in mkColor (blend (r color) i) (blend (g color) i) (blend (b color) i).

(** [draw_glyph] paints every visible pixel that the glyph covers with its
    color scaled by the glyph's intensity there, and nothing else; a glyph that
    leaves the screen is clipped. *)
Lemma draw_glyph_painted fb glyph ox oy color m : fb_ok fb → 0 ≤ ox → 0 ≤ oy →
  ∃ m', draw_glyph fb glyph ox oy color m = Ok m' ∧
    painted fb (λ px py, negb (intensity_at glyph ox oy px py =? 0)) (glyph_color glyph ox oy color) m m'.
Proof.
  intros Hok Hox Hoy. destruct (fb_width fb Hok) as [Hw0 Hw], (fb_height fb Hok) as [Hh0 Hh].
  set (Q := λ (rd : Z * list Z) (px py : Z), existsb (λ ci : Z * Z, at_point (ox + fst ci) (oy + fst rd) px py && negb (snd ci =? 0)) (enumerate (snd rd))).
  assert (∀ row data col i, (row, data) ∈ enumerate (raster glyph) → (col, i) ∈ enumerate data →
    0 ≤ row ∧ 0 ≤ col ∧ intensity_at glyph ox oy (ox + col) (oy + row) = i) as Hat.
  { intros row data col i [Hr Hd]%elem_of_enumerate [Hc Hi]%elem_of_enumerate. split; [done|]. split; [done|].
    unfold intensity_at. rewrite (proj2 (Z.leb_le _ _)), (proj2 (Z.leb_le _ _)) by lia. cbn [andb].
    replace (oy + row - oy) with row by lia. replace (ox + col - ox) with col by lia. rewrite Hd. cbn. by rewrite Hi. }
  unfold draw_glyph.
  destruct (foldM_painted fb (λ m '(row, row_data), foldM (λ m '(col, intensity),
    glyph_pixel fb ox oy color row col intensity m) m (enumerate row_data)) Q (glyph_color glyph ox oy color)
    (enumerate (raster glyph)) m Hok) as (m' & Hrun & Hp).
  { intros m0 [row data] Hrow.
    apply (foldM_painted fb _ (λ ci px py, at_point (ox + fst ci) (oy + row) px py && negb (snd ci =? 0))); [done|].
    intros m1 [col i] Hcol. destruct (Hat row data col i Hrow Hcol) as (Hr & Hc & Hi). cbn [fst snd]. unfold glyph_pixel.
    assert ((∀ px py, visible fb px py → at_point (ox + col) (oy + row) px py && negb (i =? 0) = false) →
      ∃ m', Ok (E:=Empty_set) m1 = Ok m' ∧ painted fb (λ px py, at_point (ox + col) (oy + row) px py && negb (i =? 0))
        (glyph_color glyph ox oy color) m1 m') as Hskip by (intros; exists m1; split; [done|by apply painted_none]).
    destruct (Z.eqb_spec i 0) as [->|Hi0].
    { apply Hskip. intros. by rewrite andb_false_r. }
    assert (¬ (ox + col < width fb ∧ oy + row < height fb) → ∀ px py, visible fb px py →
      at_point (ox + col) (oy + row) px py && negb false = false) as Hout.
    { intros Hn px py [? ?]. apply andb_false_iff. left. destruct (at_point _ _ _ _) eqn:Hpt; [|done].
      apply at_point_spec in Hpt as [-> ->]. lia. }
    unfold checked_add. destruct (Z.ltb_spec (ox + col) U64_SIZE); [|apply Hskip, Hout; lia].
    destruct (Z.ltb_spec (oy + row) U64_SIZE); [|apply Hskip, Hout; lia].
    destruct ((width fb <=? ox + col) || (height fb <=? oy + row)) eqn:Hclip.
    { apply Hskip, Hout. rewrite orb_true_iff, !Z.leb_le in Hclip. lia. }
    rewrite orb_false_iff, !Z.leb_gt in Hclip.
    destruct (write_at_painted fb (ox + col) (oy + row) (glyph_color glyph ox oy color) m1 Hok) as (m2 & Hm2 & Hp2); [split; lia|].
    unfold glyph_color in Hm2 at 1. rewrite Hi in Hm2. exists m2. split; [exact Hm2|].
    revert Hp2. apply painted_ext; [|done]. intros. by rewrite andb_true_r. }
  exists m'. split; [exact Hrun|]. revert Hp. apply painted_ext; [|done]. intros px py _. apply eq_true_iff_eq.
  rewrite existsb_exists. unfold Q. split.
  - intros ([row data] & Hrow%list_elem_of_In & ([col i] & Hcol%list_elem_of_In & Hx)%existsb_exists).
    apply andb_true_iff in Hx as [[-> ->]%at_point_spec Hi]. cbn [fst snd] in *.
    by destruct (Hat row data col i Hrow Hcol) as (_ & _ & ->).
  - unfold intensity_at. intros Hne. destruct ((ox <=? px) && (oy <=? py)) eqn:Hge; [|done].
    apply andb_true_iff in Hge as [Hx%Z.leb_le Hy%Z.leb_le].
    destruct (raster glyph !! Z.to_nat (py - oy)) as [data|] eqn:Hd; [|done]. cbn in Hne.
    destruct (data !! Z.to_nat (px - ox)) as [i|] eqn:Hi; [|done].
    exists (py - oy, data). split; [apply list_elem_of_In, elem_of_enumerate; split; [lia|done]|].
    apply existsb_exists. exists (px - ox, i). split; [apply list_elem_of_In, elem_of_enumerate; split; [lia|done]|].
    cbn [fst snd]. apply andb_true_iff. split; [|done]. apply at_point_spec. lia.
Qed.

(** The documented geometry of the bitmap font: every glyph of a size has the
    width of its cell and the height of the size, and the cells of the smallest
    size fit in those of the others. *)
Record font_ok (get_raster : char → RasterHeight → option RasterizedChar) (get_raster_width : RasterHeight → Z) : Prop := {
  font_width : ∀ sz, 1 ≤ get_raster_width sz ≤ 32;
  font_narrow : ∀ sz, get_raster_width Size16 ≤ get_raster_width sz;
  font_glyph : ∀ c sz g, get_raster c sz = Some g →
    Z.of_nat (length (raster g)) + 2 ≤ cell_height sz ∧
    Forall (λ line, Z.of_nat (length line) ≤ get_raster_width sz) (raster g);
  font_advance : ∀ c sz g, get_raster c sz = Some g → raster_width g = get_raster_width sz;
}.

Lemma cell_height_bound sz : 18 ≤ cell_height sz ≤ 34.
Proof. by destruct sz. Qed.

Section cells.
Context (get_raster : char → RasterHeight → option RasterizedChar) (get_raster_width : RasterHeight → Z).

(** The glyph that stands for a character. *)
Definition glyph_of (ch : char) (sz : RasterHeight) : option RasterizedChar :=
  match get_raster ch sz with Some g => Some g | None => get_raster 63 FONT_HEIGHT end.

(** The color of a character's pixel, relative to the corner of its cell. *)
Definition char_intensity (ch : char) (sz : RasterHeight) (dx dy : Z) : Z :=
  match glyph_of ch sz with Some g => intensity_at g 0 0 dx dy | None => 0 end.
Definition char_color (ch : char) (sz : RasterHeight) (dx dy : Z) : Color :=
  let i := char_intensity ch sz dx dy in mkColor (blend 255 i) (blend 255 i) (blend 255 i).

Hypothesis Hfont : font_ok get_raster get_raster_width.

Lemma intensity_shift g ox oy px py : ox ≤ px → oy ≤ py →
  intensity_at g ox oy px py = intensity_at g 0 0 (px - ox) (py - oy).
Proof.
  intros. unfold intensity_at. rewrite !(proj2 (Z.leb_le _ _)) by lia. cbn [andb]. by rewrite !Z.sub_0_r.
Qed.

(** A glyph stays in its cell. *)
Lemma intensity_inside ch sz dx dy : char_intensity ch sz dx dy ≠ 0 →
  0 ≤ dx < get_raster_width sz ∧ 0 ≤ dy < cell_height sz.
Proof.
  unfold char_intensity. destruct (glyph_of ch sz) as [g|] eqn:Hg; [|done].
  assert (Z.of_nat (length (raster g)) + 2 ≤ cell_height sz ∧
    Forall (λ line, Z.of_nat (length line) ≤ get_raster_width sz) (raster g)) as [Hh Hw].
  { unfold glyph_of in Hg. destruct (get_raster ch sz) eqn:Hc; [simplify_eq; by apply (font_glyph _ _ Hfont ch)|].
    destruct (font_glyph _ _ Hfont _ _ _ Hg) as [H1 H2]. split.
    - etransitivity; [exact H1|]. by destruct sz.
    - eapply Forall_impl; [exact H2|]. intros l Hl. cbn beta in Hl. pose proof (font_narrow _ _ Hfont sz).
      unfold FONT_HEIGHT in Hl. lia. }
  unfold intensity_at. destruct ((0 <=? dx) && (0 <=? dy)) eqn:Hd; [|done].
  apply andb_true_iff in Hd as [Hx%Z.leb_le Hy%Z.leb_le]. rewrite !Z.sub_0_r.
  destruct (raster g !! Z.to_nat dy) as [line|] eqn:Hl; [|done]. cbn.
  destruct (line !! Z.to_nat dx) as [i|] eqn:Hi; [|done]. intros _.
  apply lookup_lt_Some in Hi. pose proof (lookup_lt_Some _ _ _ Hl).
  pose proof (Forall_lookup_1 _ _ _ _ Hw Hl) as Hlw. cbn beta in Hlw. lia.
Qed.

(** Drawing one character paints its glyph into its cell, clipped to the screen. *)
Lemma draw_char_painted fb ch column row sz m : fb_ok fb → ch ≠ 10 →
  0 ≤ column < 2 ^ 48 → 0 ≤ row < 2 ^ 48 →
  let ox := column * get_raster_width sz in let oy := row * cell_height sz in
  ∃ m', draw_text get_raster get_raster_width fb [ch] column row WHITE (Some sz) m = Ok m' ∧
    painted fb (λ px py, negb (char_intensity ch sz (px - ox) (py - oy) =? 0))
      (λ px py, char_color ch sz (px - ox) (py - oy)) m m'.
Proof.
  intros Hok Hch Hc Hr ox oy. pose proof (font_width _ _ Hfont sz) as Hw. pose proof (cell_height_bound sz) as Hh.
  assert (0 ≤ ox ≤ 2 ^ 48 * 32 ∧ 0 ≤ oy ≤ 2 ^ 48 * 34) as [Hox Hoy] by (unfold ox, oy; nia).
  unfold draw_text, cell_width. rewrite (fb_drawable fb Hok). cbn [negb].
  rewrite !mul_u64_ok by (unfold is_u64; fold ox oy; lia). fold ox oy. cbn [mbind outcome_bind draw_chars].
  rewrite (proj2 (Z.eqb_neq _ _) Hch). change (get_raster 63 FONT_HEIGHT) with (get_raster 63 Size16).
  assert (∀ g, glyph_of ch sz = Some g → ∀ px py, intensity_at g ox oy px py = char_intensity ch sz (px - ox) (py - oy)) as Hi.
  { intros g Hg px py. unfold char_intensity. rewrite Hg.
    destruct (Z.le_gt_cases ox px), (Z.le_gt_cases oy py); [by apply intensity_shift|..];
      unfold intensity_at; destruct (Z.leb_spec ox px), (Z.leb_spec oy py); try lia; cbn [andb];
      destruct (Z.leb_spec 0 (px - ox)), (Z.leb_spec 0 (py - oy)); try lia; done. }
  unfold glyph_of, FONT_HEIGHT in *.
  destruct (match get_raster ch sz with Some g => Some g | None => get_raster 63 Size16 end) as [g|] eqn:Hg.
  - destruct (draw_glyph_painted fb g ox oy WHITE m Hok ltac:(lia) ltac:(lia)) as (m' & Hd & Hp). rewrite Hd.
    exists m'. split; [cbn [mbind outcome_bind]; by destruct (checked_add _ _)|].
    revert Hp. apply painted_ext; intros px py _; [by rewrite (Hi g)|].
    intros _. unfold glyph_color, char_color. by rewrite (Hi g).
  - exists m. split; [done|]. apply painted_none. intros px py _. unfold char_intensity, glyph_of, FONT_HEIGHT. by rewrite Hg.
Qed.

(** Drawing a text never panics. *)
Lemma draw_chars_total fb text cx oy color sz m : fb_ok fb → 0 ≤ cx → 0 ≤ oy →
  ∃ m', draw_chars get_raster fb text cx oy color sz m = Ok m'.
Proof.
  intros Hok. revert cx m. induction text as [|ch text IH]; intros cx m Hcx Hoy; cbn [draw_chars]; [by exists m|].
  destruct (ch =? 10); [by exists m|]. fold (glyph_of ch sz). destruct (glyph_of ch sz) as [g|] eqn:Hg; [|by apply IH].
  destruct (draw_glyph_painted fb g cx oy color m Hok Hcx Hoy) as (m1 & -> & _). cbn [mbind outcome_bind].
  assert (0 ≤ raster_width g).
  { unfold glyph_of in Hg. destruct (get_raster ch sz) eqn:Hc; [injection Hg as ->|].
    - rewrite (font_advance _ _ Hfont _ _ _ Hc). pose proof (font_width _ _ Hfont sz). lia.
    - rewrite (font_advance _ _ Hfont _ _ _ Hg). pose proof (font_width _ _ Hfont FONT_HEIGHT). lia. }
  unfold checked_add. destruct (_ <? _); [apply IH; lia|by exists m1].
Qed.

Lemma draw_text_total fb text column row color sz m : fb_ok fb → 0 ≤ column < 2 ^ 48 → 0 ≤ row < 2 ^ 48 →
  ∃ m', draw_text get_raster get_raster_width fb text column row color (Some sz) m = Ok m'.
Proof.
  intros Hok Hc Hr. pose proof (font_width _ _ Hfont sz). pose proof (cell_height_bound sz).
  unfold draw_text, cell_width. rewrite (fb_drawable fb Hok). cbn [negb].
  rewrite !mul_u64_ok by (unfold is_u64; nia). cbn [mbind outcome_bind]. apply draw_chars_total; [done|nia..].
Qed.

Lemma char_color_zero ch sz dx dy : char_intensity ch sz dx dy = 0 → char_color ch sz dx dy = BLACK.
Proof. intros H. unfold char_color. by rewrite H. Qed.

End cells.

(** A framebuffer that [from_raw_parts] accepts is drawable; the errors say why not. *)
Lemma from_raw_parts_ok p len sz st format :
  match from_raw_parts p len sz st format with
  | Ok fb => fb = mkFb p sz st format len ∧ (p ≠ 0 → is_drawable fb = true)
  | Err (UnsupportedPixelFormat f) => f = format ∧ is_rgb_bgr format = false
  | Err InvalidGeometry => required_byte_len sz st = None
  | Err (FramebufferTooSmall required actual) =>
      required_byte_len sz st = Some required ∧ actual = len ∧ len < required
  | Panic => False
  end.
Proof.
  unfold from_raw_parts. destruct (is_rgb_bgr format) eqn:Hf; cbn [negb]; [|done]. unfold_monad.
  destruct (required_byte_len sz st) as [req|] eqn:Hr; [|done]. destruct (Z.ltb_spec len req) as [Hlt|Hge]; [done|].
  split; [done|]. intros Hp. unfold is_drawable. cbn. rewrite Hf, Hr. rewrite (proj2 (Z.eqb_neq _ _)) by done.
  cbn. by apply Z.leb_le.
Qed.

(** What the protocol reports, in machine words, of memory that exists. *)
Definition gop_ok (gop : GopMode) : Prop :=
  is_u64 (fst (resolution gop)) ∧ is_u64 (snd (resolution gop)) ∧ is_u64 (gop_stride gop) ∧
  0 < fst (frame_buffer gop) ∧ is_u64 (snd (frame_buffer gop)).

(** Why [required_byte_len] finds no length. *)
Definition bad_geometry (w h st : Z) : Prop := w = 0 ∨ h = 0 ∨ st = 0 ∨ st < w ∨ U64_SIZE ≤ st * h * 4.

Lemma required_byte_len_spec w h st : 1 ≤ w → 1 ≤ h → 1 ≤ st → 
  (required_byte_len (mkSize w h) st = Some (st * h * 4) ∧ w ≤ st ∧ st * h * 4 < U64_SIZE) ∨
  (required_byte_len (mkSize w h) st = None ∧ bad_geometry w h st).
Proof.
  intros Hw Hh Hs. unfold required_byte_len, bad_geometry. cbn [size_width size_height]. destruct (Z.ltb_spec st w); [right; split; [done|lia]|].
  assert (1 ≤ st * h) by nia. unfold checked_mul. destruct (Z.ltb_spec (st * h) U64_SIZE); cbn [mbind option_bind]; [|right; split; [done|lia]].
  destruct (Z.ltb_spec (st * h * 4) U64_SIZE); [left; by split_and!|right; split; [done|lia]].
Qed.

(** What [new] accepts has the reported geometry and can be drawn on. *)
Lemma Framebuffer_new_shape gop fb : gop_ok gop → Framebuffer_new gop = Ok fb →
  fb_ok fb ∧ fb = mkFb (fst (frame_buffer gop)) (mkSize (fst (resolution gop)) (snd (resolution gop))) (gop_stride gop) (gop_format gop) (snd (frame_buffer gop)).
Proof.
  destruct gop as [[w h] st f [base len]]. unfold gop_ok, Framebuffer_new, is_u64. cbn [resolution gop_stride gop_format frame_buffer fst snd].
  intros (Hw & Hh & Hs & Hb & Hl). unfold PixelSize_try_new, Stride_try_new. unfold_monad.
  destruct (Z.eqb_spec w 0); [done|]. destruct (Z.eqb_spec h 0); [done|]. cbn [orb ok_or].
  destruct (Z.eqb_spec st 0); [done|]. unfold gop_frame_buffer. cbn [ok_or gop_format frame_buffer]. intros Hraw.
  assert (from_raw_parts base len (mkSize w h) st f = Ok fb) as Hraw' by (by destruct f). clear Hraw. rename Hraw' into Hraw. pose proof (from_raw_parts_ok base len (mkSize w h) st f) as Hok.
  rewrite Hraw in Hok. destruct Hok as [-> Hd]. split; [|done]. split; cbn; [apply Hd; lia|unfold width; cbn; lia|unfold height; cbn; lia|lia|lia|done].
Qed.

(** C19. The type of framebuffers, whatever mode the protocol reports.  A
    framebuffer that [new] accepts satisfies the invariant that the theorems on
    drawing ask for, with the reported geometry, and every byte of every visible
    pixel lies inside the memory that the protocol handed over; it refuses the
    format of pixels by masks, a geometry that is empty, narrower in memory than
    on the screen or too large for a [usize], and memory that is too small, with
    the lengths in question.  It panics exactly in a mode that has no
    framebuffer, unless one of its dimensions is zero. *)
Theorem Framebuffer_new_ok (gop : GopMode) : gop_ok gop →
  let '(w, h) := resolution gop in let '(base, len) := frame_buffer gop in let st := gop_stride gop in
  match Framebuffer_new gop with
  | Ok fb => fb_ok fb ∧ width fb = w ∧ height fb = h ∧ stride fb = st ∧ ptr fb = base ∧ byte_len fb = len ∧
      ¬ bad_geometry w h st ∧ (∀ x y, visible fb x y → base ≤ cell fb x y ∧ cell fb x y + 4 ≤ base + len)
  | Err (UnsupportedPixelFormat f) => f = gop_format gop ∧ f = Bitmask
  | Err InvalidGeometry => bad_geometry w h st
  | Err (FramebufferTooSmall required actual) => required = st * h * 4 ∧ actual = len ∧ len < required ∧ ¬ bad_geometry w h st
  | Panic => gop_format gop = BltOnly ∧ w ≠ 0 ∧ h ≠ 0 ∧ st ≠ 0
  end ∧
  (gop_format gop = BltOnly → w ≠ 0 → h ≠ 0 → st ≠ 0 → Framebuffer_new gop = Panic).
Proof.
  destruct gop as [[w h] st f [base len]]. unfold gop_ok, Framebuffer_new, gop_frame_buffer, is_u64. cbn [resolution gop_stride gop_format frame_buffer fst snd].
  intros (Hw & Hh & Hs & Hb & Hl). unfold PixelSize_try_new, Stride_try_new. unfold_monad.
  destruct (Z.eqb_spec w 0); [cbn; unfold bad_geometry; lia|]. destruct (Z.eqb_spec h 0); [cbn; unfold bad_geometry; lia|]. cbn [orb ok_or].
  destruct (Z.eqb_spec st 0); [cbn; unfold bad_geometry; lia|]. cbn [ok_or].
  assert (f = BltOnly ∨ f ≠ BltOnly) as [->|Hf] by (destruct f; by (left + right)); [done|].
  pose proof (from_raw_parts_ok base len (mkSize w h) st f) as Hraw. split; [|done].
  replace (match f with BltOnly => Panic | _ => Ok (base, len) end) with (Ok (E:=FramebufferError) (base, len)) by (by destruct f). cbn [fst snd].
  destruct (required_byte_len_spec w h st) as [(Hr & Hws & Hlt)|[Hr Hbad]]; [lia..| |].
  - rewrite Hr in Hraw. assert (¬ bad_geometry w h st) as Hgood by (unfold bad_geometry; lia).
    destruct (from_raw_parts base len (mkSize w h) st f) as [fb|[g| |required actual]|]; [|destruct Hraw as [-> Hg]; by destruct f|done| |done].
    + destruct Hraw as [-> Hd]. assert (fb_ok (mkFb base (mkSize w h) st f len)) as Hok.
      { split; cbn; [apply Hd; lia|unfold width; cbn; lia|unfold height; cbn; lia|lia|lia|done]. }
      split_and!; try done. intros x y Hv. destruct (visible_offset _ x y Hok Hv) as (_ & _ & H1 & H2). unfold cell. cbn in *. lia.
    + destruct Hraw as ([= <-] & -> & Hlen). by split_and!.
  - rewrite Hr in Hraw. destruct (from_raw_parts base len (mkSize w h) st f) as [fb|[g| |required actual]|] eqn:Hfr; [|destruct Hraw as [-> Hg]; by destruct f|done|by destruct Hraw|done].
    unfold from_raw_parts in Hfr. destruct (negb _); [done|]. by rewrite Hr in Hfr.
Qed.

(** ** Witnesses *)

Definition demo_fb : Framebuffer := mkFb 0x1000 (mkSize 8 6) 10 Bgr 240.

Lemma demo_fb_ok : fb_ok demo_fb.
Proof. by split; vm_compute. Qed.

Definition demo_pixels : mem := λ a, a mod 251.

Lemma draw_rec_spec_witness : ∃ m',
  draw_rec demo_fb (mkCoord 2 1) (mkSize 3 4) WHITE demo_pixels = Ok m' ∧ pixel demo_fb m' 4 4 = WHITE.
Proof.
  destruct (draw_rec_spec demo_fb (mkCoord 2 1) (mkSize 3 4) WHITE demo_pixels demo_fb_ok) as [(m' & H & Hp & _) _];
    [by cbn..|].
  exists m'. split; [exact H|]. destruct Hp as [Hp _]; [by split|].
  apply (Hp 4 4); [by split; split|by vm_compute].
Defined.

Lemma draw_line_spec_witness : ∃ l m',
  draw_line 20 demo_fb (mkCoord 1 1) (mkCoord 7 4) WHITE demo_pixels = Some (Ok m') ∧ length l = 7%nat ∧
  last l = Some (7, 4).
Proof.
  destruct (draw_line_spec 20 demo_fb (mkCoord 1 1) (mkCoord 7 4) WHITE demo_pixels demo_fb_ok)
    as (l & m' & H & _ & Hlen & _ & Hlast & _); [by cbn..|].
  exists l, m'. split; [exact H|]. split; [|exact Hlast]. change (Z.of_nat (length l) = 7) in Hlen. lia.
Defined.

Lemma draw_circle_spec_witness : ∃ m',
  draw_circle demo_fb 2 (mkCoord 3 3) WHITE demo_pixels = Ok m' ∧ pixel demo_fb m' 3 5 = WHITE.
Proof.
  destruct (draw_circle_spec demo_fb 2 (mkCoord 3 3) WHITE demo_pixels demo_fb_ok) as (m' & H & Hp & _); [by cbn..|].
  exists m'. split; [exact H|]. apply (Hp 3 5); [by split; split|by vm_compute].
Defined.

Lemma Framebuffer_new_ok_witness :
  Framebuffer_new (mkGop (64, 48) 80 Bgr (0x80000000, 15359)) = Err (FramebufferTooSmall 15360 15359) ∧
  Framebuffer_new (mkGop (64, 48) 80 BltOnly (0x80000000, 15360)) = Panic ∧
  ∃ fb, Framebuffer_new (mkGop (64, 48) 80 Bgr (0x80000000, 15360)) = Ok fb ∧ fb_ok fb ∧ cell fb 63 47 + 4 ≤ 0x80000000 + 15360.
Proof.
  split; [by vm_compute|]. split; [by vm_compute|]. exists (mkFb 0x80000000 (mkSize 64 48) 80 Bgr 15360). split; [by vm_compute|].
  destruct (Framebuffer_new_ok (mkGop (64, 48) 80 Bgr (0x80000000, 15360))) as [(Hok & _ & _ & _ & _ & _ & _ & Hcell) _].
  - by split_and!; vm_compute.
  - split; [exact Hok|]. apply (Hcell 63 47). split; cbn; lia.
Defined.
