(* ===== verification/Ports.v ===== *)
(** * Ports: legacy port I/O ([inb] and [outb] of [src/interrupts/mod.rs],
    [write_port_u32] of [src/platform/mod.rs]) and the bounded queues between
    the interrupt handlers and the shell. *)

From S2P Require Import Prelude.

(** ** Port I/O *)

Inductive IoEvent : Type :=
  | In (port value : Z)
  | Out (port value : Z)
  | Out32 (port value : Z).

(** The devices of a machine: what a port answers and what a write does. *)
Class Devices (W : Type) := {
  dev_in : Z → W → Z * W;
  dev_out : Z → Z → W → W;
  dev_out32 : Z → Z → W → W;
}.

(** A machine with the trace of the accesses so far. *)
Record Io (W : Type) : Type := mkIo { dev : W; trace : list IoEvent }.
Arguments mkIo {W} _ _.
Arguments dev {W} _.
Arguments trace {W} _.

Section ports.
Context {W : Type} `{Devices W} {E : Type}.

(** [inb] *)
Definition inb (port : Z) : M (Io W) E Z := λ io,
  let '(v, d) := dev_in port (dev io) in
  let v := v mod 256 in
  (Ok v, mkIo d (trace io ++ [In port v])).

(** [outb], value first as in the code. *)
Definition outb (value port : Z) : M (Io W) E unit := λ io,
  (Ok tt, mkIo (dev_out port value (dev io)) (trace io ++ [Out port value])).

(** [write_port_u32] *)
Definition write_port_u32 (port value : Z) : M (Io W) E unit := λ io,
  (Ok tt, mkIo (dev_out32 port value (dev io)) (trace io ++ [Out32 port value])).
End ports.

Definition PS2_DATA : Z := 0x60.
Definition PS2_COMMAND : Z := 0x64.
Definition PS2_STATUS : Z := PS2_COMMAND.

(** ** Ring buffers

    The [ringbuf] crate as the code uses it: a queue of fixed capacity. *)

Class RingBuffer (T Q : Type) := {
  rb_default : Q;
  rb_try_push : T → Q → option Q;
  rb_try_pop : Q → option (T * Q);
  rb_is_empty : Q → bool;
}.

(** Its documentation: first in, first out; a push fails exactly when the
    buffer holds [capacity] items. *)
Class RingBufferLaws (T Q : Type) `{RingBuffer T Q} (capacity : nat) := {
  rb_items : Q → list T;
  rb_default_items : rb_items rb_default = [];
  rb_push_items q t :
    match rb_try_push t q with
    | Some q' => rb_items q' = rb_items q ++ [t] ∧ (length (rb_items q) < capacity)%nat
    | None => (capacity ≤ length (rb_items q))%nat
    end;
  rb_pop_items q :
    match rb_try_pop q with
    | Some (t, q') => rb_items q = t :: rb_items q'
    | None => rb_items q = []
    end;
  rb_empty_items q : rb_is_empty q = bool_decide (rb_items q = []);
}.

(** Lists of length at most [capacity]. *)
Section list_ring.
Context {T : Type} `{!EqDecision T} (capacity : nat).

#[local] Instance list_ring : RingBuffer T (list T) := {|
  rb_default := [];
  rb_try_push t q := if Nat.ltb (length q) capacity then Some (q ++ [t]) else None;
  rb_try_pop q := match q with [] => None | t :: q => Some (t, q) end;
  rb_is_empty q := match q with [] => true | _ => false end;
|}.

Lemma list_ring_laws : @RingBufferLaws T (list T) list_ring capacity.
Proof.
  refine {| rb_items := λ q : list T, q |}.
  - done.
  - intros q t. unfold rb_try_push, list_ring. destruct (Nat.ltb_spec (length q) capacity); [by split|lia].
  - intros [|t q]; done.
  - intros [|t q]; done.
Defined.
End list_ring.

(** ** A queue shared by an interrupt handler and the shell

    The keyboard and the mouse use the same arrangement: the handler pushes
    and counts what does not fit, the shell pops.  Before [init] both ends are
    absent. *)

Record SharedQueue (Q : Type) : Type := mkShared {
  producer_consumer : option Q;
  dropped : Z;
}.
Arguments mkShared {Q} _ _.
Arguments producer_consumer {Q} _.
Arguments dropped {Q} _.

Section shared.
Context {T Q : Type} `{RB : RingBuffer T Q}.

(** [init_keyboard], [init_mouse]: a static cell is initialized once. *)
Definition init_queue (s : SharedQueue Q) : outcome Empty_set (SharedQueue Q) :=
  match producer_consumer s with
  | None => Ok (mkShared (Some rb_default) (dropped s))
  | Some _ => Panic
  end.

(** [push_keyboard_scancode], [push_mouse_byte] *)
Definition push (t : T) (s : SharedQueue Q) : SharedQueue Q :=
  match producer_consumer s with
  | None => s
  | Some q =>
    match rb_try_push t q with
    | Some q => mkShared (Some q) (dropped s)
    | None => mkShared (Some q) ((dropped s + 1) mod U64_SIZE)
    end
  end.

(** [pop_keyboard_scancode], [pop_mouse_byte] *)
Definition pop (s : SharedQueue Q) : option T * SharedQueue Q :=
  match producer_consumer s with
  | None => (None, s)
  | Some q =>
    match rb_try_pop q with
    | Some (t, q) => (Some t, mkShared (Some q) (dropped s))
    | None => (None, s)
    end
  end.

(** [keyboard_queue_is_empty], [mouse_queue_is_empty] *)
Definition queue_is_empty (s : SharedQueue Q) : bool :=
  match producer_consumer s with None => true | Some q => rb_is_empty q end.

(** [DROPPED.swap(0)] *)
Definition take_dropped (s : SharedQueue Q) : Z * SharedQueue Q :=
  (dropped s, mkShared (producer_consumer s) 0).

(** What the two sides do to the queue, in the order it happens. *)
Inductive queue_op : Type := Push (t : T) | Pop | TakeDropped.

(** A run: the items popped, the items refused, the drops reported and the
    final queue. *)
Fixpoint queue_run (ops : list queue_op) (s : SharedQueue Q) : list T * list T * Z * SharedQueue Q :=
  match ops with
  | [] => ([], [], 0, s)
  | Push t :: ops =>
    let refused := match producer_consumer s with
                   | Some q => match rb_try_push t q with Some _ => [] | None => [t] end
                   | None => [t]
                   end in
    let '(popped, lost, reported, s) := queue_run ops (push t s) in (popped, refused ++ lost, reported, s)
  | Pop :: ops =>
    let '(o, s) := pop s in
    let '(popped, lost, reported, s) := queue_run ops s in
    (match o with Some t => t :: popped | None => popped end, lost, reported, s)
  | TakeDropped :: ops =>
    let '(n, s) := take_dropped s in
    let '(popped, lost, reported, s) := queue_run ops s in (popped, lost, n + reported, s)
  end.

(** The items pushed, in order. *)
Definition pushed (ops : list queue_op) : list T :=
  omap (λ op, match op with Push t => Some t | _ => None end) ops.

Context (capacity : nat) `{!RingBufferLaws T Q capacity}.

Definition queue_items (s : SharedQueue Q) : list T :=
  match producer_consumer s with Some q => rb_items q | None => [] end.

Lemma queue_run_fifo ops s q popped lost reported s' :
  producer_consumer s = Some q → (length (rb_items q) ≤ capacity)%nat →
  queue_run ops s = (popped, lost, reported, s') →
  (length (queue_items s') ≤ capacity)%nat ∧
  (∃ accepted, popped ++ queue_items s' = rb_items q ++ accepted ∧
    Permutation (pushed ops) (accepted ++ lost) ∧ sublist accepted (pushed ops) ∧ sublist lost (pushed ops)) ∧
  ((length (rb_items q) + length (pushed ops) ≤ capacity)%nat → lost = []) ∧
  (0 ≤ dropped s → dropped s + Z.of_nat (length lost) < U64_SIZE →
    reported + dropped s' = dropped s + Z.of_nat (length lost)).
Proof.
  revert s q popped lost reported. induction ops as [|op ops IH]; intros s q popped lost reported Hq Hcap Hrun.
  { injection Hrun as <- <- <- <-. unfold queue_items. rewrite Hq. split_and!; [done| |done|cbn; lia].
    exists []. by rewrite app_nil_r. }
  destruct op as [t| |]; cbn [queue_run] in Hrun.
  - rewrite Hq in Hrun. pose proof (rb_push_items q t) as H. change (pushed (Push t :: ops)) with (t :: pushed ops).
    unfold push in Hrun. rewrite Hq in Hrun. destruct (rb_try_push t q) as [q1|].
    + destruct H as [Hi1 Hlt].
      destruct (queue_run ops _) as [[[popped1 lost1] rep1] s1] eqn:Hr1. injection Hrun as <- <- <- ->.
      destruct (IH (mkShared (Some q1) (dropped s)) q1 _ _ _ eq_refl ltac:(rewrite Hi1, length_app; cbn; lia) Hr1)
        as (Hs & (acc & Hfifo & Hperm & Hsub1 & Hsub2) & Hroom & Hdrop).
      split; [done|]. split; [|split; [|exact Hdrop]].
      * exists (t :: acc). rewrite Hfifo, Hi1, <- app_assoc. split; [done|]. cbn.
        split; [by rewrite Hperm|]. split; [by constructor|by constructor].
      * intros Hle. apply Hroom. rewrite Hi1, length_app. cbn in *. lia.
    + destruct (queue_run ops _) as [[[popped1 lost1] rep1] s1] eqn:Hr1. injection Hrun as <- <- <- ->.
      destruct (IH (mkShared (Some q) ((dropped s + 1) mod U64_SIZE)) q _ _ _ eq_refl Hcap Hr1)
        as (Hs & (acc & Hfifo & Hperm & Hsub1 & Hsub2) & _ & Hdrop). cbn [dropped] in Hdrop.
      split; [done|]. split; [|split].
      * exists acc. split; [done|]. cbn. split; [by rewrite Hperm, Permutation_middle|].
        split; [by constructor|by constructor].
      * cbn. lia.
      * cbn [app length]. intros Hd0 Hd. rewrite Z.mod_small in Hdrop by lia. lia.
  - unfold pop in Hrun. rewrite Hq in Hrun. pose proof (rb_pop_items q) as H.
    destruct (rb_try_pop q) as [[t q1]|].
    + destruct (queue_run ops _) as [[[popped1 lost1] rep1] s1] eqn:Hr1. injection Hrun as <- <- <- ->.
      rewrite H in Hcap. cbn [length] in Hcap.
      destruct (IH (mkShared (Some q1) (dropped s)) q1 _ _ _ eq_refl ltac:(lia) Hr1)
        as (Hs & (acc & Hfifo & Hrest) & Hroom & Hdrop).
      split; [done|]. split; [exists acc; split; [cbn; by rewrite Hfifo, H|exact Hrest]|]. split; [|exact Hdrop].
      intros Hle. apply Hroom. rewrite H in Hle. cbn [length] in Hle. change (pushed (Pop :: ops)) with (pushed ops) in Hle. lia.
    + destruct (queue_run ops s) as [[[popped1 lost1] rep1] s1] eqn:Hr1. injection Hrun as <- <- <- ->.
      exact (IH s q _ _ _ Hq Hcap Hr1).
  - unfold take_dropped in Hrun. destruct (queue_run ops _) as [[[popped1 lost1] rep1] s1] eqn:Hr1.
    injection Hrun as <- <- <- ->. rewrite Hq in Hr1.
    destruct (IH (mkShared (Some q) 0) q _ _ _ eq_refl Hcap Hr1) as (Hs & Hfifo & Hroom & Hdrop). cbn [dropped] in Hdrop.
    split_and!; [done|exact Hfifo|exact Hroom|]. intros Hd0 Hd. lia.
Qed.

(** A push, as the items see it: it is accepted exactly when there is room. *)
Definition pushes (t : T) (s s' : SharedQueue Q) : Prop :=
  if decide (length (queue_items s) < capacity)%nat
  then queue_items s' = queue_items s ++ [t] ∧ dropped s' = dropped s
  else queue_items s' = queue_items s ∧ dropped s' = (dropped s + 1) mod U64_SIZE.

Lemma push_spec t s : is_Some (producer_consumer s) → pushes t s (push t s) ∧ is_Some (producer_consumer (push t s)).
Proof.
  intros [q Hq]. unfold pushes, queue_items, push. rewrite Hq. pose proof (rb_push_items q t) as H.
  destruct (rb_try_push t q) as [q'|]; cbn [producer_consumer dropped]; (split; [|done]).
  - destruct H as [-> Hlt]. by rewrite decide_True.
  - by rewrite decide_False by lia.
Qed.

(** The queue is there for the whole of a run. *)
Lemma queue_run_there ops : ∀ s, is_Some (producer_consumer s) → is_Some (producer_consumer (snd (queue_run ops s))).
Proof.
  induction ops as [|op ops IH]; intros s Hs; [done|]. destruct op as [t| |]; cbn [queue_run].
  - specialize (IH (push t s) (proj2 (push_spec t s Hs))). by destruct (queue_run ops (push t s)) as [[[popped lost] reported] s'].
  - destruct (pop s) as [o s1] eqn:Hp. assert (is_Some (producer_consumer s1)) as Hs1.
    { revert Hp. unfold pop. destruct Hs as [q Hq]. rewrite Hq. destruct (rb_try_pop q) as [[t q']|]; intros [= _ <-]; [done|by rewrite Hq]. }
    specialize (IH s1 Hs1). by destruct (queue_run ops s1) as [[[popped lost] reported] s'].
  - unfold take_dropped. specialize (IH (mkShared (producer_consumer s) 0) Hs).
    by destruct (queue_run ops (mkShared (producer_consumer s) 0)) as [[[popped lost] reported] s'].
Qed.

(** C23. The input queues are first in, first out and lose nothing silently, on
    a ring buffer that does what its documentation says: whatever the
    interleaving of interrupts and shell, the items popped and those still
    queued are the items pushed, in order, without the refused ones, and every
    refusal is reported once or still counted.  At every point of the run a push
    is accepted exactly when fewer items than the capacity are queued then; it
    puts its item last and counts nothing, and otherwise the queue stays as it
    is and the refusal is counted. *)
Theorem queue_fifo ops s0 s popped lost reported s' :
  init_queue s0 = Ok s → queue_run ops s = (popped, lost, reported, s') →
  (length (queue_items s') ≤ capacity)%nat ∧
  (∃ accepted, popped ++ queue_items s' = accepted ∧ Permutation (pushed ops) (accepted ++ lost) ∧
    sublist accepted (pushed ops) ∧ sublist lost (pushed ops)) ∧
  (∀ ops1 t ops2, ops = ops1 ++ Push t :: ops2 →
    let s1 := snd (queue_run ops1 s) in pushes t s1 (push t s1)) ∧
  ((length (pushed ops) ≤ capacity)%nat → lost = []) ∧
  (0 ≤ dropped s0 → dropped s0 + Z.of_nat (length lost) < U64_SIZE →
    reported + dropped s' = dropped s0 + Z.of_nat (length lost)).
Proof.
  intros Hinit Hrun. unfold init_queue in Hinit. destruct (producer_consumer s0); [done|]. injection Hinit as <-.
  assert (length (rb_items rb_default) ≤ capacity)%nat as Hcap by (rewrite rb_default_items; cbn; lia).
  destruct (queue_run_fifo ops (mkShared (Some rb_default) (dropped s0)) rb_default popped lost reported s' eq_refl Hcap Hrun)
    as (H1 & (acc & Hacc & H2) & H3 & H4). rewrite rb_default_items in *. cbn [app length] in *.
  split; [done|]. split; [by exists acc|]. split; [|by split]. intros ops1 t ops2 _. refine (proj1 (push_spec t _ _)). apply queue_run_there. by eexists.
Qed.
End shared.

(** A two-place queue: the third push is refused and reported. *)
Lemma queue_fifo_witness :
  let ops := [Push 1; Push 2; Push 3; Pop; TakeDropped; Push 4; Pop] in
  ∃ popped lost reported s', @queue_run Z (list Z) (list_ring 2) ops (mkShared (Some []) 0) = (popped, lost, reported, s') ∧
    popped = [1; 2] ∧ lost = [3] ∧ reported + dropped s' = 1.
Proof.
  cbv zeta. do 4 eexists. split; [reflexivity|]. split; [done|]. split; [done|].
  pose proof (@queue_fifo Z (list Z) (list_ring 2) 2 (list_ring_laws 2)
    [Push 1; Push 2; Push 3; Pop; TakeDropped; Push 4; Pop] (mkShared None 0) (mkShared (Some []) 0) _ _ _ _ eq_refl eq_refl)
    as (_ & _ & _ & _ & H).
  apply H; by vm_compute.
Defined.
