(* ===== verification/Keyboard.v ===== *)
(** * Keyboard: the scancode queue and the key events of
    [src/keyboard/mod.rs].  The scancode decoder and the layout are the
    [pc-keyboard] crate's, a parameter here. *)

From S2P Require Import Prelude Text Ports.

(** ** The decoder's data *)

(** The keys the code names; the others by number. *)
Inductive KeyCode : Type :=
  | LControl | RControl | ArrowLeftKey | ArrowRightKey | ArrowUpKey | ArrowDownKey | TabKey
  | C | L | OemPlus | OemMinus | OtherKey (code : Z).
Inductive KeyState : Type := Up | Down | SingleShot.
Record KeyEvent : Type := mkKeyEvent { code : KeyCode; key_state : KeyState }.
Inductive DecodedKey : Type := RawKey (code : KeyCode) | Unicode (c : char).

#[export] Instance KeyState_eq_dec : EqDecision KeyState.
Proof. solve_decision. Defined.

(** A [PS2Keyboard]: [add_byte] completes a key event or fails,
    [process_keyevent] applies the layout and the modifiers. *)
Class Decoder (D : Type) := {
  add_byte : Z → D → option (option KeyEvent) * D;
  process_keyevent : KeyEvent → D → option DecodedKey * D;
}.

(** ** The keyboard *)

Inductive KeyboardEvent : Type :=
  | Char (c : char) | CtrlC | ZoomIn | ZoomOut | ArrowUp | ArrowDown | ArrowLeft | ArrowRight | CtrlL | Tab.

Record Keyboard (D Q : Type) : Type := mkKeyboard {
  KEYBOARD_QUEUE : SharedQueue Q;
  KEYBOARD : D;
  CTRL_HELD : bool;
}.
Arguments mkKeyboard {D Q} _ _ _.
Arguments KEYBOARD_QUEUE {D Q} _.
Arguments KEYBOARD {D Q} _.
Arguments CTRL_HELD {D Q} _.

Section keyboard.
Context {D Q : Type} `{Decoder D} `{RingBuffer Z Q}.

Abbreviation Kb := (Keyboard D Q) (only parsing).

Definition on_queue {A} (f : SharedQueue Q → A * SharedQueue Q) (k : Kb) : A * Kb :=
  let '(a, q) := f (KEYBOARD_QUEUE k) in (a, mkKeyboard q (KEYBOARD k) (CTRL_HELD k)).

Definition init_keyboard (k : Kb) : outcome Empty_set Kb :=
  q ← init_queue (KEYBOARD_QUEUE k); Ok (mkKeyboard q (KEYBOARD k) (CTRL_HELD k)).
Definition push_keyboard_scancode (code : Z) (k : Kb) : Kb :=
  mkKeyboard (push code (KEYBOARD_QUEUE k)) (KEYBOARD k) (CTRL_HELD k).
Definition pop_keyboard_scancode (k : Kb) : option Z * Kb := on_queue pop k.
Definition keyboard_queue_is_empty (k : Kb) : bool := queue_is_empty (KEYBOARD_QUEUE k).

Definition set_decoder (d : D) (k : Kb) : Kb := mkKeyboard (KEYBOARD_QUEUE k) d (CTRL_HELD k).
Definition set_ctrl (b : bool) (k : Kb) : Kb := mkKeyboard (KEYBOARD_QUEUE k) (KEYBOARD k) b.

Definition is_down (s : KeyState) : bool := bool_decide (s = Down).

(** The part of [poll] after the decoder completed a key event. *)
Definition handle_key (key_event : KeyEvent) (k : Kb) : option KeyboardEvent * Kb :=
  let rest :=
    match (if CTRL_HELD k && is_down (key_state key_event) then
             match code key_event with
             | C => Some CtrlC
             | L => Some CtrlL
             | OemPlus => Some ZoomIn
             | OemMinus => Some ZoomOut
             | _ => None
             end
           else None) with
    | Some e => (Some e, k)
    | None =>
      let '(decoded, d) := process_keyevent key_event (KEYBOARD k) in
      (match decoded with Some (Unicode c) => Some (Char c) | _ => None end, set_decoder d k)
    end in
  match code key_event with
  | LControl | RControl => (None, set_ctrl (is_down (key_state key_event)) k)
  | ArrowLeftKey => if is_down (key_state key_event) then (Some ArrowLeft, k) else rest
  | ArrowRightKey => if is_down (key_state key_event) then (Some ArrowRight, k) else rest
  | ArrowUpKey => if is_down (key_state key_event) then (Some ArrowUp, k) else rest
  | ArrowDownKey => if is_down (key_state key_event) then (Some ArrowDown, k) else rest
  | TabKey => if is_down (key_state key_event) then (Some Tab, k) else rest
  | _ => rest
  end.

(** [poll] *)
Definition poll (k : Kb) : option KeyboardEvent * Kb :=
  match pop_keyboard_scancode k with
  | (None, k) => (None, k)
  | (Some scancode, k) =>
    match add_byte scancode (KEYBOARD k) with
    | (Some (Some key_event), d) => handle_key key_event (set_decoder d k)
    | (_, d) => (None, set_decoder d k)
    end
  end.

(** ** Runs of [poll] *)

(** The key event that the next poll completes. *)
Definition next_event (k : Kb) : option KeyEvent :=
  match pop_keyboard_scancode k with
  | (Some scancode, k) =>
    match add_byte scancode (KEYBOARD k) with (Some (Some e), _) => Some e | _ => None end
  | _ => None
  end.

(** [n] polls: the key events completed, what each poll returned, the end. *)
Fixpoint polls (n : nat) (k : Kb) : list (option KeyEvent) * list (option KeyboardEvent) * Kb :=
  match n with
  | O => ([], [], k)
  | S n =>
    let e := next_event k in
    let '(o, k) := poll k in
    let '(es, os, k) := polls n k in (e :: es, o :: os, k)
  end.

(** Whether Ctrl is held after some key events: the last Ctrl event decides. *)
Definition ctrl_after (held : bool) (es : list (option KeyEvent)) : bool :=
  fold_left (λ held e, match e with
    | Some (mkKeyEvent (LControl | RControl) s) => is_down s
    | _ => held
    end) es held.

(** What a key press means to the shell, characters apart. *)
Definition shortcut (held : bool) (e : option KeyEvent) : option KeyboardEvent :=
  match e with
  | Some (mkKeyEvent c Down) =>
    match c with
    | ArrowLeftKey => Some ArrowLeft
    | ArrowRightKey => Some ArrowRight
    | ArrowUpKey => Some ArrowUp
    | ArrowDownKey => Some ArrowDown
    | TabKey => Some Tab
    | C => if held then Some CtrlC else None
    | L => if held then Some CtrlL else None
    | OemPlus => if held then Some ZoomIn else None
    | OemMinus => if held then Some ZoomOut else None
    | _ => None
    end
  | _ => None
  end.

Definition is_char (o : option KeyboardEvent) : bool := match o with Some (Char _) => true | _ => false end.

Lemma poll_cases k :
  let '(o, k') := poll k in
  CTRL_HELD k' = ctrl_after (CTRL_HELD k) [next_event k] ∧
  if is_char o then shortcut (CTRL_HELD k) (next_event k) = None else o = shortcut (CTRL_HELD k) (next_event k).
Proof.
  unfold poll, next_event, pop_keyboard_scancode, on_queue.
  destruct (pop (KEYBOARD_QUEUE k)) as [[scancode|] q]; cbn [CTRL_HELD KEYBOARD]; [|done].
  destruct (add_byte scancode (KEYBOARD k)) as [[[[c s]|]|] d]; cbn; [|done..].
  unfold handle_key, set_decoder. cbn [code key_state CTRL_HELD KEYBOARD].
  destruct (process_keyevent _ d) as [dec d'].
  destruct c, s, (CTRL_HELD k), dec as [[|]|]; by cbn.
Qed.

(** The shell sees the keyboard's shortcuts exactly: over any run of polls,
    each one returns the shortcut that its key press means given whether Ctrl
    was down at that moment, or else a character, and [CTRL_HELD] follows the
    last Ctrl event. *)
Theorem polls_shortcuts n k es os k' : polls n k = (es, os, k') →
  length es = n ∧ length os = n ∧ CTRL_HELD k' = ctrl_after (CTRL_HELD k) es ∧
  ∀ i e o, es !! i = Some e → os !! i = Some o →
    let meant := shortcut (ctrl_after (CTRL_HELD k) (take i es)) e in
    if is_char o then meant = None else o = meant.
Proof.
  revert k es os. induction n as [|n IH]; intros k es os Hrun; cbn [polls] in Hrun.
  { injection Hrun as <- <- <-. done. }
  pose proof (poll_cases k) as Hp. destruct (poll k) as [o1 k1]. destruct Hp as [Hc Ho].
  destruct (polls n k1) as [[es1 os1] k2] eqn:Hr. injection Hrun as <- <- <-.
  destruct (IH k1 es1 os1 Hr) as (H1 & H2 & H3 & H4). split_and!; [cbn; lia|cbn; lia| |].
  - rewrite H3, Hc. done.
  - intros [|i] e o He Hoi; cbn [lookup list_lookup] in He, Hoi.
    + injection He as <-. injection Hoi as <-. exact Ho.
    + specialize (H4 i e o He Hoi). by rewrite Hc in H4.
Qed.
End keyboard.

(** A decoder of one-byte key events without a layout. *)
#[local] Instance demo_decoder : Decoder unit := {|
  add_byte b d := (Some (Some (mkKeyEvent (match b mod 128 with
     | 29 => LControl | 46 => C | 72 => ArrowUpKey | z => OtherKey z end)
     (if b <? 128 then Down else Up))), d);
  process_keyevent e d := (match e with mkKeyEvent (OtherKey z) Down => Some (Unicode z) | mkKeyEvent C Down => Some (Unicode 99) | _ => None end, d);
|}.

Definition demo_keyboard : Keyboard unit (list Z) :=
  mkKeyboard (mkShared (Some [29; 46; 157; 46; 72]) 0) tt false.

(** Ctrl down, C, Ctrl up, C, arrow up. *)
Lemma polls_shortcuts_witness :
  let os := snd (fst (@polls _ _ demo_decoder (list_ring 256) 5 demo_keyboard)) in
  os = [None; Some CtrlC; None; Some (Char 99); Some ArrowUp] ∧ length os = 5%nat.
Proof.
  pose proof (@polls_shortcuts _ _ demo_decoder (list_ring 256) 5 demo_keyboard _ _ _ eq_refl) as (_ & H & _).
  split; [by vm_compute|exact H].
Defined.
