(* ===== verification/Mouse.v ===== *)
(** * Mouse: the software cursor, the byte queue, the packet decoder and the
    PS/2 controller setup of [src/mouse/mod.rs]. *)

From S2P Require Import Prelude Graphics Ports.

(** ** The cursor *)

Definition MOUSE_CURSOR_SIZE : PixelSize := mkSize 5 5.
Definition MOUSE_CURSOR_PIXELS : nat := 25.

Record MouseCursor : Type := mkCursor {
  position : option (Z * Z);
  saved_under : list Color;
}.

Definition MOUSE_CURSOR_new : MouseCursor := mkCursor None (replicate MOUSE_CURSOR_PIXELS BLACK).

(** The rows and columns of the cursor, in the order of the loops. *)
Definition cursor_cells : list (Z * Z) :=
  row ← seqZ 0 (size_height MOUSE_CURSOR_SIZE); (λ col, (row, col)) <$> seqZ 0 (size_width MOUSE_CURSOR_SIZE).

Definition cursor_index (row col : Z) : nat := Z.to_nat (row * size_width MOUSE_CURSOR_SIZE + col).

(** [draw_mouse_cursor] *)
Definition draw_mouse_cursor (fb : Framebuffer) (origin : PixelCoord) : M (MouseCursor * mem) Empty_set unit := λ '(cursor, m),
  let '(x, y) := (x origin, y origin) in
  match checked_add x (size_width MOUSE_CURSOR_SIZE), checked_add y (size_height MOUSE_CURSOR_SIZE) with
  | Some right_edge, Some bottom_edge =>
    if negb (is_drawable fb) || (width fb <? right_edge) || (height fb <? bottom_edge) then (Ok tt, (cursor, m)) else
    match foldM (λ saved '(row, col), array_set saved (cursor_index row col) (read_pixel fb m (x + col) (y + row)))
            (saved_under cursor) cursor_cells with
    | Ok saved =>
      let cursor := mkCursor (Some (x, y)) saved in
      match draw_rec fb (mkCoord x y) MOUSE_CURSOR_SIZE WHITE m with
      | Ok m => (Ok tt, (cursor, m))
      | Err e => (Err e, (cursor, m))
      | Panic => (Panic, (cursor, m))
      end
    | Err e => (Err e, (cursor, m))
    | Panic => (Panic, (cursor, m))
    end
  | _, _ => (Ok tt, (cursor, m))
  end.

(** [erase_mouse_cursor] *)
Definition erase_mouse_cursor (fb : Framebuffer) : M (MouseCursor * mem) Empty_set unit := λ '(cursor, m),
  match position cursor with
  | None => (Ok tt, (cursor, m))
  | Some (x, y) =>
    let cursor := mkCursor None (saved_under cursor) in
    match foldM (λ m '(row, col),
            color ← array_get (saved_under cursor) (cursor_index row col);
            write_at fb (y + row) (x + col) color m) m cursor_cells with
    | Ok m => (Ok tt, (cursor, m))
    | Err e => (Err e, (cursor, m))
    | Panic => (Panic, (cursor, m))
    end
  end.

(** ** Packets *)

Record PacketState : Type := mkPacket { bytes : list Z; index : nat }.
Definition PACKET_STATE_new : PacketState := mkPacket [0; 0; 0] 0.

Record MouseEvent : Type := mkEvent { dx : Z; dy : Z; left_button : bool; right_button : bool; middle_button : bool }.

Definition flag (flags mask : Z) : bool := negb (Z.land flags mask =? 0).

(** [decode_packet] *)
Definition decode_packet (b0 b1 b2 : Z) : option MouseEvent :=
  let flags := b0 in
  if flag flags 192 then None else
  let dx := if flag flags 16 then b1 - 256 else b1 in
  let dy := if flag flags 32 then b2 - 256 else b2 in
  let dy := - dy in
  Some (mkEvent dx dy (flag flags 1) (flag flags 2) (flag flags 4)).

Section mouse.
Context {Q : Type} `{RingBuffer Z Q}.

Record Mouse : Type := mkMouse { MOUSE_QUEUE : SharedQueue Q; PACKET_STATE : PacketState }.

Definition init_mouse (s : Mouse) : outcome Empty_set Mouse :=
  q ← init_queue (MOUSE_QUEUE s); Ok (mkMouse q (PACKET_STATE s)).
Definition push_mouse_byte (code : Z) (s : Mouse) : Mouse := mkMouse (push code (MOUSE_QUEUE s)) (PACKET_STATE s).
Definition pop_mouse_byte (s : Mouse) : option Z * Mouse :=
  let '(o, q) := pop (MOUSE_QUEUE s) in (o, mkMouse q (PACKET_STATE s)).
Definition mouse_queue_is_empty (s : Mouse) : bool := queue_is_empty (MOUSE_QUEUE s).

(** The part of [poll] that holds the packet state. *)
Definition assemble (byte : Z) (p : PacketState) : outcome Empty_set (option MouseEvent) * PacketState :=
  if (Nat.eqb (index p) 0) && (Z.land byte 8 =? 0) then (Ok None, p) else
  match array_set (bytes p) (index p) byte with
  | Ok bs =>
    let p := mkPacket bs (S (index p)) in
    if Nat.ltb (index p) 3 then (Ok None, p) else
    let p := mkPacket (bytes p) 0 in
    match bytes p with
    | [b0; b1; b2] => (Ok (decode_packet b0 b1 b2), p)
    | _ => (Panic, p)
    end
  | Err e => (Err e, p)
  | Panic => (Panic, p)
  end.

(** [poll] *)
Definition poll (s : Mouse) : outcome Empty_set (option MouseEvent) * Mouse :=
  match pop_mouse_byte s with
  | (None, s) => (Ok None, s)
  | (Some byte, s) => let '(o, p) := assemble byte (PACKET_STATE s) in (o, mkMouse (MOUSE_QUEUE s) p)
  end.
End mouse.
Arguments Mouse : clear implicits.
Arguments mkMouse {Q} _ _.
Arguments MOUSE_QUEUE {Q} _.
Arguments PACKET_STATE {Q} _.

(** ** The PS/2 controller *)

Definition PS2_READY_POLL_LIMIT : Z := 100000.
Definition CMD_ENABLE_AUX : Z := 0xa8.
Definition CMD_READ_CONFIG : Z := 0x20.
Definition CMD_WRITE_CONFIG : Z := 0x60.
Definition CMD_WRITE_TO_AUX : Z := 0xd4.
Definition MOUSE_ENABLE_PACKETS : Z := 0xf4.
Definition MOUSE_ACK : Z := 0xfa.

Inductive Ps2Error : Type := Timeout | UnexpectedResponse (response : Z).

Section ps2.
Context {W : Type} `{Devices W}.
Abbreviation Ps2 := (M (Io W) Ps2Error) (only parsing).

(** The polling loops, with [n] reads of the status left. *)
Fixpoint wait_write_loop (n : nat) : Ps2 unit :=
  match n with
  | O => throw Timeout
  | S n => status ← inb PS2_STATUS; if Z.land status 2 =? 0 then mret tt else wait_write_loop n
  end.
Definition wait_write_ready : Ps2 unit := wait_write_loop (Z.to_nat PS2_READY_POLL_LIMIT).

Fixpoint wait_read_loop (n : nat) : Ps2 unit :=
  match n with
  | O => throw Timeout
  | S n => status ← inb PS2_STATUS; if negb (Z.land status 1 =? 0) then mret tt else wait_read_loop n
  end.
Definition wait_read_ready : Ps2 unit := wait_read_loop (Z.to_nat PS2_READY_POLL_LIMIT).

Definition ps2_write_command (cmd : Z) : Ps2 unit := wait_write_ready;; outb cmd PS2_COMMAND.
Definition ps2_write_data (data : Z) : Ps2 unit := wait_write_ready;; outb data PS2_DATA.
Definition ps2_read_data : Ps2 Z := wait_read_ready;; inb PS2_DATA.

(** [initialize_controller] *)
Definition initialize_controller : Ps2 unit :=
  ps2_write_command CMD_ENABLE_AUX;;
  ps2_write_command CMD_READ_CONFIG;;
  config ← ps2_read_data;
  let config := Z.lor config 2 in
  let config := Z.land config (255 - 32) in
  ps2_write_command CMD_WRITE_CONFIG;;
  ps2_write_data config;;
  ps2_write_command CMD_WRITE_TO_AUX;;
  ps2_write_data MOUSE_ENABLE_PACKETS;;
  ack ← ps2_read_data;
  if negb (ack =? MOUSE_ACK) then throw (UnexpectedResponse ack) else mret tt.
End ps2.

(** ** The cursor leaves no trace *)

Lemma read_pixel_visible fb m px py : fb_ok fb → visible fb px py → read_pixel fb m px py = pixel fb m px py.
Proof.
  intros Hok Hv. destruct (visible_offset fb px py Hok Hv) as (H1 & H2 & H3 & H4).
  destruct (fb_ok_bounds fb Hok) as (Hb1 & Hb2 & Hb3). pose proof (fb_len fb Hok) as [_ Hlen]. destruct Hv as [Hx Hy].
  unfold read_pixel. rewrite (fb_drawable fb Hok), (proj2 (Z.leb_gt _ _)), (proj2 (Z.leb_gt _ _)) by lia. cbn [negb orb].
  rewrite checked_mul_Some by (unfold is_u64; lia). cbn [mbind option_bind].
  rewrite checked_add_Some by (unfold is_u64; lia). cbn [mbind option_bind].
  rewrite checked_mul_Some by (unfold is_u64; lia). rewrite checked_add_Some by (unfold is_u64; lia).
  rewrite (proj2 (Z.ltb_ge _ _)) by lia. unfold pixel, cell.
  pose proof (fb_drawable fb Hok) as Hd. unfold is_drawable in Hd.
  destruct (pixel_format fb); try done; by rewrite andb_false_r in Hd.
Qed.

(** The same color in a cell means the same bytes. *)
Lemma pixel_bytes fb m m' px py i : pixel fb m' px py = pixel fb m px py → 0 ≤ i < 3 →
  m' (cell fb px py + i) = m (cell fb px py + i).
Proof.
  unfold pixel. intros Heq Hi.
  assert (i = 0 ∨ i = 1 ∨ i = 2) as [->|[->| ->]] by lia; rewrite ?Z.add_0_r; destruct (pixel_format fb); congruence.
Qed.

(** Repainting what was there undoes a painting. *)
Lemma painted_undo fb P C m m1 m2 : fb_ok fb →
  painted fb P C m m1 → painted fb P (pixel fb m) m1 m2 →
  (∀ a, Decision (∃ px py, visible fb px py ∧ P px py = true ∧ cell fb px py ≤ a < cell fb px py + 3)) →
  ∀ a, m2 a = m a.
Proof.
  intros Hok [_ H1] [H2 H3] Hdec a. destruct (Hdec a) as [(px & py & Hv & HP & Ha)|Hn].
  - specialize (H2 px py Hv HP). replace a with (cell fb px py + (a - cell fb px py)) by lia.
    apply pixel_bytes; [done|lia].
  - assert (∀ px py, visible fb px py → P px py = true → ¬ cell fb px py ≤ a < cell fb px py + 3) as Hout
      by (intros px py Hv HP Ha; apply Hn; eauto).
    by rewrite H3, H1.
Qed.

Lemma cursor_cells_spec row col : (row, col) ∈ cursor_cells ↔ 0 ≤ row < 5 ∧ 0 ≤ col < 5.
Proof.
  unfold cursor_cells. rewrite list_elem_of_bind. split.
  - intros (i & Hi & Hin). apply list_elem_of_fmap in Hi as (j & [= -> ->] & Hj). apply elem_of_seqZ in Hin, Hj.
    cbn in *. lia.
  - intros [Hr Hc]. exists row. split; [|apply elem_of_seqZ; cbn; lia].
    apply list_elem_of_fmap. exists col. split; [done|]. apply elem_of_seqZ. cbn. lia.
Qed.

(** The loop that saves the pixels fills every slot of the buffer. *)
Lemma save_loop (f : Z → Z → Color) l saved : length saved = MOUSE_CURSOR_PIXELS →
  (∀ row col, (row, col) ∈ l → 0 ≤ row < 5 ∧ 0 ≤ col < 5) →
  ∃ saved', foldM (E:=Empty_set) (λ s '(row, col), array_set s (cursor_index row col) (f row col)) saved l = Ok saved' ∧
    length saved' = MOUSE_CURSOR_PIXELS ∧
    (∀ row col, 0 ≤ row < 5 → 0 ≤ col < 5 →
      saved' !! cursor_index row col = if bool_decide ((row, col) ∈ l) then Some (f row col) else saved !! cursor_index row col).
Proof.
  revert saved. induction l as [|[row col] l IH]; intros saved Hlen Hl; cbn [foldM].
  { exists saved. split_and!; [done|done|]. intros. by rewrite bool_decide_eq_false_2 by (by apply not_elem_of_nil). }
  destruct (Hl row col) as [Hr Hc]; [by left|].
  assert (∀ row col, 0 ≤ row < 5 → 0 ≤ col < 5 → (cursor_index row col < MOUSE_CURSOR_PIXELS)%nat) as Hidx.
  { intros. unfold cursor_index, MOUSE_CURSOR_PIXELS. cbn. lia. }
  rewrite array_set_ok by (rewrite Hlen; by apply Hidx). cbn [mbind outcome_bind].
  destruct (IH (<[cursor_index row col:=f row col]> saved)) as (saved' & -> & Hlen' & Hat);
    [by rewrite length_insert|intros; apply Hl; by right|].
  exists saved'. split_and!; [done|done|]. intros row' col' Hr' Hc'. rewrite Hat by done.
  destruct (decide ((row', col') ∈ l)) as [Hin|Hin].
  - rewrite !bool_decide_eq_true_2 by (by right || done). done.
  - rewrite (bool_decide_eq_false_2 ((row', col') ∈ l)) by done.
    destruct (decide ((row', col') = (row, col))) as [[= -> ->]|Hne].
    + rewrite bool_decide_eq_true_2 by (by left). apply list_lookup_insert_eq. rewrite Hlen. by apply Hidx.
    + rewrite bool_decide_eq_false_2 by (rewrite elem_of_cons; tauto). apply list_lookup_insert_ne.
      unfold cursor_index. cbn. intros Heq. apply Hne. f_equal; lia.
Qed.

Definition cursor_ok (c : MouseCursor) : Prop := length (saved_under c) = MOUSE_CURSOR_PIXELS.

(** The memory [m] shows the cursor at a position over the picture [bg], which
    it has saved. *)
Record drawn_at (fb : Framebuffer) (bg : mem) (c : MouseCursor) (m : mem) (ox oy : Z) : Prop := {
  drawn_ok : cursor_ok c;
  drawn_position : position c = Some (ox, oy);
  drawn_x : 0 ≤ ox ∧ ox + 5 ≤ width fb;
  drawn_y : 0 ≤ oy ∧ oy + 5 ≤ height fb;
  drawn_saved : ∀ row col, 0 ≤ row < 5 → 0 ≤ col < 5 →
    saved_under c !! cursor_index row col = Some (pixel fb bg (ox + col) (oy + row));
  drawn_square : painted fb (in_rect ox oy (ox + 5) (oy + 5)) (λ _ _, WHITE) bg m;
}.

Lemma draw_cursor_drawn fb ox oy c m : fb_ok fb → cursor_ok c →
  0 ≤ ox → ox + 5 ≤ width fb → 0 ≤ oy → oy + 5 ≤ height fb →
  ∃ c1 m1, draw_mouse_cursor fb (mkCoord ox oy) (c, m) = (Ok tt, (c1, m1)) ∧ drawn_at fb m c1 m1 ox oy.
Proof.
  intros Hok Hlen Hx Hw Hy Hh. destruct (fb_width fb Hok) as [_ Hbw], (fb_height fb Hok) as [_ Hbh].
  unfold draw_mouse_cursor. cbn [x y size_width size_height MOUSE_CURSOR_SIZE].
  rewrite !checked_add_Some by (unfold is_u64; lia). rewrite (fb_drawable fb Hok), !(proj2 (Z.ltb_ge _ _)) by lia. cbn [negb orb].
  destruct (save_loop (λ row col, read_pixel fb m (ox + col) (oy + row)) cursor_cells (saved_under c) Hlen) as (saved' & Hsave & Hlen' & Hat);
    [intros; by apply cursor_cells_spec|]. rewrite Hsave.
  destruct (draw_rec_painted fb ox oy 5 5 WHITE m Hok Hx Hy ltac:(done) ltac:(done) Hw Hh) as (m1 & Hrec & Hp).
  change (mkSize 5 5) with MOUSE_CURSOR_SIZE in Hrec. rewrite Hrec. eexists _, m1. split; [done|]. split; cbn; try done.
  intros row col Hr Hc.
  by rewrite Hat, bool_decide_eq_true_2, read_pixel_visible by (done || (split; lia) || by apply cursor_cells_spec).
Qed.

(** Whether an address belongs to the cursor's square can be decided. *)
Lemma square_decision fb ox oy a : 0 ≤ ox → ox + 5 ≤ width fb → 0 ≤ oy → oy + 5 ≤ height fb →
  Decision (∃ px py, visible fb px py ∧ in_rect ox oy (ox + 5) (oy + 5) px py = true ∧ cell fb px py ≤ a < cell fb px py + 3).
Proof.
  intros Hx Hw Hy Hh.
  destruct (existsb (λ '(row, col), (cell fb (ox + col) (oy + row) <=? a) && (a <? cell fb (ox + col) (oy + row) + 3)) cursor_cells) eqn:Hex.
  - left. apply existsb_exists in Hex as ([row col] & Hin%list_elem_of_In%cursor_cells_spec & Ha).
    apply andb_true_iff in Ha as [Ha1%Z.leb_le Ha2%Z.ltb_lt]. exists (ox + col), (oy + row).
    split_and!; [split; lia|apply in_rect_spec; lia|lia|lia].
  - right. intros (px & py & Hv & Hin%in_rect_spec & Ha). apply not_true_iff_false in Hex. apply Hex.
    apply existsb_exists. exists (py - oy, px - ox). split; [apply list_elem_of_In, cursor_cells_spec; lia|].
    replace (ox + (px - ox)) with px by lia. replace (oy + (py - oy)) with py by lia.
    by apply andb_true_iff; rewrite Z.leb_le, Z.ltb_lt.
Qed.

(** Erasing the drawn cursor brings the picture under it back. *)
Lemma erase_cursor_drawn fb bg c m ox oy : fb_ok fb → drawn_at fb bg c m ox oy →
  ∃ c2 m2, erase_mouse_cursor fb (c, m) = (Ok tt, (c2, m2)) ∧ cursor_ok c2 ∧ position c2 = None ∧ ∀ a, m2 a = bg a.
Proof.
  intros Hok [Hlen Hpos [Hx Hw] [Hy Hh] Hat Hp]. unfold erase_mouse_cursor. rewrite Hpos.
  destruct (foldM_painted fb (λ m '(row, col), color ← array_get (saved_under c) (cursor_index row col); write_at fb (oy + row) (ox + col) color m)
    (λ rc, at_point (ox + snd rc) (oy + fst rc)) (pixel fb bg) cursor_cells m Hok) as (m2 & Herase & Hp2).
  { intros m0 [row col] Hin. pose proof (proj1 (cursor_cells_spec row col) Hin) as [Hr Hc]. cbn [fst snd].
    rewrite (array_get_ok _ _ _ (Hat row col Hr Hc)). cbn [mbind outcome_bind].
    apply (write_at_painted fb (ox + col) (oy + row) (pixel fb bg)); [done|]. split; lia. }
  cbn [saved_under]. rewrite Herase. eexists _, m2. split; [done|]. split; [done|]. split; [done|].
  apply (painted_undo fb (in_rect ox oy (ox + 5) (oy + 5)) (λ _ _, WHITE) bg m m2 Hok Hp).
  - revert Hp2. apply painted_ext; [|done]. intros px py _. apply eq_true_iff_eq. rewrite existsb_exists, in_rect_spec. split.
    + intros ([row col] & Hin%list_elem_of_In%cursor_cells_spec & [-> ->]%at_point_spec). cbn [fst snd]. lia.
    + intros [? ?]. exists (py - oy, px - ox). split; [apply list_elem_of_In, cursor_cells_spec; lia|].
      apply at_point_spec. cbn [fst snd]. lia.
  - intros a. by apply square_decision.
Qed.

(** Off the screen, drawing the cursor does nothing. *)
Lemma draw_cursor_outside fb ox oy c m : fb_ok fb → ¬ (ox + 5 ≤ width fb ∧ oy + 5 ≤ height fb) →
  draw_mouse_cursor fb (mkCoord ox oy) (c, m) = (Ok tt, (c, m)).
Proof.
  intros Hok Hn. destruct (fb_width fb Hok) as [_ Hbw], (fb_height fb Hok) as [_ Hbh].
  unfold draw_mouse_cursor, checked_add. cbn [x y size_width size_height MOUSE_CURSOR_SIZE]. rewrite (fb_drawable fb Hok).
  destruct (Z.ltb_spec (ox + 5) U64_SIZE); [|done]. destruct (Z.ltb_spec (oy + 5) U64_SIZE); [|done]. cbn [negb orb].
  destruct (Z.ltb_spec (width fb) (ox + 5)), (Z.ltb_spec (height fb) (oy + 5)); done || lia.
Qed.

(** Drawing the cursor and erasing it leaves the framebuffer as it was,
    byte for byte, wherever the cursor is; while it is drawn, its square is
    white if the whole of it fits on the screen, and nothing else changed. *)
Theorem cursor_round_trip fb origin c m : fb_ok fb → cursor_ok c → position c = None →
  0 ≤ x origin → 0 ≤ y origin →
  ∃ c1 m1 c2 m2, draw_mouse_cursor fb origin (c, m) = (Ok tt, (c1, m1)) ∧
    erase_mouse_cursor fb (c1, m1) = (Ok tt, (c2, m2)) ∧ cursor_ok c2 ∧ position c2 = None ∧
    (∀ a, m2 a = m a) ∧
    painted fb (λ px py, in_rect (x origin) (y origin) (x origin + 5) (y origin + 5) px py &&
      (x origin + 5 <=? width fb) && (y origin + 5 <=? height fb)) (λ _ _, WHITE) m m1.
Proof.
  destruct origin as [ox oy]. cbn [x y]. intros Hok Hlen Hpos Hx Hy.
  destruct (Z.leb_spec (ox + 5) (width fb)) as [Hw|Hw], (Z.leb_spec (oy + 5) (height fb)) as [Hh|Hh].
  1: { destruct (draw_cursor_drawn fb ox oy c m Hok Hlen Hx Hw Hy Hh) as (c1 & m1 & Hd & Ha).
    destruct (erase_cursor_drawn fb m c1 m1 ox oy Hok Ha) as (c2 & m2 & He & H1 & H2 & H3).
    exists c1, m1, c2, m2. split_and!; try done. eapply painted_ext; [..|exact (drawn_square _ _ _ _ _ _ Ha)]; [|done].
    intros px py _. by rewrite !andb_true_r. }
  all: exists c, m, c, m; rewrite draw_cursor_outside by (done || lia); unfold erase_mouse_cursor; rewrite Hpos; split_and!; try done;
    apply painted_none; intros px py _; by rewrite ?andb_false_r.
Qed.

(** ** Packets *)

(** The packets in a byte stream: a header has bit 3 set, and bytes without it
    are skipped where a header is expected. *)
Fixpoint packets (bs : list Z) : list (Z * Z * Z) :=
  match bs with
  | b0 :: rest =>
    if Z.land b0 8 =? 0 then packets rest else
    match rest with
    | b1 :: b2 :: rest => (b0, b1, b2) :: packets rest
    | _ => []
    end
  | [] => []
  end.

(** The value of a 9-bit two's complement number. *)
Definition signed9 (sign byte : Z) : Z := if Z.testbit sign 0 then byte - 256 else byte.

Lemma flag_testbit flags i : 0 ≤ i → flag flags (2 ^ i) = Z.testbit flags i.
Proof.
  intros Hi. unfold flag. destruct (Z.testbit flags i) eqn:Hb.
  - apply negb_true_iff, Z.eqb_neq. intros H0.
    assert (Z.testbit (Z.land flags (2 ^ i)) i = true) as H by (rewrite Z.land_spec, Hb, Z.pow2_bits_true by done; done).
    by rewrite H0, Z.bits_0 in H.
  - apply negb_false_iff, Z.eqb_eq. apply Z.bits_inj'. intros j Hj. rewrite Z.land_spec, Z.bits_0.
    destruct (Z.eq_dec i j) as [->|Hne]; [by rewrite Hb|].
    rewrite Z.pow2_bits_false by done. apply andb_false_r.
Qed.

Lemma flag_overflow flags : flag flags 192 = Z.testbit flags 6 || Z.testbit flags 7.
Proof.
  unfold flag. destruct (Z.testbit flags 6 || Z.testbit flags 7) eqn:Hb.
  - apply negb_true_iff, Z.eqb_neq. intros H0. apply orb_true_iff in Hb as [Hb|Hb].
    + assert (Z.testbit (Z.land flags 192) 6 = true) as H by (by rewrite Z.land_spec, Hb). by rewrite H0, Z.bits_0 in H.
    + assert (Z.testbit (Z.land flags 192) 7 = true) as H by (by rewrite Z.land_spec, Hb). by rewrite H0, Z.bits_0 in H.
  - apply negb_false_iff, Z.eqb_eq. apply orb_false_iff in Hb as [H6 H7].
    apply Z.bits_inj'. intros j Hj. rewrite Z.land_spec, Z.bits_0.
    change 192 with (Z.lor (2 ^ 6) (2 ^ 7)). rewrite Z.lor_spec.
    destruct (Z.eq_dec 6 j) as [<-|H6j]; [by rewrite H6|]. destruct (Z.eq_dec 7 j) as [<-|H7j]; [by rewrite H7|].
    rewrite !Z.pow2_bits_false by done. apply andb_false_r.
Qed.

(** What a packet means: motion in 9-bit two's complement with the sign bits in
    the header and the vertical axis turned downwards, one bit a button, and
    nothing when an overflow bit is set. *)
Lemma decode_packet_spec b0 b1 b2 : 0 ≤ b1 < 256 → 0 ≤ b2 < 256 →
  match decode_packet b0 b1 b2 with
  | None => Z.testbit b0 6 || Z.testbit b0 7 = true
  | Some e => Z.testbit b0 6 || Z.testbit b0 7 = false ∧
      dx e = signed9 (Z.shiftr b0 4) b1 ∧ dy e = - signed9 (Z.shiftr b0 5) b2 ∧
      -256 ≤ dx e ≤ 255 ∧ -255 ≤ dy e ≤ 256 ∧
      left_button e = Z.testbit b0 0 ∧ right_button e = Z.testbit b0 1 ∧ middle_button e = Z.testbit b0 2
  end.
Proof.
  intros H1 H2. unfold decode_packet. rewrite flag_overflow.
  destruct (Z.testbit b0 6 || Z.testbit b0 7); [done|]. cbn [dx dy left_button right_button middle_button].
  rewrite (flag_testbit b0 4 ltac:(done) : flag b0 16 = _), (flag_testbit b0 5 ltac:(done) : flag b0 32 = _),
    (flag_testbit b0 0 ltac:(done) : flag b0 1 = _), (flag_testbit b0 1 ltac:(done) : flag b0 2 = _),
    (flag_testbit b0 2 ltac:(done) : flag b0 4 = _).
  unfold signed9. rewrite !Z.shiftr_spec, !Z.add_0_l by done.
  destruct (Z.testbit b0 4), (Z.testbit b0 5); split_and!; try done; lia.
Qed.

Section polling.
Context {Q : Type} `{RB : RingBuffer Z Q} (capacity : nat) `{!RingBufferLaws Z Q capacity}.

(** [n] polls: the events they return, and the mouse they leave. *)
Fixpoint poll_n (n : nat) (s : Mouse Q) : outcome Empty_set (list MouseEvent) * Mouse Q :=
  match n with
  | O => (Ok [], s)
  | S n =>
    match poll s with
    | (Ok o, s) =>
      let '(r, s) := poll_n n s in
      (es ← r; Ok (match o with Some e => e :: es | None => es end), s)
    | (Err e, s) => (Err e, s)
    | (Panic, s) => (Panic, s)
    end
  end.

(** Between polls: at most two bytes of a packet are held. *)
Definition packet_ok (p : PacketState) : Prop :=
  length (bytes p) = 3%nat ∧ (index p < 3)%nat ∧ (index p ≠ 0%nat → ∃ b0, bytes p !! 0%nat = Some b0 ∧ Z.land b0 8 ≠ 0).

(** The bytes of the packet in progress, followed by a stream. *)
Definition pending (p : PacketState) (bs : list Z) : list Z := take (index p) (bytes p) ++ bs.

Lemma assemble_spec byte p bs : packet_ok p →
  ∃ o p', assemble byte p = (Ok o, p') ∧ packet_ok p' ∧
    omap (λ '(b0, b1, b2), decode_packet b0 b1 b2) (packets (pending p (byte :: bs))) =
    match o with Some e => [e] | None => [] end ++
    omap (λ '(b0, b1, b2), decode_packet b0 b1 b2) (packets (pending p' bs)).
Proof.
  destruct p as [l i]. unfold packet_ok, pending, assemble. cbn [bytes index]. intros (Hlen & Hi & Hhead).
  destruct l as [|c0 [|c1 [|c2 [|]]]]; try done.
  destruct i as [|[|[|]]]; [| | |lia]; cbn [Nat.eqb andb].
  - destruct (Z.eqb_spec (Z.land byte 8) 0) as [Hz|Hz].
    + exists None, (mkPacket [c0; c1; c2] 0). split; [done|]. split; [done|]. cbn. by rewrite Hz.
    + exists None, (mkPacket [byte; c1; c2] 1). split; [done|]. split; [|done].
      split_and!; [done|cbn; lia|]. intros _. by exists byte.
  - destruct Hhead as (b0 & Hb0 & Hbit); [done|]. injection Hb0 as ->.
    exists None, (mkPacket [b0; byte; c2] 2). split; [done|]. split; [|done].
    split_and!; [done|cbn; lia|]. intros _. by exists b0.
  - destruct Hhead as (b0 & Hb0 & Hbit); [done|]. injection Hb0 as ->.
    exists (decode_packet b0 c1 byte), (mkPacket [b0; c1; byte] 0). split; [done|]. split; [split_and!; [done|cbn; lia|done]|].
    cbn [take app packets bytes index]. rewrite (proj2 (Z.eqb_neq _ _)) by done. cbn.
    by destruct (decode_packet b0 c1 byte).
Qed.

(** C39. Polling the mouse until its queue is empty yields the events of the
    packets in the byte stream: the packets of three bytes that start with a
    header byte, with stray bytes between them dropped, each decoded, in
    order; a packet in progress is kept for later polls. *)
Theorem poll_packets n s q : producer_consumer (MOUSE_QUEUE s) = Some q → packet_ok (PACKET_STATE s) →
  (length (rb_items q) ≤ n)%nat →
  ∃ es s', poll_n n s = (Ok es, s') ∧ packet_ok (PACKET_STATE s') ∧
    es = omap (λ '(b0, b1, b2), decode_packet b0 b1 b2) (packets (pending (PACKET_STATE s) (rb_items q))).
Proof.
  revert s q. induction n as [|n IH]; intros s q Hq Hp Hn.
  - assert (rb_items q = []) as -> by (destruct (rb_items q); [done|cbn in Hn; lia]).
    exists [], s. split_and!; [done|done|]. destruct (PACKET_STATE s) as [l i], Hp as (Hlen & Hi & Hhead).
    unfold pending. cbn [bytes index] in *. rewrite app_nil_r.
    destruct l as [|c0 [|c1 [|c2 [|]]]]; try done.
    destruct i as [|[|[|]]]; [done| | |lia]; cbn [take packets]; repeat (destruct (_ =? 0)); done.
  - cbn [poll_n]. unfold poll, pop_mouse_byte, pop. rewrite Hq. pose proof (rb_pop_items q) as Hpop.
    destruct (rb_try_pop q) as [[byte q1]|]; cbn [MOUSE_QUEUE PACKET_STATE].
    + destruct (assemble_spec byte (PACKET_STATE s) (rb_items q1) Hp) as (o & p' & -> & Hp' & Hev).
      destruct (IH (mkMouse (mkShared (Some q1) (dropped (MOUSE_QUEUE s))) p') q1 eq_refl Hp') as (es & s' & -> & Hp2 & Hes).
      { rewrite Hpop in Hn. cbn in Hn. lia. }
      exists (match o with Some e => e :: es | None => es end), s'. split; [by destruct o|]. split; [done|].
      rewrite Hpop, Hev. cbn [PACKET_STATE] in Hes. rewrite <- Hes. by destruct o.
    + destruct (IH (mkMouse (MOUSE_QUEUE s) (PACKET_STATE s)) q Hq Hp) as (es & s' & -> & Hp2 & Hes); [rewrite Hpop; cbn; lia|].
      exists es, s'. by split_and!.
Qed.
End polling.

(** A stray byte, a packet, and the start of another. *)
Lemma poll_packets_witness :
  ∃ s', @poll_n (list Z) (list_ring 256) 6 (mkMouse (mkShared (Some [0; 0x39; 5; 3; 0x08; 1]) 0) PACKET_STATE_new) =
    (Ok [mkEvent (-251) 253 true false false], s').
Proof.
  destruct (@poll_packets (list Z) (list_ring 256) 256 (list_ring_laws 256) 6
    (mkMouse (mkShared (Some [0; 0x39; 5; 3; 0x08; 1]) 0) PACKET_STATE_new) [0; 0x39; 5; 3; 0x08; 1] eq_refl)
    as (es & s' & H & _ & Hes).
  - split_and!; [done|cbn; lia|done].
  - cbn. lia.
  - exists s'. rewrite H, Hes. by vm_compute.
Defined.

Lemma cursor_round_trip_witness : ∃ c1 m1 c2 m2,
  draw_mouse_cursor demo_fb (mkCoord 2 1) (MOUSE_CURSOR_new, demo_pixels) = (Ok tt, (c1, m1)) ∧
  erase_mouse_cursor demo_fb (c1, m1) = (Ok tt, (c2, m2)) ∧ m2 0x1100 = demo_pixels 0x1100.
Proof.
  destruct (cursor_round_trip demo_fb (mkCoord 2 1) MOUSE_CURSOR_new demo_pixels demo_fb_ok)
    as (c1 & m1 & c2 & m2 & H1 & H2 & _ & _ & Hm & _); [done..|].
  exists c1, m1, c2, m2. split; [exact H1|]. split; [exact H2|]. apply Hm.
Defined.

(** ** The controller protocol *)

(** Every write to the controller follows at once a status that shows its
    input buffer empty, and every read of the data port one that shows its
    output buffer full; [prev] is the access before the list. *)
Fixpoint guarded (prev : option IoEvent) (l : list IoEvent) : Prop :=
  match l with
  | [] => True
  | e :: l =>
    match e with
    | Out _ _ => ∃ s, prev = Some (In PS2_STATUS s) ∧ Z.land s 2 = 0
    | In port v => port = PS2_STATUS ∨ port = PS2_DATA ∧ ∃ s, prev = Some (In PS2_STATUS s) ∧ Z.land s 1 ≠ 0
    | Out32 _ _ => False
    end ∧ guarded (Some e) l
  end.

Definition writes (l : list IoEvent) : list (Z * Z) := omap (λ e, match e with Out p v => Some (p, v) | _ => None end) l.
Definition data_reads (l : list IoEvent) : list Z :=
  omap (λ e, match e with In p v => if p =? PS2_DATA then Some v else None | _ => None end) l.

Lemma guarded_weaken prev l : guarded None l → guarded prev l.
Proof.
  destruct l as [|e l]; [done|]. cbn. intros [He Hl]. split; [|done].
  destruct e; [|by destruct He as (? & ? & _)|done]. destruct He as [?|(_ & ? & ? & _)]; [by left|done].
Qed.

Lemma guarded_app prev l1 l2 : guarded prev l1 → guarded None l2 → guarded prev (l1 ++ l2).
Proof.
  revert prev. induction l1 as [|e l1 IH]; intros prev H1 H2; cbn in *; [by apply guarded_weaken|].
  destruct H1 as [He H1]. split; [done|]. by apply IH.
Qed.

Section protocol.
Context {W : Type} `{Devices W}.
Implicit Types (io : Io W).

(** The operation returns on every machine, adds a guarded trace, and what it
    returned, wrote and read satisfies [P]. *)
Definition emits {A} (P : outcome Ps2Error A → list (Z * Z) → list Z → Prop) (m : M (Io W) Ps2Error A) : Prop :=
  ∀ io, ∃ o d l, m io = (o, mkIo d (trace io ++ l)) ∧ guarded None l ∧ P o (writes l) (data_reads l).

Lemma emits_ret {A} (P : outcome Ps2Error A → list (Z * Z) → list Z → Prop) (m : M (Io W) Ps2Error A) o :
  (∀ io, m io = (o, io)) → P o [] [] → emits P m.
Proof.
  intros Hm HP io. exists o, (dev io), []. rewrite app_nil_r, Hm. by destruct io.
Qed.

(** The two waits: the status they saw last, or a timeout. *)
Lemma ps2_wait_spec (m : nat → M (Io W) Ps2Error unit) (ready : Z → bool) :
  (∀ io, m 0%nat io = (Err Timeout, io)) →
  (∀ n io, m (S n) io = (status ← inb PS2_STATUS; if ready status then mret tt else m n) io) →
  ∀ n io, ∃ o d l, m n io = (o, mkIo d (trace io ++ l)) ∧ guarded None l ∧ writes l = [] ∧ data_reads l = [] ∧
    (o = Err Timeout ∨ o = Ok tt ∧ ∃ l' s, l = l' ++ [In PS2_STATUS s] ∧ ready s = true).
Proof.
  intros H0 HS n. induction n as [|n IH]; intros io.
  { exists (Err Timeout), (dev io), []. rewrite H0, app_nil_r. split; [by destruct io|]. do 3 (split; [done|]). by left. }
  rewrite HS. unfold mbind, M_bind at 1, inb. destruct (dev_in PS2_STATUS (dev io)) as [v d].
  destruct (ready (v mod 256)) eqn:Hr.
  - exists (Ok tt), d, [In PS2_STATUS (v mod 256)]. split; [done|]. split; [split; [by left|done]|]. do 2 (split; [done|]).
    right. split; [done|]. by exists [], (v mod 256).
  - destruct (IH (mkIo d (trace io ++ [In PS2_STATUS (v mod 256)]))) as (o & d' & l & -> & Hg & Hw & Hd & Ho).
    exists o, d', (In PS2_STATUS (v mod 256) :: l). cbn [trace]. rewrite <- app_assoc. split; [done|].
    split; [split; [by left|by apply guarded_weaken]|]. split; [done|]. split; [done|].
    destruct Ho as [->|(-> & l' & s & -> & Hs)]; [by left|]. right. split; [done|].
    by exists (In PS2_STATUS (v mod 256) :: l'), s.
Qed.

Lemma guarded_snoc l e s : guarded None (l ++ [In PS2_STATUS s]) →
  match e with
  | Out _ _ => Z.land s 2 = 0
  | In p _ => p = PS2_DATA ∧ Z.land s 1 ≠ 0
  | Out32 _ _ => False
  end → guarded None ((l ++ [In PS2_STATUS s]) ++ [e]).
Proof.
  generalize (None (A:=IoEvent)). induction l as [|e' l IH]; intros prev; cbn.
  - intros [Hp _] He. split; [done|]. split; [|done]. destruct e; [right|eauto|done]. destruct He as [-> He]. split; [done|]. eauto.
  - intros [He' Hl] He. split; [done|]. by apply IH.
Qed.

(** A write step of the protocol, and a read step. *)
Lemma emits_write {B} (P : outcome Ps2Error B → list (Z * Z) → list Z → Prop) port v (k : M (Io W) Ps2Error B) :
  P (Err Timeout) [] [] → emits (λ o ws rs, P o ((port, v) :: ws) rs) k →
  emits P ((wait_write_ready;; outb v port);; k).
Proof.
  intros HT Hk io. unfold wait_write_ready.
  destruct (ps2_wait_spec wait_write_loop (λ s, Z.land s 2 =? 0) ltac:(done) ltac:(done) (Z.to_nat PS2_READY_POLL_LIMIT) io)
    as (o & d & l & Hm & Hg & Hw & Hd & Ho).
  unfold mbind, M_bind. rewrite Hm. destruct Ho as [->|(-> & l' & s & -> & Hs%Z.eqb_eq)].
  - exists (Err Timeout), d, l. split; [done|]. by rewrite Hw, Hd.
  - unfold outb. destruct (Hk (mkIo (dev_out port v d) ((trace io ++ l' ++ [In PS2_STATUS s]) ++ [Out port v])))
      as (o & d2 & l2 & Hk1 & Hg2 & HP).
    exists o, d2, ((l' ++ [In PS2_STATUS s]) ++ [Out port v] ++ l2). cbn [dev trace].
    split; [rewrite Hk1; cbn [trace]; by rewrite <- !app_assoc|]. split.
    + rewrite app_assoc. apply guarded_app; [|done]. by apply guarded_snoc.
    + unfold writes, data_reads in *. rewrite !omap_app in *. rewrite Hw, Hd. exact HP.
Qed.

Lemma emits_read {B} (P : outcome Ps2Error B → list (Z * Z) → list Z → Prop) (k : Z → M (Io W) Ps2Error B) :
  P (Err Timeout) [] [] → (∀ v, 0 ≤ v < 256 → emits (λ o ws rs, P o ws (v :: rs)) (k v)) →
  emits P (v ← ps2_read_data; k v).
Proof.
  intros HT Hk io. unfold ps2_read_data, wait_read_ready.
  destruct (ps2_wait_spec wait_read_loop (λ s, negb (Z.land s 1 =? 0)) ltac:(done) ltac:(done) (Z.to_nat PS2_READY_POLL_LIMIT) io)
    as (o & d & l & Hm & Hg & Hw & Hd & Ho).
  unfold mbind, M_bind. rewrite Hm. destruct Ho as [->|(-> & l' & s & -> & Hs)].
  - exists (Err Timeout), d, l. split; [done|]. by rewrite Hw, Hd.
  - apply negb_true_iff, Z.eqb_neq in Hs. unfold inb. cbn [dev trace]. destruct (dev_in PS2_DATA d) as [v d1].
    destruct (Hk (v mod 256) ltac:(apply Z.mod_pos_bound; lia) (mkIo d1 ((trace io ++ l' ++ [In PS2_STATUS s]) ++ [In PS2_DATA (v mod 256)])))
      as (o & d2 & l2 & Hk1 & Hg2 & HP).
    exists o, d2, ((l' ++ [In PS2_STATUS s]) ++ [In PS2_DATA (v mod 256)] ++ l2).
    split; [rewrite Hk1; cbn [trace]; by rewrite <- !app_assoc|]. split.
    + rewrite app_assoc. apply guarded_app; [|done]. by apply guarded_snoc.
    + unfold writes, data_reads in *. rewrite !omap_app in *. rewrite Hw, Hd. exact HP.
Qed.

(** The configuration byte with IRQ12 enabled and the mouse clock running. *)
Definition mouse_config (config : Z) : Z := Z.land (Z.lor config 2) (255 - 32).
Definition setup_writes (config : Z) : list (Z * Z) :=
  [(PS2_COMMAND, CMD_ENABLE_AUX); (PS2_COMMAND, CMD_READ_CONFIG); (PS2_COMMAND, CMD_WRITE_CONFIG);
   (PS2_DATA, mouse_config config); (PS2_COMMAND, CMD_WRITE_TO_AUX); (PS2_DATA, MOUSE_ENABLE_PACKETS)].

(** The result of the setup against what went over the wires. *)
Definition setup_result (o : outcome Ps2Error unit) (ws : list (Z * Z)) (rs : list Z) : Prop :=
  match o with
  | Ok _ => ∃ c, 0 ≤ c < 256 ∧ rs = [c; MOUSE_ACK] ∧ ws = setup_writes c
  | Err Timeout => ∃ c, ws `prefix_of` setup_writes c
  | Err (UnexpectedResponse a) => ∃ c, rs = [c; a] ∧ a ≠ MOUSE_ACK ∧ ws = setup_writes c
  | Panic => False
  end.

Lemma setup_emits : emits setup_result initialize_controller.
Proof.
  unfold initialize_controller, ps2_write_command, ps2_write_data.
  apply emits_write; [by exists 0; apply prefix_nil|].
  apply emits_write; [exists 0; by eexists|].
  apply emits_read; [exists 0; by eexists|]. intros c Hc.
  apply emits_write; [exists c; by eexists|].
  apply emits_write; [exists c; by eexists|].
  apply emits_write; [exists c; by eexists|].
  apply emits_write; [exists c; by eexists|].
  apply emits_read; [exists c; by eexists|]. intros a Ha.
  destruct (Z.eqb_spec a MOUSE_ACK) as [->|Hne]; cbn [negb].
  - eapply emits_ret; [done|]. by exists c.
  - eapply emits_ret; [done|]. by exists c.
Qed.

(** C29. The PS/2 setup follows the controller's protocol on every machine: it
    writes only when the input buffer is empty and reads only when the output
    buffer is full, gives up after a bounded wait, and succeeds only after the
    whole command sequence was acknowledged; the configuration it writes back
    has IRQ12 enabled, the mouse clock running and every other bit as read. *)
Theorem initialize_controller_protocol io : ∃ o d l,
  initialize_controller io = (o, mkIo d (trace io ++ l)) ∧ guarded None l ∧
  setup_result o (writes l) (data_reads l) ∧
  (∀ c i, 0 ≤ c < 256 → 0 ≤ i →
    Z.testbit (mouse_config c) i = if i =? 1 then true else if i =? 5 then false else Z.testbit c i).
Proof.
  destruct (setup_emits io) as (o & d & l & Hm & Hg & HP). exists o, d, l. split_and!; [done..|].
  intros c i Hc Hi. unfold mouse_config. rewrite Z.land_spec, Z.lor_spec.
  assert (∀ j, 0 ≤ j → Z.testbit 2 j = (j =? 1)) as H2.
  { intros j Hj. change 2 with (2 ^ 1). destruct (Z.eqb_spec j 1) as [->|Hne]; [done|]. by apply Z.pow2_bits_false. }
  rewrite H2 by done. destruct (Z.eqb_spec i 1) as [->|H1]; [by rewrite orb_true_r|]. rewrite orb_false_r.
  destruct (Z.eqb_spec i 5) as [->|H5]; [apply andb_false_r|].
  destruct (Z.lt_ge_cases i 8) as [Hlt|Hge].
  - assert (i = 0 ∨ i = 2 ∨ i = 3 ∨ i = 4 ∨ i = 6 ∨ i = 7) as Hcases by lia.
    destruct Hcases as [->|[->|[->|[->|[->| ->]]]]]; apply andb_true_r.
  - replace (Z.testbit c i) with false; [done|]. symmetry.
    destruct (Z.eq_dec c 0) as [->|Hc0]; [apply Z.bits_0|]. apply Z.bits_above_log2; [lia|].
    apply Z.lt_le_trans with 8; [|done]. apply Z.log2_lt_pow2; lia.
Qed.
End protocol.
