(* ===== verification/Interrupts.v ===== *)
(** * Interrupts: descriptor tables, the legacy PIC and PIT, and the IRQ
    handlers of [src/interrupts/] (mod.rs, controller.rs, pic.rs, pit.rs,
    idt.rs, gdt.rs, handlers.rs).

    The kernel state is the machine behind the ports together with the tables
    and the input queues; the exception handlers are in Faults. *)

From S2P Require Import Prelude Globals Ports Keyboard Mouse.

(** ** Interrupt controllers *)

Inductive Irq : Type := Timer | KeyboardIrq | MouseIrq.

#[export] Instance Irq_eq_dec : EqDecision Irq.
Proof. solve_decision. Defined.

(** The trait [InterruptController]. *)
Class InterruptController (W C : Type) := {
  initialize : C → M (Io W) Empty_set unit;
  vector_for : C → Irq → Z;
  acknowledge : C → Irq → M (Io W) Empty_set unit;
  enable_runtime : C → M (Io W) Empty_set unit;
  enable_mouse : C → M (Io W) Empty_set unit;
}.

Definition MASTER_OFFSET : Z := 32.
Definition SLAVE_OFFSET : Z := MASTER_OFFSET + 8.
Definition MASTER_COMMAND : Z := 0x20.
Definition MASTER_DATA : Z := 0x21.
Definition SLAVE_COMMAND : Z := 0xa0.
Definition SLAVE_DATA : Z := 0xa1.
Definition EOI : Z := 0x20.
Definition TIMER_VECTOR : Z := MASTER_OFFSET.
Definition KEYBOARD_VECTOR : Z := MASTER_OFFSET + 1.
Definition MOUSE_VECTOR : Z := SLAVE_OFFSET + 4.

Inductive LegacyPic : Type := legacy_pic.

Section pic.
Context {W : Type} `{Devices W}.
Abbreviation Port := (M (Io W) Empty_set) (only parsing).

(** [initialize] of pic.rs *)
Definition pic_initialize : Port unit :=
  let ICW1_INIT := 0x10 in
  let ICW1_ICW4 := 0x01 in
  let ICW4_8086 := 0x01 in
  let MASTER_IRQ_MASK := 255 in
  let SLAVE_IRQ_MASK := 255 in
  outb (Z.lor ICW1_INIT ICW1_ICW4) MASTER_COMMAND;;
  outb (Z.lor ICW1_INIT ICW1_ICW4) SLAVE_COMMAND;;
  outb MASTER_OFFSET MASTER_DATA;;
  outb SLAVE_OFFSET SLAVE_DATA;;
  outb 0x04 MASTER_DATA;;
  outb 0x02 SLAVE_DATA;;
  outb ICW4_8086 MASTER_DATA;;
  outb ICW4_8086 SLAVE_DATA;;
  outb MASTER_IRQ_MASK MASTER_DATA;;
  outb SLAVE_IRQ_MASK SLAVE_DATA.

Definition acknowledge_master : Port unit := outb EOI MASTER_COMMAND.
Definition acknowledge_slave : Port unit := outb EOI SLAVE_COMMAND;; outb EOI MASTER_COMMAND.

(** [impl InterruptController for LegacyPic] *)
#[export] Instance LegacyPic_controller : InterruptController W LegacyPic := {|
  initialize _ := pic_initialize;
  vector_for _ irq := match irq with
                      | Timer => TIMER_VECTOR | KeyboardIrq => KEYBOARD_VECTOR | MouseIrq => MOUSE_VECTOR
                      end;
  acknowledge _ irq := match irq with
                       | Timer | KeyboardIrq => acknowledge_master
                       | MouseIrq => acknowledge_slave
                       end;
  enable_runtime _ := outb 253 MASTER_DATA;
  enable_mouse _ := outb 248 MASTER_DATA;; outb 239 SLAVE_DATA;
|}.

(** [CONTROLLER] *)
Definition CONTROLLER : LegacyPic := legacy_pic.

(** The wrappers of the selected controller. *)
Definition controller_initialize : M (Io W) Empty_set unit := initialize CONTROLLER.
Definition controller_vector_for (irq : Irq) : Z := vector_for (W:=W) CONTROLLER irq.
Definition controller_acknowledge (irq : Irq) : M (Io W) Empty_set unit := acknowledge CONTROLLER irq.
Definition controller_enable_runtime : M (Io W) Empty_set unit := enable_runtime CONTROLLER.
Definition controller_enable_mouse : M (Io W) Empty_set unit := enable_mouse CONTROLLER.

(** ** The timer chip *)

Definition COMMAND_PORT : Z := 0x43.
Definition CHANNEL_0_PORT : Z := 0x40.
Definition CHANNEL_0_MODE_3 : Z := 0x36.

(** [divisor] *)
Definition divisor : Z := (PIT_FREQUENCY / TIMER_FREQUENCY) mod 65536.

(** [initialize] of pit.rs *)
Definition pit_initialize : Port unit :=
  outb CHANNEL_0_MODE_3 COMMAND_PORT;;
  outb (Z.land divisor 255 mod 256) CHANNEL_0_PORT;;
  outb (Z.shiftr divisor 8 mod 256) CHANNEL_0_PORT.

(** [drain_ps2_output], with [n] rounds left of its 32. *)
Fixpoint drain_loop (n : nat) : Port unit :=
  match n with
  | O => mret tt
  | S n =>
    status ← inb PS2_STATUS;
    if Z.land status 1 =? 0 then mret tt else inb PS2_DATA;; drain_loop n
  end.
Definition drain_ps2_output : Port unit := drain_loop 32.
End pic.

(** ** Descriptor tables *)

(** The functions that the gates of the interrupt descriptor table name. *)
Inductive handler : Type :=
  | divide_error | debug | non_maskable_interrupt | breakpoint | overflow | bound_range_exceeded
  | invalid_opcode | device_not_available | double_fault | invalid_tss | segment_not_present
  | stack_segment_fault | general_protection_fault | page_fault | x87_floating_point | alignment_check
  | machine_check | simd_floating_point | virtualization | cp_protection_exception
  | hv_injection_exception | vmm_communication_exception | security_exception
  | timer | keyboard | mouse.

(** A gate: its function and its interrupt stack, if it has one of its own. *)
Record Gate : Type := mkGate { gate_handler : handler; stack_index : option Z }.

Definition NMI_IST_INDEX : Z := 0.
Definition DOUBLE_FAULT_IST_INDEX : Z := 1.
Definition MACHINE_CHECK_IST_INDEX : Z := 2.
Definition IST_STACK_SIZE : Z := 32 * 1024.

(** The vectors of the exceptions, as the architecture numbers the fields of
    the table. *)
Definition exception_vector (h : handler) : Z :=
  match h with
  | divide_error => 0 | debug => 1 | non_maskable_interrupt => 2 | breakpoint => 3 | overflow => 4
  | bound_range_exceeded => 5 | invalid_opcode => 6 | device_not_available => 7 | double_fault => 8
  | invalid_tss => 10 | segment_not_present => 11 | stack_segment_fault => 12 | general_protection_fault => 13
  | page_fault => 14 | x87_floating_point => 16 | alignment_check => 17 | machine_check => 18
  | simd_floating_point => 19 | virtualization => 20 | cp_protection_exception => 21
  | hv_injection_exception => 28 | vmm_communication_exception => 29 | security_exception => 30
  | timer | keyboard | mouse => -1
  end.

Definition set_handler_fn (h : handler) (idt : gmap Z Gate) : gmap Z Gate :=
  <[exception_vector h := mkGate h None]> idt.
Definition set_handler_stack (h : handler) (stack : Z) (idt : gmap Z Gate) : gmap Z Gate :=
  <[exception_vector h := mkGate h (Some stack)]> idt.

Section tables.
Context {W C : Type} `{InterruptController W C} (controller : C).

(** [idt::install] *)
Definition idt_install : gmap Z Gate :=
  let idt := ∅ in
  let idt := set_handler_fn divide_error idt in
  let idt := set_handler_fn debug idt in
  let idt := set_handler_stack non_maskable_interrupt NMI_IST_INDEX idt in
  let idt := set_handler_fn breakpoint idt in
  let idt := set_handler_fn overflow idt in
  let idt := set_handler_fn bound_range_exceeded idt in
  let idt := set_handler_fn invalid_opcode idt in
  let idt := set_handler_fn device_not_available idt in
  let idt := set_handler_stack double_fault DOUBLE_FAULT_IST_INDEX idt in
  let idt := set_handler_fn invalid_tss idt in
  let idt := set_handler_fn segment_not_present idt in
  let idt := set_handler_fn stack_segment_fault idt in
  let idt := set_handler_fn general_protection_fault idt in
  let idt := set_handler_fn page_fault idt in
  let idt := set_handler_fn x87_floating_point idt in
  let idt := set_handler_fn alignment_check idt in
  let idt := set_handler_stack machine_check MACHINE_CHECK_IST_INDEX idt in
  let idt := set_handler_fn simd_floating_point idt in
  let idt := set_handler_fn virtualization idt in
  let idt := set_handler_fn cp_protection_exception idt in
  let idt := set_handler_fn hv_injection_exception idt in
  let idt := set_handler_fn vmm_communication_exception idt in
  let idt := set_handler_fn security_exception idt in
  let idt := <[vector_for controller Timer := mkGate timer None]> idt in
  let idt := <[vector_for controller KeyboardIrq := mkGate keyboard None]> idt in
  <[vector_for controller MouseIrq := mkGate mouse None]> idt.
End tables.

(** [stack_top], with the address of [INTERRUPT_STACKS]. *)
Definition stack_top (INTERRUPT_STACKS : Z) (index : nat) : outcome Empty_set Z :=
  if Nat.ltb index 3 then Ok (INTERRUPT_STACKS + Z.of_nat index * IST_STACK_SIZE + IST_STACK_SIZE) else Panic.

(** The interrupt stack table that [gdt::install] loads. *)
Definition interrupt_stack_table (INTERRUPT_STACKS : Z) : outcome Empty_set (list Z) :=
  let table := replicate 7 0 in
  top ← stack_top INTERRUPT_STACKS 0; table ← array_set table (Z.to_nat NMI_IST_INDEX) top;
  top ← stack_top INTERRUPT_STACKS 1; table ← array_set table (Z.to_nat DOUBLE_FAULT_IST_INDEX) top;
  top ← stack_top INTERRUPT_STACKS 2; array_set table (Z.to_nat MACHINE_CHECK_IST_INDEX) top.

(** ** The kernel behind the interrupts *)

Record Kernel (W D Q : Type) : Type := mkKernel {
  io : Io W;
  IDT : option (gmap Z Gate);
  TSS : option (list Z);
  HARDWARE_INITIALIZED : bool;
  TICKS : Z;
  kb : Keyboard D Q;
  ms : Mouse Q;
}.
Arguments mkKernel {W D Q} _ _ _ _ _ _ _.
Arguments io {W D Q} _.
Arguments IDT {W D Q} _.
Arguments TSS {W D Q} _.
Arguments HARDWARE_INITIALIZED {W D Q} _.
Arguments TICKS {W D Q} _.
Arguments kb {W D Q} _.
Arguments ms {W D Q} _.

Section handlers.
Context {W D Q C : Type} `{Devices W} `{InterruptController W C} `{RB : RingBuffer Z Q} (controller : C).
Abbreviation Kern := (Kernel W D Q) (only parsing).

Definition on_io {A E} (m : M (Io W) E A) : M Kern E A := λ k,
  let '(o, i) := m (io k) in (o, mkKernel i (IDT k) (TSS k) (HARDWARE_INITIALIZED k) (TICKS k) (kb k) (ms k)).
Definition set_idt (t : gmap Z Gate) (k : Kern) : Kern := mkKernel (io k) (Some t) (TSS k) (HARDWARE_INITIALIZED k) (TICKS k) (kb k) (ms k).
Definition set_tss (t : list Z) (k : Kern) : Kern := mkKernel (io k) (IDT k) (Some t) (HARDWARE_INITIALIZED k) (TICKS k) (kb k) (ms k).
Definition set_initialized (k : Kern) : Kern := mkKernel (io k) (IDT k) (TSS k) true (TICKS k) (kb k) (ms k).
Definition set_ticks (t : Z) (k : Kern) : Kern := mkKernel (io k) (IDT k) (TSS k) (HARDWARE_INITIALIZED k) t (kb k) (ms k).
Definition set_kb (b : Keyboard D Q) (k : Kern) : Kern := mkKernel (io k) (IDT k) (TSS k) (HARDWARE_INITIALIZED k) (TICKS k) b (ms k).
Definition set_ms (b : Mouse Q) (k : Kern) : Kern := mkKernel (io k) (IDT k) (TSS k) (HARDWARE_INITIALIZED k) (TICKS k) (kb k) b.
Definition modify (f : Kern → Kern) : M Kern Empty_set unit := λ k, (Ok tt, f k).

(** [handlers::timer], [keyboard] and [mouse] *)
Definition timer_handler : M Kern Empty_set unit :=
  modify (λ k, set_ticks ((TICKS k + 1) mod U64_SIZE) k);;
  on_io (acknowledge controller Timer).

Definition keyboard_handler : M Kern Empty_set unit :=
  code ← on_io (inb PS2_DATA);
  if (code =? 0xfa) || (code =? 0xfe) then on_io (acknowledge controller KeyboardIrq) else
  modify (λ k, set_kb (push_keyboard_scancode code (kb k)) k);;
  on_io (acknowledge controller KeyboardIrq).

Definition mouse_handler : M Kern Empty_set unit :=
  byte ← on_io (inb PS2_DATA);
  modify (λ k, set_ms (push_mouse_byte byte (ms k)) k);;
  on_io (acknowledge controller MouseIrq).

Definition run_handler (irq : Irq) : M Kern Empty_set unit :=
  match irq with Timer => timer_handler | KeyboardIrq => keyboard_handler | MouseIrq => mouse_handler end.

(** [interrupts::init], while interrupts are off; the result of the mouse
    setup is ignored. *)
Definition init (INTERRUPT_STACKS : Z) : M Kern Empty_set unit :=
  tss ← lift (interrupt_stack_table INTERRUPT_STACKS);
  modify (λ k, match TSS k with None => set_tss tss k | Some _ => k end);;
  modify (λ k, match IDT k with None => set_idt (idt_install controller) k | Some _ => k end);;
  k ← get;
  (if HARDWARE_INITIALIZED k then mret tt else
    on_io (initialize controller);;
    on_io pit_initialize;;
    (λ k, let '(_, k) := on_io initialize_controller k in (Ok tt, k));;
    modify set_initialized);;
  k ← get;
  b ← lift (init_keyboard (kb k)); modify (set_kb b);;
  k ← get;
  b ← lift (init_mouse (ms k)); modify (set_ms b);;
  on_io drain_ps2_output.
End handlers.

(** ** The 8259 pair, as its data sheet describes it

    The specification side: what the port writes of the kernel make of the two
    controllers.  [icw] counts the initialization words still expected. *)

Record Pic : Type := mkPic { offset : Z; imr : Z; isr : Z; icw : nat }.

Definition pic_command (v : Z) (p : Pic) : Pic :=
  if Z.testbit v 4 then mkPic (offset p) 0 0 3
  else if v =? 0x20 then mkPic (offset p) (imr p) (Z.land (isr p) (isr p - 1)) (icw p)
  else p.
Definition pic_data (v : Z) (p : Pic) : Pic :=
  match icw p with
  | 0%nat => mkPic (offset p) v (isr p) 0
  | 3%nat => mkPic (Z.land v 248) (imr p) (isr p) 2
  | S n => mkPic (offset p) (imr p) (isr p) n
  end.

Definition pics_write (s : Pic * Pic) (w : Z * Z) : Pic * Pic :=
  let '(m, sl) := s in let '(port, v) := w in
  if port =? MASTER_COMMAND then (pic_command v m, sl)
  else if port =? MASTER_DATA then (pic_data v m, sl)
  else if port =? SLAVE_COMMAND then (m, pic_command v sl)
  else if port =? SLAVE_DATA then (m, pic_data v sl)
  else s.
Definition pics_after (l : list IoEvent) (s : Pic * Pic) : Pic * Pic := fold_left pics_write (writes l) s.

(** The delivery of an interrupt line (0 to 15): its vector and the pair with
    the line in service, unless it is masked; the slave hangs on line 2. *)
Definition deliver (line : Z) (s : Pic * Pic) : option (Z * (Pic * Pic)) :=
  let '(m, sl) := s in
  let serve l p := mkPic (offset p) (imr p) (Z.lor (isr p) (2 ^ l)) (icw p) in
  if line <? 8 then
    if Z.testbit (imr m) line then None else Some (offset m + line, (serve line m, sl))
  else
    if Z.testbit (imr m) 2 || Z.testbit (imr sl) (line - 8) then None
    else Some (offset sl + (line - 8), (serve 2 m, serve (line - 8) sl)).

Definition irq_line (irq : Irq) : Z := match irq with Timer => 0 | KeyboardIrq => 1 | MouseIrq => 12 end.
Definition irq_handler (irq : Irq) : handler := match irq with Timer => timer | KeyboardIrq => keyboard | MouseIrq => mouse end.

(** The pair as the kernel programs it, with its two masks. *)
Definition programmed (master_mask slave_mask : Z) : Pic * Pic := (mkPic 32 master_mask 0 0, mkPic 40 slave_mask 0 0).

Lemma writes_app l1 l2 : writes (l1 ++ l2) = writes l1 ++ writes l2.
Proof. apply omap_app. Qed.

Lemma pics_after_app l1 l2 s : pics_after (l1 ++ l2) s = pics_after l2 (pics_after l1 s).
Proof. unfold pics_after. by rewrite writes_app, fold_left_app. Qed.

(** Writes to other ports leave the pair alone. *)
Definition other_port (w : Z * Z) : Prop :=
  fst w ≠ MASTER_COMMAND ∧ fst w ≠ MASTER_DATA ∧ fst w ≠ SLAVE_COMMAND ∧ fst w ≠ SLAVE_DATA.

Lemma pics_other ws s : Forall other_port ws → fold_left pics_write ws s = s.
Proof.
  revert s. induction ws as [|[port v] ws IH]; intros s Hws; [done|]. apply Forall_cons in Hws as [(H1 & H2 & H3 & H4) Hws].
  cbn [fold_left]. cbn [fst] in *. destruct s as [m sl]. unfold pics_write at 2.
  rewrite !(proj2 (Z.eqb_neq _ _)) by done. by apply IH.
Qed.

Lemma setup_writes_other c : Forall other_port (setup_writes c).
Proof. repeat (apply Forall_cons; split); done. Qed.

Lemma setup_result_other o ws rs : setup_result o ws rs → Forall other_port ws ∧ o ≠ Panic.
Proof.
  destruct o as [u|[|a]|]; cbn.
  - intros (c & _ & _ & ->). split; [apply setup_writes_other|done].
  - intros (c & l & Heq). split; [|done]. pose proof (setup_writes_other c) as H. rewrite Heq in H.
    by apply Forall_app in H as [H _].
  - intros (c & _ & _ & ->). split; [apply setup_writes_other|done].
  - done.
Qed.

Section proofs.
Context {W D Q : Type} `{Devices W} `{RB : RingBuffer Z Q}.
Implicit Types (i : Io W) (k : Kernel W D Q).

Abbreviation ctl := CONTROLLER (only parsing).

Lemma drain_loop_trace n i : ∃ d l, drain_loop n i = (Ok tt, mkIo d (trace i ++ l)) ∧ writes l = [].
Proof.
  revert i. induction n as [|n IH]; intros i.
  { exists (dev i), []. rewrite app_nil_r. by destruct i. }
  cbn [drain_loop]. unfold_monad. unfold inb at 1. destruct (dev_in PS2_STATUS (dev i)) as [v d]. cbn beta iota zeta.
  destruct (Z.land (v mod 256) 1 =? 0); [by exists d, [In PS2_STATUS (v mod 256)]|].
  unfold inb. cbn [dev trace]. destruct (dev_in PS2_DATA d) as [v2 d2].
  destruct (IH (mkIo d2 ((trace i ++ [In PS2_STATUS (v mod 256)]) ++ [In PS2_DATA (v2 mod 256)]))) as (d3 & l & -> & Hw).
  exists d3, ([In PS2_STATUS (v mod 256); In PS2_DATA (v2 mod 256)] ++ l). cbn [trace].
  split; [by rewrite <- !app_assoc|]. by rewrite writes_app, Hw.
Qed.

Lemma pic_initialize_trace i s : ∃ d l, pic_initialize i = (Ok tt, mkIo d (trace i ++ l)) ∧
  pics_after l s = programmed 255 255.
Proof.
  unfold pic_initialize, outb. unfold_monad. cbn [dev trace]. do 2 eexists. split; [rewrite <- !app_assoc; reflexivity|].
  destruct s as [m sl]. done.
Qed.

(** The rate that the timer chip is programmed with. *)
Lemma pit_initialize_trace i : ∃ d, pit_initialize i = (Ok tt, mkIo d (trace i ++
  [Out 0x43 0x36; Out 0x40 (PIT_DIVISOR mod 256); Out 0x40 (PIT_DIVISOR / 256)])).
Proof.
  unfold pit_initialize, outb. unfold_monad. cbn [dev trace]. eexists. rewrite <- !app_assoc. reflexivity.
Qed.

Lemma on_io_run {A E} (m : M (Io W) E A) k o d l : m (io k) = (o, mkIo d (trace (io k) ++ l)) →
  on_io m k = (o, mkKernel (mkIo d (trace (io k) ++ l)) (IDT k) (TSS k) (HARDWARE_INITIALIZED k) (TICKS k) (kb k) (ms k)).
Proof. intros Hm. unfold on_io. by rewrite Hm. Qed.

(** Before [init]: nothing loaded, no queue set up. *)
Definition fresh k : Prop :=
  IDT k = None ∧ TSS k = None ∧ HARDWARE_INITIALIZED k = false ∧
  producer_consumer (KEYBOARD_QUEUE (kb k)) = None ∧ producer_consumer (MOUSE_QUEUE (ms k)) = None.

(** The descriptor tables of a booted kernel. *)
Definition tables_ok (INTERRUPT_STACKS : Z) (idt : gmap Z Gate) (table : list Z) : Prop :=
  (∀ irq, idt !! vector_for (W:=W) ctl irq = Some (mkGate (irq_handler irq) None)) ∧
  (∀ h, 0 ≤ exception_vector h → ∃ g, idt !! exception_vector h = Some g ∧ gate_handler g = h ∧
    ∀ ist, stack_index g = Some ist → 0 ≤ ist < 3 ∧
      table !! Z.to_nat ist = Some (INTERRUPT_STACKS + (ist + 1) * IST_STACK_SIZE)) ∧
  (∀ h1 h2 g1 g2, idt !! exception_vector h1 = Some g1 → idt !! exception_vector h2 = Some g2 →
    0 ≤ exception_vector h1 → 0 ≤ exception_vector h2 → h1 ≠ h2 → is_Some (stack_index g1) →
    stack_index g1 ≠ stack_index g2) ∧
  (∀ h, h ∈ [non_maskable_interrupt; double_fault; machine_check] →
    ∃ g ist, idt !! exception_vector h = Some g ∧ stack_index g = Some ist).

Lemma install_tables_ok base : ∃ table, interrupt_stack_table base = Ok table ∧
  tables_ok base (idt_install (W:=W) ctl) table.
Proof.
  eexists. split; [reflexivity|].
  assert (∀ h, 0 ≤ exception_vector h → idt_install (W:=W) ctl !! exception_vector h = Some (mkGate h
    match h with non_maskable_interrupt => Some 0 | double_fault => Some 1 | machine_check => Some 2 | _ => None end)) as Hgate.
  { intros h Hh. destruct h; try (by vm_compute); by destruct Hh. }
  split_and!.
  - intros irq. destruct irq; by vm_compute.
  - intros h Hh. eexists. split; [by apply Hgate|]. split; [done|]. cbn [stack_index]. intros ist Hist.
    destruct h; simplify_eq; (split; [lia|]);
      match goal with |- _ = Some (?a + (?i + 1) * ?s) =>
        replace (a + (i + 1) * s) with (a + Z.of_nat (Z.to_nat i) * s + s) by (rewrite Z2Nat.id by lia; lia) end;
      reflexivity.
  - intros h1 h2 g1 g2 H1 H2 Hv1 Hv2 Hne Hs Heq. rewrite Hgate in H1 by done. rewrite Hgate in H2 by done.
    simplify_eq/=. destruct h1; try (by destruct Hs); destruct h2; simplify_eq.
  - intros h Hh. rewrite !elem_of_cons in Hh. destruct Hh as [->|[->|[->|[]%not_elem_of_nil]]]; eexists _, _; by rewrite Hgate.
Qed.

(** C27. Booting the interrupt system: [init] loads tables in which every
    exception and every device interrupt has its own handler and the three
    critical exceptions (the non-maskable interrupt, the double fault and the
    machine check) each have a stack of their own, sets up both queues and
    leaves every interrupt masked; [enable_runtime] then lets in the keyboard
    only and [enable_mouse] the timer, the keyboard and the mouse, each at the
    vector of its own gate. *)
Theorem init_spec base k : fresh k →
  ∃ k1 k2 k3 table idt l1 l2 l3,
    init ctl base k = (Ok tt, k1) ∧ on_io (enable_runtime ctl) k1 = (Ok tt, k2) ∧
    on_io (enable_mouse ctl) k2 = (Ok tt, k3) ∧
    IDT k3 = Some idt ∧ TSS k3 = Some table ∧ tables_ok base idt table ∧
    producer_consumer (KEYBOARD_QUEUE (kb k3)) = Some rb_default ∧
    producer_consumer (MOUSE_QUEUE (ms k3)) = Some rb_default ∧
    trace (io k1) = trace (io k) ++ l1 ∧ trace (io k2) = trace (io k1) ++ l2 ∧ trace (io k3) = trace (io k2) ++ l3 ∧
    ∀ s, let s1 := pics_after l1 s in let s2 := pics_after l2 s1 in let s3 := pics_after l3 s2 in
      (∀ line, 0 ≤ line < 16 → deliver line s1 = None ∧ (is_Some (deliver line s2) ↔ line = irq_line KeyboardIrq) ∧
        (line ≠ 2 → is_Some (deliver line s3) → ∃ irq, line = irq_line irq)) ∧
      (∀ irq, ∃ s4, deliver (irq_line irq) s3 = Some (vector_for (W:=W) ctl irq, s4)).
Proof.
  intros (Hidt & Htss & Hhw & Hkb & Hms). destruct (install_tables_ok base) as (table & Htable & Hok).
  destruct k as [i idt0 tss0 hw ticks b m]. cbn [io IDT TSS HARDWARE_INITIALIZED kb ms TICKS] in *. subst idt0 tss0 hw.
  destruct (pic_initialize_trace i (mkPic 0 0 0 0, mkPic 0 0 0 0)) as (d1 & p1 & Hp1 & _).
  assert (∀ s, pics_after p1 s = programmed 255 255) as Hpics.
  { intros s. destruct (pic_initialize_trace i s) as (d' & p' & Hp' & Hs). rewrite Hp1 in Hp'.
    injection Hp' as _ Heq. apply app_inv_head in Heq. by subst. }
  destruct (pit_initialize_trace (mkIo d1 (trace i ++ p1))) as (d2 & Hp2).
  set (p2 := [Out 0x43 0x36; _; _]) in Hp2.
  destruct (setup_emits (mkIo d2 ((trace i ++ p1) ++ p2))) as (o & d3 & p3 & Hp3 & _ & Hset).
  destruct (setup_result_other _ _ _ Hset) as [Hother _].
  destruct (drain_loop_trace 32 (mkIo d3 (((trace i ++ p1) ++ p2) ++ p3))) as (d4 & p4 & Hp4 & Hw4).
  cbn [trace] in *.
  assert (∀ s, pics_after (p1 ++ p2 ++ p3 ++ p4) s = programmed 255 255) as Hs1.
  { intros s. rewrite !pics_after_app, Hpics. unfold pics_after. rewrite Hw4. cbn [fold_left].
    change (fold_left pics_write (writes p2) (programmed 255 255)) with (programmed 255 255). by apply pics_other. }
  eexists _, _, _, table, (idt_install (W:=W) ctl), (p1 ++ p2 ++ p3 ++ p4), [Out MASTER_DATA 253],
    [Out MASTER_DATA 248; Out SLAVE_DATA 239].
  split.
  { unfold init. rewrite Htable. unfold_monad. unfold modify. cbn [TSS IDT HARDWARE_INITIALIZED set_tss set_idt io].
    cbn [initialize LegacyPic_controller]. unfold on_io. cbn [io set_tss set_idt IDT TSS HARDWARE_INITIALIZED TICKS kb ms].
    rewrite Hp1. cbn [io set_tss set_idt IDT TSS HARDWARE_INITIALIZED TICKS kb ms]. rewrite Hp2.
    cbn [io set_tss set_idt IDT TSS HARDWARE_INITIALIZED TICKS kb ms]. rewrite Hp3.
    unfold set_initialized. cbn [io set_tss set_idt IDT TSS HARDWARE_INITIALIZED TICKS kb ms].
    unfold init_keyboard, init_queue. rewrite Hkb. unfold_monad. unfold set_kb. cbn [io IDT TSS HARDWARE_INITIALIZED TICKS kb ms].
    unfold init_mouse, init_queue. rewrite Hms. unfold_monad. unfold set_ms. cbn [io IDT TSS HARDWARE_INITIALIZED TICKS kb ms].
    unfold drain_ps2_output. rewrite Hp4. reflexivity. }
  split; [reflexivity|]. split; [reflexivity|]. cbn [io IDT TSS kb ms trace KEYBOARD_QUEUE MOUSE_QUEUE producer_consumer].
  split_and!; try done.
  - by rewrite <- !app_assoc.
  - by rewrite <- !app_assoc.
  - intros s. cbv zeta. rewrite Hs1. change (pics_after _ (programmed 255 255)) with (programmed 253 255).
    change (pics_after _ (programmed 253 255)) with (programmed 248 239). split.
    + intros line Hline.
      assert (line ∈ seqZ 0 16) as Hin by (apply elem_of_seqZ; lia). clear Hline. revert line Hin. apply Forall_forall.
      repeat (apply Forall_cons; split); try done; (split; [done|]; split;
        [split; [intros [? ?]; first [done|congruence]|intros; first [done|eauto]]|]; intros Hne [? ?]);
        first [by exists Timer|by exists KeyboardIrq|by exists MouseIrq|done].
    + intros irq. destruct irq; by eexists.
Qed.

(** Both controllers idle: nothing in service, no initialization under way. *)
Definition idle (s : Pic * Pic) : Prop :=
  isr s.1 = 0 ∧ isr s.2 = 0 ∧ icw s.1 = 0%nat ∧ icw s.2 = 0%nat.

(** C31. A device interrupt runs to completion: its handler ends whatever line
    the controllers have in service, so that they are as before the interrupt;
    the timer counts one tick, and the keyboard and the mouse take exactly one
    byte from the controller and queue it, ACK and RESEND of the keyboard
    apart. *)
Theorem irq_handled irq s v s1 k : idle s → deliver (irq_line irq) s = Some (v, s1) →
  ∃ k' l, run_handler ctl irq k = (Ok tt, k') ∧ trace (io k') = trace (io k) ++ l ∧ pics_after l s1 = s ∧
    IDT k' = IDT k ∧ TSS k' = TSS k ∧
    match irq with
    | Timer => data_reads l = [] ∧ TICKS k' = (TICKS k + 1) mod U64_SIZE ∧ kb k' = kb k ∧ ms k' = ms k
    | KeyboardIrq => TICKS k' = TICKS k ∧ ms k' = ms k ∧ ∃ code, data_reads l = [code] ∧ 0 ≤ code < 256 ∧
        kb k' = (if decide (code = 0xfa ∨ code = 0xfe) then kb k else push_keyboard_scancode code (kb k))
    | MouseIrq => TICKS k' = TICKS k ∧ kb k' = kb k ∧ ∃ byte, data_reads l = [byte] ∧ 0 ≤ byte < 256 ∧
        ms k' = push_mouse_byte byte (ms k)
    end.
Proof.
  destruct s as [[mo mm mi mc] [so sm si sc]]. unfold idle. cbn [fst snd isr icw]. intros (-> & -> & -> & ->) Hd.
  destruct k as [i idt tss hw ticks b m]. cbn [io IDT TSS TICKS kb ms].
  destruct irq; cbn [irq_line] in Hd; unfold deliver in Hd; cbn [offset imr isr icw] in Hd.
  - change (0 <? 8) with true in Hd. cbv iota in Hd. destruct (Z.testbit mm 0); [done|]. injection Hd as _ <-.
    unfold run_handler, timer_handler, modify, on_io. unfold_monad. do 2 eexists. split; [reflexivity|].
    cbn [io trace]. split; [reflexivity|]. by split_and!.
  - change (1 <? 8) with true in Hd. cbv iota in Hd. destruct (Z.testbit mm 1); [done|]. injection Hd as _ <-.
    unfold run_handler, keyboard_handler, modify, on_io, inb, acknowledge, LegacyPic_controller, acknowledge_master, outb.
    unfold_monad. cbn [io].
    destruct (dev_in PS2_DATA (dev i)) as [z d]. cbn beta iota zeta.
    pose proof (Z.mod_pos_bound z 256 ltac:(lia)) as Hz. set (code := z mod 256) in *.
    destruct (Z.eqb_spec code 0xfa) as [Hfa|Hfa]; [|destruct (Z.eqb_spec code 0xfe) as [Hfe|Hfe]]; cbn [orb io set_kb dev trace IDT TSS HARDWARE_INITIALIZED TICKS kb ms];
      (do 2 eexists; split; [reflexivity|]; cbn [io trace]; split; [rewrite <- !app_assoc; reflexivity|];
       split; [done|]; split; [done|]; split; [done|]; split; [done|]; split; [done|]; exists code;
       split; [done|]; split; [done|]; first [by rewrite decide_True by auto|by rewrite decide_False by tauto]).
  - change (12 <? 8) with false in Hd. change (12 - 8) with 4 in Hd. cbv iota in Hd.
    destruct (Z.testbit mm 2 || Z.testbit sm 4); [done|]. injection Hd as _ <-.
    unfold run_handler, mouse_handler, modify, on_io, inb, acknowledge, LegacyPic_controller, acknowledge_slave, outb.
    unfold_monad. cbn [io].
    destruct (dev_in PS2_DATA (dev i)) as [z d]. cbn beta iota zeta.
    pose proof (Z.mod_pos_bound z 256 ltac:(lia)) as Hz. set (byte := z mod 256) in *.
    cbn [io set_ms dev trace IDT TSS HARDWARE_INITIALIZED TICKS kb ms].
    do 2 eexists; split; [reflexivity|]; cbn [io trace]; split; [rewrite <- !app_assoc; reflexivity|].
    do 5 (split; [done|]). by exists byte.
Qed.
End proofs.

(** ** Witnesses: a machine whose ports all answer 30 *)

#[local] Instance demo_devices : Devices unit := {|
  dev_in _ d := (30, d); dev_out _ _ d := d; dev_out32 _ _ d := d |}.

Definition demo_kernel : Kernel unit unit (list Z) :=
  mkKernel (mkIo tt []) None None false 7 (mkKeyboard (mkShared None 0) tt false)
    (mkMouse (mkShared None 0) PACKET_STATE_new).

Lemma init_spec_witness : ∃ k1,
  init (W:=unit) (RB:=list_ring 256) CONTROLLER 0x8000 demo_kernel = (Ok tt, k1) ∧ fresh demo_kernel.
Proof.
  assert (fresh demo_kernel) as Hf by done.
  destruct (init_spec (RB:=list_ring 256) 0x8000 demo_kernel Hf) as (k1 & k2 & k3 & t & idt & l1 & l2 & l3 & H & _).
  exists k1. split; [exact H|exact Hf].
Defined.

Lemma irq_handled_witness : ∃ k' l,
  run_handler (RB:=list_ring 256) CONTROLLER MouseIrq demo_kernel = (Ok tt, k') ∧ trace (io k') = l ∧
  data_reads l = [30].
Proof.
  destruct (irq_handled (RB:=list_ring 256) MouseIrq (programmed 248 239) 44
    (mkPic 32 248 4 0, mkPic 40 239 16 0) demo_kernel) as (k' & l & H & Ht & _ & _ & _ & _ & _ & byte & Hr & _).
  - done.
  - done.
  - exists k', l. split; [exact H|]. split; [exact Ht|].
    assert (l = [In 96 30; Out 160 32; Out 32 32]) as ->.
    { cbn in Ht. rewrite <- Ht. injection H as <-. done. }
    done.
Defined.
