(* ===== verification/Segments.v ===== *)
(** * Segments: the segment descriptors of [src/interrupts/gdt.rs], how [install]
    loads them, and the selectors that it leaves in the processor. *)

From S2P Require Import Prelude Globals Ports Interrupts.

(** ** The descriptor table of the x86_64 crate *)

Inductive Descriptor : Type := KernelCode | KernelData | TssSegment (interrupt_stack_table : list Z).

(** The entries of the table that a descriptor takes. *)
Definition descriptor_slots (d : Descriptor) : nat := match d with TssSegment _ => 2 | _ => 1 end.

(** [GlobalDescriptorTable]: [append] panics when the table is full. *)
Class DescriptorTable (G : Type) := {
  gdt_new : G;
  gdt_append : Descriptor → G → outcome Empty_set (Z * G);
  gdt_entry : G → Z → option Descriptor;
}.

(** Its documentation: eight entries, the first of which is the null descriptor;
    [append] returns the selector of the new entry and keeps the others. *)
Class DescriptorTableLaws (G : Type) `{DescriptorTable G} := {
  gdt_slots : G → nat;
  gdt_new_slots : gdt_slots gdt_new = 1%nat;
  gdt_append_law d g : (gdt_slots g + descriptor_slots d ≤ 8)%nat → ∃ sel g', gdt_append d g = Ok (sel, g') ∧
    gdt_slots g' = (gdt_slots g + descriptor_slots d)%nat ∧ gdt_entry g' sel = Some d ∧
    ∀ sel' d', gdt_entry g sel' = Some d' → gdt_entry g' sel' = Some d';
}.

(** ** The state behind [install] *)

Record Selectors : Type := mkSelectors { code : Z; data : Z; tss : Z }.

Section install.
Context {G : Type} `{DescriptorTable G} (INTERRUPT_STACKS : Z).

(** The statics [TSS] and [GDT], the registers that name segments, and the
    selectors of [GDT]'s table whose descriptor the processor has marked busy. *)
Record Segments : Type := mkSegments {
  TSS : option (list Z);
  GDT : option (G * Selectors);
  gdtr : option G;
  cs : Z; ds : Z; es : Z; fs : Z; gs : Z; ss : Z;
  tr : option Z;
  busy : list Z;
}.

(** A general protection fault: the selector names no fitting descriptor, or
    that of a task that is busy. *)
Inductive Fault : Type := GeneralProtection.

Abbreviation Seg := (M Segments Fault) (only parsing).

Inductive SegmentRegister : Type := CS | DS | ES | FS | GS | SS.

Definition write_register (r : SegmentRegister) (sel : Z) (s : Segments) : Segments :=
  match r with
  | CS => mkSegments (TSS s) (GDT s) (gdtr s) sel (ds s) (es s) (fs s) (gs s) (ss s) (tr s) (busy s)
  | DS => mkSegments (TSS s) (GDT s) (gdtr s) (cs s) sel (es s) (fs s) (gs s) (ss s) (tr s) (busy s)
  | ES => mkSegments (TSS s) (GDT s) (gdtr s) (cs s) (ds s) sel (fs s) (gs s) (ss s) (tr s) (busy s)
  | FS => mkSegments (TSS s) (GDT s) (gdtr s) (cs s) (ds s) (es s) sel (gs s) (ss s) (tr s) (busy s)
  | GS => mkSegments (TSS s) (GDT s) (gdtr s) (cs s) (ds s) (es s) (fs s) sel (ss s) (tr s) (busy s)
  | SS => mkSegments (TSS s) (GDT s) (gdtr s) (cs s) (ds s) (es s) (fs s) (gs s) sel (tr s) (busy s)
  end.
Definition read_register (r : SegmentRegister) (s : Segments) : Z :=
  match r with CS => cs s | DS => ds s | ES => es s | FS => fs s | GS => gs s | SS => ss s end.

(** What the processor looks up when a selector is loaded. *)
Definition loaded_entry (s : Segments) (sel : Z) : option Descriptor := g ← gdtr s; gdt_entry g sel.

(** [set_reg]: a selector of code goes to [CS], one of data to the others. *)
Definition set_reg (r : SegmentRegister) (sel : Z) : Seg unit := λ s,
  match loaded_entry s sel, r with
  | Some KernelCode, CS | Some KernelData, (DS | ES | FS | GS | SS) => (Ok tt, write_register r sel s)
  | _, _ => (Err GeneralProtection, s)
  end.
(** [GlobalDescriptorTable::load] *)
Definition gdt_load (g : G) : Seg unit := λ s,
  (Ok tt, mkSegments (TSS s) (GDT s) (Some g) (cs s) (ds s) (es s) (fs s) (gs s) (ss s) (tr s) (busy s)).

(** [load_tss]: the instruction [ltr] marks the descriptor in the table as busy,
    and faults when it is so already. *)
Definition load_tss (sel : Z) : Seg unit := λ s,
  match loaded_entry s sel with
  | Some (TssSegment _) =>
    if decide (sel ∈ busy s) then (Err GeneralProtection, s)
    else (Ok tt, mkSegments (TSS s) (GDT s) (gdtr s) (cs s) (ds s) (es s) (fs s) (gs s) (ss s) (Some sel) (sel :: busy s))
  | _ => (Err GeneralProtection, s)
  end.

(** [Once::call_once] on the two statics. *)
Definition tss_call_once (f : outcome Fault (list Z)) : Seg (list Z) := λ s,
  match TSS s with
  | Some t => (Ok t, s)
  | None => match f with
            | Ok t => (Ok t, mkSegments (Some t) (GDT s) (gdtr s) (cs s) (ds s) (es s) (fs s) (gs s) (ss s) (tr s) (busy s))
            | Err e => (Err e, s) | Panic => (Panic, s)
            end
  end.
(** A table that is built has only available descriptors. *)
Definition gdt_call_once (f : outcome Fault (G * Selectors)) : Seg (G * Selectors) := λ s,
  match GDT s with
  | Some g => (Ok g, s)
  | None => match f with
            | Ok g => (Ok g, mkSegments (TSS s) (Some g) (gdtr s) (cs s) (ds s) (es s) (fs s) (gs s) (ss s) (tr s) [])
            | Err e => (Err e, s) | Panic => (Panic, s)
            end
  end.

(** [append] and [stack_top] do not fault. *)
Definition no_fault {A} (o : outcome Empty_set A) : outcome Fault A := map_err (λ e : Empty_set, match e with end) o.

(** The table that [install] builds. *)
Definition build_gdt (table : list Z) : outcome Fault (G * Selectors) :=
  '(code, gdt) ← no_fault (gdt_append KernelCode gdt_new);
  '(data, gdt) ← no_fault (gdt_append KernelData gdt);
  '(tss, gdt) ← no_fault (gdt_append (TssSegment table) gdt);
  Ok (gdt, mkSelectors code data tss).

(** [install] *)
Definition install : Seg unit :=
  table ← tss_call_once (no_fault (interrupt_stack_table INTERRUPT_STACKS));
  '(gdt, selectors) ← gdt_call_once (build_gdt table);
  gdt_load gdt;;
  set_reg CS (code selectors);;
  set_reg DS (data selectors);;
  set_reg ES (data selectors);;
  set_reg FS (data selectors);;
  set_reg GS (data selectors);;
  set_reg SS (data selectors);;
  load_tss (tss selectors).

(** ** What it leaves *)

Context {laws : DescriptorTableLaws G}.

(** A table with the three descriptors where the selectors say. *)
Definition describes (table : list Z) (g : G) (sel : Selectors) : Prop :=
  gdt_entry g (code sel) = Some KernelCode ∧ gdt_entry g (data sel) = Some KernelData ∧ gdt_entry g (tss sel) = Some (TssSegment table).

Lemma build_gdt_ok table : ∃ g sel, build_gdt table = Ok (g, sel) ∧ describes table g sel.
Proof.
  unfold build_gdt, no_fault. destruct (gdt_append_law KernelCode gdt_new) as (c & g1 & -> & Hn1 & Hc & _); [rewrite gdt_new_slots; cbn; lia|].
  rewrite gdt_new_slots in Hn1. cbn in Hn1 |- *.
  destruct (gdt_append_law KernelData g1) as (d & g2 & -> & Hn2 & Hd & Hk2); [cbn; lia|]. cbn in Hn2 |- *.
  destruct (gdt_append_law (TssSegment table) g2) as (t & g3 & -> & _ & Ht & Hk3); [cbn; lia|]. cbn.
  exists g3, (mkSelectors c d t). split; [done|]. split_and!; cbn [code data tss]; auto.
Qed.

(** The state that earlier calls of [install] can have left: the cells empty, or
    filled with what belongs together. *)
Definition cells_ok (s : Segments) : Prop :=
  match TSS s, GDT s with
  | None, None => True
  | Some table, Some (g, sel) => Ok table = interrupt_stack_table INTERRUPT_STACKS ∧ describes table g sel
  | Some table, None => Ok table = interrupt_stack_table INTERRUPT_STACKS
  | None, Some _ => False
  end.

(** The task of [GDT]'s table has been loaded. *)
Definition installed (s : Segments) : Prop := match GDT s with Some (_, sel) => tss sel ∈ busy s | None => False end.
#[local] Instance installed_dec s : Decision (installed s).
Proof. unfold installed. destruct (GDT s) as [[g sel]|]; apply _. Defined.

(** What [install] leaves in the registers, the task register apart. *)
Definition segments_loaded (s : Segments) : Prop :=
  loaded_entry s (cs s) = Some KernelCode ∧ ∀ r, r ≠ CS → loaded_entry s (read_register r s) = Some KernelData.

Lemma install_runs s : cells_ok s → ∃ s' table g sel,
  install s = (if decide (installed s) then Err GeneralProtection else Ok tt, s') ∧ cells_ok s' ∧
  interrupt_stack_table INTERRUPT_STACKS = Ok table ∧ TSS s' = Some table ∧ GDT s' = Some (g, sel) ∧ gdtr s' = Some g ∧
  segments_loaded s' ∧ installed s' ∧
  tr s' = (if decide (installed s) then tr s else Some (tss sel)) ∧ loaded_entry s' (tss sel) = Some (TssSegment table).
Proof.
  intros Hs. destruct (interrupt_stack_table INTERRUPT_STACKS) as [table| |] eqn:Ht; [|by vm_compute in Ht..].
  assert (∃ s1, tss_call_once (no_fault (Ok table)) s = (Ok table, s1) ∧ TSS s1 = Some table ∧ GDT s1 = GDT s ∧ busy s1 = busy s ∧ tr s1 = tr s)
    as (s1 & H1 & Ht1 & Hg1 & Hb1 & Hr1).
  { unfold tss_call_once. unfold cells_ok in Hs. rewrite Ht in Hs. destruct (TSS s) as [t|] eqn:Hts; [|by eexists].
    assert (t = table) as -> by (destruct (GDT s) as [[g sel]|]; [destruct Hs as [Hs _]|]; congruence). by exists s. }
  assert (∃ g sel s2, gdt_call_once (build_gdt table) s1 = (Ok (g, sel), s2) ∧ TSS s2 = Some table ∧ GDT s2 = Some (g, sel) ∧ describes table g sel ∧
      (installed s ↔ tss sel ∈ busy s2) ∧ tr s2 = tr s)
    as (g & sel & s2 & H2 & Ht2 & Hg2 & Hd & Hb2 & Hr2).
  { unfold gdt_call_once. destruct (GDT s1) as [[g sel]|] eqn:Hgs.
    - exists g, sel, s1. unfold installed. rewrite Hb1, <- Hg1. split_and!; try done.
      unfold cells_ok in Hs. rewrite <- Hg1, Ht in Hs. destruct (TSS s); [|done]. destruct Hs as [[= ->] Hs]. exact Hs.
    - destruct (build_gdt_ok table) as (g & sel & -> & Hd). exists g, sel. eexists.
      split; [reflexivity|]. split; [done|]. split; [done|]. split; [done|]. split; [|done]. unfold installed. rewrite <- Hg1. cbn [busy]. split; [done|by intros ?%not_elem_of_nil]. }
  unfold install. rewrite Ht. unfold mbind, M_bind. rewrite H1. cbn [no_fault map_err] in *. rewrite H2. cbn beta iota.
  destruct Hd as (Hc & Hda & Hts). unfold gdt_load, set_reg, load_tss, loaded_entry.
  cbn [gdtr mbind option_bind write_register]. rewrite Hc. cbn [gdtr mbind option_bind write_register]. rewrite !Hda.
  cbn [gdtr mbind option_bind write_register TSS GDT cs ds es fs gs ss tr busy]. rewrite Hda.
  cbn [gdtr mbind option_bind write_register TSS GDT cs ds es fs gs ss tr busy].
  repeat (rewrite Hda; cbn [gdtr mbind option_bind write_register TSS GDT cs ds es fs gs ss tr busy]). rewrite Hts.
  destruct (decide (installed s)) as [Hi|Hi]; [rewrite decide_True by (by apply Hb2)|rewrite decide_False by (by intros ?%Hb2)];
    eexists _, table, g, sel; (split; [reflexivity|]); unfold segments_loaded, loaded_entry, cells_ok, read_register, installed;
    cbn [gdtr mbind option_bind TSS GDT cs ds es fs gs ss tr busy]; rewrite Ht2, Hg2, Ht;
    split_and!; try done; try (intros [] Hr; done); [by apply Hb2|by left].
Qed.

(** C32. The first call of [install] (the descriptor of the task not yet busy)
    runs without a fault and without a panic, and afterwards every segment
    register and the task register hold selectors of the loaded table: kernel
    code in [CS], kernel data in the others, and the task state segment with the
    three interrupt stacks.  As its documentation demands it must run once: every
    further call loads the segments again and then takes a general protection
    fault, because the task is busy. *)
Theorem install_loads s : cells_ok s →
  (¬ installed s → ∃ s' table g sel, install s = (Ok tt, s') ∧ interrupt_stack_table INTERRUPT_STACKS = Ok table ∧
     TSS s' = Some table ∧ GDT s' = Some (g, sel) ∧ gdtr s' = Some g ∧
     loaded_entry s' (cs s') = Some KernelCode ∧
     (∀ r, r ≠ CS → loaded_entry s' (read_register r s') = Some KernelData) ∧
     (t ← tr s'; loaded_entry s' t) = Some (TssSegment table) ∧
     ∃ s'', install s' = (Err GeneralProtection, s'') ∧ tr s'' = tr s') ∧
  (installed s → ∃ s', install s = (Err GeneralProtection, s') ∧ installed s' ∧ cells_ok s').
Proof.
  intros Hs. destruct (install_runs s Hs) as (s' & table & g & sel & Hrun & Hs' & Ht & H1 & H2 & H3 & [H4 H5] & Hi' & Htr & Htss). split; intros Hi.
  - rewrite decide_False in Hrun by done. rewrite decide_False in Htr by done. exists s', table, g, sel. split_and!; try done; [by rewrite Htr|].
    destruct (install_runs s' Hs') as (s'' & t2 & g2 & sel2 & Hrun2 & _ & _ & _ & _ & _ & _ & _ & Htr2 & _).
    rewrite decide_True in Hrun2 by done. rewrite decide_True in Htr2 by done. by exists s''.
  - rewrite decide_True in Hrun by done. by exists s'.
Qed.
End install.

(** ** A table that behaves as documented *)

(** The descriptors in order; the next selector is eight times the slots used. *)
Definition slots_used (g : list Descriptor) : nat := (1 + foldr (λ d n, (descriptor_slots d + n)%nat) 0%nat g)%nat.
Fixpoint entry_at (slot : nat) (g : list Descriptor) (sel : Z) : option Descriptor :=
  match g with
  | [] => None
  | d :: g => if sel =? 8 * Z.of_nat slot then Some d else entry_at (slot + descriptor_slots d) g sel
  end.

#[local] Instance demo_table : DescriptorTable (list Descriptor) := {|
  gdt_new := [];
  gdt_append d g :=
    if (slots_used g + descriptor_slots d <=? 8)%nat then Ok (8 * Z.of_nat (slots_used g), g ++ [d]) else Panic;
  gdt_entry g sel := entry_at 1 g sel;
|}.

Lemma entry_at_keeps slot g d sel d' : entry_at slot g sel = Some d' → entry_at slot (g ++ [d]) sel = Some d'.
Proof. revert slot. induction g as [|e g IH]; intros slot; cbn; [done|]. case_match; [done|]. apply IH. Qed.

Lemma entry_at_last slot g d :
  entry_at slot (g ++ [d]) (8 * Z.of_nat (slot + foldr (λ d n, (descriptor_slots d + n)%nat) 0%nat g)) = Some d.
Proof.
  revert slot. induction g as [|e g IH]; intros slot; cbn [app entry_at foldr].
  - by rewrite Nat.add_0_r, Z.eqb_refl.
  - rewrite (proj2 (Z.eqb_neq _ _)) by (destruct e; cbn [descriptor_slots]; lia). rewrite Nat.add_assoc. apply IH.
Qed.

Lemma demo_table_laws : DescriptorTableLaws (list Descriptor).
Proof.
  refine {| gdt_slots := slots_used |}; [done|]. intros d g Hg. cbn [gdt_append demo_table]. rewrite (proj2 (Nat.leb_le _ _)) by done.
  eexists _, _. split; [done|]. split; [|split].
  - unfold slots_used. rewrite foldr_app. cbn. assert (∀ l n, foldr (λ d n, (descriptor_slots d + n)%nat) n l =
      (foldr (λ d n, (descriptor_slots d + n)%nat) 0%nat l + n)%nat) as H by (intros l n; induction l as [|e l IH]; cbn; lia).
    rewrite H. lia.
  - apply (entry_at_last 1).
  - intros sel' d'. apply entry_at_keeps.
Qed.

(** A cold processor, whose registers name the firmware's segments. *)
Definition cold_segments : Segments (G:=list Descriptor) := mkSegments None None None 56 48 48 48 48 48 None [].

Lemma install_loads_witness : ∃ s', install 0x8000 cold_segments = (Ok tt, s') ∧ loaded_entry s' (cs s') = Some KernelCode ∧
  (cs s', ds s', ss s', tr s') = (8, 16, 16, Some 24) ∧ fst (install 0x8000 s') = Err GeneralProtection.
Proof.
  destruct (install_loads 0x8000 (laws:=demo_table_laws) cold_segments I) as [Hfirst _].
  destruct Hfirst as (s' & table & g & sel & Hs & _ & _ & _ & _ & Hc & _ & _ & s'' & Hagain & _); [by intros []|].
  exists s'. split; [exact Hs|]. split; [exact Hc|]. split; [|by rewrite Hagain]. vm_compute in Hs. injection Hs as <-. reflexivity.
Defined.

(** Before the table is loaded no selector of it can be used. *)
Example set_reg_before_load sel : fst (set_reg CS sel cold_segments) = Err GeneralProtection.
Proof. done. Qed.
