(* ===== verification/Commands.v ===== *)
(** * Commands: the shell's command parser, Tab completion, help and dispatch of
    [src/commands/] (parser.rs, help.rs, mod.rs, shutdown.rs).

    A command runs by calling into the other parts of the kernel; here it
    yields those calls, in order. *)

From S2P Require Import Prelude Text Graphics Timer.
From Stdlib Require Import String.
Open Scope Z_scope.

(** [COMMAND_NAMES] *)
Definition COMMAND_NAMES : list str :=
  [lit "about"; lit "clear"; lit "echo"; lit "font"; lit "help"; lit "history"; lit "meminfo"; lit "shutdown";
   lit "taskinfo"; lit "uptime"].

(** ** Parser *)

Inductive Command : Type :=
  | Help | About | History | Echo | Meminfo | Taskinfo | Font | Clear | Shutdown | Empty | Unknown | Uptime.

#[export] Instance Command_eq_dec : EqDecision Command.
Proof. solve_decision. Defined.

Definition str_eqb (a b : str) : bool := bool_decide (a = b).

(** [complete_command] *)
Definition complete_command (prefix : str) : option str :=
  if match prefix with [] => true | _ => false end || existsb is_whitespace prefix then None else
  match List.filter (starts_with prefix) COMMAND_NAMES with
  | [] => None
  | [command] => Some command
  | _ => None
  end.

Record ParsedCommand : Type := mkParsed { command : Command; args : list str; flags : list str }.

(** The verb of a line. *)
Definition parse_verb (token : str) : Command :=
  if str_eqb token (lit "help") then Help
  else if str_eqb token (lit "about") then About
  else if str_eqb token (lit "history") then History
  else if str_eqb token (lit "echo") then Echo
  else if str_eqb token (lit "meminfo") then Meminfo
  else if str_eqb token (lit "taskinfo") then Taskinfo
  else if str_eqb token (lit "font") then Font
  else if str_eqb token (lit "clear") then Clear
  else if str_eqb token (lit "shutdown") then Shutdown
  else if str_eqb token (lit "uptime") then Uptime
  else if str_eqb token [] then Empty
  else Unknown.

(** The loop over the tokens behind the verb. *)
Definition classify (p : list str * list str) (token : str) : list str * list str :=
  let '(args, flags) := p in
  if starts_with (lit "-") token then (args, flags ++ [token]) else (args ++ [token], flags).

(** [parse] *)
Definition parse (input : str) : ParsedCommand :=
  match split_whitespace input with
  | [] => mkParsed (parse_verb []) [] []
  | verb :: tokens =>
    let '(args, flags) := fold_left classify tokens ([], []) in mkParsed (parse_verb verb) args flags
  end.

(** ** Dispatch *)

(** The calls that commands make. *)
Inductive Call : Type :=
  | Println (s : str)
  | PrintHistory
  | SetFontSize (size : RasterHeight)
  | Reset
  | PrintMeminfo
  | PrintTaskinfo
  | WritePortU32 (port value : Z)
  | HaltForever.

(** The messages of [help] for a command. *)
Definition help_messages (cmd : str) (c : Command) : list Call :=
  match c with
  | Help =>
    [Println (lit "help - show available commands");
     Println (lit "usage: help [command]");
     Println (lit "example: help echo")]
  | Echo =>
    [Println (lit "echo - print text to the screen");
     Println (lit "usage: echo <text>");
     Println (lit "example: echo hello world")]
  | Clear =>
    [Println (lit "clear - clear the screen and reset cursor");
     Println (lit "usage: clear")]
  | About =>
    [Println (lit "about - show information about AgnostOS");
     Println (lit "usage: about")]
  | History =>
    [Println (lit "history - reprint visible screen history");
     Println (lit "usage: history")]
  | Font =>
    [Println (lit "font - change the font size");
     Println (lit "usage: font <16|20|24|32>");
     Println (lit "example: font 24")]
  | Meminfo =>
    [Println (lit "meminfo - show heap memory information");
     Println (lit "usage: meminfo")]
  | Taskinfo =>
    [Println (lit "taskinfo - show scheduler task statistics");
     Println (lit "usage: taskinfo")]
  | Uptime =>
    [Println (lit "uptime - tells how long the system has been running for");
     Println (lit "usage: uptime")]
  | Shutdown =>
    [Println (lit "shutdown - shuts the machine down instantly");
     Println (lit "usage: shutdown")]
  | Unknown => [Println (lit "unknown command: " ++ cmd)]
  | Empty => []
  end.

(** [help] *)
Definition help (args : list str) : list Call :=
  match args with
  | cmd :: _ => help_messages cmd (command (parse cmd))
  | [] =>
  [Println (lit "AgnostOS shell - available commands:");
   Println (lit "");
   Println (lit "  help      show this message, or help for a specific command");
   Println (lit "  echo      print text to the screen");
   Println (lit "  clear     clear the screen");
   Println (lit "  about     show OS information");
   Println (lit "  history   reprint screen history");
   Println (lit "  font      change font size");
   Println (lit "  meminfo   show heap memory information");
   Println (lit "  taskinfo  show scheduler task statistics");
   Println (lit "  uptime    tells how long the system has been running for");
   Println (lit "  shutdown  shuts the machine down");
   Println (lit "");
   Println (lit "tip: type 'help <command>' for more details");
   Println (lit "tip: ctrl+c to cancel, ctrl+plus/minus to zoom")]
  end.

(** The argument of [font]. *)
Definition font_command (arg : str) : Call :=
  if str_eqb arg (lit "16") then SetFontSize Size16
  else if str_eqb arg (lit "20") then SetFontSize Size20
  else if str_eqb arg (lit "24") then SetFontSize Size24
  else if str_eqb arg (lit "32") then SetFontSize Size32
  else Println (lit "usage: font <16|20|24|32>").

(** [QemuExitCode::SUCCESS] *)
Definition SUCCESS : Z := 0.

(** [exit_qemu] *)
Definition exit_qemu (code : Z) : list Call := [WritePortU32 0xf4 code; HaltForever].

(** [run_command] at the tick counter [TICKS]. *)
Definition run_command (TICKS : Z) (input : str) : list Call :=
  let parsed := parse input in
  let args := args parsed in
  match command parsed with
  | Help => help args
  | About => [Println (lit "AgnostOS v0.1 - written in Rust " ++ [10] ++ lit " codeberg.com/guru901/agnostos")]
  | History => [PrintHistory]
  | Echo => [Println (join_space args)]
  | Meminfo => [PrintMeminfo]
  | Taskinfo => [PrintTaskinfo]
  | Font => [font_command (match args with a :: _ => a | [] => [] end)]
  | Clear => [Reset]
  | Shutdown => exit_qemu SUCCESS
  | Uptime => [Println (uptime TICKS)]
  | Empty => []
  | Unknown => [Println (lit "Unknown command")]
  end.

(** ** Lemmas *)

Lemma str_eqb_spec a b : reflect (a = b) (str_eqb a b).
Proof. apply bool_decide_reflect. Qed.

Lemma classify_fold tokens args flags :
  fold_left classify tokens (args, flags) =
  (args ++ List.filter (λ t, negb (starts_with (lit "-") t)) tokens,
   flags ++ List.filter (starts_with (lit "-")) tokens).
Proof.
  revert args flags. induction tokens as [|t tokens IH]; intros args flags; cbn [fold_left List.filter].
  - by rewrite !app_nil_r.
  - unfold classify at 2. destruct (starts_with (lit "-") t); cbn [negb]; rewrite IH, <- app_assoc; done.
Qed.

(** The arms of the parser's match name exactly the commands of the table. *)
Lemma parse_verb_known verb :
  verb ≠ [] → (parse_verb verb ∉ [Empty; Unknown] ↔ verb ∈ COMMAND_NAMES).
Proof.
  intros Hne. unfold parse_verb, COMMAND_NAMES.
  repeat (match goal with |- context [str_eqb verb ?n] => destruct (str_eqb_spec verb n) as [->|?] end;
          [split; [intros _; rewrite !elem_of_cons; tauto|intros _; by apply (bool_decide_unpack _)]|]).
  destruct (str_eqb_spec verb []); [done|].
  split; [intros H; exfalso; apply H; rewrite !elem_of_cons; tauto|]. intros Hin. rewrite !elem_of_cons, elem_of_nil in Hin. tauto.
Qed.

(** Two names of the table never stand for one command. *)
Lemma parse_verb_inj a b :
  a ∈ COMMAND_NAMES → b ∈ COMMAND_NAMES → parse_verb a = parse_verb b → a = b.
Proof.
  unfold COMMAND_NAMES. rewrite !elem_of_cons, !elem_of_nil.
  intros Ha Hb. repeat destruct Ha as [->|Ha]; try done; repeat destruct Hb as [->|Hb]; try done.
Qed.

Lemma names_plain c : c ∈ COMMAND_NAMES → c ≠ [] ∧ Forall (λ a, is_whitespace a = false) c.
Proof.
  unfold COMMAND_NAMES. rewrite !elem_of_cons, !elem_of_nil.
  intros Hc. repeat destruct Hc as [->|Hc]; try done; (split; [done|repeat constructor]).
Qed.

Lemma split_plain c : c ≠ [] → Forall (λ a, is_whitespace a = false) c → split_whitespace c = [c].
Proof.
  intros Hne Hc. unfold split_whitespace.
  assert (Hg : ∀ w, Forall (λ a, is_whitespace a = false) c → split_aux w c = split_aux (w ++ c) []).
  { clear. induction c as [|a c IH]; intros w Hf; [by rewrite app_nil_r|].
    apply Forall_cons in Hf as [Ha Hf]. cbn [split_aux]. rewrite Ha, IH by done. by rewrite <- app_assoc. }
  rewrite Hg by done. by destruct c.
Qed.

Lemma parse_name c : c ∈ COMMAND_NAMES →
  command (parse c) = parse_verb c ∧ parse_verb c ∉ [Empty; Unknown].
Proof.
  intros Hc. destruct (names_plain c Hc) as [Hne Hf]. unfold parse. rewrite split_plain by done.
  split; [done|]. by apply parse_verb_known.
Qed.

Lemma names_NoDup : NoDup COMMAND_NAMES.
Proof. by apply (bool_decide_unpack _). Qed.

Lemma filter_singleton {A} (f : A → bool) l c : NoDup l →
  (List.filter f l = [c] ↔ c ∈ l ∧ f c = true ∧ ∀ c', c' ∈ l → f c' = true → c' = c).
Proof.
  intros Hl. setoid_rewrite list_elem_of_In. split.
  - intros Hf. assert (Hin : In c (List.filter f l)) by (rewrite Hf; by left).
    apply filter_In in Hin as [H1 H2]. split_and!; [done|done|]. intros c' H3 H4.
    assert (In c' (List.filter f l)) as Hc' by by apply filter_In. rewrite Hf in Hc'. by destruct Hc'.
  - intros (H1 & H2 & H3).
    assert (Hnd : List.NoDup (List.filter f l)) by by apply List.NoDup_filter, NoDup_ListNoDup.
    assert (Hin : In c (List.filter f l)) by by apply filter_In.
    assert (Hall : ∀ a, In a (List.filter f l) → a = c) by (intros a [? ?]%filter_In; by apply H3).
    destruct (List.filter f l) as [|a [|b r]]; [done|by rewrite (Hall a) by by left|].
    rewrite (Hall a (or_introl eq_refl)), (Hall b (or_intror (or_introl eq_refl))) in Hnd. inversion Hnd as [|? ? Hni]. exfalso.
    apply Hni. by left.
Qed.

Lemma complete_command_Some prefix c :
  complete_command prefix = Some c ↔
  prefix ≠ [] ∧ c ∈ COMMAND_NAMES ∧ (∃ s, c = prefix ++ s) ∧
  ∀ c', c' ∈ COMMAND_NAMES → (∃ s, c' = prefix ++ s) → c' = c.
Proof.
  setoid_rewrite <- starts_with_spec. rewrite <- (filter_singleton (starts_with prefix)) by apply names_NoDup.
  unfold complete_command. destruct prefix as [|a prefix]; [cbn; naive_solver|].
  destruct (existsb is_whitespace (a :: prefix)) eqn:Hw; cbn [orb].
  - split; [done|]. intros [_ Hf]. apply filter_singleton in Hf as (Hin & Hs & _); [|apply names_NoDup].
    apply starts_with_spec in Hs as (s & ->). destruct (names_plain _ Hin) as [_ Hp].
    apply Forall_app in Hp as [Hp _]. apply existsb_exists in Hw as (b & Hb & Hwb).
    apply list_elem_of_In in Hb. rewrite Forall_forall in Hp. rewrite (Hp _ Hb) in Hwb. done.
  - destruct (List.filter _ _) as [|x [|y r]]; naive_solver.
Qed.

(** ** Properties *)

(** How a line can be laid out: any blanks, a word, and then either the end or a
    blank and the layout of the other words. *)
Inductive laid_out : list str → str → Prop :=
  | laid_nil g : Forall (λ c, is_whitespace c = true) g → laid_out [] g
  | laid_cons g w words s : Forall (λ c, is_whitespace c = true) g → w ≠ [] → Forall (λ c, is_whitespace c = false) w →
      (s = [] ∨ ∃ c s', s = c :: s' ∧ is_whitespace c = true) → laid_out words s → laid_out (w :: words) (g ++ w ++ s).

Lemma laid_blank c words s : is_whitespace c = true → laid_out words s → laid_out words (c :: s).
Proof.
  intros Hc [g Hg|g w words' s' Hg Hw Hp Hs Hl]; [apply laid_nil; by constructor|].
  change (c :: g ++ w ++ s') with ((c :: g) ++ w ++ s'). apply laid_cons; [by constructor|done..].
Qed.

Lemma split_word w : Forall (λ c, is_whitespace c = false) w → ∀ v s, split_aux v (w ++ s) = split_aux (v ++ w) s.
Proof.
  induction 1 as [|c w Hc _ IH]; intros v s; [by rewrite app_nil_r|]. cbn [app split_aux]. by rewrite Hc, IH, <- app_assoc.
Qed.

Lemma split_blank g s : Forall (λ c, is_whitespace c = true) g → split_aux [] (g ++ s) = split_aux [] s.
Proof. induction 1 as [|c g Hc _ IH]; [done|]. cbn [app split_aux]. by rewrite Hc. Qed.

(** The words of a layout are the tokens of the line, and every line has one. *)
Lemma split_laid_out words s : laid_out words s → split_whitespace s = words.
Proof.
  unfold split_whitespace. induction 1 as [g Hg|g w words s Hg Hw Hp Hs _ IH].
  - rewrite <- (app_nil_r g). by apply split_blank.
  - rewrite split_blank, split_word by done. cbn [app]. destruct Hs as [->|(c & s' & -> & Hc)].
    + cbn in IH. subst words. cbn [split_aux]. by destruct w.
    + cbn [split_aux] in IH |- *. rewrite Hc in *. rewrite IH. by destruct w.
Qed.

Lemma laid_out_aux s : ∀ word, Forall (λ c, is_whitespace c = false) word → laid_out (split_aux word s) (word ++ s).
Proof.
  induction s as [|c s IH]; intros word Hw; cbn [split_aux].
  - destruct word as [|a w]; [by apply laid_nil|]. apply (laid_cons [] (a :: w) [] []); [done|done|done|by left|by apply laid_nil].
  - destruct (is_whitespace c) eqn:Hc.
    + pose proof (laid_blank c _ _ Hc (IH [] ltac:(done))) as Hl. destruct word as [|a w]; [done|].
      apply (laid_cons [] (a :: w)); [done|done|done|right; by exists c, s|done].
    + pose proof (IH (word ++ [c])) as Hl. rewrite <- app_assoc in Hl. apply Hl. apply Forall_app. split; [done|by constructor].
Qed.

Lemma split_is_laid_out s : laid_out (split_whitespace s) s.
Proof. by apply (laid_out_aux s []). Qed.

(** The commands of the shell, as its help describes them. *)
Definition VERBS : list (str * Command) :=
  [(lit "about", About); (lit "clear", Clear); (lit "echo", Echo); (lit "font", Font); (lit "help", Help); (lit "history", History);
   (lit "meminfo", Meminfo); (lit "shutdown", Shutdown); (lit "taskinfo", Taskinfo); (lit "uptime", Uptime)].

Lemma parse_verb_table verb : verb ≠ [] → ∀ c, parse_verb verb = c ↔ (verb, c) ∈ VERBS ∨ (c = Unknown ∧ verb ∉ VERBS.*1).
Proof.
  intros Hne c. unfold parse_verb, VERBS.
  repeat (match goal with |- context [str_eqb verb ?n] => destruct (str_eqb_spec verb n) as [->|?] end;
    [split; [intros <-; left; by apply (bool_decide_unpack _)|
             intros [Hin|[_ Hin]]; [rewrite !elem_of_cons, elem_of_nil in Hin; repeat (destruct Hin as [Hin|Hin]; [vm_compute in Hin; by simplify_eq|]); done|
                                    exfalso; apply Hin; by apply (bool_decide_unpack _)]]|]).
  destruct (str_eqb_spec verb []); [done|]. split.
  - intros <-. right. split; [done|]. cbn [fmap list_fmap fst]. rewrite !elem_of_cons, elem_of_nil. tauto.
  - intros [Hin|[-> _]]; [|done]. rewrite !elem_of_cons, elem_of_nil in Hin. naive_solver.
Qed.

(** C38. The parser on every line.  A line has one layout as words with blanks
    between them; without a word its command is the empty one, and otherwise the
    first word decides: a name of the table below is the command that stands
    there beside it, these names are the ones that Tab completes from, and
    anything else is unknown.  The words behind the verb, each in its order, are
    flags when their first character is a dash and arguments otherwise. *)
Theorem parse_spec (input : str) :
  ∃ words, laid_out words input ∧ (∀ words', laid_out words' input → words' = words) ∧
    match words with
    | [] => parse input = mkParsed Empty [] []
    | verb :: rest =>
      (∀ c, command (parse input) = c ↔ (verb, c) ∈ VERBS ∨ (c = Unknown ∧ verb ∉ VERBS.*1)) ∧
      args (parse input) = List.filter (λ t, negb (bool_decide (head t = Some 45))) rest ∧
      flags (parse input) = List.filter (λ t, bool_decide (head t = Some 45)) rest
    end ∧ VERBS.*1 = COMMAND_NAMES.
Proof.
  pose proof (split_is_laid_out input) as Hl. exists (split_whitespace input). split; [done|].
  split; [intros words' H; by apply split_laid_out in H|]. split; [|done]. unfold parse.
  destruct (split_whitespace input) as [|verb rest]; [done|]. rewrite classify_fold. cbn [command args flags app].
  assert (∀ t, starts_with (lit "-") t = bool_decide (head t = Some 45)) as Hd.
  { intros [|c t]; [done|]. unfold starts_with. change (lit "-") with [45]. cbn [strip_prefix head]. destruct (Z.eqb_spec 45 c) as [<-|Hc].
    - by rewrite bool_decide_true.
    - rewrite bool_decide_false by congruence. done. }
  split; [|split; apply filter_ext; intros t; by rewrite Hd].
  apply parse_verb_table. inversion Hl; done.
Qed.

(** Tab completes a prefix to a command exactly when the prefix is not
    empty and that command is the only one of the table that it starts; the
    completed line runs that command, and no two completions run the same one. *)
Theorem complete_command_spec (prefix c : str) :
  (complete_command prefix = Some c ↔
   prefix ≠ [] ∧ c ∈ COMMAND_NAMES ∧ (∃ s, c = prefix ++ s) ∧
   ∀ c', c' ∈ COMMAND_NAMES → (∃ s, c' = prefix ++ s) → c' = c) ∧
  (complete_command prefix = Some c →
   command (parse c) ∉ [Empty; Unknown] ∧
   ∀ p' c', complete_command p' = Some c' → command (parse c') = command (parse c) → c' = c).
Proof.
  split; [apply complete_command_Some|]. intros Hc.
  destruct (proj1 (complete_command_Some _ _) Hc) as (_ & Hin & _).
  destruct (parse_name c Hin) as [Hv Hk]. rewrite Hv. split; [exact Hk|].
  intros p' c' Hc'. destruct (proj1 (complete_command_Some _ _) Hc') as (_ & Hin' & _).
  destruct (parse_name c' Hin') as [-> _]. by apply parse_verb_inj.
Qed.
