(* ===== verification/Console.v ===== *)
(** * Console: the text console of [src/console/mod.rs].

    The writer keeps the cursor, the cells of the line being written, the
    finished lines and the line editor's cursor; every operation runs under the
    writer's lock and draws through [Graphics].  An operation yields the console
    it leaves, or [Panic] where its unchecked arithmetic, a division by zero, an
    index or an assertion fails. *)

From S2P Require Import Prelude Text Graphics Commands.
From Stdlib Require Import String.
Open Scope Z_scope.

Abbreviation run A := (outcome Empty_set A) (only parsing).

Definition PROMPT : str := lit "> ".
Definition MAX_INPUT_CHARS : Z := 512.

(** ** State *)

Record Cell : Type := mkCell { cell_column : Z; cell_row : Z }.

Record KWriter : Type := mkKWriter {
  fb : Framebuffer;
  column : Z;
  row : Z;
  glyph_cells : list Cell;
  history : list str;
  current_line : str;
  input_cursor : Z;
  font_size : RasterHeight;
  history_index : option Z;
}.

(** The statics of the module and the memory that the framebuffer is mapped to. *)
Record Console : Type := mkConsole {
  KWRITER : option KWriter;
  EMERGENCY_FRAMEBUFFER : option Framebuffer;
  screen : mem;
}.

(** Assignments to fields of the writer. *)
Definition set_position (column row : Z) (w : KWriter) : KWriter :=
  mkKWriter (fb w) column row (glyph_cells w) (history w) (current_line w) (input_cursor w) (font_size w) (history_index w).
Definition set_cells (cells : list Cell) (w : KWriter) : KWriter :=
  mkKWriter (fb w) (column w) (row w) cells (history w) (current_line w) (input_cursor w) (font_size w) (history_index w).
Definition set_history (history : list str) (w : KWriter) : KWriter :=
  mkKWriter (fb w) (column w) (row w) (glyph_cells w) history (current_line w) (input_cursor w) (font_size w) (history_index w).
Definition set_line (line : str) (w : KWriter) : KWriter :=
  mkKWriter (fb w) (column w) (row w) (glyph_cells w) (history w) line (input_cursor w) (font_size w) (history_index w).
Definition set_cursor (cursor : Z) (w : KWriter) : KWriter :=
  mkKWriter (fb w) (column w) (row w) (glyph_cells w) (history w) (current_line w) cursor (font_size w) (history_index w).
Definition set_size (size : RasterHeight) (w : KWriter) : KWriter :=
  mkKWriter (fb w) (column w) (row w) (glyph_cells w) (history w) (current_line w) (input_cursor w) size (history_index w).
Definition set_index (index : option Z) (w : KWriter) : KWriter :=
  mkKWriter (fb w) (column w) (row w) (glyph_cells w) (history w) (current_line w) (input_cursor w) (font_size w) index.

(** [if let Some(writer) = KWRITER.lock().as_mut() { … }] *)
Definition with_writer (f : KWriter → mem → run (KWriter * mem)) (c : Console) : run Console :=
  match KWRITER c with
  | Some w => '(w, m) ← f w (screen c); Ok (mkConsole (Some w) (EMERGENCY_FRAMEBUFFER c) m)
  | None => Ok c
  end.

(** The same for an operation that also edits the shell's line. *)
Definition with_line (line : str) (f : KWriter → mem → run (str * KWriter * mem)) (c : Console) : run (str * Console) :=
  match KWRITER c with
  | Some w => '(line, w, m) ← f w (screen c); Ok (line, mkConsole (Some w) (EMERGENCY_FRAMEBUFFER c) m)
  | None => Ok (line, c)
  end.

(** The number of characters of a string. *)
Definition chars_count (s : str) : Z := Z.of_nat (List.length s).

(** ** Pure helpers *)

(** [command_history] *)
Definition command_history (history : list str) : list str :=
  List.filter (λ line, starts_with PROMPT line && negb (str_eqb line (lit "^C")) && negb (str_eqb line [])) history.

(** [cell_position] *)
Definition cell_position (index cell_width framebuffer_width : Z) : run (Z * Z) :=
  pixel_x ← mul_u64 index cell_width;
  rest ← rem_u64 pixel_x framebuffer_width;
  column ← div_u64 rest cell_width;
  row ← div_u64 pixel_x framebuffer_width;
  Ok (column, row).

(** [insert_char_at] *)
Definition insert_char_at (line : str) (cursor : Z) (ch : char) : str :=
  let index := match line !! Z.to_nat cursor with Some _ => Z.to_nat cursor | None => List.length line end in
  take index line ++ [ch] ++ drop index line.

(** [remove_char_at] *)
Definition remove_char_at (line : str) (cursor : Z) : str :=
  let cursor := Z.min cursor (chars_count line) in
  if cursor =? 0 then line else
  let start := match line !! Z.to_nat (cursor - 1) with Some _ => Z.to_nat (cursor - 1) | None => O end in
  let fin := match line !! Z.to_nat cursor with Some _ => Z.to_nat cursor | None => List.length line end in
  take start line ++ drop fin line.

(** [move_cursor_left] and [move_cursor_right]. *)
Definition move_cursor_left (cursor : Z) : Z := saturating_sub cursor 1.
Definition move_cursor_right (cursor line_length : Z) : run Z :=
  next ← add_u64 cursor 1; Ok (Z.min next line_length).

(** [font_h] *)
Definition font_h (sz : RasterHeight) : Z :=
  match sz with Size16 => 16 | Size20 => 20 | Size24 => 24 | Size32 => 32 end + 2.

(** The font sizes that [zoom_in] and [zoom_out] step through. *)
Definition larger (sz : RasterHeight) : RasterHeight :=
  match sz with Size16 => Size20 | Size20 => Size24 | Size24 | Size32 => Size32 end.
Definition smaller (sz : RasterHeight) : RasterHeight :=
  match sz with Size32 => Size24 | Size24 => Size20 | Size20 | Size16 => Size16 end.

Section console.
Context (get_raster : char → RasterHeight → option RasterizedChar).
Context (get_raster_width : RasterHeight → Z).

Abbreviation draw_text := (draw_text get_raster get_raster_width).

(** [font_w] *)
Definition font_w (sz : RasterHeight) : Z := get_raster_width sz.

(** [init] *)
Definition init (fb : Framebuffer) (c : Console) : Console :=
  mkConsole (Some (mkKWriter fb 0 0 [] [] [] 0 Size16 None)) (Some fb) (screen c).

(** [with_framebuffer] *)
Definition with_framebuffer (operation : Framebuffer → mem → draw) (c : Console) : run Console :=
  with_writer (λ w m, m ← operation (fb w) m; Ok (w, m)) c.

(** [clear_background] *)
Definition clear_background (c : Console) : run Console :=
  with_framebuffer (λ fb m, Graphics.clear_background fb BLACK m) c.

(** ** Writing text *)

(** [KWriter::x] and [KWriter::y]. *)
Definition kx (w : KWriter) : run Z := mul_u64 (column w) (font_w (font_size w)).
Definition ky (w : KWriter) : run Z := mul_u64 (row w) (font_h (font_size w)).

(** [KWriter::check_scroll] *)
Definition check_scroll (fh : Z) (w : KWriter) (m : mem) : run (KWriter * mem) :=
  margin ← mul_u64 3 fh;
  let threshold := saturating_sub (height (fb w)) margin in
  y ← ky w;
  if threshold <=? y then
    above ← sub_u64 y threshold;
    scroll_by ← add_u64 above fh;
    m ← scroll_rows (fb w) scroll_by m;
    row ← div_u64 (saturating_sub threshold fh) fh;
    Ok (set_position (column w) row w, m)
  else Ok (w, m).

(** The loop body of [write_str]. *)
Definition write_char (width fh fw : Z) (s : KWriter * mem) (ch : char) : run (KWriter * mem) :=
  let '(w, m) := s in
  if ch =? 10 then
    row ← add_u64 (row w) 1;
    check_scroll fh (set_position 0 row (set_cells [] (set_line [] (set_history (history w ++ [current_line w]) w)))) m
  else
    let w := set_line (current_line w ++ [ch]) w in
    next ← add_u64 (column w) 1;
    right ← mul_u64 next fw;
    w ← (if width <? right then row ← add_u64 (row w) 1; Ok (set_position 0 row w) else Ok w);
    m ← draw_text (fb w) [ch] (column w) (row w) WHITE (Some (font_size w)) m;
    let w := set_cells (glyph_cells w ++ [mkCell (column w) (row w)]) w in
    column ← add_u64 (column w) 1;
    Ok (set_position column (row w) w, m).

(** [KWriter::write_str] *)
Definition write_str (s : str) (w : KWriter) (m : mem) : run (KWriter * mem) :=
  foldM (write_char (width (fb w)) (font_h (font_size w)) (font_w (font_size w))) (w, m) s.

(** [kprint] of a formatted text, and the macro [kprintln!]. *)
Definition kprint (s : str) (c : Console) : run Console := with_writer (write_str s) c.
Definition kprintln (s : str) (c : Console) : run Console := c ← kprint s c; kprint [10] c.

(** [reset] *)
Definition reset (c : Console) : run Console :=
  with_writer (λ w m,
    m ← Graphics.clear_background (fb w) BLACK m;
    Ok (set_index None (set_cursor 0 (set_line [] (set_cells [] (set_position 0 0 w)))), m)) c.

(** ** The cursor block *)

Definition fill_cursor (color : Color) (w : KWriter) (m : mem) : run (KWriter * mem) :=
  let fh := font_h (font_size w) in
  let fw := font_w (font_size w) in
  x ← kx w; y ← ky w;
  h ← sub_u64 fh 4;
  sz ← PixelSize_new fw h;
  m ← draw_rec (fb w) (mkCoord x y) sz color m;
  Ok (w, m).

(** [draw_cursor] *)
Definition draw_cursor (c : Console) : run Console :=
  with_writer (λ w m,
    let fh := font_h (font_size w) in
    let fw := font_w (font_size w) in
    x ← kx w;
    right ← add_u64 x fw;
    '(w, m) ← (if width (fb w) <? right then
                 row ← add_u64 (row w) 1; check_scroll fh (set_position 0 row w) m
               else Ok (w, m));
    fill_cursor WHITE w m) c.

(** [erase_cursor] *)
Definition erase_cursor (c : Console) : run Console := with_writer (fill_cursor BLACK) c.

(** ** The input line *)

(** [set_input_cursor] *)
Definition set_input_cursor (w : KWriter) : run KWriter :=
  index ← add_u64 (chars_count PROMPT) (input_cursor w);
  match glyph_cells w !! Z.to_nat index with
  | Some cell => Ok (set_position (cell_column cell) (cell_row cell) w)
  | None =>
    match last (glyph_cells w) with
    | Some cell =>
      column' ← add_u64 (cell_column cell) 1;
      let w := set_position column' (cell_row cell) w in
      next ← add_u64 (column w) 1;
      right ← mul_u64 next (font_w (font_size w));
      if width (fb w) <? right then row ← add_u64 (row w) 1; Ok (set_position 0 row w) else Ok w
    | None => Ok w
    end
  end.

(** The loop of [redraw_input_line]. *)
Definition redraw_char (start_row fw : Z) (s : KWriter * mem) (e : Z * char) : run (KWriter * mem) :=
  let '(w, m) := s in
  let '(index, ch) := e in
  '(column, row_offset) ← cell_position index fw (width (fb w));
  row ← add_u64 start_row row_offset;
  m ← draw_text (fb w) [ch] column row WHITE (Some (font_size w)) m;
  Ok (set_cells (glyph_cells w ++ [mkCell column row]) w, m).

(** [redraw_input_line] *)
Definition redraw_input_line (text : str) (cursor : Z) (w : KWriter) (m : mem) : run (KWriter * mem) :=
  let fh := font_h (font_size w) in
  let fw := font_w (font_size w) in
  let start_row := match glyph_cells w with cell :: _ => cell_row cell | [] => row w end in
  total_chars ← add_u64 (chars_count PROMPT) (chars_count text);
  total ← mul_u64 total_chars fw;
  total ← add_u64 total (saturating_sub (width (fb w)) 1);
  rows ← div_u64 total (width (fb w));
  y ← mul_u64 start_row fh;
  h ← mul_u64 fh (Z.max rows 1);
  sz ← PixelSize_new (width (fb w)) h;
  m ← draw_rec (fb w) (mkCoord 0 y) sz BLACK m;
  let w := set_cells [] (set_cursor cursor (set_line (PROMPT ++ text) w)) in
  '(w, m) ← foldM (redraw_char start_row fw) (w, m) (enumerate (current_line w));
  w ← set_input_cursor (set_position (column w) start_row w);
  Ok (w, m).

(** [redraw_current_input] *)
Definition redraw_current_input (w : KWriter) (m : mem) : run (KWriter * mem) :=
  let text := match strip_prefix PROMPT (current_line w) with Some text => text | None => [] end in
  redraw_input_line text (input_cursor w) w m.

(** [backspace] *)
Definition backspace (line : str) (c : Console) : run (str * Console) :=
  with_line line (λ w m,
    let w := set_cursor (Z.min (input_cursor w) (chars_count line)) w in
    if input_cursor w =? 0 then Ok (line, w, m) else
    let line := remove_char_at line (input_cursor w) in
    cursor ← sub_u64 (input_cursor w) 1;
    let w := set_cursor cursor w in
    '(w, m) ← redraw_input_line line (input_cursor w) w m;
    Ok (line, w, m)) c.

(** [insert_char] *)
Definition insert_char (line : str) (ch : char) (c : Console) : run (str * Console) :=
  if MAX_INPUT_CHARS <=? chars_count line then Ok (line, c) else
  with_line line (λ w m,
    let w := set_cursor (Z.min (input_cursor w) (chars_count line)) w in
    let line := insert_char_at line (input_cursor w) ch in
    cursor ← add_u64 (input_cursor w) 1;
    let w := set_cursor cursor w in
    '(w, m) ← redraw_input_line line (input_cursor w) w m;
    Ok (line, w, m)) c.

(** [reset_input_cursor] *)
Definition reset_input_cursor (c : Console) : run Console := with_writer (λ w m, Ok (set_cursor 0 w, m)) c.

(** [auto_complete] *)
Definition auto_complete (line : str) (c : Console) : run (str * Console) :=
  match complete_command line with
  | None => Ok (line, c)
  | Some command =>
    let suffix := drop (List.length line) command in
    foldM (λ '(line, c) ch, insert_char line ch c) (line, c) suffix
  end.

(** [arrow_right] and [arrow_left]. *)
Definition arrow_right (c : Console) : run Console :=
  with_writer (λ w m,
    let length := saturating_sub (chars_count (current_line w)) (chars_count PROMPT) in
    cursor ← move_cursor_right (input_cursor w) length;
    redraw_current_input (set_cursor cursor w) m) c.
Definition arrow_left (c : Console) : run Console :=
  with_writer (λ w m, redraw_current_input (set_cursor (move_cursor_left (input_cursor w)) w) m) c.

(** ** History *)

(** [arrow_up] *)
Definition arrow_up (line : str) (c : Console) : run (str * Console) :=
  with_line line (λ w m,
    let commands := command_history (history w) in
    match commands with [] => Ok (line, w, m) | _ =>
    new_index ← (match history_index w with
                 | None => sub_u64 (Z.of_nat (List.length commands)) 1
                 | Some 0 => Ok 0
                 | Some i => sub_u64 i 1
                 end);
    let w := set_index (Some new_index) w in
    command ← array_get commands (Z.to_nat new_index);
    let recalled := trim_start_matches PROMPT command in
    '(w, m) ← redraw_input_line recalled (chars_count recalled) w m;
    Ok (recalled, w, m)
    end) c.

(** [arrow_down] *)
Definition arrow_down (line : str) (c : Console) : run (str * Console) :=
  with_line line (λ w m,
    let commands := command_history (history w) in
    match commands with [] => Ok (line, w, m) | _ =>
    match history_index w with
    | None => Ok (line, w, m)
    | Some i =>
      next ← add_u64 i 1;
      '(w, new_text) ← (if next <? Z.of_nat (List.length commands) then
                          command ← array_get commands (Z.to_nat next);
                          Ok (set_index (Some next) w, trim_start_matches PROMPT command)
                        else Ok (set_index None w, []));
      '(w, m) ← redraw_input_line new_text (chars_count new_text) w m;
      Ok (new_text, w, m)
    end
    end) c.

(** The loop of [print_history]: the memory and the next line's [y]. *)
Definition history_line (w : KWriter) (fh : Z) (s : mem * Z) (line : str) : run (mem * Z) :=
  let '(m, y) := s in
  row ← div_u64 y fh;
  m ← draw_text (fb w) line 0 row WHITE (Some (font_size w)) m;
  y ← add_u64 y fh;
  Ok (m, y).

(** [print_history]; without a writer the message of its [else] has nowhere to go. *)
Definition print_history (c : Console) : run Console :=
  match KWRITER c with
  | Some _ =>
    with_writer (λ w m,
      let fh := font_h (font_size w) in
      max_lines ← div_u64 (height (fb w)) fh;
      let start := saturating_sub (Z.of_nat (List.length (history w))) max_lines in
      let visible := drop (Z.to_nat start) (history w) in
      '(m, y) ← foldM (history_line w fh) (m, 0) visible;
      row ← div_u64 y fh;
      Ok (set_position 0 row w, m)) c
  | None => kprintln (lit "Failed to print history") c
  end.

(** ** Font size *)

(** [set_font_size] *)
Definition set_font_size (sz : RasterHeight) (c : Console) : run Console := with_writer (λ w m, Ok (set_size sz w, m)) c.

(** The common body of [zoom_in] and [zoom_out]. *)
Definition zoom (step : RasterHeight → RasterHeight) (current_input : str) (c : Console) : run Console :=
  c ← with_writer (λ w m,
        let w := set_size (step (font_size w)) w in
        m ← Graphics.clear_background (fb w) BLACK m;
        Ok (set_line [] w, m)) c;
  c ← print_history c;
  kprint (PROMPT ++ current_input) c.

(** [zoom_in] and [zoom_out]. *)
Definition zoom_in (current_input : str) (c : Console) : run Console := zoom larger current_input c.
Definition zoom_out (current_input : str) (c : Console) : run Console := zoom smaller current_input c.

(** ** Emergency output *)

Record EmergencyWriter : Type := mkEmergency { framebuffer : Framebuffer; em_column : Z; em_row : Z }.

(** The loop of [EmergencyWriter::write_str]. *)
Fixpoint emergency_chars (max_columns max_rows : Z) (text : str) (w : EmergencyWriter) (m : mem) : run (EmergencyWriter * mem) :=
  match text with
  | [] => Ok (w, m)
  | character :: text =>
    if character =? 10 then
      emergency_chars max_columns max_rows text (mkEmergency (framebuffer w) 0 (saturating_add (em_row w) 1)) m
    else
      let w := if max_columns <=? em_column w then mkEmergency (framebuffer w) 0 (saturating_add (em_row w) 1) else w in
      if max_rows <=? em_row w then Ok (w, m) else
      m ← draw_text (framebuffer w) [character] (em_column w) (em_row w) WHITE (Some Size16) m;
      column ← add_u64 (em_column w) 1;
      emergency_chars max_columns max_rows text (mkEmergency (framebuffer w) column (em_row w)) m
  end.

(** [EmergencyWriter::write_str] *)
Definition emergency_write_str (text : str) (w : EmergencyWriter) (m : mem) : run (EmergencyWriter * mem) :=
  max_columns ← div_u64 (width (framebuffer w)) (cell_width get_raster_width Size16);
  max_rows ← div_u64 (height (framebuffer w)) (cell_height Size16);
  emergency_chars max_columns max_rows text w m.

(** [emergency_print] of the pieces that a formatted text is written in; the
    console's own state is not read and stays. *)
Definition emergency_print (pieces : list str) (c : Console) : run Console :=
  match EMERGENCY_FRAMEBUFFER c with
  | None => Ok c
  | Some fb =>
    '(_, m) ← foldM (λ '(w, m) text, emergency_write_str text w m) (mkEmergency fb 0 0, screen c) pieces;
    Ok (mkConsole (KWRITER c) (EMERGENCY_FRAMEBUFFER c) m)
  end.

End console.
