(* ===== verification/Terminal.v ===== *)
(** * Terminal: what the console promises of printed text.

    The specification is a terminal of character cells without pixels, fonts or
    machine integers.  [kprint] refines it: the framebuffer shows the terminal's
    cells after every text, and the writer's history and line are its own. *)

From S2P Require Import Prelude Text Graphics Console.
Open Scope Z_scope.

(** ** The abstract terminal *)

Record Terminal : Type := mkTerminal {
  cols : Z;
  rows : Z;
  grid : Z → Z → option char;
  t_column : Z;
  t_row : Z;
  t_history : list str;
  t_line : str;
}.

Definition blank : Z → Z → option char := λ _ _, None.

Definition put (grid : Z → Z → option char) (column row : Z) (ch : char) : Z → Z → option char :=
  λ c r, if (c =? column) && (r =? row) then Some ch else grid c r.

Definition shift (rows d : Z) (grid : Z → Z → option char) : Z → Z → option char :=
  λ c r, if r + d <? rows then grid c (r + d) else None.

(** A line feed keeps three rows free below the cursor. *)
Definition term_newline (t : Terminal) : Terminal :=
  let row := t_row t + 1 in
  let d := if rows t - 3 <=? row then row - (rows t - 4) else 0 in
  mkTerminal (cols t) (rows t) (shift (rows t) d (grid t)) 0 (row - d) (t_history t ++ [t_line t]) [].

(** Any other character goes to the cursor's cell, or to the start of the next
    row when its own row is full; below the last row it is not seen. *)
Definition term_put (ch : char) (t : Terminal) : Terminal :=
  let '(c, r) := if cols t <=? t_column t then (0, t_row t + 1) else (t_column t, t_row t) in
  mkTerminal (cols t) (rows t) (if r <? rows t then put (grid t) c r ch else grid t) (c + 1) r
    (t_history t) (t_line t ++ [ch]).

Definition term_char (t : Terminal) (ch : char) : Terminal :=
  if ch =? 10 then term_newline t else term_put ch t.

Definition term_write (s : str) (t : Terminal) : Terminal := fold_left term_char s t.

(** Everything that was printed. *)
Definition printed (history : list str) (line : str) : str := List.concat (map (λ l : str, l ++ [10]) history) ++ line.

Lemma printed_char t ch :
  printed (t_history (term_char t ch)) (t_line (term_char t ch)) = printed (t_history t) (t_line t) ++ [ch].
Proof.
  unfold term_char, printed. destruct (Z.eqb_spec ch 10) as [->|].
  - cbn. by rewrite map_app, concat_app, app_nil_r; cbn; rewrite app_nil_r, app_assoc.
  - unfold term_put. destruct (cols t <=? t_column t); cbn; by rewrite app_assoc.
Qed.

Lemma printed_write s t :
  printed (t_history (term_write s t)) (t_line (term_write s t)) = printed (t_history t) (t_line t) ++ s.
Proof.
  unfold term_write. revert t. induction s as [|ch s IH]; intros t; cbn [fold_left]; [by rewrite app_nil_r|].
  rewrite IH, printed_char, <- app_assoc. done.
Qed.

(** ** The framebuffer shows a grid *)

Section terminal.
Context (get_raster : char → RasterHeight → option RasterizedChar) (get_raster_width : RasterHeight → Z).
Hypothesis Hfont : font_ok get_raster get_raster_width.

Definition grid_color (sz : RasterHeight) (grid : Z → Z → option char) (px py : Z) : Color :=
  let fw := get_raster_width sz in let fh := cell_height sz in
  match grid (px / fw) (py / fh) with
  | Some ch => char_color get_raster ch sz (px mod fw) (py mod fh)
  | None => BLACK
  end.

Definition picture (fb : Framebuffer) (sz : RasterHeight) (grid : Z → Z → option char) (m : mem) : Prop :=
  ∀ px py, visible fb px py → pixel fb m px py = grid_color sz grid px py.

Lemma picture_ext fb sz g g' m : (∀ px py, visible fb px py →
    g (px / get_raster_width sz) (py / cell_height sz) = g' (px / get_raster_width sz) (py / cell_height sz)) →
  picture fb sz g m → picture fb sz g' m.
Proof. intros Hg Hp px py Hv. rewrite Hp by done. unfold grid_color. by rewrite Hg. Qed.

(** What drawing a character does to a pixel: nothing outside its cell, and in a
    blank cell the character appears. *)
Lemma draw_char_pixels fb sz m ch c r : fb_ok fb → ch ≠ 10 → 0 ≤ c < 2 ^ 48 → 0 ≤ r < 2 ^ 48 →
  ∃ m', draw_text get_raster get_raster_width fb [ch] c r WHITE (Some sz) m = Ok m' ∧
    ∀ px py, visible fb px py →
      (¬ (px / get_raster_width sz = c ∧ py / cell_height sz = r) → pixel fb m' px py = pixel fb m px py) ∧
      (∀ g, g c r = None → pixel fb m px py = grid_color sz g px py → pixel fb m' px py = grid_color sz (put g c r ch) px py).
Proof.
  intros Hok Hch Hc Hr. pose proof (font_width _ _ Hfont sz) as Hw. pose proof (cell_height_bound sz) as Hh.
  destruct (draw_char_painted _ _ Hfont fb ch c r sz m Hok Hch Hc Hr) as (m' & Hd & Hpt).
  exists m'. split; [exact Hd|]. intros px py Hv. unfold grid_color, put.
  set (fw := get_raster_width sz) in *. set (fh := cell_height sz) in *.
  destruct (Z.eq_dec (char_intensity get_raster ch sz (px - c * fw) (py - r * fh)) 0) as [H0|H0].
  - rewrite (painted_other _ _ _ _ _ px py Hok Hpt Hv) by (by rewrite H0). split; [done|]. intros g Hg ->.
    destruct (Z.eqb_spec (px / fw) c) as [Ec|]; [|done]. destruct (Z.eqb_spec (py / fh) r) as [Er|]; [|done].
    cbn [andb]. rewrite Ec, Er, Hg. symmetry. apply char_color_zero.
    rewrite !Z.mod_eq, Ec, Er by lia. rewrite <- H0. f_equal; lia.
  - destruct (intensity_inside _ _ Hfont _ _ _ _ H0) as [Hx Hy]. fold fw in Hx. fold fh in Hy.
    assert (px / fw = c) as Ec by (symmetry; apply Z.div_unique with (px - c * fw); lia).
    assert (py / fh = r) as Er by (symmetry; apply Z.div_unique with (py - r * fh); lia).
    split; [intros Hn; by destruct Hn|]. intros g _ _.
    rewrite Ec, Er, !Z.eqb_refl. cbn [andb]. destruct Hpt as [Hpt _].
    rewrite (Hpt px py Hv) by (by rewrite (proj2 (Z.eqb_neq _ _))).
    rewrite !Z.mod_eq, Ec, Er by lia. f_equal; lia.
Qed.

Lemma picture_put fb sz g m ch c r : fb_ok fb → ch ≠ 10 → 0 ≤ c < 2 ^ 48 → 0 ≤ r < 2 ^ 48 →
  g c r = None → picture fb sz g m →
  ∃ m', draw_text get_raster get_raster_width fb [ch] c r WHITE (Some sz) m = Ok m' ∧
    picture fb sz (put g c r ch) m'.
Proof.
  intros Hok Hch Hc Hr Hg Hp. destruct (draw_char_pixels fb sz m ch c r Hok Hch Hc Hr) as (m' & Hd & Hpx).
  exists m'. split; [exact Hd|]. intros px py Hv. apply (Hpx px py Hv); [done|]. by apply Hp.
Qed.

(** A scroll by whole rows. *)
Lemma picture_scroll fb sz g m n d : fb_ok fb → height fb = cell_height sz * n → 0 ≤ d →
  picture fb sz g m →
  ∃ m', scroll_rows fb (d * cell_height sz) m = Ok m' ∧ picture fb sz (shift n d g) m'.
Proof.
  intros Hok Hn Hd Hp. pose proof (cell_height_bound sz) as Hh. set (fh := cell_height sz) in *.
  destruct (scroll_rows_painted fb (d * fh) m Hok ltac:(lia)) as (m' & Hs & Hpx & _).
  exists m'. split; [exact Hs|]. intros px py Hv. rewrite Hpx by done. unfold grid_color, shift. fold fh.
  assert ((py + d * fh) / fh = py / fh + d ∧ (py + d * fh) mod fh = py mod fh) as [E1 E2].
  { split; [apply Z.div_add; lia|apply Z.mod_add; lia]. }
  assert ((py + d * fh <? height fb) = (py / fh + d <? n)) as ->.
  { apply eq_true_iff_eq. rewrite !Z.ltb_lt, Hn, <- E1. split.
    - intros. apply Z.div_lt_upper_bound; lia.
    - intros Hlt. pose proof (Z.mul_succ_div_gt (py + d * fh) fh). nia. }
  destruct (Z.ltb_spec (py / fh + d) n); [|done].
  assert (visible fb px (py + d * fh)) as Hv2.
  { destruct Hv. split; [done|]. rewrite Hn. rewrite <- E1 in *.
    pose proof (Z.mul_succ_div_gt (py + d * fh) fh). nia. }
  rewrite Hp by done. unfold grid_color. fold fh. by rewrite E1, E2.
Qed.

(** A cleared screen. *)
Lemma picture_clear fb sz m : fb_ok fb →
  ∃ m', Graphics.clear_background fb BLACK m = Ok m' ∧ picture fb sz blank m'.
Proof.
  intros Hok. destruct (clear_background_painted fb BLACK m Hok) as (m' & Hc & Hp & _).
  exists m'. split; [exact Hc|]. intros px py Hv. by rewrite Hp.
Qed.

(** ** Refinement *)

(** The writer and the framebuffer are the terminal's.  The screen is a whole
    number of rows high, so that a scroll moves rows onto rows. *)
Record shows_terminal (w : KWriter) (m : mem) (t : Terminal) : Prop := {
  st_fb : fb_ok (fb w);
  st_width : width (fb w) < 2 ^ 32;
  st_cols : cols t = width (fb w) / get_raster_width (font_size w);
  st_cols_pos : 1 ≤ cols t;
  st_height : height (fb w) < 2 ^ 32;
  st_rows : height (fb w) = cell_height (font_size w) * rows t;
  st_rows_min : 4 ≤ rows t;
  st_column : column w = t_column t;
  st_row : row w = t_row t;
  st_history : history w = t_history t;
  st_line : current_line w = t_line t;
  st_cells : t_line t = [] → glyph_cells w = [];
  st_column_bound : 0 ≤ t_column t ≤ cols t;
  st_row_bound : 0 ≤ t_row t;
  st_blank : ∀ c r, t_row t < r ∨ (r = t_row t ∧ t_column t ≤ c) → grid t c r = None;
  st_picture : picture (fb w) (font_size w) (grid t) m;
}.

(** The end of the line is where the next cell leaves the screen. *)
Lemma wrap_cond W fw c : 0 < fw → (W <? (c + 1) * fw) = (W / fw <=? c).
Proof.
  intros Hf. apply eq_true_iff_eq. rewrite Z.ltb_lt, Z.leb_le. split.
  - intros H. apply Z.lt_succ_r. apply Z.div_lt_upper_bound; lia.
  - intros H. pose proof (Z.mul_succ_div_gt W fw Hf). nia.
Qed.

(** [check_scroll] on a screen of whole rows: the cursor's row goes back to the
    fourth row from the bottom, and the picture goes with it. *)
Lemma check_scroll_aligned w m n g : fb_ok (fb w) → height (fb w) < 2 ^ 32 →
  height (fb w) = cell_height (font_size w) * n → 4 ≤ n → 0 ≤ row w < 2 ^ 48 →
  picture (fb w) (font_size w) g m →
  let d := if n - 3 <=? row w then row w - (n - 4) else 0 in
  ∃ m', check_scroll (font_h (font_size w)) w m = Ok (set_position (column w) (row w - d) w, m') ∧
    picture (fb w) (font_size w) (shift n d g) m'.
Proof.
  intros Hok Hb Hn Hn4 Hr Hp d. pose proof (cell_height_bound (font_size w)) as Hh.
  unfold check_scroll, ky. change (font_h (font_size w)) with (cell_height (font_size w)). set (fh := cell_height (font_size w)) in *.
  rewrite !mul_u64_ok by (unfold is_u64; nia). cbn [mbind outcome_bind].
  assert (saturating_sub (height (fb w)) (3 * fh) = (n - 3) * fh) as -> by (unfold saturating_sub; nia).
  assert (((n - 3) * fh <=? row w * fh) = (n - 3 <=? row w)) as ->.
  { apply eq_true_iff_eq. rewrite !Z.leb_le. nia. }
  unfold d. destruct (Z.leb_spec (n - 3) (row w)) as [Hge|Hlt].
  - rewrite sub_u64_ok by nia. cbn [mbind outcome_bind]. rewrite add_u64_ok by (unfold is_u64; nia). cbn [mbind outcome_bind].
    replace (row w * fh - (n - 3) * fh + fh) with ((row w - (n - 4)) * fh) by ring.
    destruct (picture_scroll (fb w) (font_size w) g m n (row w - (n - 4)) Hok Hn ltac:(lia) Hp) as (m' & Hs & Hp').
    fold fh in Hs. rewrite Hs. cbn [mbind outcome_bind]. rewrite div_u64_ok by lia. cbn [mbind outcome_bind].
    assert (saturating_sub ((n - 3) * fh) fh / fh = n - 4) as ->.
    { replace (saturating_sub ((n - 3) * fh) fh) with ((n - 4) * fh) by (unfold saturating_sub; nia). apply Z.div_mul. lia. }
    exists m'. split; [|exact Hp']. by replace (row w - (row w - (n - 4))) with (n - 4) by lia.
  - exists m. split; [rewrite Z.sub_0_r; by destruct w|].
    revert Hp. apply picture_ext. intros px py [_ Hy]. unfold shift. rewrite Z.add_0_r.
    rewrite (proj2 (Z.ltb_lt _ _)); [done|]. fold fh. apply Z.div_lt_upper_bound; lia.
Qed.

Lemma newline_refines w m t : shows_terminal w m t → t_row t < 2 ^ 40 →
  ∃ w' m', write_char get_raster get_raster_width (width (fb w)) (font_h (font_size w)) (font_w get_raster_width (font_size w)) (w, m) 10 = Ok (w', m') ∧
    shows_terminal w' m' (term_newline t) ∧ fb w' = fb w ∧ font_size w' = font_size w.
Proof.
  intros [] Hrow. unfold write_char. cbn [Z.eqb]. change (10 =? 10) with true. cbv iota.
  rewrite add_u64_ok by (unfold is_u64; lia). cbn [mbind outcome_bind].
  set (w1 := set_position 0 (row w + 1) _).
  destruct (check_scroll_aligned w1 m (rows t) (grid t)) as (m' & Hs & Hp); try done; [cbn; lia|].
  change (font_h (font_size w)) with (font_h (font_size w1)). rewrite Hs. cbn in Hs, Hp |- *. rewrite st_row0 in *.
  eexists _, m'. split; [reflexivity|]. split; [|done]. unfold term_newline.
  split; cbn; try done; try lia.
  - by rewrite st_history0, st_line0.
  - destruct (Z.leb_spec (rows t - 3) (t_row t + 1)); lia.
  - intros c r Hb. unfold shift. destruct (_ <? _); [|done]. apply st_blank0. left.
    destruct (Z.leb_spec (rows t - 3) (t_row t + 1)); lia.
Qed.

Lemma put_refines w m t ch : shows_terminal w m t → t_row t < 2 ^ 40 → ch ≠ 10 →
  ∃ w' m', write_char get_raster get_raster_width (width (fb w)) (font_h (font_size w)) (font_w get_raster_width (font_size w)) (w, m) ch = Ok (w', m') ∧
    shows_terminal w' m' (term_put ch t) ∧ fb w' = fb w ∧ font_size w' = font_size w ∧
    glyph_cells w' = glyph_cells w ++ [mkCell (t_column (term_put ch t) - 1) (t_row (term_put ch t))] ∧
    history_index w' = history_index w.
Proof.
  intros [] Hrow Hch. pose proof (font_width _ _ Hfont (font_size w)) as Hw. unfold write_char.
  rewrite (proj2 (Z.eqb_neq _ _) Hch). cbn [column set_line].
  assert (0 ≤ cols t < 2 ^ 32) as Hcols by (rewrite st_cols0; split; [lia|apply Z.div_lt_upper_bound; nia]).
  rewrite (add_u64_ok (column w) 1) by (unfold is_u64; lia). cbn [mbind outcome_bind]. unfold font_w.
  rewrite (mul_u64_ok (column w + 1)) by (unfold is_u64; nia). cbn [mbind outcome_bind].
  rewrite wrap_cond, <- st_cols0, st_column0 by lia. unfold term_put.
  set (pos := if cols t <=? t_column t then (0, t_row t + 1) else (t_column t, t_row t)).
  assert (∃ w1, (if cols t <=? t_column t then
       row ← add_u64 (row (set_line (current_line w ++ [ch]) w)) 1; Ok (E:=Empty_set) (set_position 0 row (set_line (current_line w ++ [ch]) w))
     else Ok (set_line (current_line w ++ [ch]) w)) = Ok w1 ∧ w1 = set_position (fst pos) (snd pos) (set_line (current_line w ++ [ch]) w)) as (w1 & -> & ->).
  { unfold pos. destruct (cols t <=? t_column t); eexists; (split; [|reflexivity]).
    - cbn [row set_line]. rewrite add_u64_ok by (unfold is_u64; lia). cbn. by rewrite st_row0.
    - cbn. rewrite <- st_column0, <- st_row0. by destruct w. }
  cbn [mbind outcome_bind column row fb font_size set_position set_line].
  assert (0 ≤ fst pos < cols t ∧ 0 ≤ snd pos ≤ t_row t + 1 ∧ grid t (fst pos) (snd pos) = None ∧
    (∀ c r, snd pos < r ∨ (r = snd pos ∧ fst pos + 1 ≤ c) → grid t c r = None)) as (Hc & Hr & Hg & Hb).
  { unfold pos. destruct (Z.leb_spec (cols t) (t_column t)); cbn; split_and!; try lia; try (apply st_blank0; lia);
      intros; apply st_blank0; lia. }
  destruct pos as [c r]. cbn [fst snd] in *.
  destruct (picture_put (fb w) (font_size w) (grid t) m ch c r) as (m' & -> & Hp); try done; [lia|lia|].
  cbn [mbind outcome_bind]. rewrite add_u64_ok by (unfold is_u64; cbn; lia). cbn [mbind outcome_bind].
  eexists _, m'. split; [reflexivity|].
  split; [|split_and!; try done; cbn; by rewrite Z.add_simpl_r]. split; cbn; try done; try lia.
  - by rewrite st_line0.
  - intros Hl. by destruct (t_line t).
  - intros c' r' Hcr. destruct (r <? rows t); [|by apply Hb]. unfold put.
    destruct (Z.eqb_spec c' c) as [->|], (Z.eqb_spec r' r) as [->|]; cbn [andb]; try (apply Hb; lia). lia.
  - destruct (Z.ltb_spec r (rows t)); [done|]. revert Hp. apply picture_ext. intros px py [_ Hy]. unfold put.
    rewrite (proj2 (Z.eqb_neq (py / _) r)); [by rewrite andb_false_r|].
    pose proof (cell_height_bound (font_size w)). assert (py / cell_height (font_size w) < rows t); [|lia].
    apply Z.div_lt_upper_bound; lia.
Qed.

(** The row grows only by wrapping, one row at most for each character. *)
Lemma term_char_row t ch : 4 ≤ rows t → t_row (term_char t ch) ≤ t_row t + 1 ∧ rows (term_char t ch) = rows t.
Proof.
  intros. unfold term_char, term_newline, term_put. destruct (ch =? 10); cbn.
  - destruct (Z.leb_spec (rows t - 3) (t_row t + 1)); lia.
  - destruct (cols t <=? t_column t); cbn; lia.
Qed.

Lemma write_str_refines s w m t : shows_terminal w m t → t_row t + Z.of_nat (length s) < 2 ^ 40 →
  ∃ w' m', write_str get_raster get_raster_width s w m = Ok (w', m') ∧ shows_terminal w' m' (term_write s t) ∧
    fb w' = fb w ∧ font_size w' = font_size w.
Proof.
  unfold write_str, term_write. revert w m t. induction s as [|ch s IH]; intros w m t Ht Hlen; cbn [foldM fold_left].
  { by exists w, m. }
  cbn [length] in Hlen. rewrite Nat2Z.inj_succ in Hlen.
  assert (∃ w1 m1, write_char get_raster get_raster_width (width (fb w)) (font_h (font_size w))
    (font_w get_raster_width (font_size w)) (w, m) ch = Ok (w1, m1) ∧ shows_terminal w1 m1 (term_char t ch) ∧
    fb w1 = fb w ∧ font_size w1 = font_size w) as (w1 & m1 & -> & Ht1 & Hf1 & Hs1).
  { unfold term_char. destruct (Z.eqb_spec ch 10) as [->|Hch]; [by apply newline_refines; [|lia]|].
    destruct (put_refines w m t ch Ht ltac:(lia) Hch) as (w1 & m1 & ? & ? & ? & ? & _). by exists w1, m1. }
  cbn [mbind outcome_bind]. destruct (term_char_row t ch (st_rows_min _ _ _ Ht)) as [Hr _].
  destruct (IH w1 m1 (term_char t ch) Ht1 ltac:(lia)) as (w' & m' & Hw & Ht' & Hf' & Hs').
  rewrite Hf1, Hs1 in Hw. exists w', m'. split; [exact Hw|]. split; [exact Ht'|]. by rewrite Hf', Hs'.
Qed.

Lemma kprint_refines s c w t : KWRITER c = Some w → shows_terminal w (screen c) t →
  t_row t + Z.of_nat (length s) < 2 ^ 40 →
  ∃ c' w', kprint get_raster get_raster_width s c = Ok c' ∧ KWRITER c' = Some w' ∧ shows_terminal w' (screen c') (term_write s t) ∧
    fb w' = fb w ∧ font_size w' = font_size w.
Proof.
  intros Hw Ht Hs. destruct (write_str_refines s w (screen c) t Ht Hs) as (w' & m' & Hr & Ht' & Hd).
  unfold kprint, with_writer. rewrite Hw, Hr. cbn. by eexists _, w'.
Qed.

Lemma kprints_refine texts c w t : KWRITER c = Some w → shows_terminal w (screen c) t →
  t_row t + Z.of_nat (length (List.concat texts)) < 2 ^ 40 →
  ∃ c' w', foldM (λ c s, kprint get_raster get_raster_width s c) c texts = Ok c' ∧ KWRITER c' = Some w' ∧
    shows_terminal w' (screen c') (term_write (List.concat texts) t) ∧ fb w' = fb w ∧ font_size w' = font_size w.
Proof.
  revert c w t. induction texts as [|s texts IH]; intros c w t Hw Ht Hl; cbn [foldM List.concat]; [by exists c, w|].
  cbn [List.concat] in Hl. rewrite length_app, Nat2Z.inj_add in Hl.
  destruct (kprint_refines s c w t Hw Ht ltac:(lia)) as (c1 & w1 & -> & Hw1 & Ht1 & Hf1 & Hs1). cbn [mbind outcome_bind].
  assert (t_row (term_write s t) ≤ t_row t + Z.of_nat (length s)) as Hrow.
  { pose proof (st_rows_min _ _ _ Ht) as H4. clear -H4. unfold term_write. revert t H4.
    induction s as [|ch s IH]; intros t H4; cbn [fold_left length]; [lia|].
    destruct (term_char_row t ch H4) as [H1 H2]. pose proof (IH (term_char t ch) ltac:(lia)). lia. }
  destruct (IH c1 w1 _ Hw1 Ht1 ltac:(lia)) as (c' & w' & Hr & Hw' & Ht' & Hf' & Hs'). exists c', w'.
  split; [exact Hr|]. split; [exact Hw'|]. unfold term_write in *. rewrite fold_left_app, Hf', Hs'. done.
Qed.

(** [reset] leaves the blank terminal, but keeps the history. *)
Lemma reset_blank c w : KWRITER c = Some w → fb_ok (fb w) → width (fb w) < 2 ^ 32 → height (fb w) < 2 ^ 32 →
  get_raster_width (font_size w) ≤ width (fb w) →
  height (fb w) mod cell_height (font_size w) = 0 → 4 * cell_height (font_size w) ≤ height (fb w) →
  ∃ c' w', reset c = Ok c' ∧ KWRITER c' = Some w' ∧
    shows_terminal w' (screen c') (mkTerminal (width (fb w) / get_raster_width (font_size w))
      (height (fb w) / cell_height (font_size w)) blank 0 0 (history w) []) ∧ fb w' = fb w ∧ font_size w' = font_size w ∧
    history_index w' = None.
Proof.
  intros Hw Hok Hbw Hbh Hfw Hmod H4. pose proof (font_width _ _ Hfont (font_size w)) as Hf.
  pose proof (cell_height_bound (font_size w)) as Hh.
  unfold reset, with_writer. rewrite Hw.
  destruct (picture_clear (fb w) (font_size w) (screen c) Hok) as (m' & -> & Hp). cbn.
  eexists _, _. split; [reflexivity|]. split; [reflexivity|]. split; [|done]. split; cbn; try done.
  - apply Z.div_le_lower_bound; lia.
  - by apply Z.div_exact; [lia|].
  - apply Z.div_le_lower_bound; lia.
  - split; [lia|]. apply Z.div_pos; lia.
Qed.

(** C9. Printed text appears as on the abstract terminal, on a screen whose height
    is a multiple of the row height, with at least four rows, at least one
    column and less than 2^32 pixels each way (on a screen of another height
    rows overlap after a scroll: [scroll_overlap]), for texts of fewer than 2^40
    characters.  After a [reset] and the texts, no operation has panicked, every
    visible pixel shows the terminal's grid (characters where they were printed,
    wrapped at the right edge and scrolled by whole rows, and black elsewhere),
    the cursor is the terminal's, and the history and the current line hold
    exactly what was printed since, behind the history from before: the code of
    [reset] keeps the history, though its documentation says that it wipes it. *)
Theorem kprint_refines_terminal (texts : list str) (c : Console) (w : KWriter) :
  KWRITER c = Some w → fb_ok (fb w) → width (fb w) < 2 ^ 32 → height (fb w) < 2 ^ 32 →
  get_raster_width (font_size w) ≤ width (fb w) →
  height (fb w) mod cell_height (font_size w) = 0 → 4 * cell_height (font_size w) ≤ height (fb w) →
  Z.of_nat (length (List.concat texts)) < 2 ^ 40 →
  let t := mkTerminal (width (fb w) / get_raster_width (font_size w)) (height (fb w) / cell_height (font_size w))
             blank 0 0 (history w) [] in
  ∃ c' w', (c ← reset c; foldM (λ c s, kprint get_raster get_raster_width s c) c texts) = Ok c' ∧
    KWRITER c' = Some w' ∧ fb w' = fb w ∧ font_size w' = font_size w ∧
    shows_terminal w' (screen c') (term_write (List.concat texts) t) ∧
    printed (history w') (current_line w') = printed (history w) [] ++ List.concat texts.
Proof.
  intros Hw Hok Hbw Hbh Hfw Hmod H4 Hl t.
  destruct (reset_blank c w Hw Hok Hbw Hbh Hfw Hmod H4) as (c1 & w1 & -> & Hw1 & Ht1 & Hf1 & Hs1 & _).
  cbn [mbind outcome_bind]. fold t in Ht1.
  destruct (kprints_refine texts c1 w1 t Hw1 Ht1 Hl) as (c' & w' & Hr & Hw' & Ht' & Hf' & Hs').
  exists c', w'. split; [exact Hr|]. split; [exact Hw'|]. split; [congruence|]. split; [congruence|]. split; [exact Ht'|].
  by rewrite (st_history _ _ _ Ht'), (st_line _ _ _ Ht'), printed_write.
Qed.

End terminal.

(** A screen that is no whole number of rows high scrolls by other than whole
    rows: 768 pixels of 18 pixel rows scroll by 24 pixels where the cursor goes
    back two rows, so that the row above, now at pixel 678, reaches below the
    cursor's pixel 684. *)
Lemma scroll_overlap w m : height (fb w) = 768 → font_size w = Size16 → row w = 40 →
  check_scroll (font_h Size16) w m = (m ← scroll_rows (fb w) 24 m; Ok (set_position (column w) 38 w, m)) ∧
  (39 * 18 - 24 = 678 ∧ 38 * 18 = 684).
Proof.
  intros Hh Hs Hr. split; [|done]. unfold check_scroll, ky. rewrite Hh, Hs, Hr. done.
Qed.

(** ** A console to evaluate: three columns of two pixels, five rows. *)

Definition demo_raster (ch : char) (sz : RasterHeight) : option RasterizedChar := Some (mkRaster 2 [[ch mod 256; 255]]).
Definition demo_width (sz : RasterHeight) : Z := 2.

Lemma demo_font_ok : font_ok demo_raster demo_width.
Proof.
  split; unfold demo_width; [lia..| |]; intros c sz g [= <-]; [split; [by destruct sz|by repeat constructor]|done].
Qed.

Definition demo_screen : Framebuffer := mkFb 0x1000 (mkSize 6 90) 6 Bgr 2160.
Definition demo_console : Console := init demo_screen (mkConsole None None (λ a, a mod 251)).

Lemma demo_screen_ok : fb_ok demo_screen.
Proof. by split; vm_compute. Qed.

Lemma kprint_refines_terminal_witness : ∃ c' w',
  (c ← reset demo_console; foldM (λ c s, kprint demo_raster demo_width s c) c [[97; 10; 98]; [99; 100; 101; 10]]) = Ok c' ∧
  KWRITER c' = Some w' ∧ history w' = [[97]; [98; 99; 100; 101]] ∧ row w' = 1 ∧
  pixel demo_screen (screen c') 0 0 = char_color demo_raster 101 Size16 0 0.
Proof.
  destruct (kprint_refines_terminal demo_raster demo_width demo_font_ok [[97; 10; 98]; [99; 100; 101; 10]]
    demo_console (mkKWriter demo_screen 0 0 [] [] [] 0 Size16 None)) as (c' & w' & Hr & Hw & Hf & Hs & Ht & _);
    [done|apply demo_screen_ok|done..|].
  exists c', w'. split; [exact Hr|]. split; [exact Hw|].
  split; [rewrite (st_history _ _ _ _ _ Ht); reflexivity|]. split; [rewrite (st_row _ _ _ _ _ Ht); reflexivity|].
  pose proof (st_picture _ _ _ _ _ Ht) as Hp. rewrite Hf, Hs in Hp. cbn [fb font_size] in Hp.
  assert (visible demo_screen 0 0) as Hv by (unfold visible; cbn; lia).
  specialize (Hp 0 0 Hv). etransitivity; [exact Hp|]. clear. vm_compute. reflexivity.
Defined.

(** The demo console behind a [reset]. *)
Lemma demo_reset : ∃ c w, reset demo_console = Ok c ∧ KWRITER c = Some w ∧ fb w = demo_screen ∧ font_size w = Size16 ∧
  shows_terminal demo_raster demo_width w (screen c) (mkTerminal 3 5 blank 0 0 [] []) ∧ history w = [] ∧ history_index w = None.
Proof.
  destruct (reset_blank demo_raster demo_width demo_font_ok demo_console (mkKWriter demo_screen 0 0 [] [] [] 0 Size16 None))
    as (c & w & Hc & Hw & Ht & Hf & Hs & Hi); [done|apply demo_screen_ok|done..|].
  exists c, w. split_and!; try done. exact (st_history _ _ _ _ _ Ht).
Qed.
