(* ===== verification/LineEditor.v ===== *)
(** * LineEditor: editing the shell's input line.

    The specification of the editor is a zipper, the characters before and
    behind the cursor.  The console's operations refine it, and every redraw
    shows the prompt and the line on the rows they occupy. *)

From S2P Require Import Prelude Text Graphics Commands Console Terminal.
Open Scope Z_scope.

(** ** The abstract editor *)

Inductive Edit : Type := Insert (ch : char) | Backspace | Left | Right.

Definition Zipper : Type := (str * str)%type.

Definition zipper_edit (z : Zipper) (e : Edit) : Zipper :=
  let '(l, r) := z in
  match e with
  | Insert ch => if MAX_INPUT_CHARS <=? chars_count (l ++ r) then z else (l ++ [ch], r)
  | Backspace => (removelast l, r)
  | Left => match last l with Some ch => (removelast l, ch :: r) | None => z end
  | Right => match r with ch :: r => (l ++ [ch], r) | [] => z end
  end.

(** The keys of the editor: Up and Down walk over the recalled commands, from
    position 0, the line being typed, to the oldest; Tab completes a command. *)
Inductive Key : Type := EditKey (e : Edit) | Up | Down | Tab.

Definition recalled (cmds : list str) (pos : nat) : str := nth (length cmds - pos) cmds [].

Definition editor_key (cmds : list str) (s : Zipper * nat) (k : Key) : Zipper * nat :=
  let '(z, pos) := s in
  match k with
  | EditKey e => (zipper_edit z e, pos)
  | Up =>
    match cmds with
    | [] => s
    | _ => let pos := Nat.min (S pos) (length cmds) in ((recalled cmds pos, []), pos)
    end
  | Down =>
    match pos with
    | O => s
    | S O => (([], []), O)
    | S pos => ((recalled cmds pos, []), pos)
    end
  | Tab =>
    match complete_command (fst z ++ snd z) with
    | Some command => (fold_left zipper_edit (Insert <$> drop (length (fst z ++ snd z)) command) z, pos)
    | None => s
    end
  end.

(** Where a character of the prompt and the line is shown. *)
Definition cell_at (cols start index : Z) : Cell := mkCell (index mod cols) (start + index / cols).

Definition layout (cols start n : Z) : list Cell := cell_at cols start <$> seqZ 0 n.

(** The grid of a text that starts at a row. *)
Definition line_cells (cols start : Z) (s : str) : Z → Z → option char := λ c r,
  if (0 <=? c) && (c <? cols) && (start <=? r) then s !! Z.to_nat ((r - start) * cols + c) else None.

(** The rows that a line of [n] characters occupies. *)
Definition line_rows (cols n : Z) : Z := Z.max 1 ((n + cols - 1) / cols).

(** ** Lemmas *)

Lemma cell_position_aligned index fw cols : 0 < fw → 0 < cols → 0 ≤ index → is_u64 (index * fw) →
  cell_position index fw (cols * fw) = Ok (index mod cols, index / cols).
Proof.
  intros Hf Hc Hi Hu. unfold cell_position. rewrite mul_u64_ok by done. cbn [mbind outcome_bind].
  rewrite rem_u64_ok by nia. cbn [mbind outcome_bind]. rewrite div_u64_ok by lia. cbn [mbind outcome_bind].
  rewrite div_u64_ok by nia. cbn [mbind outcome_bind].
  rewrite Z.mul_mod_distr_r, Z.div_mul, Z.div_mul_cancel_r by lia. done.
Qed.

Lemma cell_index cols index c r : 0 < cols → 0 ≤ c < cols →
  (c = index mod cols ∧ r = index / cols) ↔ r * cols + c = index.
Proof.
  intros Hc Hr. split.
  - intros [-> ->]. pose proof (Z.div_mod index cols). lia.
  - intros <-. rewrite Z.add_comm, Z.mod_add, Z.div_add, Z.mod_small, Z.div_small by lia. lia.
Qed.

Lemma length_layout cols start n : 0 ≤ n → Z.of_nat (length (layout cols start n)) = n.
Proof. intros. unfold layout. rewrite length_fmap, length_seqZ. lia. Qed.

Lemma lookup_layout cols start n i : 0 ≤ i < n → layout cols start n !! Z.to_nat i = Some (cell_at cols start i).
Proof.
  intros. unfold layout. rewrite list_lookup_fmap.
  rewrite (proj2 (lookup_seqZ 0 n (Z.to_nat i) i)) by lia. done.
Qed.

Lemma layout_snoc cols start n : 0 ≤ n → layout cols start (n + 1) = layout cols start n ++ [cell_at cols start n].
Proof.
  intros. unfold layout. rewrite seqZ_app by lia. by rewrite fmap_app, Z.add_0_l.
Qed.

Lemma line_cells_snoc cols start s ch c r : 0 < cols → 0 ≤ c < cols → start ≤ r →
  line_cells cols start (s ++ [ch]) c r =
  put (line_cells cols start s) (chars_count s mod cols) (start + chars_count s / cols) ch c r.
Proof.
  intros Hc Hcb Hr. unfold line_cells, put.
  rewrite (proj2 (Z.leb_le 0 c)), (proj2 (Z.ltb_lt c cols)), (proj2 (Z.leb_le start r)) by lia. cbn [andb].
  set (k := chars_count s). pose proof (cell_index cols k c (r - start) Hc Hcb) as Hi.
  assert (0 ≤ (r - start) * cols + c) by nia.
  destruct ((c =? k mod cols) && (r =? start + k / cols)) eqn:He.
  - apply andb_true_iff in He as [He1%Z.eqb_eq He2%Z.eqb_eq].
    rewrite (proj1 Hi) by lia. unfold k, chars_count. rewrite Nat2Z.id. by apply list_lookup_middle.
  - assert ((r - start) * cols + c ≠ k) as Hne.
    { intros He'. apply Hi in He' as [-> He']. rewrite Z.eqb_refl in He. cbn in He. apply Z.eqb_neq in He. lia. }
    unfold k, chars_count in Hne.
    destruct (Z.lt_ge_cases ((r - start) * cols + c) (Z.of_nat (length s))).
    + by rewrite lookup_app_l by lia.
    + rewrite lookup_ge_None_2 by (rewrite length_app; cbn; lia). by rewrite lookup_ge_None_2 by lia.
Qed.

(** A cell of a line is in one of the line's rows. *)
Lemma line_cells_rows cols start s c r : 0 < cols → start + line_rows cols (chars_count s) ≤ r →
  line_cells cols start s c r = None.
Proof.
  intros Hc Hr. unfold line_cells. destruct ((0 <=? c) && (c <? cols) && (start <=? r)) eqn:Hb; [|done].
  rewrite !andb_true_iff, !Z.leb_le, Z.ltb_lt in Hb.
  apply lookup_ge_None_2. unfold line_rows, chars_count in Hr.
  set (n := Z.of_nat (length s)) in *. pose proof (Z.mul_succ_div_gt (n + cols - 1) cols Hc).
  assert (n ≤ (r - start) * cols) by nia. lia.
Qed.

Lemma index_row cols index n : 0 < cols → 0 ≤ index < n → index / cols < line_rows cols n.
Proof.
  intros Hc Hi. unfold line_rows. apply Z.lt_le_trans with ((n + cols - 1) / cols); [|lia].
  apply Z.div_lt_upper_bound; [lia|]. pose proof (Z.mul_succ_div_gt (n + cols - 1) cols Hc). nia.
Qed.

(** ** Redrawing *)

Section editor.
Context (get_raster : char → RasterHeight → option RasterizedChar) (get_raster_width : RasterHeight → Z).
Hypothesis Hfont : font_ok get_raster get_raster_width.

(** A screen whose rows are whole numbers of cells. *)
Record aligned (w : KWriter) (cols : Z) : Prop := {
  al_fb : fb_ok (fb w);
  al_width : width (fb w) = cols * get_raster_width (font_size w);
  al_cols : 3 ≤ cols < 2 ^ 32;
  al_height : height (fb w) < 2 ^ 32;
}.

(** The rows of a line show it and nothing else. *)
Definition line_shown (w : KWriter) (cols start : Z) (s : str) (m : mem) : Prop :=
  ∀ px py, visible (fb w) px py →
    start ≤ py / cell_height (font_size w) < start + line_rows cols (chars_count s) →
    pixel (fb w) m px py = grid_color get_raster get_raster_width (font_size w) (line_cells cols start s) px py.

(** The line is on the screen as a whole. *)
Definition line_fits (w : KWriter) (cols start n : Z) : Prop :=
  (start + line_rows cols n) * cell_height (font_size w) ≤ height (fb w).

Lemma redraw_loop w cols start rest : aligned w cols → 0 ≤ start < 2 ^ 40 → ∀ done m,
  Forall (λ ch, ch ≠ 10) rest → chars_count (done ++ rest) < 2 ^ 33 →
  glyph_cells w = layout cols start (chars_count done) →
  ∃ m', foldM (redraw_char get_raster get_raster_width start (get_raster_width (font_size w))) (w, m)
      (zip (seqZ (chars_count done) (chars_count rest)) rest) =
    Ok (set_cells (layout cols start (chars_count (done ++ rest))) w, m') ∧
  ∀ px py, visible (fb w) px py →
    (start ≤ py / cell_height (font_size w) →
     pixel (fb w) m px py = grid_color get_raster get_raster_width (font_size w) (line_cells cols start done) px py →
     pixel (fb w) m' px py = grid_color get_raster get_raster_width (font_size w) (line_cells cols start (done ++ rest)) px py) ∧
    (py / cell_height (font_size w) < start ∨ start + line_rows cols (chars_count (done ++ rest)) ≤ py / cell_height (font_size w) →
     pixel (fb w) m' px py = pixel (fb w) m px py).
Proof.
  revert w. induction rest as [|ch rest IH]; intros w Hal Hs pre m Hch Hlen Hcells.
  - exists m. rewrite app_nil_r. cbn. split; [rewrite <- Hcells; by destruct w|]. done.
  - apply Forall_cons in Hch as [Hch Hrest]. destruct Hal as [Hok HW Hcols HH].
    pose proof (font_width _ _ Hfont (font_size w)) as Hf. set (fw := get_raster_width (font_size w)) in *.
    unfold chars_count in *. rewrite length_app in Hlen. cbn [length] in Hlen.
    set (k := Z.of_nat (length pre)) in *. assert (0 ≤ k) by lia.
    replace (Z.of_nat (length (ch :: rest))) with (Z.succ (Z.of_nat (length rest))) by (cbn [length]; lia).
    rewrite seqZ_cons, Z.pred_succ by lia. cbn [zip zip_with foldM redraw_char].
    rewrite HW, cell_position_aligned by (unfold is_u64; nia). cbn [mbind outcome_bind].
    pose proof (Z.mod_pos_bound k cols ltac:(lia)) as Hm. pose proof (Z.div_pos k cols ltac:(lia) ltac:(lia)) as Hd.
    pose proof (Z.div_le_upper_bound k cols k ltac:(lia) ltac:(nia)) as Hdk.
    rewrite add_u64_ok by (unfold is_u64; lia). cbn [mbind outcome_bind].
    destruct (draw_char_pixels _ _ Hfont (fb w) (font_size w) m ch (k mod cols) (start + k / cols) Hok Hch) as (m1 & -> & Hpx1); [lia|lia|].
    cbn [mbind outcome_bind].
    destruct (IH (set_cells (glyph_cells w ++ [mkCell (k mod cols) (start + k / cols)]) w) ltac:(by split) Hs (pre ++ [ch]) m1 Hrest)
      as (m' & Hr & Hpx).
    { rewrite !length_app. cbn [length]. lia. }
    { cbn [glyph_cells set_cells]. rewrite Hcells, length_app, Nat2Z.inj_add. cbn [length]. rewrite layout_snoc by lia. done. }
    rewrite length_app, Nat2Z.inj_add in Hr. cbn [length] in Hr. change (Z.of_nat 1) with 1 in Hr. fold k in Hr.
    cbn [font_size set_cells] in Hr. fold fw in Hr. rewrite <- app_assoc in Hr, Hpx. cbn [app] in Hr, Hpx.
    cbn [fb font_size set_cells] in Hpx. exists m'. split.
    { unfold Z.succ in *. rewrite Hr. by destruct w. }
    intros px py Hv. destruct (Hpx px py Hv) as [H1 H2]. destruct (Hpx1 px py Hv) as [G1 G2].
    pose proof (cell_height_bound (font_size w)) as Hh. set (fh := cell_height (font_size w)) in *.
    assert (0 ≤ px / fw < cols) as Hpc.
    { destruct Hv as [Hx _]. split; [apply Z.div_pos; lia|apply Z.div_lt_upper_bound; lia]. }
    split.
    + intros Hpr Hm0. apply H1; [done|]. unfold grid_color. fold fw fh. rewrite line_cells_snoc by lia. fold k.
      apply (G2 (line_cells cols start pre)); [|done].
      unfold line_cells. destruct (_ && _); [|done]. apply lookup_ge_None_2.
      pose proof (Z.div_mod k cols). replace (start + k / cols - start) with (k / cols) by lia. lia.
    + intros Ho. rewrite H2 by done. apply G1. intros [_ Hrow]. rewrite Hrow in Ho.
      pose proof (index_row cols k (Z.of_nat (length (pre ++ ch :: rest))) ltac:(lia)) as Hi.
      rewrite length_app in Hi. cbn [length] in Hi. rewrite length_app in Ho. cbn [length] in Ho. lia.
Qed.

(** The writer after a redraw. *)
Definition redrawn (w : KWriter) (cols start : Z) (text : str) (cursor : Z) : KWriter :=
  let at_cursor := cell_at cols start (2 + cursor) in
  mkKWriter (fb w) (cell_column at_cursor) (cell_row at_cursor) (layout cols start (2 + chars_count text))
    (history w) (PROMPT ++ text) cursor (font_size w) (history_index w).

(** The row that a redraw starts from. *)
Definition start_row (w : KWriter) : Z := match glyph_cells w with cell :: _ => cell_row cell | [] => row w end.

(** Behind the last character the cursor wraps as the next character would. *)
Lemma set_input_cursor_layout w cols start n : aligned w cols → 0 ≤ start < 2 ^ 40 → 1 ≤ n < 2 ^ 33 →
  0 ≤ input_cursor w → 2 + input_cursor w ≤ n → glyph_cells w = layout cols start n →
  set_input_cursor get_raster_width w =
  Ok (set_position (cell_column (cell_at cols start (2 + input_cursor w))) (cell_row (cell_at cols start (2 + input_cursor w))) w).
Proof.
  intros [Hok HW Hcols HH] Hs Hn Hc Hcn Hcells. pose proof (font_width _ _ Hfont (font_size w)) as Hf.
  unfold set_input_cursor. change (chars_count PROMPT) with 2.
  rewrite (add_u64_ok 2) by (unfold is_u64; lia). cbn [mbind outcome_bind]. rewrite Hcells.
  destruct (Z.lt_ge_cases (2 + input_cursor w) n) as [Hlt|Hge].
  { by rewrite lookup_layout by lia. }
  assert (2 + input_cursor w = n) as E by lia. rewrite E.
  rewrite lookup_ge_None_2 by (pose proof (length_layout cols start n); lia).
  replace n with (n - 1 + 1) at 1 by lia. rewrite layout_snoc, last_snoc by lia.
  unfold cell_at. cbn [cell_column cell_row]. set (k := n - 1).
  pose proof (Z.mod_pos_bound k cols ltac:(lia)) as Hm.
  pose proof (Z.div_pos k cols ltac:(lia) ltac:(lia)) as Hd.
  pose proof (Z.div_le_upper_bound k cols k ltac:(lia) ltac:(nia)) as Hdk.
  rewrite (add_u64_ok (k mod cols)) by (unfold is_u64; lia). cbn [mbind outcome_bind column set_position].
  rewrite (add_u64_ok (k mod cols + 1)) by (unfold is_u64; lia). cbn [mbind outcome_bind].
  cbn [font_size set_position fb]. unfold font_w.
  rewrite mul_u64_ok by (unfold is_u64; nia). cbn [mbind outcome_bind].
  rewrite wrap_cond, HW, Z.div_mul by lia.
  pose proof (Z.div_mod k cols ltac:(lia)) as Hk. replace n with (k + 1) by lia.
  destruct (Z.leb_spec cols (k mod cols + 1)) as [Hw|Hw].
  - cbn [row set_position]. rewrite add_u64_ok by (unfold is_u64; lia). cbn [mbind outcome_bind].
    assert ((k + 1) / cols = k / cols + 1 ∧ (k + 1) mod cols = 0) as [-> ->].
    { assert (k + 1 = (k / cols + 1) * cols) as -> by lia. rewrite Z.div_mul, Z.mod_mul by lia. lia. }
    cbn. by rewrite Z.add_assoc.
  - assert ((k + 1) / cols = k / cols ∧ (k + 1) mod cols = k mod cols + 1) as [-> ->]; [|done].
    split; symmetry; [apply Z.div_unique with (k mod cols + 1)|apply Z.mod_unique with (k / cols)]; lia.
Qed.

Lemma line_rows_bound cols n : 0 < cols → 0 ≤ n → 1 ≤ line_rows cols n ≤ n + 1.
Proof.
  intros. unfold line_rows. assert ((n + cols - 1) / cols < n + 2); [|lia]. apply Z.div_lt_upper_bound; nia.
Qed.

Lemma prompt_plain : Forall (λ ch, ch ≠ 10) PROMPT.
Proof. change PROMPT with [62; 32]. do 2 (constructor; [lia|]). constructor. Qed.

(** The rows that the code computes from pixels are those of the line. *)
Lemma line_rows_pixels cols n fw : 0 < cols → 0 < fw → 0 ≤ n →
  Z.max ((n * fw + (cols * fw - 1)) / (cols * fw)) 1 = line_rows cols n.
Proof.
  intros Hc Hf Hn. unfold line_rows. rewrite Z.max_comm. f_equal. symmetry.
  set (q := (n + cols - 1) / cols). pose proof (Z.div_mod (n + cols - 1) cols ltac:(lia)) as E.
  pose proof (Z.mod_pos_bound (n + cols - 1) cols ltac:(lia)) as B. fold q in E.
  apply Z.div_unique with ((n + cols - 1) mod cols * fw + (fw - 1)); nia.
Qed.

(** Erasing the rows of a line: all of them, or none when they do not fit. *)
Lemma erase_rows w cols start n m : aligned w cols → 0 ≤ start → 0 ≤ n →
  let fh := cell_height (font_size w) in
  ∃ m1, draw_rec (fb w) (mkCoord 0 (start * fh)) (mkSize (width (fb w)) (fh * line_rows cols n)) BLACK m = Ok m1 ∧
    (line_fits w cols start n → ∀ px py, visible (fb w) px py →
      pixel (fb w) m1 px py = if bool_decide (start ≤ py / fh < start + line_rows cols n) then BLACK else pixel (fb w) m px py).
Proof.
  intros [Hok HW Hcols HH] Hs Hn fh. pose proof (cell_height_bound (font_size w)) as Hh. fold fh in Hh.
  pose proof (line_rows_bound cols n ltac:(lia) Hn) as Hrows. pose proof (fb_width _ Hok) as Hw.
  unfold line_fits. fold fh. set (h := fh * line_rows cols n).
  assert (0 ≤ start * fh ∧ 0 ≤ h ∧ (start + line_rows cols n) * fh = start * fh + h) as (H1 & H2 & H3) by (unfold h; nia).
  destruct (Z.le_gt_cases (start * fh + h) (height (fb w))) as [Hfit|Hno].
  - destruct (draw_rec_painted (fb w) 0 (start * fh) (width (fb w)) h BLACK m Hok) as (m1 & Hd & Hp); try lia.
    exists m1. split; [exact Hd|]. intros _ px py Hv.
    assert (in_rect 0 (start * fh) (0 + width (fb w)) (start * fh + h) px py = bool_decide (start ≤ py / fh < start + line_rows cols n)) as Hr.
    { apply eq_true_iff_eq. rewrite in_rect_spec, bool_decide_eq_true. destruct Hv as [Hx Hy].
      pose proof (Z.div_mod py fh ltac:(lia)). pose proof (Z.mod_pos_bound py fh ltac:(lia)). unfold h. nia. }
    destruct (bool_decide (start ≤ py / fh < start + line_rows cols n)); [by apply Hp|].
    by rewrite (painted_other _ _ _ _ _ _ _ Hok Hp Hv).
  - exists m. split; [apply draw_rec_outside; cbn; lia|]. intros Hfit. lia.
Qed.

(** [redraw_input_line] from the line's own row: it never panics, the prompt and
    the text are laid out from that row, the cursor stands on its character, and
    a line that fits on the screen is shown there whatever was there before,
    while the other rows stay. *)
Lemma redraw_input_line_spec text cursor w m cols : aligned w cols → 0 ≤ start_row w < 2 ^ 40 →
  Forall (λ ch, ch ≠ 10) text → chars_count text < 2 ^ 32 → 0 ≤ cursor ≤ chars_count text →
  ∃ m', redraw_input_line get_raster get_raster_width text cursor w m = Ok (redrawn w cols (start_row w) text cursor, m') ∧
    (line_fits w cols (start_row w) (2 + chars_count text) →
     line_shown w cols (start_row w) (PROMPT ++ text) m' ∧
     ∀ px py, visible (fb w) px py →
       ¬ start_row w ≤ py / cell_height (font_size w) < start_row w + line_rows cols (2 + chars_count text) →
       pixel (fb w) m' px py = pixel (fb w) m px py).
Proof.
  intros Hal Hs Ht Hlen Hcur. pose proof Hal as [Hok HW Hcols HH].
  pose proof (font_width _ _ Hfont (font_size w)) as Hf. pose proof (cell_height_bound (font_size w)) as Hh.
  pose proof (fb_width _ Hok) as Hw. unfold redraw_input_line. fold (start_row w).
  change (font_h (font_size w)) with (cell_height (font_size w)). unfold font_w.
  set (fw := get_raster_width (font_size w)) in *. set (fh := cell_height (font_size w)) in *. set (start := start_row w) in *.
  change (chars_count PROMPT) with 2. set (n := 2 + chars_count text).
  assert (2 ≤ n < 2 ^ 33) as Hn by (unfold n, chars_count in *; lia).
  rewrite (add_u64_ok 2) by (unfold is_u64; lia). cbn [mbind outcome_bind]. fold n.
  rewrite (mul_u64_ok n) by (unfold is_u64; nia). cbn [mbind outcome_bind].
  assert (saturating_sub (width (fb w)) 1 = cols * fw - 1) as -> by (unfold saturating_sub; lia).
  rewrite add_u64_ok by (unfold is_u64; nia). cbn [mbind outcome_bind].
  rewrite div_u64_ok by lia. cbn [mbind outcome_bind].
  pose proof (line_rows_bound cols n ltac:(lia) ltac:(lia)) as Hrows.
  rewrite HW, line_rows_pixels, <- HW by lia.
  rewrite (mul_u64_ok start) by (unfold is_u64; nia). cbn [mbind outcome_bind].
  rewrite (mul_u64_ok fh) by (unfold is_u64; nia). cbn [mbind outcome_bind].
  unfold PixelSize_new. rewrite !(proj2 (Z.eqb_neq _ _)) by nia. cbn [negb andb mbind outcome_bind].
  destruct (erase_rows w cols start n m Hal ltac:(lia) ltac:(lia)) as (m1 & Hd & Hpx1). fold fh in Hd, Hpx1. rewrite Hd.
  cbn [mbind outcome_bind].
  set (w1 := set_cells [] (set_cursor cursor (set_line (PROMPT ++ text) w))).
  change (current_line w1) with (PROMPT ++ text). unfold enumerate.
  assert (Z.of_nat (length (PROMPT ++ text)) = n) as Hln by (rewrite length_app, Nat2Z.inj_add; done).
  destruct (redraw_loop w1 cols start (PROMPT ++ text) ltac:(by split) Hs [] m1) as (m2 & Hr & Hpx2).
  { apply Forall_app. split; [apply prompt_plain|done]. } { cbn [app]. unfold chars_count. lia. } { done. }
  cbn [app] in Hr, Hpx2. unfold chars_count in Hr, Hpx2. change (Z.of_nat (length [])) with 0 in Hr. rewrite Hln in Hr, Hpx2.
  rewrite Hln. change (font_size w1) with (font_size w) in Hr. fold fw in Hr. rewrite Hr. cbn [mbind outcome_bind].
  rewrite (set_input_cursor_layout _ cols start n) by (done || cbn; unfold n; lia).
  cbn [mbind outcome_bind]. exists m2. split; [reflexivity|]. intros Hfit. specialize (Hpx1 Hfit).
  cbn [fb font_size set_cells set_cursor set_line w1] in Hpx2. fold fh in Hpx2. split.
  - intros px py Hv Hrow. fold fh in Hrow. unfold chars_count in Hrow. rewrite Hln in Hrow.
    destruct (Hpx2 px py Hv) as [H1 _]. apply H1; [lia|].
    rewrite Hpx1, bool_decide_eq_true_2 by done. unfold grid_color, line_cells. by destruct (_ && _).
  - intros px py Hv Hrow. destruct (Hpx2 px py Hv) as [_ H2]. rewrite H2 by lia.
    by rewrite Hpx1, bool_decide_eq_false_2 by done.
Qed.

(** ** The editor's state *)

(** A console that edits a line from the row [start]. *)
Record editing (c : Console) (line : str) (w : KWriter) (cols start : Z) (z : Zipper) : Prop := {
  ed_writer : KWRITER c = Some w;
  ed_aligned : aligned w cols;
  ed_start : start_row w = start;
  ed_start_bound : 0 ≤ start < 2 ^ 40;
  ed_line : line = fst z ++ snd z;
  ed_plain : Forall (λ ch, ch ≠ 10) line;
  ed_max : chars_count line ≤ MAX_INPUT_CHARS;
  ed_current : current_line w = PROMPT ++ line;
  ed_cursor : input_cursor w = chars_count (fst z);
  ed_cells : glyph_cells w = layout cols start (2 + chars_count line);
  ed_at : mkCell (column w) (row w) = cell_at cols start (2 + chars_count (fst z));
  ed_shown : line_fits w cols start (2 + chars_count line) → line_shown w cols start (PROMPT ++ line) (screen c);
}.

(** One key of the editor, as the shell dispatches it. *)
Definition edit (s : str * Console) (e : Edit) : outcome Empty_set (str * Console) :=
  let '(line, c) := s in
  match e with
  | Insert ch => insert_char get_raster get_raster_width line ch c
  | Backspace => backspace get_raster get_raster_width line c
  | Left => c ← arrow_left get_raster get_raster_width c; Ok (line, c)
  | Right => c ← arrow_right get_raster get_raster_width c; Ok (line, c)
  end.

Lemma chars_count_app a b : chars_count (a ++ b) = chars_count a + chars_count b.
Proof. unfold chars_count. rewrite length_app. lia. Qed.

Lemma chars_count_pos s : 0 ≤ chars_count s.
Proof. unfold chars_count. lia. Qed.

(** Editing leaves the history alone. *)
Definition kept (w w' : KWriter) : Prop := history w' = history w ∧ history_index w' = history_index w.

Lemma kept_trans w1 w2 w3 : kept w1 w2 → kept w2 w3 → kept w1 w3.
Proof. intros [? ?] [? ?]. split; congruence. Qed.

(** Redrawing a line edits it. *)
Lemma redraw_editing w m cols start l r e : aligned w cols → start_row w = start → 0 ≤ start < 2 ^ 40 →
  Forall (λ ch, ch ≠ 10) (l ++ r) → chars_count (l ++ r) ≤ MAX_INPUT_CHARS →
  ∃ w' m', redraw_input_line get_raster get_raster_width (l ++ r) (chars_count l) w m = Ok (w', m') ∧
    editing (mkConsole (Some w') e m') (l ++ r) w' cols start (l, r) ∧ kept w w'.
Proof.
  intros Hal Hst Hs Hp Hmax. unfold MAX_INPUT_CHARS in Hmax. pose proof (chars_count_pos l). pose proof (chars_count_pos r).
  rewrite chars_count_app in Hmax.
  destruct (redraw_input_line_spec (l ++ r) (chars_count l) w m cols Hal) as (m' & Hr & Hshown);
    [by rewrite Hst|done|rewrite chars_count_app; lia..|].
  exists (redrawn w cols (start_row w) (l ++ r) (chars_count l)), m'. split; [exact Hr|]. rewrite Hst in *.
  split; [|done]. split; try done.
  - by destruct Hal.
  - unfold start_row. cbn [glyph_cells redrawn]. unfold layout. rewrite seqZ_cons by (rewrite chars_count_app; lia).
    cbn. rewrite Z.div_0_l by (destruct Hal; lia). lia.
  - rewrite chars_count_app. done.
  - intros Hfit. by apply Hshown.
Qed.

Lemma insert_char_at_spec l r ch : insert_char_at (l ++ r) (chars_count l) ch = (l ++ [ch]) ++ r.
Proof.
  unfold insert_char_at, chars_count. rewrite Nat2Z.id. rewrite <- app_assoc.
  assert (match (l ++ r) !! length l with Some _ => length l | None => length (l ++ r) end = length l) as ->.
  { destruct r as [|b r]; [by rewrite app_nil_r, lookup_ge_None_2 by lia|by rewrite list_lookup_middle]. }
  by rewrite take_app_length, drop_app_length.
Qed.

Lemma remove_char_at_spec l b r : remove_char_at ((l ++ [b]) ++ r) (chars_count (l ++ [b])) = l ++ r.
Proof.
  unfold remove_char_at. rewrite !chars_count_app. change (chars_count [b]) with 1.
  pose proof (chars_count_pos l). pose proof (chars_count_pos r).
  rewrite Z.min_l by lia. rewrite (proj2 (Z.eqb_neq _ _)) by lia.
  rewrite Z.add_simpl_r. unfold chars_count. rewrite Nat2Z.id.
  replace (Z.to_nat (Z.of_nat (length l) + 1)) with (length (l ++ [b])) by (rewrite length_app; cbn; lia).
  rewrite <- (app_assoc l [b] r) at 1. cbn [app]. rewrite list_lookup_middle by done.
  assert (match ((l ++ [b]) ++ r) !! length (l ++ [b]) with Some _ => length (l ++ [b]) | None => length ((l ++ [b]) ++ r) end = length (l ++ [b])) as ->.
  { destruct r as [|a r]; [by rewrite app_nil_r, lookup_ge_None_2 by lia|by rewrite list_lookup_middle]. }
  rewrite drop_app_length. by rewrite <- app_assoc, take_app_length.
Qed.

(** Every key redraws the line with a new cursor. *)
Lemma editing_redraw c line w cols start z k l r : editing c line w cols start z →
  Forall (λ ch, ch ≠ 10) (l ++ r) → chars_count l + chars_count r ≤ MAX_INPUT_CHARS →
  ∃ w' m', redraw_input_line get_raster get_raster_width (l ++ r) (chars_count l) (set_cursor k w) (screen c) = Ok (w', m') ∧
    editing (mkConsole (Some w') (EMERGENCY_FRAMEBUFFER c) m') (l ++ r) w' cols start (l, r) ∧ kept w w'.
Proof.
  intros [] Hf Hm. apply (redraw_editing (set_cursor k w)); try done.
  - by destruct ed_aligned0.
  - by rewrite chars_count_app.
Qed.

Definition refines_edit (c : Console) (w : KWriter) (cols start : Z) (z : Zipper) (e : Edit) : Prop :=
  let '(l, r) := zipper_edit z e in
  ∃ c' w', edit (fst z ++ snd z, c) e = Ok (l ++ r, c') ∧ editing c' (l ++ r) w' cols start (l, r) ∧ kept w w'.

Lemma snoc_cases {A} (l : list A) : l = [] ∨ ∃ l0 b, l = l0 ++ [b].
Proof. induction l as [|b l0 _] using rev_ind; [by left|right; by exists l0, b]. Qed.

Lemma insert_refines c w cols start l r ch : editing c (l ++ r) w cols start (l, r) → ch ≠ 10 → refines_edit c w cols start (l, r) (Insert ch).
Proof.
  intros Hed Hch. pose proof Hed as []. cbn [fst snd] in *. pose proof (chars_count_pos l). pose proof (chars_count_pos r).
  unfold refines_edit. cbn [zipper_edit fst snd edit]. unfold insert_char, with_line. rewrite chars_count_app in *.
  destruct (Z.leb_spec MAX_INPUT_CHARS (chars_count l + chars_count r)) as [Hfull|Hroom]; [by exists c, w|].
  unfold MAX_INPUT_CHARS in *. rewrite ed_writer0. cbn [input_cursor set_cursor]. rewrite ed_cursor0, Z.min_l by lia.
  rewrite insert_char_at_spec, add_u64_ok by (unfold is_u64; lia). cbn [mbind outcome_bind input_cursor set_cursor].
  destruct (editing_redraw c (l ++ r) w cols start (l, r) (chars_count l + 1) (l ++ [ch]) r Hed) as (w' & m' & Hr & He & Hh).
  - rewrite !Forall_app in *. split; [split; [apply ed_plain0|by constructor]|apply ed_plain0].
  - rewrite chars_count_app. change (chars_count [ch]) with 1. unfold MAX_INPUT_CHARS. lia.
  - rewrite chars_count_app in Hr at 1. cbn [set_cursor] in Hr |- *. unfold set_cursor in *. cbn in Hr |- *.
    change (chars_count [ch]) with 1 in Hr. rewrite Hr. by eexists _, w'.
Qed.

Lemma backspace_refines c w cols start l r : editing c (l ++ r) w cols start (l, r) →
  refines_edit c w cols start (l, r) Backspace.
Proof.
  intros Hed. pose proof Hed as []. cbn [fst snd] in *. pose proof (chars_count_pos r).
  unfold refines_edit. cbn [zipper_edit fst snd edit]. unfold backspace, with_line. rewrite ed_writer0.
  cbn [input_cursor set_cursor]. rewrite ed_cursor0, chars_count_app in *. rewrite Z.min_l by lia.
  destruct (snoc_cases l) as [->|(l0 & b & ->)].
  - eexists _, (set_cursor 0 w). split; [reflexivity|]. split; [|done]. destruct ed_aligned0. by split.
  - rewrite removelast_last, remove_char_at_spec, chars_count_app in *. change (chars_count [b]) with 1 in *.
    pose proof (chars_count_pos l0). rewrite (proj2 (Z.eqb_neq _ _)) by lia.
    rewrite sub_u64_ok by lia. rewrite Z.add_simpl_r. cbn [mbind outcome_bind input_cursor set_cursor].
    destruct (editing_redraw c ((l0 ++ [b]) ++ r) w cols start (l0 ++ [b], r) (chars_count l0) l0 r) as (w' & m' & Hr & He & Hh).
    { done. } { rewrite !Forall_app in *. tauto. } { lia. }
    unfold set_cursor in *. cbn in Hr |- *. rewrite Hr. by eexists _, w'.
Qed.

Lemma left_refines c w cols start l r : editing c (l ++ r) w cols start (l, r) →
  refines_edit c w cols start (l, r) Left.
Proof.
  intros Hed. pose proof Hed as []. cbn [fst snd] in *.
  unfold refines_edit. cbn [zipper_edit fst snd edit]. unfold arrow_left, with_writer. rewrite ed_writer0.
  unfold redraw_current_input. cbn [current_line set_cursor input_cursor]. rewrite ed_current0, ed_cursor0.
  rewrite (proj2 (strip_prefix_Some PROMPT (PROMPT ++ l ++ r) (l ++ r)) eq_refl).
  unfold move_cursor_left, saturating_sub. rewrite chars_count_app in *.
  destruct (snoc_cases l) as [->|(l0 & b & ->)].
  - cbn [last app]. change (Z.max (chars_count [] - 1) 0) with (chars_count []).
    destruct (editing_redraw c r w cols start ([], r) (chars_count []) [] r) as (w' & m' & Hr & He & Hh); try done.
    cbn [app] in Hr. rewrite Hr. by eexists _, w'.
  - rewrite last_snoc, removelast_last, <- app_assoc in *. cbn [app] in *.
    rewrite chars_count_app in *. change (chars_count [b]) with 1 in *. rewrite Z.add_simpl_r, Z.max_l by apply chars_count_pos.
    destruct (editing_redraw c (l0 ++ b :: r) w cols start (l0 ++ [b], r) (chars_count l0) l0 (b :: r)) as (w' & m' & Hr & He & Hh).
    { done. } { done. }
    { change (chars_count (b :: r)) with (Z.of_nat (S (length r))). unfold chars_count in *. lia. }
    rewrite Hr. by eexists _, w'.
Qed.

Lemma right_refines c w cols start l r : editing c (l ++ r) w cols start (l, r) →
  refines_edit c w cols start (l, r) Right.
Proof.
  intros Hed. pose proof Hed as []. cbn [fst snd] in *. pose proof (chars_count_pos l). pose proof (chars_count_pos r).
  unfold refines_edit. cbn [zipper_edit fst snd edit]. unfold arrow_right, with_writer. rewrite ed_writer0.
  unfold redraw_current_input. cbn [current_line set_cursor input_cursor]. rewrite ed_current0, ed_cursor0.
  unfold move_cursor_right, saturating_sub. rewrite !chars_count_app in *. change (chars_count PROMPT) with 2.
  unfold MAX_INPUT_CHARS in *. rewrite add_u64_ok by (unfold is_u64; lia). cbn [mbind outcome_bind current_line input_cursor set_cursor].
  rewrite (proj2 (strip_prefix_Some PROMPT (PROMPT ++ l ++ r) (l ++ r)) eq_refl), Z.max_l by lia.
  destruct r as [|b r0].
  - replace (Z.min (chars_count l + 1) (2 + (chars_count l + chars_count []) - 2)) with (chars_count l) by (change (chars_count []) with 0; lia).
    destruct (editing_redraw c (l ++ []) w cols start (l, []) (chars_count l) l [] Hed) as (w' & m' & Hr & He & Hh); try done.
    rewrite Hr. by eexists _, w'.
  - change (chars_count (b :: r0)) with (Z.of_nat (S (length r0))) in *. rewrite Z.min_l by lia.
    destruct (editing_redraw c (l ++ b :: r0) w cols start (l, b :: r0) (chars_count l + 1) (l ++ [b]) r0 Hed) as (w' & m' & Hr & He & Hh).
    { by rewrite <- app_assoc. }
    { rewrite chars_count_app. change (chars_count [b]) with 1. unfold chars_count, MAX_INPUT_CHARS in *. lia. }
    rewrite chars_count_app in Hr. change (chars_count [b]) with 1 in Hr.
    rewrite <- app_assoc in *. cbn [app] in *. rewrite Hr. by eexists _, w'.
Qed.

(** The first characters on a blank row of the terminal. *)
Lemma put_at_row w m t ch : shows_terminal get_raster get_raster_width w m t → t_row t < 2 ^ 40 → ch ≠ 10 →
  t_column t < cols t →
  ∃ w' m', write_char get_raster get_raster_width (width (fb w)) (font_h (font_size w)) (font_w get_raster_width (font_size w)) (w, m) ch = Ok (w', m') ∧
    shows_terminal get_raster get_raster_width w' m' (term_put ch t) ∧ fb w' = fb w ∧ font_size w' = font_size w ∧
    glyph_cells w' = glyph_cells w ++ [mkCell (t_column t) (t_row t)] ∧ kept w w' ∧
    term_put ch t = mkTerminal (cols t) (rows t) (if t_row t <? rows t then put (grid t) (t_column t) (t_row t) ch else grid t)
      (t_column t + 1) (t_row t) (t_history t) (t_line t ++ [ch]).
Proof.
  intros Ht Hr Hch Hc. destruct (put_refines _ _ Hfont w m t ch Ht Hr Hch) as (w' & m' & H1 & H2 & H3 & H4 & H5 & H6).
  assert (term_put ch t = mkTerminal (cols t) (rows t) (if t_row t <? rows t then put (grid t) (t_column t) (t_row t) ch else grid t)
      (t_column t + 1) (t_row t) (t_history t) (t_line t ++ [ch])) as E.
  { unfold term_put. by rewrite (proj2 (Z.leb_gt _ _)) by lia. }
  exists w', m'. split_and!; try done; [|split; [|done]; pose proof (st_history _ _ _ _ _ H2) as Hh; rewrite E in Hh; cbn in Hh; by rewrite Hh, (st_history _ _ _ _ _ Ht)].
  rewrite H5, E. cbn. by rewrite Z.add_simpl_r.
Qed.

Lemma line_rows_two cols : 3 ≤ cols → line_rows cols 2 = 1.
Proof. intros. unfold line_rows. rewrite <- (Z.div_unique (2 + cols - 1) cols 1 1) by lia. done. Qed.

Lemma prompt_shown w cols start m g : 3 ≤ cols → width (fb w) = cols * get_raster_width (font_size w) →
  (∀ c, 0 ≤ c → g c start = None) →
  picture get_raster get_raster_width (fb w) (font_size w) (put (put g 0 start 62) (0 + 1) start 32) m →
  line_shown w cols start PROMPT m.
Proof.
  intros H3 HW Hg Hp px py Hv Hpr. change (chars_count PROMPT) with 2 in Hpr. rewrite line_rows_two in Hpr by lia.
  rewrite Hp by done. pose proof (font_width _ _ Hfont (font_size w)) as Hf. unfold grid_color.
  set (fw := get_raster_width (font_size w)) in *. set (fh := cell_height (font_size w)) in *.
  assert (py / fh = start) as -> by lia. assert (0 ≤ px / fw < cols) as Hpc.
  { destruct Hv as [Hx _]. split; [apply Z.div_pos; lia|apply Z.div_lt_upper_bound; nia]. }
  unfold put, line_cells. rewrite Z.eqb_refl, !andb_true_r.
  rewrite (proj2 (Z.leb_le 0 _)), (proj2 (Z.ltb_lt (px / fw) _)), (proj2 (Z.leb_le start _)) by lia. cbn [andb].
  rewrite Z.sub_diag, Z.mul_0_l, Z.add_0_l. change PROMPT with [62; 32].
  destruct (Z.eqb_spec (px / fw) 1) as [->|]; [done|]. destruct (Z.eqb_spec (px / fw) 0) as [->|]; [done|].
  rewrite lookup_ge_None_2 by (cbn; lia). by rewrite Hg by lia.
Qed.

(** A prompt printed at the start of a line is an empty line to edit. *)
Lemma prompt_starts c w t : KWRITER c = Some w → shows_terminal get_raster get_raster_width w (screen c) t →
  t_column t = 0 → t_line t = [] → width (fb w) mod get_raster_width (font_size w) = 0 → 3 ≤ cols t → t_row t < 2 ^ 39 →
  ∃ c' w', (c ← kprint get_raster get_raster_width PROMPT c; reset_input_cursor c) = Ok c' ∧
    editing c' [] w' (cols t) (t_row t) ([], []) ∧ kept w w'.
Proof.
  intros Hw Ht Hcol Hline Hmod H3 Hrow. pose proof (st_row_bound _ _ _ _ _ Ht) as Hr0.
  pose proof (font_width _ _ Hfont (font_size w)) as Hf.
  destruct (put_at_row w (screen c) t 62 Ht) as (w1 & m1 & R1 & T1 & F1 & S1 & G1 & K1 & E1); [lia|lia|lia|].
  rewrite E1 in T1. set (t1 := mkTerminal _ _ _ _ _ _ _) in T1.
  destruct (put_at_row w1 m1 t1 32 T1) as (w2 & m2 & R2 & T2 & F2 & S2 & G2 & K2 & E2); [cbn; lia|lia|cbn; lia|].
  rewrite E2 in T2. rewrite F1, S1 in R2. cbn in T2.
  assert (kprint get_raster get_raster_width PROMPT c = Ok (mkConsole (Some w2) (EMERGENCY_FRAMEBUFFER c) m2)) as ->.
  { unfold kprint, with_writer. rewrite Hw. unfold write_str. change PROMPT with [62; 32]. cbn [foldM].
    rewrite R1. cbn [mbind outcome_bind]. rewrite R2. done. }
  cbn. rewrite Hcol, Hline in *. pose proof (st_cells _ _ _ _ _ Ht Hline) as Hg. rewrite Hg in G1. rewrite G1 in G2. cbn in G2.
  rewrite Hcol in G2. destruct T2. rewrite F2, S2, F1, S1 in *. cbn in *.
  assert (width (fb w) = cols t * get_raster_width (font_size w)) as HW.
  { rewrite st_cols. rewrite Z.mul_comm. apply Z.div_exact; [lia|done]. }
  eexists _, (set_cursor 0 w2). split; [reflexivity|].
  split; [|exact (kept_trans _ _ _ K1 K2)].
  split; cbn; try done; try lia.
  - split; cbn; rewrite ?F2, ?S2; try done. split; [done|]. rewrite st_cols. apply Z.div_lt_upper_bound; nia.
  - unfold start_row. cbn. by rewrite G2.
  - rewrite G2. change (2 + chars_count []) with (1 + 1). rewrite !layout_snoc by lia. unfold layout, cell_at. cbn [app].
    rewrite (seqZ_cons 0) by lia. cbn. rewrite !Z.mod_small, !Z.div_small by lia. by rewrite !Z.add_0_r.
  - rewrite st_column, st_row. unfold cell_at. change (2 + chars_count []) with 2.
    by rewrite Z.mod_small, Z.div_small, Z.add_0_r by lia.
  - intros Hfit. pose proof (cell_height_bound (font_size w)). unfold line_fits in Hfit. cbn in Hfit. rewrite F2, S2 in Hfit.
    change (2 + chars_count []) with 2 in Hfit. rewrite line_rows_two in Hfit by lia.
    rewrite (proj2 (Z.ltb_lt (t_row t) (rows t))) in st_picture by nia.
    change (line_shown (set_cursor 0 w2) (cols t) (t_row t) PROMPT m2).
    apply (prompt_shown (set_cursor 0 w2) (cols t) (t_row t) m2 (grid t)); cbn; rewrite ?F2, ?S2; try done.
    intros. apply (Terminal.st_blank _ _ _ _ _ Ht). lia.
Qed.

Lemma edit_refines c w cols start z e : editing c (fst z ++ snd z) w cols start z →
  (∀ ch, e = Insert ch → ch ≠ 10) → refines_edit c w cols start z e.
Proof.
  destruct z as [l r]. intros Hed He. destruct e.
  - by apply insert_refines, He.
  - by apply backspace_refines.
  - by apply left_refines.
  - by apply right_refines.
Qed.

Definition is_key (e : Edit) : Prop := match e with Insert ch => ch ≠ 10 | _ => True end.

Lemma edits_refine es c w cols start z : editing c (fst z ++ snd z) w cols start z → Forall is_key es →
  let '(l, r) := fold_left zipper_edit es z in
  ∃ c' w', foldM edit (fst z ++ snd z, c) es = Ok (l ++ r, c') ∧ editing c' (l ++ r) w' cols start (l, r) ∧ kept w w'.
Proof.
  revert c w z. induction es as [|e es IH]; intros c w z Hed Hk; cbn [fold_left foldM].
  - destruct z as [l r]. by exists c, w.
  - apply Forall_cons in Hk as [He Hk]. pose proof (edit_refines c w cols start z e Hed) as Hr. unfold refines_edit in Hr.
    destruct (zipper_edit z e) as [l r] eqn:Hz.
    destruct Hr as (c1 & w1 & -> & Hed1 & Hh1); [intros ch ->; exact He|]. cbn [mbind outcome_bind].
    specialize (IH c1 w1 (l, r) Hed1 Hk). cbn [fst snd] in IH. destruct (fold_left zipper_edit es (l, r)) as [l' r'].
    destruct IH as (c' & w' & Hr' & Hed' & Hh'). exists c', w'. split; [exact Hr'|]. split; [done|by apply kept_trans with w1].
Qed.

(** ** Recall and completion *)

Definition press (s : str * Console) (k : Key) : outcome Empty_set (str * Console) :=
  let '(line, c) := s in
  match k with
  | EditKey e => edit (line, c) e
  | Up => arrow_up get_raster get_raster_width line c
  | Down => arrow_down get_raster get_raster_width line c
  | Tab => auto_complete get_raster get_raster_width line c
  end.

(** The commands of a history as they are recalled. *)
Definition recalls (history : list str) : list str := trim_start_matches PROMPT <$> command_history history.

(** The index of a position in the history. *)
Definition index_of (n pos : nat) : option Z := match pos with O => None | S _ => Some (Z.of_nat n - Z.of_nat pos) end.

(** The state of the editor: the line's zipper and the position in the history. *)
Record editor_state (hist : list str) (c : Console) (w : KWriter) (cols start : Z) (s : Zipper * nat) : Prop := {
  es_editing : editing c (fst (fst s) ++ snd (fst s)) w cols start (fst s);
  es_history : history w = hist;
  es_pos : (snd s ≤ length (recalls hist))%nat;
  es_index : history_index w = index_of (length (recalls hist)) (snd s);
}.

Lemma trim_suffix p s fuel : ∃ q, s = q ++ trim_start_fuel fuel p s.
Proof.
  revert s. induction fuel as [|fuel IH]; intros s; cbn; [by exists []|].
  destruct (strip_prefix p s) as [s'|] eqn:Hp; [|by exists []]. apply strip_prefix_Some in Hp as ->.
  destruct (IH s') as (q & Hq). exists (p ++ q). by rewrite <- app_assoc, <- Hq.
Qed.

(** A history that fits in memory and whose commands fit in the editor. *)
Definition history_ok (hist : list str) : Prop :=
  Z.of_nat (length hist) < 2 ^ 60 ∧
  Forall (λ l, Forall (λ ch, ch ≠ 10) l ∧ chars_count l ≤ MAX_INPUT_CHARS) (recalls hist).

Lemma recalls_length hist : (length (recalls hist) ≤ length hist)%nat.
Proof. unfold recalls, command_history. rewrite length_fmap. apply filter_length_le. Qed.

(** Replacing the line by a recalled one. *)
Lemma recall_redraw hist c w cols start z pos text pos' : editor_state hist c w cols start (z, pos) →
  Forall (λ ch, ch ≠ 10) text → chars_count text ≤ MAX_INPUT_CHARS → (pos' ≤ length (recalls hist))%nat →
  ∃ w' m', redraw_input_line get_raster get_raster_width text (chars_count text)
      (set_index (index_of (length (recalls hist)) pos') w) (screen c) = Ok (w', m') ∧
    editor_state hist (mkConsole (Some w') (EMERGENCY_FRAMEBUFFER c) m') w' cols start ((text, []), pos').
Proof.
  intros [He Hh Hp Hi] Hf Hm Hp'. cbn [fst snd] in *.
  destruct (redraw_editing (set_index (index_of (length (recalls hist)) pos') w) (screen c) cols start text [] (EMERGENCY_FRAMEBUFFER c))
    as (w' & m' & Hr & He' & Hk1 & Hk2); try apply He; rewrite ?app_nil_r; try done.
  - by destruct (ed_aligned _ _ _ _ _ _ He).
  - rewrite app_nil_r in Hr, He'. exists w', m'. split; [exact Hr|]. split; cbn [fst snd]; rewrite ?app_nil_r; try done.
    by rewrite Hk1.
Qed.

Lemma recalled_ok hist pos : history_ok hist → (1 ≤ pos ≤ length (recalls hist))%nat →
  let text := recalled (recalls hist) pos in
  Forall (λ ch, ch ≠ 10) text ∧ chars_count text ≤ MAX_INPUT_CHARS ∧
  ∃ command, command_history hist !! (length (recalls hist) - pos)%nat = Some command ∧ text = trim_start_matches PROMPT command.
Proof.
  intros [_ Hok] Hp text. assert (length (recalls hist) - pos < length (recalls hist))%nat as Hlt by lia.
  apply lookup_lt_is_Some in Hlt as [x Hx]. assert (text = x) as -> by (unfold text, recalled; by apply nth_lookup_Some).
  destruct (Forall_lookup_1 _ _ _ _ Hok Hx) as [H1 H2]. split; [done|]. split; [done|].
  apply list_lookup_fmap_Some in Hx as (command & -> & Hc). by exists command.
Qed.

Lemma up_refines hist c w cols start z pos : history_ok hist → editor_state hist c w cols start (z, pos) →
  let '((l, r), pos') := editor_key (recalls hist) (z, pos) Up in
  ∃ c' w', press (fst z ++ snd z, c) Up = Ok (l ++ r, c') ∧ editor_state hist c' w' cols start ((l, r), pos').
Proof.
  intros Hok Hs. pose proof Hs as [He Hh Hp Hi]. cbn [fst snd editor_key press] in *.
  unfold arrow_up, with_line. rewrite (ed_writer _ _ _ _ _ _ He), Hh.
  assert (length (recalls hist) = length (command_history hist)) as Hlen by apply length_fmap.
  destruct (recalls hist) as [|x xs] eqn:Hrec.
  { destruct (command_history hist) eqn:Hc; [|done]. cbn. destruct z as [l r]. exists c, w.
    split; [pose proof (ed_writer _ _ _ _ _ _ He) as Hw; destruct c; cbn in *; by rewrite Hw|]. by split; rewrite ?Hrec. }
  rewrite <- Hrec in *. set (n := length (recalls hist)) in *. assert (1 ≤ n)%nat as Hn by (unfold n; rewrite Hrec; cbn; lia).
  destruct (command_history hist) as [|y ys] eqn:Hc; [cbn in Hlen; lia|]. rewrite <- Hc in *.
  set (pos' := Nat.min (S pos) n). assert (1 ≤ pos' ≤ n)%nat as Hpos' by lia.
  destruct (recalled_ok hist pos' Hok Hpos') as (Hf & Hm & command & Hcmd & Htext).
  assert (∀ B (k : Z → outcome Empty_set B), (match history_index w with
     | None => sub_u64 (Z.of_nat (length (command_history hist))) 1 | Some 0 => Ok 0 | Some i => sub_u64 i 1 end ≫= k)
     = k (Z.of_nat n - Z.of_nat pos')) as ->.
  { intros B k. rewrite Hi. unfold index_of. destruct pos as [|pos].
    - rewrite <- Hlen, sub_u64_ok by lia. by replace (Z.of_nat n - Z.of_nat pos') with (Z.of_nat n - 1) by lia.
    - destruct (Z.of_nat n - Z.of_nat (S pos)) as [|i|i] eqn:E; [| |lia].
      + by replace (Z.of_nat n - Z.of_nat pos') with 0 by lia.
      + rewrite sub_u64_ok by lia. by replace (Z.of_nat n - Z.of_nat pos') with (Z.pos i - 1) by lia. }
  unfold array_get. replace (Z.to_nat (Z.of_nat n - Z.of_nat pos')) with (n - pos')%nat by lia. fold n in Hcmd. rewrite Hcmd.
  cbn [expect mbind outcome_bind]. rewrite <- Htext.
  destruct (recall_redraw hist c w cols start z pos _ pos' Hs Hf Hm ltac:(lia)) as (w' & m' & Hr & Hs').
  assert (index_of n pos' = Some (Z.of_nat n - Z.of_nat pos')) as Hidx by (destruct pos'; [lia|done]).
  fold n in Hr. rewrite Hidx in Hr. rewrite Hr. cbn. rewrite app_nil_r. by eexists _, w'.
Qed.

Lemma down_refines hist c w cols start z pos : history_ok hist → editor_state hist c w cols start (z, pos) →
  let '((l, r), pos') := editor_key (recalls hist) (z, pos) Down in
  ∃ c' w', press (fst z ++ snd z, c) Down = Ok (l ++ r, c') ∧ editor_state hist c' w' cols start ((l, r), pos').
Proof.
  intros Hok Hs. pose proof Hs as [He Hh Hp Hi]. cbn [fst snd press] in *.
  unfold arrow_down, with_line. rewrite (ed_writer _ _ _ _ _ _ He), Hh.
  assert (length (recalls hist) = length (command_history hist)) as Hlen by apply length_fmap.
  set (n := length (recalls hist)) in *. destruct pos as [|pos]; cbn [editor_key].
  { destruct z as [l r]. exists c, w. split; [|done]. rewrite Hi. cbn.
    pose proof (ed_writer _ _ _ _ _ _ He) as Hw. destruct c; cbn in *. rewrite Hw. by destruct (command_history hist). }
  destruct (command_history hist) as [|y ys] eqn:Hc; [cbn in Hlen; lia|]. rewrite <- Hc in *.
  assert (command_history hist ≠ []) as Hne by by rewrite Hc. clear Hc y ys.
  pose proof (recalls_length hist) as Hlh. fold n in Hlh. pose proof (proj1 Hok) as Hmem.
  rewrite Hi. cbn [index_of]. rewrite add_u64_ok by (unfold is_u64; lia). cbn [mbind outcome_bind].
  rewrite <- Hlen. destruct (command_history hist) as [|y ys] eqn:Hc; [done|]. rewrite <- Hc in *. clear Hc y ys.
  destruct pos as [|pos].
  - rewrite (proj2 (Z.ltb_ge _ _)) by lia. cbn [mbind outcome_bind]. change (@None Z) with (index_of n 0).
    destruct (recall_redraw hist c w cols start z 1 [] 0 Hs) as (w' & m' & Hr & Hs'); [constructor|done|lia|].
    fold n in Hr. rewrite Hr. cbn. by eexists _, w'.
  - rewrite (proj2 (Z.ltb_lt _ _)) by lia. destruct (recalled_ok hist (S pos) Hok) as (Hf & Hm & command & Hcmd & Htext); [fold n; lia|].
    unfold array_get. replace (Z.to_nat (Z.of_nat n - Z.of_nat (S (S pos)) + 1)) with (n - S pos)%nat by lia.
    fold n in Hcmd. rewrite Hcmd. cbn [expect mbind outcome_bind]. rewrite <- Htext.
    replace (Some (Z.of_nat n - Z.of_nat (S (S pos)) + 1)) with (index_of n (S pos)) by (cbn; f_equal; lia).
    destruct (recall_redraw hist c w cols start z (S (S pos)) _ (S pos) Hs Hf Hm ltac:(fold n; lia)) as (w' & m' & Hr & Hs').
    fold n in Hr. rewrite Hr. cbn. rewrite app_nil_r. by eexists _, w'.
Qed.

Lemma editor_edits hist c w cols start z pos es : editor_state hist c w cols start (z, pos) → Forall is_key es →
  let '(l, r) := fold_left zipper_edit es z in
  ∃ c' w', foldM edit (fst z ++ snd z, c) es = Ok (l ++ r, c') ∧ editor_state hist c' w' cols start ((l, r), pos).
Proof.
  intros [He Hh Hp Hi] Hk. cbn [fst snd] in *. pose proof (edits_refine es c w cols start z He Hk) as Hr.
  destruct (fold_left zipper_edit es z) as [l r]. destruct Hr as (c' & w' & Hr & He' & Hk1 & Hk2).
  exists c', w'. split; [exact Hr|]. split; cbn [fst snd]; [done|congruence|done|congruence].
Qed.

Lemma foldM_inserts l s :
  foldM (λ '(line, c) ch, insert_char get_raster get_raster_width line ch c) s l = foldM edit s (Insert <$> l).
Proof.
  revert s. induction l as [|ch l IH]; intros [line c]; [done|]. cbn.
  destruct (insert_char _ _ line ch c); cbn; [apply IH|done|done].
Qed.

Lemma tab_refines hist c w cols start z pos : editor_state hist c w cols start (z, pos) →
  let '((l, r), pos') := editor_key (recalls hist) (z, pos) Tab in
  ∃ c' w', press (fst z ++ snd z, c) Tab = Ok (l ++ r, c') ∧ editor_state hist c' w' cols start ((l, r), pos').
Proof.
  intros Hs. cbn [editor_key press]. unfold auto_complete.
  destruct (complete_command (fst z ++ snd z)) as [command|] eqn:Hc; [|destruct z; by exists c, w].
  set (suffix := drop (length (fst z ++ snd z)) command).
  assert (Forall is_key (Insert <$> suffix)) as Hk.
  { apply complete_command_Some in Hc as (_ & Hin & _). apply names_plain in Hin as [_ Hin].
    apply Forall_fmap. apply (Forall_drop _ (length (fst z ++ snd z))) in Hin. eapply Forall_impl; [exact Hin|].
    intros ch Hch. cbn in *. by intros ->. }
  pose proof (editor_edits hist c w cols start z pos (Insert <$> suffix) Hs Hk) as Hr.
  fold suffix. rewrite foldM_inserts. exact Hr.
Qed.

Lemma key_refines hist c w cols start z pos k : history_ok hist → editor_state hist c w cols start (z, pos) →
  (∀ e, k = EditKey e → is_key e) →
  let '((l, r), pos') := editor_key (recalls hist) (z, pos) k in
  ∃ c' w', press (fst z ++ snd z, c) k = Ok (l ++ r, c') ∧ editor_state hist c' w' cols start ((l, r), pos').
Proof.
  intros Hok Hs Hk. destruct k as [e| | |].
  - pose proof (editor_edits hist c w cols start z pos [e] Hs) as H. cbn [fold_left foldM editor_key press] in *.
    destruct (zipper_edit z e) as [l r]. destruct H as (c' & w' & Hr & Hs'); [repeat constructor; by apply Hk|].
    exists c', w'. split; [|done]. destruct (edit _ _) as [[]| |]; by cbn in Hr.
  - by apply up_refines with w.
  - by apply down_refines with w.
  - by apply tab_refines with w.
Qed.

Lemma keys_refine hist ks c w cols start s : history_ok hist → editor_state hist c w cols start s →
  Forall (λ k, ∀ e, k = EditKey e → is_key e) ks →
  let s' := fold_left (editor_key (recalls hist)) ks s in
  ∃ c' w', foldM press (fst (fst s) ++ snd (fst s), c) ks = Ok (fst (fst s') ++ snd (fst s'), c') ∧
    editor_state hist c' w' cols start s'.
Proof.
  intros Hok. revert c w s. induction ks as [|k ks IH]; intros c w [z pos] Hs Hks; cbn [fold_left foldM]; [by exists c, w|].
  apply Forall_cons in Hks as [Hk Hks]. pose proof (key_refines hist c w cols start z pos k Hok Hs Hk) as Hr.
  destruct (editor_key (recalls hist) (z, pos) k) as [[l r] pos']. destruct Hr as (c1 & w1 & Hr & Hs1). cbn [fst snd].
  rewrite Hr. cbn [mbind outcome_bind]. apply (IH c1 w1 ((l, r), pos') Hs1 Hks).
Qed.

(** C10. The line editor is its abstract editor, on a screen whose height and
    width are multiples of those of a character cell, at least three cells wide
    (the height is part of [shows_terminal]; at another width the cells of a
    redrawn line are not those it was printed in: [cell_position_layout]).  From
    a prompt printed at the start of a row, whatever keys follow (characters
    other than a line feed, Backspace, the four arrows and Tab), no operation
    panics, the shell's line is the abstract line, never over the limit, and the
    console agrees with it: its current line is the prompt and the line, its
    cursor stands in the cell of the abstract cursor, every character has the
    cell that it is drawn in, the history index is the abstract position, and a
    line that fits on the screen is shown there.  The lines that the arrows
    recall are those that the code keeps, all that begin with the prompt: empty
    ones and those ended by Ctrl+C are among them, though the documentation of
    [command_history] excludes them. *)
Theorem keys_refine_editor (ks : list Key) (c : Console) (w : KWriter) (t : Terminal) (pos : nat) :
  KWRITER c = Some w → shows_terminal get_raster get_raster_width w (screen c) t →
  t_column t = 0 → t_line t = [] → t_row t < 2 ^ 39 →
  width (fb w) mod get_raster_width (font_size w) = 0 → 3 ≤ cols t →
  history_ok (history w) → (pos ≤ length (recalls (history w)))%nat →
  history_index w = index_of (length (recalls (history w))) pos →
  Forall (λ k, ∀ e, k = EditKey e → is_key e) ks →
  let s := fold_left (editor_key (recalls (history w))) ks (([], []), pos) in
  ∃ c' w', (c ← kprint get_raster get_raster_width PROMPT c; c ← reset_input_cursor c; foldM press ([], c) ks) =
      Ok (fst (fst s) ++ snd (fst s), c') ∧
    editor_state (history w) c' w' (cols t) (t_row t) s.
Proof.
  intros Hw Ht Hcol Hline Hrow Hmod H3 Hok Hpos Hidx Hks s.
  destruct (prompt_starts c w t Hw Ht Hcol Hline Hmod H3 Hrow) as (c1 & w1 & Hr & He & Hk1 & Hk2).
  assert (editor_state (history w) c1 w1 (cols t) (t_row t) (([], []), pos)) as Hs.
  { split; cbn [fst snd app]; [exact He|exact Hk1|exact Hpos|by rewrite Hk2]. }
  destruct (keys_refine (history w) ks c1 w1 (cols t) (t_row t) (([], []), pos) Hok Hs Hks) as (c' & w' & Hf & Hs').
  exists c', w'. split; [|exact Hs'].
  destruct (kprint get_raster get_raster_width PROMPT c) as [c0| |]; cbn [mbind outcome_bind] in *; [|done..].
  rewrite Hr. exact Hf.
Qed.

(** ** Two layouts *)

(** The cell that the terminal puts the next character into. *)
Definition next_cell (t : Terminal) : Cell :=
  if cols t <=? t_column t then mkCell 0 (t_row t + 1) else mkCell (t_column t) (t_row t).

Lemma next_cell_put t ch start n : 0 < cols t → 0 ≤ n → next_cell t = cell_at (cols t) start n →
  next_cell (term_put ch t) = cell_at (cols t) start (n + 1) ∧
  mkCell (t_column (term_put ch t) - 1) (t_row (term_put ch t)) = cell_at (cols t) start n.
Proof.
  intros Hc Hn Hnext. pose proof (Z.mod_pos_bound n (cols t) Hc) as Hm. pose proof (Z.div_mod n (cols t)) as Hd.
  assert (term_put ch t = let '(c, r) := (cell_column (next_cell t), cell_row (next_cell t)) in
    mkTerminal (cols t) (rows t) (if r <? rows t then put (grid t) c r ch else grid t) (c + 1) r (t_history t) (t_line t ++ [ch])) as ->.
  { unfold term_put, next_cell. by destruct (cols t <=? t_column t). }
  rewrite Hnext. unfold cell_at. cbn [cell_column cell_row t_column t_row]. split; [|by rewrite Z.add_simpl_r].
  unfold next_cell. cbn [cols t_column t_row]. destruct (Z.leb_spec (cols t) (n mod cols t + 1)).
  - assert (n + 1 = (n / cols t + 1) * cols t) as -> by lia. rewrite Z.mod_mul, Z.div_mul by lia. f_equal. lia.
  - rewrite <- (Z.div_unique (n + 1) (cols t) (n / cols t) (n mod cols t + 1)) by lia.
    by rewrite <- (Z.mod_unique (n + 1) (cols t) (n / cols t) (n mod cols t + 1)) by lia.
Qed.

Lemma write_layout s w m t start n : shows_terminal get_raster get_raster_width w m t →
  t_row t + Z.of_nat (length s) < 2 ^ 40 → Forall (λ ch, ch ≠ 10) s → 0 ≤ n →
  next_cell t = cell_at (cols t) start n → glyph_cells w = layout (cols t) start n →
  ∃ w' m', write_str get_raster get_raster_width s w m = Ok (w', m') ∧
    glyph_cells w' = layout (cols t) start (n + chars_count s).
Proof.
  unfold write_str. revert w m t n. induction s as [|ch s IH]; intros w m t n Ht Hlen Hs Hn Hnext Hcells; cbn [foldM].
  { exists w, m. split; [done|]. change (chars_count []) with 0. by rewrite Z.add_0_r. }
  apply Forall_cons in Hs as [Hch Hs]. cbn [length] in Hlen. rewrite Nat2Z.inj_succ in Hlen.
  destruct (put_refines _ _ Hfont w m t ch Ht ltac:(lia) Hch) as (w1 & m1 & -> & Ht1 & Hf1 & Hs1 & Hg1 & _).
  destruct (next_cell_put t ch start n) as [Hnext1 Hcell]; [pose proof (st_cols_pos _ _ _ _ _ Ht); lia|done|done|].
  assert (cols (term_put ch t) = cols t ∧ t_row (term_put ch t) ≤ t_row t + 1) as [Hc1 Hr1].
  { unfold term_put. destruct (cols t <=? t_column t); cbn; lia. }
  cbn [mbind outcome_bind]. rewrite <- Hf1, <- Hs1. rewrite <- Hc1 in *.
  destruct (IH w1 m1 (term_put ch t) (n + 1) Ht1) as (w' & m' & Hr & Hg); try done; [lia|lia| |].
  - rewrite Hg1, Hcells, Hcell, layout_snoc by lia. done.
  - exists w', m'. split; [exact Hr|]. rewrite Hg. f_equal. unfold chars_count. cbn [length]. lia.
Qed.

(** A redraw puts the characters where printing puts them, exactly on
    screens whose width is a whole number of cells: printing a line from the
    start of a row gives its [k]th character column [k mod cols] of the row
    [k / cols] further down, and [cell_position] computes that for every [k] if
    and only if the cell width divides the width of the screen. *)
Theorem cell_position_layout (s : str) (w : KWriter) (m : mem) (t : Terminal) :
  shows_terminal get_raster get_raster_width w m t →
  t_column t = 0 → t_line t = [] → t_row t + Z.of_nat (length s) < 2 ^ 40 → Forall (λ ch, ch ≠ 10) s →
  (∃ w' m', write_str get_raster get_raster_width s w m = Ok (w', m') ∧
    glyph_cells w' = layout (cols t) (t_row t) (Z.of_nat (length s))) ∧
  let fw := font_w get_raster_width (font_size w) in
  ((∀ k, 0 ≤ k → is_u64 (k * fw) → cell_position k fw (width (fb w)) = Ok (k mod cols t, k / cols t)) ↔
   width (fb w) mod fw = 0).
Proof.
  intros Ht Hcol Hline Hlen Hs. pose proof (st_cols_pos _ _ _ _ _ Ht) as Hc. pose proof (font_width _ _ Hfont (font_size w)) as Hf. split.
  { destruct (write_layout s w m t (t_row t) 0 Ht Hlen Hs) as (w' & m' & Hr & Hg); [done| | |by exists w', m'].
    - unfold next_cell, cell_at. rewrite Hcol, (proj2 (Z.leb_gt _ _)) by lia. rewrite Z.mod_0_l, Z.div_0_l, Z.add_0_r by lia. done.
    - by rewrite (st_cells _ _ _ _ _ Ht Hline). }
  unfold font_w. set (fw := get_raster_width (font_size w)) in *.
  pose proof (st_cols _ _ _ _ _ Ht) as HW. fold fw in HW. pose proof (st_width _ _ _ _ _ Ht) as Hb.
  pose proof (Z.div_mod (width (fb w)) fw ltac:(lia)) as Hd. rewrite <- HW in Hd. split.
  - intros Hall. pose proof (Z.mod_pos_bound (width (fb w)) fw ltac:(lia)) as Hm.
    destruct (Z.eq_dec (width (fb w) mod fw) 0) as [|Hne]; [done|]. exfalso.
    specialize (Hall (cols t) ltac:(lia) ltac:(unfold is_u64; nia)). unfold cell_position in Hall.
    rewrite mul_u64_ok in Hall by (unfold is_u64; nia). cbn [mbind outcome_bind] in Hall.
    rewrite rem_u64_ok in Hall by lia. cbn [mbind outcome_bind] in Hall. rewrite div_u64_ok in Hall by lia. cbn [mbind outcome_bind] in Hall.
    rewrite div_u64_ok in Hall by lia. cbn [mbind outcome_bind] in Hall.
    rewrite Z.mod_small, Z.div_mul, Z.mod_same in Hall by nia. injection Hall as H1 _. lia.
  - intros Hmod k Hk Hu. assert (width (fb w) = cols t * fw) as -> by lia. apply cell_position_aligned; lia || done.
Qed.

End editor.

(** ** Witnesses *)

(** Typing [upt], Tab, Left and Backspace. *)
Lemma keys_refine_editor_witness : ∃ c c' w',
  (c ← kprint demo_raster demo_width PROMPT c; c ← reset_input_cursor c;
   foldM (press demo_raster demo_width) ([], c)
     [EditKey (Insert 117); EditKey (Insert 112); EditKey (Insert 116); Tab; EditKey Left; EditKey Backspace]) =
    Ok ([117; 112; 116; 105; 101], c') ∧
  KWRITER c' = Some w' ∧ current_line w' = [62; 32; 117; 112; 116; 105; 101] ∧ row w' = 2 ∧ column w' = 0.
Proof.
  destruct demo_reset as (c & w & Hc & Hw & Hf & Hs & Ht & Hh & Hi).
  destruct (keys_refine_editor demo_raster demo_width demo_font_ok
    [EditKey (Insert 117); EditKey (Insert 112); EditKey (Insert 116); Tab; EditKey Left; EditKey Backspace]
    c w (mkTerminal 3 5 blank 0 0 [] []) 0 Hw Ht) as (c' & w' & Hr & Hst); rewrite ?Hh, ?Hi, ?Hf, ?Hs; try done.
  - repeat constructor; intros e [= <-]; cbn; lia || done.
  - exists c, c', w'. rewrite Hh in Hst. destruct Hst as [He _ _ _]. split; [rewrite Hh in Hr; exact Hr|].
    pose proof (ed_at _ _ _ _ _ _ _ _ He) as Ha. injection Ha as Hcol Hrow.
    split; [exact (ed_writer _ _ _ _ _ _ _ _ He)|]. split; [exact (ed_current _ _ _ _ _ _ _ _ He)|].
    split; [rewrite Hrow|rewrite Hcol]; reflexivity.
Defined.

Lemma cell_position_layout_witness : ∃ w m w' m',
  write_str demo_raster demo_width [97; 98; 99; 100] w m = Ok (w', m') ∧
  glyph_cells w' = [mkCell 0 0; mkCell 1 0; mkCell 2 0; mkCell 0 1] ∧ cell_position 3 2 6 = Ok (0, 1).
Proof.
  destruct demo_reset as (c & w & Hc & Hw & Hf & Hs & Ht & Hh & Hi).
  destruct (cell_position_layout demo_raster demo_width demo_font_ok [97; 98; 99; 100] w (screen c) _ Ht) as [(w' & m' & Hr & Hg) Hiff];
    [done|done|done|do 4 (constructor; [lia|]); constructor|].
  exists w, (screen c), w', m'. split; [exact Hr|]. split; [exact Hg|].
  rewrite Hf, Hs in Hiff. apply (proj2 Hiff); [reflexivity|lia|by apply (bool_decide_unpack _)].
Defined.
