(* ===== verification/Output.v ===== *)
(** * Output: the console's cursor block, its history listing and the output of
    fatal exceptions. *)

From S2P Require Import Prelude Text Graphics Commands Console Terminal.
Open Scope Z_scope.

(** The result of the first step of a computation that succeeds. *)
Ltac bind_ok H x Hx :=
  match type of H with mbind _ ?m = Ok _ => destruct m as [x| |] eqn:Hx; [|discriminate H|discriminate H] end;
  cbn [mbind outcome_bind] in H.

Section output.
Context (get_raster : char → RasterHeight → option RasterizedChar) (get_raster_width : RasterHeight → Z).
Hypothesis Hfont : font_ok get_raster get_raster_width.

(** ** The cursor block *)

(** The block covers the cursor's cell but for its last four rows of pixels. *)
Definition in_cursor (w : KWriter) (px py : Z) : bool :=
  let fw := get_raster_width (font_size w) in let fh := cell_height (font_size w) in
  (px / fw =? column w) && (py / fh =? row w) && (py mod fh <? fh - 4).

Lemma fill_cursor_spec color w m t : shows_terminal get_raster get_raster_width w m t → t_column t < cols t → t_row t < 2 ^ 40 →
  ∀ m, ∃ m', fill_cursor get_raster_width color w m = Ok (w, m') ∧
    ∀ px py, visible (fb w) px py → pixel (fb w) m' px py = if in_cursor w px py then color else pixel (fb w) m px py.
Proof.
  intros Ht Hcol Hrow m0. destruct Ht. pose proof (font_width _ _ Hfont (font_size w)) as Hf.
  pose proof (cell_height_bound (font_size w)) as Hh. unfold fill_cursor, kx, ky, font_w, in_cursor.
  change (font_h (font_size w)) with (cell_height (font_size w)).
  set (fw := get_raster_width (font_size w)) in *. set (fh := cell_height (font_size w)) in *.
  pose proof (Z.mul_div_le (width (fb w)) fw ltac:(lia)) as Hwd. rewrite <- st_cols in Hwd.
  rewrite st_column, st_row. rewrite !mul_u64_ok by (unfold is_u64; nia). cbn [mbind outcome_bind].
  rewrite sub_u64_ok by lia. cbn [mbind outcome_bind]. unfold PixelSize_new.
  rewrite !(proj2 (Z.eqb_neq _ _)) by lia. cbn [negb andb mbind outcome_bind].
  assert (∀ px py, visible (fb w) px py →
    (px / fw =? t_column t) && (py / fh =? t_row t) && (py mod fh <? fh - 4) =
    in_rect (t_column t * fw) (t_row t * fh) (t_column t * fw + fw) (t_row t * fh + (fh - 4)) px py) as Hin.
  { intros px py [Hx Hy]. apply eq_true_iff_eq. rewrite in_rect_spec, !andb_true_iff, !Z.eqb_eq, Z.ltb_lt.
    pose proof (Z.div_mod px fw ltac:(lia)). pose proof (Z.mod_pos_bound px fw ltac:(lia)).
    pose proof (Z.div_mod py fh ltac:(lia)). pose proof (Z.mod_pos_bound py fh ltac:(lia)). split.
    - intros [[<- <-] Hm]. lia.
    - intros [Hcx Hcy]. assert (px / fw = t_column t) by nia. assert (py / fh = t_row t) by nia. lia. }
  destruct (Z.lt_ge_cases (t_row t) (rows t)) as [Hvis|Hout].
  - destruct (draw_rec_painted (fb w) (t_column t * fw) (t_row t * fh) fw (fh - 4) color m0 st_fb) as (m' & -> & Hp); try nia.
    exists m'. split; [done|]. intros px py Hv. rewrite Hin by done.
    destruct (in_rect _ _ _ _ px py) eqn:Hr; [by apply Hp|]. by apply (painted_other _ _ _ _ _ _ _ st_fb Hp Hv).
  - rewrite draw_rec_outside by (cbn [y size_height]; nia). exists m0. split; [done|]. intros px py Hv. rewrite Hin by done.
    destruct (in_rect _ _ _ _ px py) eqn:Hr; [|done]. apply in_rect_spec in Hr. destruct Hv. nia.
Qed.

(** Where the cursor is drawn: in front of a full row's end it goes on as a
    line feed does, without ending the line. *)
Definition term_wrap (t : Terminal) : Terminal :=
  if cols t <=? t_column t then
    let row := t_row t + 1 in
    let d := if rows t - 3 <=? row then row - (rows t - 4) else 0 in
    mkTerminal (cols t) (rows t) (shift (rows t) d (grid t)) 0 (row - d) (t_history t) (t_line t)
  else t.

Lemma wrap_shows w m t : shows_terminal get_raster get_raster_width w m t → t_row t < 2 ^ 40 →
  ∃ w' m', (if width (fb w) <? column w * get_raster_width (font_size w) + get_raster_width (font_size w) then
      row ← add_u64 (row w) 1; check_scroll (font_h (font_size w)) (set_position 0 row w) m
    else Ok (w, m)) = Ok (w', m') ∧
    shows_terminal get_raster get_raster_width w' m' (term_wrap t) ∧ t_column (term_wrap t) < cols (term_wrap t) ∧
    t_row (term_wrap t) ≤ t_row t + 1 ∧ fb w' = fb w ∧ font_size w' = font_size w.
Proof.
  intros Ht Hrow. pose proof Ht as []. pose proof (font_width _ _ Hfont (font_size w)) as Hf.
  replace (column w * get_raster_width (font_size w) + get_raster_width (font_size w))
    with ((column w + 1) * get_raster_width (font_size w)) by ring.
  rewrite wrap_cond, <- st_cols, st_column by lia. unfold term_wrap.
  destruct (Z.leb_spec (cols t) (t_column t)) as [Hfull|Hroom]; [|exists w, m; split_and!; done || lia].
  rewrite add_u64_ok by (unfold is_u64; lia). cbn [mbind outcome_bind].
  destruct (check_scroll_aligned get_raster get_raster_width (set_position 0 (row w + 1) w) m (rows t) (grid t)) as (m' & Hs & Hp); try done; [cbn; lia|].
  change (font_h (font_size w)) with (font_h (font_size (set_position 0 (row w + 1) w))). rewrite Hs.
  cbn [row set_position column fb font_size] in Hp |- *. rewrite st_row in *.
  eexists _, m'. split; [reflexivity|]. cbn. split; [|destruct (Z.leb_spec (rows t - 3) (t_row t + 1)); split_and!; done || lia].
  split; cbn; try done; try lia.
  - destruct (Z.leb_spec (rows t - 3) (t_row t + 1)); lia.
  - intros c r Hb. unfold shift. destruct (_ <? _); [|done]. apply st_blank. left.
    destruct (Z.leb_spec (rows t - 3) (t_row t + 1)); lia.
Qed.

(** The cursor block leaves no trace: behind any printed text [draw_cursor]
    shows the terminal's cells and a white block in the next free cell, going to
    a new row first when the row is full, and [erase_cursor] restores the cells. *)
Theorem cursor_block_round_trip (c : Console) (w : KWriter) (t : Terminal) :
  KWRITER c = Some w → shows_terminal get_raster get_raster_width w (screen c) t → t_row t < 2 ^ 39 →
  ∃ c1 w1 c2, draw_cursor get_raster_width c = Ok c1 ∧ KWRITER c1 = Some w1 ∧
    fb w1 = fb w ∧ font_size w1 = font_size w ∧
    (∀ px py, visible (fb w1) px py → pixel (fb w1) (screen c1) px py =
      if in_cursor w1 px py then WHITE else grid_color get_raster get_raster_width (font_size w1) (grid (term_wrap t)) px py) ∧
    erase_cursor get_raster_width c1 = Ok c2 ∧ KWRITER c2 = Some w1 ∧
    shows_terminal get_raster get_raster_width w1 (screen c2) (term_wrap t).
Proof.
  intros Hw Ht Hrow. destruct (wrap_shows w (screen c) t Ht ltac:(lia)) as (w1 & m1 & Hr & Ht1 & Hc1 & Hr1 & Hf1 & Hs1).
  destruct (fill_cursor_spec WHITE w1 m1 _ Ht1 Hc1 ltac:(lia) m1) as (m2 & Hd & Hp2).
  destruct (fill_cursor_spec BLACK w1 m1 _ Ht1 Hc1 ltac:(lia) m2) as (m3 & He & Hp3).
  exists (mkConsole (Some w1) (EMERGENCY_FRAMEBUFFER c) m2), w1, (mkConsole (Some w1) (EMERGENCY_FRAMEBUFFER c) m3).
  pose proof (font_width _ _ Hfont (font_size w)) as Hf. pose proof (st_column_bound _ _ _ _ _ Ht) as Hcb.
  assert (0 ≤ column w * get_raster_width (font_size w) ≤ 2 ^ 32) as Hx.
  { rewrite (st_column _ _ _ _ _ Ht). pose proof (st_cols _ _ _ _ _ Ht). pose proof (st_width _ _ _ _ _ Ht).
    pose proof (Z.mul_div_le (width (fb w)) (get_raster_width (font_size w)) ltac:(lia)). nia. }
  split.
  { unfold draw_cursor, with_writer. rewrite Hw. unfold kx, font_w.
    rewrite (mul_u64_ok (column w)) by (unfold is_u64; lia). cbn [mbind outcome_bind].
    rewrite (add_u64_ok (column w * _)) by (unfold is_u64; lia). cbn [mbind outcome_bind] in Hr |- *.
    rewrite Hr. cbn [mbind outcome_bind]. by rewrite Hd. }
  split; [done|]. split; [exact Hf1|]. split; [exact Hs1|]. split.
  { intros px py Hv. cbn [screen]. rewrite Hp2 by done. destruct (in_cursor w1 px py); [done|]. by apply (st_picture _ _ _ _ _ Ht1). }
  split; [unfold erase_cursor, with_writer; cbn [KWRITER screen]; by rewrite He|]. split; [done|].
  cbn [screen]. destruct Ht1. split; try done. intros px py Hv. rewrite Hp3, Hp2 by done.
  destruct (in_cursor w1 px py) eqn:Hin; [|by apply st_picture]. unfold in_cursor in Hin.
  rewrite !andb_true_iff, !Z.eqb_eq in Hin. destruct Hin as [[Hpx Hpy] _]. unfold grid_color. rewrite Hpx, Hpy, st_column, st_row.
  by rewrite st_blank by lia.
Qed.

(** ** Emergency output *)

(** A memory that differs only in visible pixels. *)
Definition only_pixels (fb : Framebuffer) (m m' : mem) : Prop :=
  ∀ a, (∀ x y, visible fb x y → ¬ cell fb x y ≤ a < cell fb x y + 3) → m' a = m a.

Lemma only_pixels_trans fb m1 m2 m3 : only_pixels fb m1 m2 → only_pixels fb m2 m3 → only_pixels fb m1 m3.
Proof. intros H1 H2 a Ha. by rewrite H2, H1. Qed.

Lemma emergency_chars_safe fb max_columns max_rows text : fb_ok fb → max_columns < 2 ^ 33 → max_rows < 2 ^ 33 →
  ∀ w m, framebuffer w = fb → 0 ≤ em_column w ≤ 2 ^ 34 → 0 ≤ em_row w →
  ∃ w' m', emergency_chars get_raster get_raster_width max_columns max_rows text w m = Ok (w', m') ∧
    only_pixels fb m m' ∧ framebuffer w' = fb ∧ 0 ≤ em_column w' ≤ 2 ^ 34 ∧ 0 ≤ em_row w'.
Proof.
  intros Hok Hc Hr. induction text as [|ch text IH]; intros w m Hf Hcw Hrw; cbn [emergency_chars]; [by exists w, m|].
  destruct (Z.eqb_spec ch 10) as [|Hch].
  { apply IH; cbn; [done|lia|unfold saturating_add; lia]. }
  set (w1 := if max_columns <=? em_column w then _ else w).
  assert (framebuffer w1 = fb ∧ 0 ≤ em_column w1 < 2 ^ 34 ∧ 0 ≤ em_row w1) as (Hf1 & Hc1 & Hr1).
  { unfold w1. destruct (Z.leb_spec max_columns (em_column w)); cbn; split_and!; try done; unfold saturating_add; lia. }
  clearbody w1. destruct (Z.leb_spec max_rows (em_row w1)) as [|Hvis]; [exists w1, m; split_and!; done || lia|].
  rewrite Hf1. destruct (draw_char_painted _ _ Hfont fb ch (em_column w1) (em_row w1) Size16 m Hok Hch ltac:(lia) ltac:(lia))
    as (m1 & -> & _ & Hp). cbn [mbind outcome_bind]. rewrite add_u64_ok by (unfold is_u64; lia). cbn [mbind outcome_bind].
  destruct (IH (mkEmergency fb (em_column w1 + 1) (em_row w1)) m1) as (w' & m' & Hw & Hpx & Hw'); cbn; [done|lia|lia|].
  exists w', m'. split; [exact Hw|]. split; [|exact Hw']. apply only_pixels_trans with m1; [|exact Hpx].
  intros a Ha. apply Hp. intros x y Hv _. by apply Ha.
Qed.

(** The output of a fatal exception needs nothing but its framebuffer: it
    terminates without a panic for every text and whatever state the console is
    in, leaves the console's writer as it is, and changes no byte of memory
    outside the visible pixels. *)
Theorem emergency_print_safe (pieces : list str) (c : Console) :
  (∀ fb, EMERGENCY_FRAMEBUFFER c = Some fb → fb_ok fb ∧ width fb < 2 ^ 32 ∧ height fb < 2 ^ 32) →
  ∃ c', emergency_print get_raster get_raster_width pieces c = Ok c' ∧ KWRITER c' = KWRITER c ∧
    EMERGENCY_FRAMEBUFFER c' = EMERGENCY_FRAMEBUFFER c ∧
    match EMERGENCY_FRAMEBUFFER c with
    | Some fb => only_pixels fb (screen c) (screen c')
    | None => screen c' = screen c
    end.
Proof.
  intros Hfb. unfold emergency_print. destruct (EMERGENCY_FRAMEBUFFER c) as [fb|] eqn:He; [|by exists c].
  destruct (Hfb fb eq_refl) as (Hok & Hw & Hh). clear Hfb. pose proof (font_width _ _ Hfont Size16) as Hf.
  assert (∀ w m, framebuffer w = fb → 0 ≤ em_column w ≤ 2 ^ 34 → 0 ≤ em_row w →
    ∃ w' m', foldM (λ '(w, m) text, emergency_write_str get_raster get_raster_width text w m) (w, m) pieces = Ok (w', m') ∧
      only_pixels fb m m') as H.
  { induction pieces as [|text pieces IH]; intros w m Hwf Hwc Hwr; cbn [foldM]; [by exists w, m|].
    assert (emergency_write_str get_raster get_raster_width text w m = emergency_chars get_raster get_raster_width
      (width fb / get_raster_width Size16) (height fb / cell_height Size16) text w m) as ->.
    { unfold emergency_write_str, cell_width. rewrite Hwf, (div_u64_ok (width fb)) by lia. done. }
    destruct (emergency_chars_safe fb (width fb / get_raster_width Size16) (height fb / cell_height Size16) text Hok) with (w := w) (m := m)
      as (w1 & m1 & -> & Hp & Hf1 & Hc1 & Hr1); try done.
    - apply Z.div_lt_upper_bound; nia.
    - pose proof (cell_height_bound Size16). apply Z.div_lt_upper_bound; nia.
    - cbn [mbind outcome_bind]. destruct (IH w1 m1 Hf1 Hc1 Hr1) as (w' & m' & Hw' & Hp'). exists w', m'.
      split; [exact Hw'|]. by apply only_pixels_trans with m1. }
  destruct (H (mkEmergency fb 0 0) (screen c)) as (w' & m' & Hr & Hp); cbn; [done|lia|lia|].
  rewrite Hr. cbn. eexists. split; [reflexivity|]. done.
Qed.

(** ** The history listing *)

Lemma history_lines w fh visible : fb_ok (fb w) → fh = cell_height (font_size w) → ∀ m i,
  0 ≤ i → (i + Z.of_nat (length visible)) < 2 ^ 40 →
  ∃ m', foldM (history_line get_raster get_raster_width w fh) (m, i * fh) visible = Ok (m', (i + Z.of_nat (length visible)) * fh).
Proof.
  intros Hok Hfh. pose proof (cell_height_bound (font_size w)) as Hh. rewrite <- Hfh in Hh.
  induction visible as [|line visible IH]; intros m i Hi Hl; cbn [foldM length] in *.
  { exists m. by rewrite Z.add_0_r. }
  rewrite Nat2Z.inj_succ in *. cbn [history_line]. rewrite div_u64_ok by lia. cbn [mbind outcome_bind]. rewrite Z.div_mul by lia.
  destruct (draw_text_total _ _ Hfont (fb w) line 0 i WHITE (font_size w) m Hok ltac:(lia) ltac:(lia)) as (m1 & ->).
  cbn [mbind outcome_bind]. rewrite add_u64_ok by (unfold is_u64; nia). cbn [mbind outcome_bind].
  replace (i * fh + fh) with ((i + 1) * fh) by ring.
  destruct (IH m1 (i + 1)) as (m' & Hr); [lia|lia|]. exists m'. rewrite Hr. do 3 f_equal. lia.
Qed.

(** [print_history] lists as many lines as the screen has rows and leaves the
    cursor on the row behind them; when the history fills the screen that row is
    below the last whole row. *)
Lemma print_history_row c w : KWRITER c = Some w → fb_ok (fb w) → height (fb w) < 2 ^ 32 →
  let n := Z.min (Z.of_nat (length (history w))) (height (fb w) / cell_height (font_size w)) in
  ∃ c', print_history get_raster get_raster_width c = Ok c' ∧ KWRITER c' = Some (set_position 0 n w) ∧
    (height (fb w) / cell_height (font_size w) ≤ Z.of_nat (length (history w)) →
     height (fb w) < (n + 1) * cell_height (font_size w)).
Proof.
  intros Hw Hok Hb n. pose proof (cell_height_bound (font_size w)) as Hh. pose proof (fb_height _ Hok) as Hfh.
  unfold print_history, with_writer. rewrite Hw. change (font_h (font_size w)) with (cell_height (font_size w)).
  set (fh := cell_height (font_size w)) in *. rewrite div_u64_ok by lia. cbn [mbind outcome_bind].
  set (max_lines := height (fb w) / fh) in *. set (visible := drop _ (history w)).
  assert (0 ≤ max_lines < 2 ^ 32) as Hml by (split; [apply Z.div_pos; lia|apply Z.div_lt_upper_bound; nia]).
  assert (Z.of_nat (length visible) = n) as Hlen by (unfold visible; rewrite length_drop; unfold saturating_sub; lia).
  destruct (history_lines w fh visible Hok eq_refl (screen c) 0) as (m' & Hr); [lia|lia|].
  rewrite Z.mul_0_l, Hlen, Z.add_0_l in Hr. rewrite Hr. cbn [mbind outcome_bind]. rewrite div_u64_ok by lia. cbn [mbind outcome_bind].
  rewrite Z.div_mul by lia. eexists. split; [reflexivity|]. split; [done|].
  intros Hfull. assert (n = max_lines) as -> by lia. pose proof (Z.mul_succ_div_gt (height (fb w)) fh). fold max_lines in H. lia.
Qed.

(** Printing behind the cells of an old line keeps the row that the next redraw
    starts from, wherever the text was printed. *)
Lemma write_keeps_cells s w m w' m' : Forall (λ ch, ch ≠ 10) s →
  write_str get_raster get_raster_width s w m = Ok (w', m') → ∃ cells, glyph_cells w' = glyph_cells w ++ cells.
Proof.
  unfold write_str. generalize (width (fb w)), (font_h (font_size w)), (font_w get_raster_width (font_size w)). intros W fh fw.
  revert w m. induction s as [|ch s IH]; intros w m Hs Hr; cbn [foldM] in Hr.
  { injection Hr as <- <-. exists []. by rewrite app_nil_r. }
  apply Forall_cons in Hs as [Hch Hs].
  bind_ok Hr p H1. destruct p as [w1 m1]. destruct (IH w1 m1 Hs Hr) as (cells & ->).
  unfold write_char in H1. rewrite (proj2 (Z.eqb_neq _ _) Hch) in H1.
  bind_ok H1 next Hn. bind_ok H1 edge Hri. bind_ok H1 w2 Hw2.
  assert (glyph_cells w2 = glyph_cells w) as Hg.
  { destruct (W <? edge); [bind_ok Hw2 r1 Hr'|]; by injection Hw2 as <-. }
  bind_ok H1 m2 Hm. bind_ok H1 c1 Hc. injection H1 as <- <-. cbn. rewrite Hg, <- app_assoc. eauto.
Qed.

(** Zooming keeps the cells of the line that was on the screen in front of those
    of the new prompt, so that the next redraw starts from that line's old row. *)
Lemma zoom_keeps_cells step input c c' w w' : KWRITER c = Some w → fb_ok (fb w) → height (fb w) < 2 ^ 32 →
  Forall (λ ch, ch ≠ 10) input → zoom get_raster get_raster_width step input c = Ok c' → KWRITER c' = Some w' →
  ∃ cells, glyph_cells w' = glyph_cells w ++ cells.
Proof.
  intros Hw Hok Hb Hi Hz Hw'. unfold zoom in Hz. unfold with_writer at 1 in Hz. rewrite Hw in Hz.
  destruct (clear_background_painted (fb w) BLACK (screen c) Hok) as (m1 & Hc & _).
  cbn [fb set_size] in Hz. rewrite Hc in Hz. cbn [mbind outcome_bind] in Hz.
  set (c1 := mkConsole (Some (set_line [] (set_size (step (font_size w)) w))) (EMERGENCY_FRAMEBUFFER c) m1) in *.
  destruct (print_history_row c1 _ eq_refl Hok Hb) as (c2 & Hp & Hw2 & _). rewrite Hp in Hz. cbn [mbind outcome_bind] in Hz.
  unfold kprint, with_writer in Hz. rewrite Hw2 in Hz. bind_ok Hz p Hwr. destruct p as [w3 m3]. injection Hz as <-.
  cbn [KWRITER] in Hw'. injection Hw' as <-.
  destruct (write_keeps_cells (PROMPT ++ input) _ _ _ _ ltac:(apply Forall_app; split; [|exact Hi]; repeat (constructor; [by vm_compute|]); constructor) Hwr)
    as (cells & ->). by exists cells.
Qed.

End output.

(** ** Witnesses *)

Lemma cursor_block_round_trip_witness : ∃ c c1 w1 c2,
  draw_cursor demo_width c = Ok c1 ∧ pixel demo_screen (screen c1) 1 13 = WHITE ∧
  erase_cursor demo_width c1 = Ok c2 ∧ shows_terminal demo_raster demo_width w1 (screen c2) (mkTerminal 3 5 blank 0 0 [] []).
Proof.
  destruct demo_reset as (c & w & Hc & Hw & Hf & Hs & Ht & _).
  destruct (cursor_block_round_trip demo_raster demo_width demo_font_ok c w _ Hw Ht) as (c1 & w1 & c2 & Hd & Hw1 & Hf1 & Hs1 & Hp & He & Hw2 & Ht2);
    [cbn; lia|].
  exists c, c1, w1, c2. split; [exact Hd|]. split; [|split; [exact He|exact Ht2]].
  rewrite Hf1, Hf, Hs1, Hs in Hp. assert (visible demo_screen 1 13) as Hv by (unfold visible; cbn; lia).
  specialize (Hp 1 13 Hv). assert (in_cursor demo_width w1 1 13 = true) as Hin; [|rewrite Hin in Hp; exact Hp].
  unfold in_cursor. rewrite Hs1, Hs, (st_column _ _ _ _ _ Ht2), (st_row _ _ _ _ _ Ht2). reflexivity.
Defined.

Lemma emergency_print_safe_witness : ∃ c', emergency_print demo_raster demo_width [[97; 98; 10; 99; 100; 101]; [102]] demo_console = Ok c' ∧
  KWRITER c' = KWRITER demo_console ∧ screen c' 0xfff = screen demo_console 0xfff.
Proof.
  destruct (emergency_print_safe demo_raster demo_width demo_font_ok [[97; 98; 10; 99; 100; 101]; [102]] demo_console)
    as (c' & Hr & Hw & _ & Hp); [intros fb [= <-]; split; [apply demo_screen_ok|by split]|].
  exists c'. split; [exact Hr|]. split; [exact Hw|]. apply Hp. intros x y [Hx Hy].
  unfold cell, demo_screen in *. cbn in *. lia.
Defined.
