(* ===== verification/Shell.v ===== *)
(** * Shell: the interactive loop of [src/shell/mod.rs] and the reports that its
    commands print ([MemorySummary::meminfo] of memory.rs,
    [SchedulerStats::taskinfo] of task/mod.rs).

    The loop composes the console with the keyboard, the mouse, the scheduler
    and the commands; the state of all of them is one record here. *)

From S2P Require Import Prelude Globals Memory Frame Heap Task Text Timer Graphics Ports Keyboard Mouse Commands Console.
From Stdlib Require Import String.
Open Scope Z_scope.

(** ** Reports *)

Definition megabytes (label : str) (bytes : Z) : str := label ++ show_u64 (bytes / (1024 * 1024)) ++ lit "mb".

(** The lines of [MemorySummary::meminfo]. *)
Definition meminfo (sys : Heap.World) : list str :=
  [lit "heap start: " ++ show_hex (Heap.HEAP_START sys); megabytes (lit "heap size:  ") (Heap.HEAP_SIZE sys)] ++
  match Heap.MEMORY_MAP sys with
  | None => []
  | Some snapshot =>
    let summary := summary snapshot in
    [lit "memory ranges: " ++ show_u64 (Z.of_nat (sum_ranges summary));
     megabytes (lit "usable:        ") (usable_bytes summary);
     megabytes (lit "kernel-owned:  ") (kernel_bytes summary);
     megabytes (lit "firmware:      ") (firmware_bytes summary);
     megabytes (lit "acpi:           ") (acpi_bytes summary);
     megabytes (lit "device/mmio:    ") (device_bytes summary);
     megabytes (lit "runtime:        ") (runtime_bytes summary);
     megabytes (lit "reserved:       ") (reserved_bytes summary);
     megabytes (lit "unusable:       ") (unusable_bytes summary)] ++
    match Frame.stats (Heap.FRAME_ALLOCATOR sys) with
    | None => []
    | Some fs =>
      [lit "frames total:   " ++ show_u64 (fs_total_frames fs);
       lit "frames free:    " ++ show_u64 (fs_free_frames fs);
       lit "frame ranges:   " ++ show_u64 (Z.of_nat (fs_free_ranges fs))]
    end
  end.

(** The lines of [SchedulerStats::taskinfo]. *)
Definition taskinfo (stats : Task.SchedulerStats) : list str :=
  [lit "task slots:  " ++ show_u64 (Z.of_nat (task_count stats)) ++ lit " / " ++ show_u64 (Z.of_nat MAX_TASKS);
   lit "ready:       " ++ show_u64 (Z.of_nat (ready stats));
   lit "sleeping:    " ++ show_u64 (Z.of_nat (sleeping stats));
   lit "blocked:     " ++ show_u64 (Z.of_nat (blocked stats));
   lit "running:     " ++ show_u64 (Z.of_nat (running stats));
   lit "finished:    " ++ show_u64 (Z.of_nat (finished stats));
   lit "cancelled:   " ++ show_u64 (Z.of_nat (cancelled stats))].

(** ** The pointer *)

Definition CURSOR_W : Z := 20.
Definition CURSOR_H : Z := 20.

(** [as i32] and unchecked arithmetic on [i32]. *)
Definition as_i32 (z : Z) : Z := (z + 2 ^ 31) mod 2 ^ 32 - 2 ^ 31.
Definition in_i32 {E} (z : Z) : outcome E Z := expect (if (- 2 ^ 31 <=? z) && (z <? 2 ^ 31) then Some z else None).

(** [Ord::clamp] asserts that its bounds are ordered. *)
Definition clamp {E} (v lo hi : Z) : outcome E Z := if lo <=? hi then Ok (Z.max lo (Z.min v hi)) else Panic.

(** The state that a call of a method leaves, when it succeeds. *)
Definition after {S E A} (r : outcome E A * S) : outcome E S :=
  match r with (Ok _, s) => Ok s | (Err e, _) => Err e | (Panic, _) => Panic end.

(** The closure that moves the pointer: its position, the cursor it saved and
    the memory. *)
Definition move_pointer (event : MouseEvent) (fb : Framebuffer) (mouse_x mouse_y : Z) (cursor : MouseCursor) (m : mem) :
    run (Z * Z * MouseCursor * mem) :=
  '(cursor, m) ← after (erase_mouse_cursor fb (cursor, m));
  x ← in_i32 (mouse_x + dx event);
  max_x ← in_i32 (as_i32 (width fb) - CURSOR_W);
  mouse_x ← clamp x 0 max_x;
  y ← in_i32 (mouse_y + dy event);
  max_y ← in_i32 (as_i32 (height fb) - CURSOR_H);
  mouse_y ← clamp y 0 max_y;
  '(cursor, m) ← after (draw_mouse_cursor fb (mkCoord mouse_x mouse_y) (cursor, m));
  Ok (mouse_x, mouse_y, cursor, m).

(** ** The demonstration tasks *)

Inductive TaskEntry : Type := task_one | task_two.

(** The counters of the two tasks and the console that they print to: a task
    that panics leaves the panic. *)
Record World : Type := mkTaskWorld { TASK_ONE_COUNT : Z; TASK_TWO_COUNT : Z; task_console : run Console }.

Section shell.
Context (get_raster : char → RasterHeight → option RasterizedChar) (get_raster_width : RasterHeight → Z).

Abbreviation kprint := (kprint get_raster get_raster_width).
Abbreviation kprintln := (kprintln get_raster get_raster_width).

(** [task_one] and [task_two] *)
Definition call_task (f : TaskEntry) (w : World) : TaskAction * World :=
  match f with
  | task_one =>
    let shi := TASK_ONE_COUNT w in
    let count := (shi + 1) mod U64_SIZE in
    if 10 <=? shi then (Exit, mkTaskWorld count (TASK_TWO_COUNT w) (task_console w)) else
    (Yield, mkTaskWorld count (TASK_TWO_COUNT w) (c ← task_console w; kprintln (lit "Task 1 ran: #" ++ show_u64 shi) c))
  | task_two =>
    let shi := TASK_TWO_COUNT w in
    let count := (shi + 1) mod U64_SIZE in
    if 10 <=? shi then (Exit, mkTaskWorld (TASK_ONE_COUNT w) count (task_console w)) else
    (Yield, mkTaskWorld (TASK_ONE_COUNT w) count (c ← task_console w; kprintln (lit "Task 2 ran: #" ++ show_u64 shi) c))
  end.

(** ** Commands *)

(** The lines of a report, one [kprintln!] each. *)
Definition print_lines (lines : list str) (c : Console) : run Console := foldM (λ c line, kprintln line c) c lines.

(** A command's calls on the console; [None] when the machine halts. *)
Fixpoint perform (sys : Heap.World) (stats : Task.SchedulerStats) (calls : list Call) (c : Console) : run (option Console) :=
  match calls with
  | [] => Ok (Some c)
  | call :: calls =>
    match call with
    | Println s => c ← kprintln s c; perform sys stats calls c
    | PrintHistory => c ← print_history get_raster get_raster_width c; perform sys stats calls c
    | SetFontSize sz => c ← set_font_size sz c; perform sys stats calls c
    | Reset => c ← reset c; perform sys stats calls c
    | PrintMeminfo => c ← print_lines (meminfo sys) c; perform sys stats calls c
    | PrintTaskinfo => c ← print_lines (taskinfo stats) c; perform sys stats calls c
    | WritePortU32 _ _ => perform sys stats calls c
    | HaltForever => Ok None
    end
  end.

(** ** Keys *)

(** The arms of the loop's [match key]: the line and the console; [None] when
    the command of the line halted the machine. *)
Definition dispatch_key (sys : Heap.World) (stats : Task.SchedulerStats) (TICKS : Z) (key : KeyboardEvent)
    (line : str) (c : Console) : run (option (str * Console)) :=
  match key with
  | Char ch =>
    if ch =? 10 then
      c ← kprint [10] c;
      r ← perform sys stats (run_command TICKS line) c;
      match r with
      | None => Ok None
      | Some c =>
        c ← kprint PROMPT c;
        c ← reset_input_cursor c;
        Ok (Some ([], c))
      end
    else if ch =? 8 then Some <$> backspace get_raster get_raster_width line c
    else Some <$> insert_char get_raster get_raster_width line ch c
  | CtrlC =>
    c ← kprintln (lit "^C") c;
    c ← kprint PROMPT c;
    c ← reset_input_cursor c;
    Ok (Some ([], c))
  | ZoomIn => c ← zoom_in get_raster get_raster_width line c; Ok (Some (line, c))
  | ZoomOut => c ← zoom_out get_raster get_raster_width line c; Ok (Some (line, c))
  | ArrowRight => c ← arrow_right get_raster get_raster_width c; Ok (Some (line, c))
  | ArrowLeft => c ← arrow_left get_raster get_raster_width c; Ok (Some (line, c))
  | ArrowUp => Some <$> arrow_up get_raster get_raster_width line c
  | ArrowDown => Some <$> arrow_down get_raster get_raster_width line c
  | CtrlL =>
    c ← reset c;
    c ← kprint PROMPT c;
    Ok (Some ([], c))
  | Tab => Some <$> auto_complete get_raster get_raster_width line c
  end.

(** The whole of a key: the cursor block goes, the key acts, the block returns. *)
Definition on_key (sys : Heap.World) (stats : Task.SchedulerStats) (TICKS : Z) (key : KeyboardEvent)
    (line : str) (c : Console) : run (option (str * Console)) :=
  c ← erase_cursor get_raster_width c;
  r ← dispatch_key sys stats TICKS key line c;
  match r with
  | None => Ok None
  | Some (line, c) => c ← draw_cursor get_raster_width c; Ok (Some (line, c))
  end.

(** ** The loop *)

Context {D QK QM : Type} `{Decoder D} `{RK : RingBuffer Z QK} `{RM : RingBuffer Z QM}.
Context (trampoline : Z) (stack_base : nat → Z).

Record Shell : Type := mkShell {
  console : Console;
  keyboard : Keyboard D QK;
  mouse : Mouse QM;
  pointer : MouseCursor;
  mouse_x : Z;
  mouse_y : Z;
  line : str;
  scheduler : Task.Scheduler TaskEntry;
  one_count : Z;
  two_count : Z;
}.

(** Assignments to parts of the state. *)
Definition set_console (c : Console) (s : Shell) : Shell :=
  mkShell c (keyboard s) (mouse s) (pointer s) (mouse_x s) (mouse_y s) (line s) (scheduler s) (one_count s) (two_count s).
Definition set_keyboard (k : Keyboard D QK) (s : Shell) : Shell :=
  mkShell (console s) k (mouse s) (pointer s) (mouse_x s) (mouse_y s) (line s) (scheduler s) (one_count s) (two_count s).
Definition set_mouse (mo : Mouse QM) (s : Shell) : Shell :=
  mkShell (console s) (keyboard s) mo (pointer s) (mouse_x s) (mouse_y s) (line s) (scheduler s) (one_count s) (two_count s).
Definition set_pointer (x y : Z) (p : MouseCursor) (s : Shell) : Shell :=
  mkShell (console s) (keyboard s) (mouse s) p x y (line s) (scheduler s) (one_count s) (two_count s).
Definition set_shell_line (l : str) (s : Shell) : Shell :=
  mkShell (console s) (keyboard s) (mouse s) (pointer s) (mouse_x s) (mouse_y s) l (scheduler s) (one_count s) (two_count s).
Definition set_scheduler (sched : Task.Scheduler TaskEntry) (one two : Z) (s : Shell) : Shell :=
  mkShell (console s) (keyboard s) (mouse s) (pointer s) (mouse_x s) (mouse_y s) (line s) sched one two.

(** The mouse block of the loop. *)
Definition pointer_step (s : Shell) : run Shell :=
  let '(event, mo) := Mouse.poll (mouse s) in
  event ← event;
  let s := set_mouse mo s in
  match event, KWRITER (console s) with
  | Some event, Some w =>
    '(x, y, p, m) ← move_pointer event (fb w) (mouse_x s) (mouse_y s) (pointer s) (screen (console s));
    Ok (set_pointer x y p (set_console (mkConsole (KWRITER (console s)) (EMERGENCY_FRAMEBUFFER (console s)) m) s))
  | _, _ => Ok s
  end.

(** [fmt::Display] of a scheduler error. *)
Definition show_error (e : Task.SchedulerError) : str :=
  match e with
  | NoTaskSlots => lit "no task slots available"
  | InvalidTask => lit "invalid task identifier"
  | TaskNotFinished => lit "task has not finished"
  end.

(** [run_ready] on the scheduler, its error printed. *)
Definition tasks_step (now : Z) (budget : nat) (s : Shell) : run Shell :=
  let '(r, (sched, w)) := Task.run_ready call_task trampoline stack_base now budget
    (scheduler s, mkTaskWorld (one_count s) (two_count s) (Ok (console s))) in
  c ← task_console w;
  let s := set_scheduler sched (TASK_ONE_COUNT w) (TASK_TWO_COUNT w) (set_console c s) in
  match r with
  | Ok _ => Ok s
  | Err e => c ← kprintln (show_error e) (console s); Ok (set_console c s)
  | Panic => Panic
  end.

(** The report of dropped input, every hundredth tick. *)
Definition report_dropped (n : Z) (what : str) (c : Console) : run Console :=
  if 0 <? n then kprintln (lit "Dropped " ++ show_u64 n ++ what) c else Ok c.

Definition dropped_step (now : Z) (s : Shell) : run Shell :=
  if negb (is_multiple_of now 100) then Ok s else
  let k := keyboard s in
  let '(keyboard_dropped, q) := take_dropped (KEYBOARD_QUEUE k) in
  let s := set_keyboard (mkKeyboard q (KEYBOARD k) (CTRL_HELD k)) s in
  c ← report_dropped keyboard_dropped (lit " keyboard inputs") (console s);
  let s := set_console c s in
  let '(mouse_dropped, q) := take_dropped (MOUSE_QUEUE (mouse s)) in
  let s := set_mouse (mkMouse q (PACKET_STATE (mouse s))) s in
  c ← report_dropped mouse_dropped (lit " mouse inputs") (console s);
  Ok (set_console c s).

(** How an iteration of the loop ends: interrupts come back on while the
    processor halts, or at once; or the machine is off. *)
Inductive Idle : Type := EnableAndHlt | EnableInterrupts | MachineOff.

Definition idle (s : Shell) : Idle :=
  if keyboard_queue_is_empty (keyboard s) && mouse_queue_is_empty (mouse s) then EnableAndHlt else EnableInterrupts.

(** One iteration, at the tick [now], with the counter at [TICKS] when a command
    reads it; [arrive k] is what the interrupts push before the pointer, before
    the tasks, before the keys, and then until the loop turns them off to look
    at the queues.  An interrupt at any other point meets no other access to its
    queue before the next of these, so it has the effect it has there. *)
Definition shell_step (sys : Heap.World) (now TICKS : Z) (arrive : nat → Shell → Shell) (s : Shell) : run (Shell * Idle) :=
  s ← pointer_step (arrive 0%nat s);
  s ← tasks_step now (Z.to_nat TASK_BUDGET) (arrive 1%nat s);
  s ← dropped_step now s;
  let s := arrive 2%nat s in
  let '(key, k) := Keyboard.poll (keyboard s) in
  let s := set_keyboard k s in
  match key with
  | None => let s := arrive 3%nat s in Ok (s, idle s)
  | Some key =>
    r ← on_key sys (Task.stats (scheduler s)) TICKS key (line s) (console s);
    match r with
    | None => Ok (s, MachineOff)
    | Some (l, c) => let s := arrive 3%nat (set_shell_line l (set_console c s)) in Ok (s, idle s)
    end
  end.

(** [init] up to the loop; what [enable_mouse] writes to the controllers is modelled
    with the interrupts. *)
Definition shell_init (now : Z) (s : Shell) : run Shell :=
  c ← Console.clear_background (console s);
  let '(r, sched) := (spawn task_one;; spawn task_two) (scheduler s) in
  match r with
  | Ok _ =>
    let s := set_scheduler sched (one_count s) (two_count s) (set_console c s) in
    s ← tasks_step now 10 s;
    c ← kprint PROMPT (console s);
    c ← draw_cursor get_raster_width c;
    Ok (set_console c (set_pointer 0 0 (pointer s) (set_shell_line [] s)))
  | _ => Panic
  end.

End shell.
