(* ===== verification/Pointer.v ===== *)
(** * Pointer: the mouse pointer of the shell's loop stays on the screen and
    leaves no trace on the picture under it. *)

From S2P Require Import Prelude Graphics Ports Mouse Console Shell.
Open Scope Z_scope.

(** Where an event moves a coordinate of the pointer on a screen of [size]. *)
Definition moved (size v d : Z) : Z := Z.max 0 (Z.min (v + d) (size - CURSOR_W)).

Definition pointer_target (fb : Framebuffer) (xy : Z * Z) (event : MouseEvent) : Z * Z :=
  (moved (width fb) (fst xy) (dx event), moved (height fb) (snd xy) (dy event)).

(** The pointer has not been drawn on the picture [bg] yet, or is drawn there. *)
Definition pointer_over (fb : Framebuffer) (bg : mem) (c : MouseCursor) (m : mem) (x y : Z) : Prop :=
  cursor_ok c ∧ position c = None ∧ (∀ a, m a = bg a) ∨ drawn_at fb bg c m x y.

(** A screen that the pointer fits on. *)
Definition pointer_fits (fb : Framebuffer) : Prop :=
  fb_ok fb ∧ CURSOR_W ≤ width fb < 2 ^ 30 ∧ CURSOR_H ≤ height fb < 2 ^ 30.

(** An event that a packet can carry. *)
Definition small_event (e : MouseEvent) : Prop := -256 ≤ dx e ≤ 256 ∧ -256 ≤ dy e ≤ 256.

(** A picture is what its bytes are. *)
Lemma drawn_at_ext fb bg bg' c m ox oy : (∀ a, bg a = bg' a) → drawn_at fb bg c m ox oy → drawn_at fb bg' c m ox oy.
Proof.
  intros Hbg [H1 H2 H3 H4 H5 [H6 H7]]. split; try done.
  - intros row col Hr Hc. rewrite H5 by done. unfold pixel. by rewrite !Hbg.
  - split; [done|]. intros a Ha. by rewrite <- Hbg, H7.
Qed.

Lemma erase_pointer fb bg c m x y : fb_ok fb → pointer_over fb bg c m x y →
  ∃ c' m', erase_mouse_cursor fb (c, m) = (Ok tt, (c', m')) ∧ cursor_ok c' ∧ ∀ a, m' a = bg a.
Proof.
  intros Hok [(Hc & Hp & Hm)|Hd].
  - exists c, m. unfold erase_mouse_cursor. by rewrite Hp.
  - destruct (erase_cursor_drawn fb bg c m x y Hok Hd) as (c' & m' & He & Hc & _ & Hm). by exists c', m'.
Qed.

Lemma in_i32_ok {E} z : - 2 ^ 31 ≤ z < 2 ^ 31 → in_i32 (E:=E) z = Ok z.
Proof. intros Hz. unfold in_i32. by rewrite (proj2 (Z.leb_le _ _)), (proj2 (Z.ltb_lt _ _)) by lia. Qed.

Lemma as_i32_small z : 0 ≤ z < 2 ^ 31 → as_i32 z = z.
Proof. intros Hz. unfold as_i32. rewrite Z.mod_small; lia. Qed.

(** One coordinate: the additions stay in an [i32] and the bounds are ordered. *)
Lemma move_coordinate {E} size v d : CURSOR_W ≤ size < 2 ^ 30 → 0 ≤ v ≤ size - CURSOR_W → -256 ≤ d ≤ 256 →
  in_i32 (E:=E) (v + d) = Ok (v + d) ∧ in_i32 (E:=E) (as_i32 size - CURSOR_W) = Ok (size - CURSOR_W) ∧
  clamp (E:=E) (v + d) 0 (size - CURSOR_W) = Ok (moved size v d) ∧ 0 ≤ moved size v d ≤ size - CURSOR_W.
Proof.
  unfold CURSOR_W. intros Hs Hv Hd. rewrite as_i32_small by lia. rewrite !in_i32_ok by lia. unfold clamp, moved, CURSOR_W.
  rewrite (proj2 (Z.leb_le _ _)) by lia. split_and!; done || lia || (f_equal; lia).
Qed.

Lemma move_pointer_drawn fb bg c m x y event : pointer_fits fb → pointer_over fb bg c m x y → small_event event →
  0 ≤ x ≤ width fb - CURSOR_W → 0 ≤ y ≤ height fb - CURSOR_H →
  let '(x', y') := pointer_target fb (x, y) event in
  ∃ c' m', move_pointer event fb x y c m = Ok (x', y', c', m') ∧ drawn_at fb bg c' m' x' y' ∧
    0 ≤ x' ≤ width fb - CURSOR_W ∧ 0 ≤ y' ≤ height fb - CURSOR_H.
Proof.
  intros (Hok & Hw & Hh) Hp [Hdx Hdy] Hx Hy. unfold pointer_target. cbn [fst snd].
  destruct (erase_pointer fb bg c m x y Hok Hp) as (c1 & m1 & He & Hc1 & Hm1). unfold move_pointer. rewrite He. cbn [after mbind outcome_bind].
  destruct (move_coordinate (E:=Empty_set) (width fb) x (dx event) Hw Hx Hdx) as (-> & -> & Hcx & Hx'). cbn [mbind outcome_bind].
  rewrite Hcx. cbn [mbind outcome_bind].
  change CURSOR_H with CURSOR_W in *.
  destruct (move_coordinate (E:=Empty_set) (height fb) y (dy event) Hh Hy Hdy) as (-> & -> & Hcy & Hy'). cbn [mbind outcome_bind].
  rewrite Hcy. cbn [mbind outcome_bind].
  set (x' := moved (width fb) x _) in *. set (y' := moved (height fb) y _) in *. clearbody x' y'. unfold CURSOR_W in *.
  destruct (draw_cursor_drawn fb x' y' c1 m1 Hok Hc1) as (c2 & m2 & Hd & Ha); [lia..|].
  rewrite Hd. cbn [after mbind outcome_bind]. exists c2, m2. split; [done|]. split; [|by split].
  by apply (drawn_at_ext fb m1).
Qed.

(** C34. The pointer never leaves the screen and never damages the picture: on
    a screen of at least the pointer's 20 by 20 pixels no sequence of mouse
    events panics or overflows, the pointer is where the clamped sum of the
    movements puts it, inside the screen, the 5 by 5 square there is white, and
    everything else (and, once the pointer is erased, every byte) is the
    picture from before the first event. *)
Theorem pointer_moves (fb : Framebuffer) (bg : mem) (events : list MouseEvent) (c : MouseCursor) (m : mem) (x y : Z) :
  pointer_fits fb → pointer_over fb bg c m x y → Forall small_event events →
  0 ≤ x ≤ width fb - CURSOR_W → 0 ≤ y ≤ height fb - CURSOR_H →
  let '(x', y') := fold_left (pointer_target fb) events (x, y) in
  ∃ c' m', foldM (λ '(x, y, c, m) event, move_pointer event fb x y c m) (x, y, c, m) events = Ok (x', y', c', m') ∧
    0 ≤ x' ≤ width fb - CURSOR_W ∧ 0 ≤ y' ≤ height fb - CURSOR_H ∧
    pointer_over fb bg c' m' x' y' ∧ (events ≠ [] → drawn_at fb bg c' m' x' y') ∧
    ∃ c'' m'', erase_mouse_cursor fb (c', m') = (Ok tt, (c'', m'')) ∧ ∀ a, m'' a = bg a.
Proof.
  intros Hf Hp Hs. revert c m x y Hp. induction Hs as [|event events He Hs IH]; intros c m x y Hp Hx Hy; cbn [fold_left foldM].
  - exists c, m. split; [done|]. split; [done|]. split; [done|]. split; [done|]. split; [done|].
    destruct (erase_pointer fb bg c m x y (proj1 Hf) Hp) as (c' & m' & H1 & _ & H2). by exists c', m'.
  - pose proof (move_pointer_drawn fb bg c m x y event Hf Hp He Hx Hy) as Hm.
    destruct (pointer_target fb (x, y) event) as [x1 y1]. destruct Hm as (c1 & m1 & -> & Hd & Hx1 & Hy1). cbn [mbind outcome_bind].
    specialize (IH c1 m1 x1 y1 (or_intror Hd) Hx1 Hy1). destruct (fold_left _ events (x1, y1)) as [x' y'] eqn:E.
    destruct IH as (c' & m' & Hr & Hx' & Hy' & Ho & Hn & Herase). exists c', m'. split; [exact Hr|]. split; [done|]. split; [done|]. split; [done|]. split; [|done].
    intros _. destruct events as [|e events]; [|by apply Hn]. cbn in Hr, E. congruence.
Qed.

(** On a screen narrower than the pointer the bounds of [clamp] are out of
    order, and the first event panics. *)
Lemma narrow_screen_panics event fb y c m : position c = None → 0 ≤ width fb < CURSOR_W → small_event event →
  move_pointer event fb 0 y c m = Panic.
Proof.
  unfold CURSOR_W. intros Hp Hw [Hdx _]. unfold move_pointer, erase_mouse_cursor. rewrite Hp. cbn [after mbind outcome_bind].
  rewrite (as_i32_small (width fb)) by lia. unfold CURSOR_W.
  rewrite (in_i32_ok (0 + dx event)), (in_i32_ok (width fb - 20)) by lia. cbn [mbind outcome_bind]. unfold clamp. by rewrite (proj2 (Z.leb_gt _ _)) by lia.
Qed.

Definition demo_field : Framebuffer := mkFb 0x1000 (mkSize 24 22) 24 Bgr 2112.

Lemma demo_field_fits : pointer_fits demo_field.
Proof. split; [by split; vm_compute|]. unfold CURSOR_W, CURSOR_H. cbn. lia. Qed.

Lemma pointer_moves_witness : ∃ c m, foldM (λ '(x, y, c, m) event, move_pointer event demo_field x y c m) (0, 0, MOUSE_CURSOR_new, λ a, a mod 251)
    [mkEvent 3 1 false false false; mkEvent (-1) 100 true false false; mkEvent 200 (-300 + 299) false false false] = Ok (4, 1, c, m) ∧
  pixel demo_field m 8 5 = WHITE.
Proof.
  destruct (pointer_moves demo_field (λ a, a mod 251)
    [mkEvent 3 1 false false false; mkEvent (-1) 100 true false false; mkEvent 200 (-300 + 299) false false false]
    MOUSE_CURSOR_new (λ a, a mod 251) 0 0) as (c & m & Hr & _ & _ & _ & Hd & _).
  - exact demo_field_fits.
  - by left.
  - do 3 (constructor; [split; cbn; lia|]). constructor.
  - unfold CURSOR_W, CURSOR_H. cbn. lia.
  - unfold CURSOR_W, CURSOR_H. cbn. lia.
  - exists c, m. split; [exact Hr|]. destruct (Hd ltac:(done)) as [_ _ _ _ _ [Hp _]].
    apply (Hp 8 5); [split; cbn; lia|reflexivity].
Defined.
