(* ===== verification/Session.v ===== *)
(** * Session: the shell's keys keep the console and the shell's line in step,
    whatever the user does, and nothing the shell draws can panic. *)

From S2P Require Import Prelude Globals Memory Frame Heap Task Text Timer Graphics Ports Keyboard Mouse Commands Console Terminal LineEditor Output Shell.
Open Scope Z_scope.

Lemma div_le_self a b : 0 ≤ a → 1 ≤ b → 0 ≤ a / b ≤ a.
Proof.
  intros Ha Hb. split; [apply Z.div_pos; lia|]. apply Z.div_le_upper_bound; [lia|].
  rewrite <- (Z.mul_1_l a) at 1. apply Z.mul_le_mono_nonneg_r; lia.
Qed.

Section session.
Context (get_raster : char → RasterHeight → option RasterizedChar) (get_raster_width : RasterHeight → Z).
Hypothesis Hfont : font_ok get_raster get_raster_width.
(** The framebuffer that the console was initialized with. *)
Context (device : Framebuffer).

(** ** What every operation of the console preserves *)

(** A sane writer: the device is drawable, the position and the row that a
    redraw starts from stay near the screen, and the history index is one of the
    commands'. *)
Record sane (w : KWriter) : Prop := {
  sane_fb : fb_ok (fb w);
  sane_width : width (fb w) < 2 ^ 32;
  sane_height : height (fb w) < 2 ^ 32;
  sane_column : 0 ≤ column w ≤ 2 ^ 33;
  sane_start : match glyph_cells w with [] => row w ≤ 2 ^ 32 | cell :: _ => 0 ≤ cell_row cell ≤ 2 ^ 32 + 1 end;
  sane_row : 0 ≤ row w ≤ 2 ^ 33 + 33 * chars_count (current_line w);
  sane_index : match history_index w with
               | None => True
               | Some i => 0 ≤ i < Z.of_nat (length (command_history (history w)))
               end;
  sane_device : fb w = device;
}.

(** A line without a line feed, no longer than [n]. *)
Definition short (n : Z) (l : str) : Prop := Forall (λ ch, ch ≠ 10) l ∧ chars_count l ≤ n.

Lemma short_le n n' l : n ≤ n' → short n l → short n' l.
Proof. intros ? [? ?]. split; [done|lia]. Qed.

(** Lines and history are no longer than [n]. *)
Record within (n : Z) (w : KWriter) : Prop := {
  within_line : short n (current_line w);
  within_lines : Forall (short n) (history w);
  within_count : Z.of_nat (length (history w)) ≤ n;
}.

Lemma within_le n n' w : n ≤ n' → within n w → within n' w.
Proof.
  intros Hn [H1 H2 H3]. split; [by apply (short_le n)| |lia]. eapply Forall_impl; [exact H2|]. intros l. by apply short_le.
Qed.

(** The editor's part of the writer that printing leaves alone. *)
Definition undisturbed (w w' : KWriter) : Prop := input_cursor w' = input_cursor w ∧ history_index w' = history_index w.

(** The line that is open after printing. *)
Definition open_line (line : str) (s : str) : str := fold_left (λ l ch, if ch =? 10 then [] else l ++ [ch]) s line.

Lemma command_history_app h l : command_history (h ++ l) = command_history h ++ command_history l.
Proof. apply List.filter_app. Qed.

(** [check_scroll] keeps a row that is not below the screen's rows. *)
Lemma check_scroll_sane w m : fb_ok (fb w) → height (fb w) < 2 ^ 32 → 0 ≤ row w < 2 ^ 50 →
  ∃ r m', check_scroll (font_h (font_size w)) w m = Ok (set_position (column w) r w, m') ∧ 0 ≤ r ≤ 2 ^ 32 ∧ r ≤ row w.
Proof.
  intros Hok Hb Hr. pose proof (cell_height_bound (font_size w)) as Hh. unfold check_scroll, ky.
  change (font_h (font_size w)) with (cell_height (font_size w)). set (fh := cell_height (font_size w)) in *.
  rewrite !mul_u64_ok by (unfold is_u64; nia). cbn [mbind outcome_bind].
  set (threshold := saturating_sub (height (fb w)) (3 * fh)).
  assert (0 ≤ threshold < 2 ^ 32) as Ht by (pose proof (fb_height _ Hok); unfold threshold, saturating_sub; lia).
  destruct (Z.leb_spec threshold (row w * fh)) as [Hge|Hlt].
  - rewrite sub_u64_ok by lia. cbn [mbind outcome_bind]. rewrite add_u64_ok by (unfold is_u64; nia). cbn [mbind outcome_bind].
    destruct (scroll_rows_painted (fb w) (row w * fh - threshold + fh) m Hok ltac:(nia)) as (m' & -> & _).
    cbn [mbind outcome_bind]. rewrite div_u64_ok by lia. cbn [mbind outcome_bind].
    assert (0 ≤ saturating_sub threshold fh ≤ threshold) as Hs by (unfold saturating_sub; lia).
    eexists _, m'. split; [reflexivity|]. split.
    + split; [apply Z.div_pos; lia|]. apply Z.div_le_upper_bound; nia.
    + apply Z.div_le_upper_bound; nia.
  - exists (row w), m. split; [by destruct w|]. nia.
Qed.

Lemma write_char_sane w m ch n : sane w → within n w → 0 ≤ n < 2 ^ 41 →
  ∃ w' m', write_char get_raster get_raster_width (width (fb w)) (font_h (font_size w)) (font_w get_raster_width (font_size w)) (w, m) ch = Ok (w', m') ∧
    sane w' ∧ within (n + 1) w' ∧ undisturbed w w' ∧ current_line w' = open_line (current_line w) [ch] ∧
    fb w' = fb w ∧ font_size w' = font_size w ∧ (ch ≠ 10 → history w' = history w).
Proof.
  intros [Hok HW HH Hc Hs Hr Hi Hd] [[W0 W1] W2 W3] Hn. pose proof (font_width _ _ Hfont (font_size w)) as Hf.
  unfold write_char. destruct (Z.eqb_spec ch 10) as [->|Hch].
  - rewrite add_u64_ok by (unfold is_u64; lia). cbn [mbind outcome_bind].
    set (w1 := set_position 0 (row w + 1) _).
    destruct (check_scroll_sane w1 m Hok HH) as (r & m' & Hcs & Hr32 & Hrr); [cbn; lia|].
    change (font_h (font_size w)) with (font_h (font_size w1)). rewrite Hcs.
    eexists _, m'. split; [reflexivity|]. split_and!; try done.
    + split; cbn -[command_history chars_count]; try done; try lia; [change (chars_count []) with 0; lia|].
      rewrite command_history_app, length_app. destruct (history_index w); [lia|done].
    + split; cbn -[chars_count]; [split; [constructor|change (chars_count []) with 0; lia]| |rewrite length_app; cbn; lia].
      apply Forall_app. split; [eapply Forall_impl; [exact W2|]; intros l; apply short_le; lia|].
      constructor; [split; [done|lia]|constructor].
  - cbn [column set_line]. rewrite (add_u64_ok (column w)) by (unfold is_u64; lia). cbn [mbind outcome_bind]. unfold font_w.
    rewrite (mul_u64_ok (column w + 1)) by (unfold is_u64; nia). cbn [mbind outcome_bind].
    assert (∃ c r, (if width (fb w) <? (column w + 1) * get_raster_width (font_size w) then
         row ← add_u64 (row (set_line (current_line w ++ [ch]) w)) 1; Ok (E:=Empty_set) (set_position 0 row (set_line (current_line w ++ [ch]) w))
       else Ok (set_line (current_line w ++ [ch]) w)) = Ok (set_position c r (set_line (current_line w ++ [ch]) w)) ∧
       0 ≤ c ≤ 2 ^ 32 ∧ 0 ≤ r ≤ row w + 1 ∧ (glyph_cells w = [] → r ≤ 2 ^ 32 + 1)) as (c & r & -> & Hc' & Hr' & Hst).
    { destruct (Z.ltb_spec (width (fb w)) ((column w + 1) * get_raster_width (font_size w))).
      - exists 0, (row w + 1). cbn [row set_line]. rewrite add_u64_ok by (unfold is_u64; lia). split; [done|].
        split; [lia|]. split; [lia|]. intros Hg. rewrite Hg in Hs. lia.
      - exists (column w), (row w). split; [by destruct w|]. split; [nia|]. split; [lia|]. intros Hg. rewrite Hg in Hs. lia. }
    cbn [mbind outcome_bind column row fb font_size set_position set_line].
    destruct (draw_text_total _ _ Hfont (fb w) [ch] c r WHITE (font_size w) m Hok ltac:(lia) ltac:(lia)) as (m' & ->).
    cbn [mbind outcome_bind]. rewrite add_u64_ok by (unfold is_u64; cbn; lia). cbn [mbind outcome_bind].
    eexists _, m'. split; [reflexivity|]. split; [|split; [|split; [done|split; [|done]]]].
    + split; cbn -[command_history chars_count]; try done; try lia.
      * destruct (glyph_cells w) as [|cell cells] eqn:Hg; cbn; [specialize (Hst eq_refl); lia|done].
      * rewrite chars_count_app. change (chars_count [ch]) with 1. lia.
    + split; cbn -[chars_count]; [split| |lia].
      * apply Forall_app. split; [done|by constructor].
      * rewrite chars_count_app. change (chars_count [ch]) with 1. lia.
      * eapply Forall_impl; [exact W2|]. intros l. apply short_le. lia.
    + unfold open_line. cbn. by rewrite (proj2 (Z.eqb_neq _ _) Hch).
Qed.

Lemma write_str_sane s w m n : sane w → within n w → 0 ≤ n → n + Z.of_nat (length s) < 2 ^ 41 →
  ∃ w' m', write_str get_raster get_raster_width s w m = Ok (w', m') ∧
    sane w' ∧ within (n + Z.of_nat (length s)) w' ∧ undisturbed w w' ∧ current_line w' = open_line (current_line w) s ∧
    (Forall (λ ch, ch ≠ 10) s → history w' = history w).
Proof.
  unfold write_str. revert w m n. induction s as [|ch s IH]; intros w m n Hs Hw Hn Hl; cbn [foldM length] in *.
  { exists w, m. rewrite Z.add_0_r. by split_and!. }
  rewrite Nat2Z.inj_succ in *.
  destruct (write_char_sane w m ch n Hs Hw ltac:(lia)) as (w1 & m1 & -> & Hs1 & Hw1 & Hu1 & Hl1 & Hf1 & Hz1 & Hh1).
  cbn [mbind outcome_bind]. destruct (IH w1 m1 (n + 1) Hs1 Hw1 ltac:(lia) ltac:(lia)) as (w' & m' & Hr & Hs' & Hw' & Hu' & Hl' & Hh').
  rewrite Hf1, Hz1 in Hr. exists w', m'. split_and!; [exact Hr|exact Hs'| | | |].
  - by replace (n + Z.succ (Z.of_nat (length s))) with (n + 1 + Z.of_nat (length s)) by lia.
  - unfold undisturbed in *. intuition congruence.
  - rewrite Hl', Hl1. done.
  - intros [Hch Hrest]%Forall_cons. by rewrite Hh', Hh1.
Qed.

(** ** Redrawing, on a screen of any width *)

Lemma cell_position_total k fw W : 1 ≤ fw ≤ 32 → 1 ≤ W < 2 ^ 32 → 0 ≤ k < 2 ^ 42 →
  ∃ c r, cell_position k fw W = Ok (c, r) ∧ 0 ≤ c < 2 ^ 32 ∧ 0 ≤ r ≤ 32 * k ∧ (k = 0 → r = 0).
Proof.
  intros Hf HW Hk. unfold cell_position. rewrite mul_u64_ok by (unfold is_u64; nia). cbn [mbind outcome_bind].
  rewrite rem_u64_ok by lia. cbn [mbind outcome_bind]. rewrite !div_u64_ok by lia. cbn [mbind outcome_bind].
  eexists _, _. split; [reflexivity|]. pose proof (Z.mod_pos_bound (k * fw) W ltac:(lia)).
  split; [split; [apply Z.div_pos; lia|apply Z.div_lt_upper_bound; nia]|].
  split; [split; [apply Z.div_pos; nia|apply Z.div_le_upper_bound; nia]|]. intros ->. by apply Z.div_0_l; lia.
Qed.

Lemma redraw_loop_total start fw rest : ∀ w m k, fb_ok (fb w) → width (fb w) < 2 ^ 32 → 1 ≤ fw ≤ 32 →
  0 ≤ start ≤ 2 ^ 33 → 0 ≤ k → k + chars_count rest < 2 ^ 42 →
  ∃ cells m', foldM (redraw_char get_raster get_raster_width start fw) (w, m) (zip (seqZ k (chars_count rest)) rest) =
      Ok (set_cells (glyph_cells w ++ cells) w, m') ∧
    length cells = length rest ∧
    Forall (λ c, 0 ≤ cell_column c < 2 ^ 32 ∧ 0 ≤ cell_row c ≤ start + 32 * (k + chars_count rest)) cells ∧
    (k = 0 → ∀ c, head cells = Some c → cell_row c = start).
Proof.
  induction rest as [|ch rest IH]; intros w m k Hok HW Hf Hs Hk Hl.
  { exists [], m. rewrite app_nil_r. split_and!; [by destruct w|done|constructor|done]. }
  unfold chars_count in *. cbn [length] in *. rewrite Nat2Z.inj_succ in *.
  rewrite seqZ_cons, Z.pred_succ by lia. cbn [zip zip_with foldM redraw_char].
  destruct (cell_position_total k fw (width (fb w)) Hf) as (c & r & -> & Hc & Hr & H0); [pose proof (fb_width _ Hok); lia|lia|].
  cbn [mbind outcome_bind]. rewrite add_u64_ok by (unfold is_u64; lia). cbn [mbind outcome_bind].
  destruct (draw_text_total _ _ Hfont (fb w) [ch] c (start + r) WHITE (font_size w) m Hok ltac:(lia) ltac:(lia)) as (m1 & ->).
  cbn [mbind outcome_bind].
  destruct (IH (set_cells (glyph_cells w ++ [mkCell c (start + r)]) w) m1 (Z.succ k) Hok HW Hf Hs ltac:(lia) ltac:(lia))
    as (cells & m' & Hrun & Hlen & Hall & _).
  exists (mkCell c (start + r) :: cells), m'. split; [rewrite Hrun; cbn; by rewrite <- app_assoc|]. split; [cbn; lia|]. split.
  - constructor; cbn; [lia|]. eapply Forall_impl; [exact Hall|]. cbn beta. lia.
  - intros -> c' [= <-]. cbn. rewrite H0 by done. lia.
Qed.

Lemma set_input_cursor_total w B : 1 ≤ get_raster_width (font_size w) ≤ 32 → 0 ≤ B < 2 ^ 50 → 0 ≤ input_cursor w < 2 ^ 42 → glyph_cells w ≠ [] →
  Forall (λ c, 0 ≤ cell_column c < 2 ^ 32 ∧ 0 ≤ cell_row c ≤ B) (glyph_cells w) →
  ∃ c r, set_input_cursor get_raster_width w = Ok (set_position c r w) ∧ 0 ≤ c ≤ 2 ^ 33 ∧ 0 ≤ r ≤ B + 1.
Proof.
  intros Hf HB Hi Hne Hall. unfold set_input_cursor. change (chars_count PROMPT) with 2.
  rewrite (add_u64_ok 2) by (unfold is_u64; lia). cbn [mbind outcome_bind].
  destruct (glyph_cells w !! Z.to_nat (2 + input_cursor w)) as [cell|] eqn:Hc.
  { pose proof (Forall_lookup_1 _ _ _ _ Hall Hc) as H. cbn beta in H. eexists _, _. split; [reflexivity|]. lia. }
  destruct (snoc_cases (glyph_cells w)) as [|(l & cell & Hl)]; [done|]. rewrite Hl, last_snoc.
  rewrite Hl, Forall_app, Forall_singleton in Hall. destruct Hall as [_ Hcell].
  rewrite (add_u64_ok (cell_column cell)) by (unfold is_u64; lia). cbn [mbind outcome_bind column set_position].
  rewrite (add_u64_ok (cell_column cell + 1)) by (unfold is_u64; lia). cbn [mbind outcome_bind font_size set_position]. unfold font_w.
  rewrite mul_u64_ok by (unfold is_u64; nia). cbn [mbind outcome_bind row set_position fb].
  destruct (_ <? _).
  - rewrite add_u64_ok by (unfold is_u64; lia). cbn [mbind outcome_bind]. eexists _, _. split; [reflexivity|]. lia.
  - eexists _, _. split; [reflexivity|]. lia.
Qed.

Lemma draw_rec_total fb px py w h color m : fb_ok fb → 0 ≤ px → 0 ≤ py → 0 ≤ w → 0 ≤ h →
  ∃ m', draw_rec fb (mkCoord px py) (mkSize w h) color m = Ok m'.
Proof.
  intros Hok Hx Hy Hw Hh. destruct (decide (px + w ≤ width fb ∧ py + h ≤ height fb)) as [[H1 H2]|Hn].
  - destruct (draw_rec_painted fb px py w h color m Hok Hx Hy Hw Hh H1 H2) as (m' & Hd & _). by exists m'.
  - exists m. apply draw_rec_outside. cbn. lia.
Qed.

Lemma start_row_bound w : sane w → 0 ≤ start_row w ≤ 2 ^ 32 + 1.
Proof. intros []. unfold start_row. destruct (glyph_cells w); lia. Qed.

Lemma redraw_sane text cursor w m n : sane w → within n w → short (n - 2) text → n < 2 ^ 40 → 0 ≤ cursor < 2 ^ 41 →
  ∃ w' m', redraw_input_line get_raster get_raster_width text cursor w m = Ok (w', m') ∧
    sane w' ∧ within n w' ∧ current_line w' = PROMPT ++ text ∧ input_cursor w' = cursor.
Proof.
  intros Hsane [W1 W2 W3] [Hplain Ht] Hn Hc. pose proof (start_row_bound w Hsane) as Hst. destruct Hsane as [Hok HW HH Hcol _ Hrow Hi Hdev].
  pose proof (font_width _ _ Hfont (font_size w)) as Hf. pose proof (cell_height_bound (font_size w)) as Hh.
  pose proof (fb_width _ Hok) as Hw0. pose proof (chars_count_pos text) as Htp.
  unfold redraw_input_line. fold (start_row w). set (start := start_row w) in *.
  change (font_h (font_size w)) with (cell_height (font_size w)). unfold font_w. change (chars_count PROMPT) with 2.
  rewrite (add_u64_ok 2) by (unfold is_u64; lia). cbn [mbind outcome_bind].
  rewrite (mul_u64_ok (2 + chars_count text)) by (unfold is_u64; nia). cbn [mbind outcome_bind].
  set (total := (2 + chars_count text) * get_raster_width (font_size w)). assert (0 ≤ total < 2 ^ 47) as Htot by (unfold total; nia).
  set (slack := saturating_sub (width (fb w)) 1). assert (0 ≤ slack < 2 ^ 32) as Hsl by (unfold slack, saturating_sub; lia).
  rewrite add_u64_ok by (unfold is_u64; lia). cbn [mbind outcome_bind]. rewrite div_u64_ok by lia. cbn [mbind outcome_bind].
  set (rows := Z.max ((total + slack) / width (fb w)) 1).
  assert (1 ≤ rows ≤ 2 ^ 48) as Hrows.
  { unfold rows. pose proof (div_le_self (total + slack) (width (fb w)) ltac:(lia) ltac:(lia)). lia. }
  rewrite (mul_u64_ok start) by (unfold is_u64; nia). cbn [mbind outcome_bind].
  rewrite (mul_u64_ok (cell_height (font_size w))) by (unfold is_u64; nia). cbn [mbind outcome_bind].
  unfold PixelSize_new. rewrite !(proj2 (Z.eqb_neq _ _)) by nia. cbn [negb andb mbind outcome_bind].
  destruct (draw_rec_total (fb w) 0 (start * cell_height (font_size w)) (width (fb w)) (cell_height (font_size w) * rows) BLACK m Hok)
    as (m1 & ->); [lia|nia|lia|nia|]. cbn [mbind outcome_bind].
  set (w1 := set_cells [] (set_cursor cursor (set_line (PROMPT ++ text) w))). change (current_line w1) with (PROMPT ++ text). unfold enumerate.
  destruct (redraw_loop_total start (get_raster_width (font_size w)) (PROMPT ++ text) w1 m1 0 Hok HW Hf) as (cells & m2 & Hr & Hlen & Hall & Hhead);
    [lia|lia|rewrite chars_count_app; change (chars_count PROMPT) with 2; lia|].
  unfold chars_count in Hr at 1. rewrite Hr. cbn [mbind outcome_bind glyph_cells w1 set_cells app].
  destruct cells as [|cell cells]; [by rewrite length_app in Hlen|].
  match goal with |- context [set_input_cursor _ ?w2] =>
    destruct (set_input_cursor_total w2 (start + 32 * (0 + chars_count (PROMPT ++ text)))) as (c & r & -> & Hcb & Hrb) end;
    [done|rewrite chars_count_app; change (chars_count PROMPT) with 2; lia|cbn; lia|done|exact Hall|].
  cbn [mbind outcome_bind]. eexists _, m2. split; [reflexivity|]. rewrite chars_count_app in Hrb. change (chars_count PROMPT) with 2 in Hrb.
  split; [split|split; [split|done]]; cbn -[command_history chars_count PROMPT]; try done; try lia.
  - rewrite (Hhead eq_refl cell eq_refl). lia.
  - rewrite chars_count_app. change (chars_count PROMPT) with 2. lia.
  - split; [apply Forall_app; split; [apply prompt_plain|done]|]. rewrite chars_count_app. change (chars_count PROMPT) with 2. lia.
Qed.

(** ** The operations of the console *)

(** A console with a sane writer. *)
Definition good (n : Z) (c : Console) (w : KWriter) : Prop := KWRITER c = Some w ∧ sane w ∧ within n w.

Lemma kprint_good s n c w : good n c w → 0 ≤ n → n + Z.of_nat (length s) < 2 ^ 41 →
  ∃ c' w', kprint get_raster get_raster_width s c = Ok c' ∧ good (n + Z.of_nat (length s)) c' w' ∧ undisturbed w w' ∧
    current_line w' = open_line (current_line w) s ∧ (Forall (λ ch, ch ≠ 10) s → history w' = history w).
Proof.
  intros (Hw & Hs & Hn) H0 Hl. destruct (write_str_sane s w (screen c) n Hs Hn H0 Hl) as (w' & m' & Hr & Hs' & Hn' & Hu & Hline & Hh).
  unfold kprint, with_writer. rewrite Hw, Hr. cbn. eexists _, w'. by split_and!.
Qed.

Lemma open_line_plain line s : Forall (λ ch, ch ≠ 10) s → open_line line s = line ++ s.
Proof.
  unfold open_line. revert line. induction s as [|ch s IH]; intros line Hs; cbn [fold_left]; [by rewrite app_nil_r|].
  apply Forall_cons in Hs as [Hch Hs]. rewrite (proj2 (Z.eqb_neq _ _) Hch), IH by done. by rewrite <- app_assoc.
Qed.

Lemma kprintln_good s n c w : good n c w → 0 ≤ n → n + Z.of_nat (length s) + 1 < 2 ^ 41 →
  ∃ c' w', kprintln get_raster get_raster_width s c = Ok c' ∧ good (n + Z.of_nat (length s) + 1) c' w' ∧ undisturbed w w' ∧ current_line w' = [].
Proof.
  intros Hg H0 Hl. unfold kprintln.
  destruct (kprint_good s n c w Hg H0 ltac:(lia)) as (c1 & w1 & -> & Hg1 & Hu1 & _). cbn [mbind outcome_bind].
  destruct (kprint_good [10] _ c1 w1 Hg1 ltac:(lia) ltac:(cbn; lia)) as (c' & w' & -> & Hg' & Hu' & Hl' & _).
  exists c', w'. split_and!; [done|exact Hg'| |exact Hl']. unfold undisturbed in *. intuition congruence.
Qed.

Lemma fill_cursor_total color w m : sane w → chars_count (current_line w) < 2 ^ 41 →
  ∃ m', fill_cursor get_raster_width color w m = Ok (w, m').
Proof.
  intros [] Hl. pose proof (font_width _ _ Hfont (font_size w)) as Hf. pose proof (cell_height_bound (font_size w)) as Hh.
  unfold fill_cursor, kx, ky, font_w. change (font_h (font_size w)) with (cell_height (font_size w)).
  rewrite (mul_u64_ok (column w)) by (unfold is_u64; nia). cbn [mbind outcome_bind].
  rewrite (mul_u64_ok (row w)) by (unfold is_u64; nia). cbn [mbind outcome_bind].
  rewrite sub_u64_ok by lia. cbn [mbind outcome_bind]. unfold PixelSize_new.
  rewrite !(proj2 (Z.eqb_neq _ _)) by lia. cbn [negb andb mbind outcome_bind].
  destruct (draw_rec_total (fb w) (column w * get_raster_width (font_size w)) (row w * cell_height (font_size w))
    (get_raster_width (font_size w)) (cell_height (font_size w) - 4) color m sane_fb0) as (m' & ->); [nia|nia|lia|lia|].
  by exists m'.
Qed.

Lemma erase_cursor_good n c w : good n c w → n < 2 ^ 41 → ∃ c', erase_cursor get_raster_width c = Ok c' ∧ good n c' w.
Proof.
  intros (Hw & Hs & Hn) Hb. pose proof (within_line _ _ Hn) as [_ Hl].
  destruct (fill_cursor_total BLACK w (screen c) Hs ltac:(lia)) as (m' & Hr).
  unfold erase_cursor, with_writer. rewrite Hw, Hr. cbn. eexists. split; [reflexivity|]. by split.
Qed.

Lemma draw_cursor_good n c w : good n c w → n < 2 ^ 41 →
  ∃ c' w', draw_cursor get_raster_width c = Ok c' ∧ good n c' w' ∧ undisturbed w w' ∧ current_line w' = current_line w.
Proof.
  intros (Hw & Hs & Hn) Hb. pose proof (within_line _ _ Hn) as [_ Hl]. pose proof (chars_count_pos (current_line w)).
  pose proof Hs as []. pose proof (font_width _ _ Hfont (font_size w)) as Hf.
  unfold draw_cursor, with_writer. rewrite Hw. unfold kx, font_w.
  rewrite (mul_u64_ok (column w)) by (unfold is_u64; nia). cbn [mbind outcome_bind].
  rewrite (add_u64_ok (column w * _)) by (unfold is_u64; nia). cbn [mbind outcome_bind].
  assert (∃ w1 m1, (if width (fb w) <? column w * get_raster_width (font_size w) + get_raster_width (font_size w) then
      row ← add_u64 (row w) 1; check_scroll (font_h (font_size w)) (set_position 0 row w) (screen c)
    else Ok (w, screen c)) = Ok (w1, m1) ∧ sane w1 ∧ within n w1 ∧ undisturbed w w1 ∧ current_line w1 = current_line w)
    as (w1 & m1 & -> & Hs1 & Hn1 & Hu1 & Hl1).
  { destruct (_ <? _); [|by exists w, (screen c)]. rewrite add_u64_ok by (unfold is_u64; lia). cbn [mbind outcome_bind].
    destruct (check_scroll_sane (set_position 0 (row w + 1) w) (screen c) sane_fb0 sane_height0) as (r & m1 & Hr & Hr32 & Hrr); [cbn; lia|].
    change (font_h (font_size w)) with (font_h (font_size (set_position 0 (row w + 1) w))). rewrite Hr.
    eexists _, m1. split; [reflexivity|]. split; [|split; [by destruct Hn|done]].
    split; cbn -[command_history chars_count]; try done; try lia. destruct (glyph_cells w); lia. }
  cbn [mbind outcome_bind]. destruct (fill_cursor_total WHITE w1 m1 Hs1) as (m2 & ->); [rewrite Hl1; lia|].
  cbn. eexists _, w1. split; [reflexivity|]. by split_and!.
Qed.

Lemma reset_good n c w : good n c w → ∃ c' w', reset c = Ok c' ∧ good n c' w' ∧ current_line w' = [] ∧ input_cursor w' = 0.
Proof.
  intros (Hw & Hs & Hn). pose proof Hs as []. destruct (clear_background_painted (fb w) BLACK (screen c) sane_fb0) as (m' & Hc & _).
  unfold reset, with_writer. rewrite Hw, Hc. cbn.
  eexists _, (set_index None (set_cursor 0 (set_line [] (set_cells [] (set_position 0 0 w))))).
  split; [reflexivity|]. split; [|done].
  split; [reflexivity|]. pose proof Hn as [[_ Hl] Hh Hcnt]. pose proof (chars_count_pos (current_line w)).
  split; split; cbn -[chars_count]; try done; try lia. split; [constructor|change (chars_count []) with 0; lia].
Qed.

Lemma set_font_size_good sz n c w : good n c w →
  ∃ c' w', set_font_size sz c = Ok c' ∧ good n c' w' ∧ undisturbed w w' ∧ current_line w' = current_line w.
Proof.
  intros (Hw & [] & []). unfold set_font_size, with_writer. rewrite Hw. cbn. eexists _, (Console.set_size sz w). split; [reflexivity|].
  split; [|done]. split; [reflexivity|]. by split; split.
Qed.

Lemma print_history_good n c w : good n c w →
  ∃ c' w', print_history get_raster get_raster_width c = Ok c' ∧ good n c' w' ∧ undisturbed w w' ∧ current_line w' = current_line w ∧ history w' = history w.
Proof.
  intros (Hw & Hs & Hn). pose proof Hs as []. pose proof (cell_height_bound (font_size w)) as Hh.
  destruct (print_history_row _ _ Hfont c w Hw sane_fb0 sane_height0) as (c' & Hp & Hw' & _).
  pose proof (fb_height _ sane_fb0) as Hfh. pose proof (div_le_self (height (fb w)) (cell_height (font_size w)) ltac:(lia) ltac:(lia)).
  eexists c', (set_position 0 _ w). split; [exact Hp|]. split; [|done]. split; [exact Hw'|]. pose proof (chars_count_pos (current_line w)).
  split; [|by destruct Hn]. split; cbn -[command_history chars_count Z.div]; try done; try lia. destruct (glyph_cells w); lia.
Qed.

(** A redraw of the writer with another cursor or index. *)
Lemma redraw_good text cursor n c w e : sane w → within n w → short (n - 2) text → n < 2 ^ 40 → 0 ≤ cursor < 2 ^ 41 →
  ∃ w' m', redraw_input_line get_raster get_raster_width text cursor w (screen c) = Ok (w', m') ∧
    good n (mkConsole (Some w') e m') w' ∧ current_line w' = PROMPT ++ text ∧ input_cursor w' = cursor.
Proof.
  intros Hs Hn Ht Hb Hc. destruct (redraw_sane text cursor w (screen c) n Hs Hn Ht Hb Hc) as (w' & m' & Hr & Hs' & Hn' & Hl & Hi).
  exists w', m'. by split_and!.
Qed.

(** ** Commands *)

Definition lines_length (lines : list str) : Z := foldr (λ l n, Z.of_nat (length l) + 1 + n) 0 lines.

(** How much a command prints. *)
Definition output_length (sys : Heap.World) (stats : Task.SchedulerStats) (calls : list Call) : Z :=
  foldr (λ call n, match call with
    | Println s => Z.of_nat (length s) + 1
    | PrintMeminfo => lines_length (meminfo sys)
    | PrintTaskinfo => lines_length (taskinfo stats)
    | _ => 0
    end + n) 0 calls.

Lemma lines_length_pos lines : 0 ≤ lines_length lines.
Proof. induction lines as [|l lines IH]; cbn; [lia|]. fold (lines_length lines). lia. Qed.

Lemma print_lines_good lines n c w : good n c w → current_line w = [] → 0 ≤ n → n + lines_length lines < 2 ^ 40 →
  ∃ c' w', print_lines get_raster get_raster_width lines c = Ok c' ∧ good (n + lines_length lines) c' w' ∧ current_line w' = [].
Proof.
  unfold print_lines. revert n c w. induction lines as [|l lines IH]; intros n c w Hg Hl H0 Hb; cbn [foldM lines_length foldr] in *.
  { exists c, w. by rewrite Z.add_0_r. }
  fold (lines_length lines) in *. pose proof (lines_length_pos lines).
  destruct (kprintln_good l n c w Hg H0 ltac:(lia)) as (c1 & w1 & -> & Hg1 & _ & Hl1). cbn [mbind outcome_bind].
  destruct (IH _ c1 w1 Hg1 Hl1 ltac:(lia) ltac:(lia)) as (c' & w' & Hr & Hg' & Hl'). exists c', w'.
  split; [exact Hr|]. split; [|done].
  by replace (n + (Z.of_nat (length l) + 1 + lines_length lines)) with (n + Z.of_nat (length l) + 1 + lines_length lines) by lia.
Qed.

Lemma output_length_pos sys stats calls : 0 ≤ output_length sys stats calls.
Proof.
  pose proof (lines_length_pos (meminfo sys)). pose proof (lines_length_pos (taskinfo stats)).
  induction calls as [|call calls IH]; cbn [output_length foldr]; [lia|]. fold (output_length sys stats calls).
  destruct call; lia.
Qed.

Lemma good_le n n' c w : n ≤ n' → good n c w → good n' c w.
Proof. intros H (? & ? & ?). split_and!; [done|done|]. by apply (within_le n). Qed.

Lemma perform_good sys stats calls n c w : good n c w → current_line w = [] → 0 ≤ n → n + output_length sys stats calls < 2 ^ 40 →
  ∃ r, perform get_raster get_raster_width sys stats calls c = Ok r ∧
    match r with
    | Some c' => ∃ w', good (n + output_length sys stats calls) c' w' ∧ current_line w' = []
    | None => HaltForever ∈ calls
    end.
Proof.
  revert n c w. induction calls as [|call calls IH]; intros n c w Hg Hl H0 Hb.
  { exists (Some c). split; [done|]. exists w. cbn. by rewrite Z.add_0_r. }
  cbn [output_length foldr] in Hb |- *. fold (output_length sys stats calls) in *. pose proof (output_length_pos sys stats calls) as Hp.
  assert (Hcont : ∀ k c1 w1, 0 ≤ k → good (n + k) c1 w1 → current_line w1 = [] → n + (k + output_length sys stats calls) < 2 ^ 40 →
    ∃ r, perform get_raster get_raster_width sys stats calls c1 = Ok r ∧
      match r with
      | Some c' => ∃ w', good (n + (k + output_length sys stats calls)) c' w' ∧ current_line w' = []
      | None => HaltForever ∈ call :: calls
      end).
  { intros k c1 w1 Hk Hg1 Hl1 Hb1. destruct (IH (n + k) c1 w1 Hg1 Hl1 ltac:(lia) ltac:(lia)) as (r & Hr & Hres). exists r. split; [exact Hr|].
    destruct r as [c'|]; [|by right]. rewrite Z.add_assoc. exact Hres. }
  assert (Hsame : ∀ c1 w1, good n c1 w1 → good (n + 0) c1 w1) by (intros; by rewrite Z.add_0_r).
  destruct call; cbn [perform].
  - destruct (kprintln_good s n c w Hg H0 ltac:(lia)) as (c1 & w1 & -> & Hg1 & _ & Hl1). cbn [mbind outcome_bind].
    apply (Hcont _ c1 w1); [lia|by rewrite Z.add_assoc|done|lia].
  - destruct (print_history_good n c w Hg) as (c1 & w1 & -> & Hg1 & _ & Hl1 & _). cbn [mbind outcome_bind].
    apply (Hcont 0 c1 w1); [lia|by apply Hsame|by rewrite Hl1|lia].
  - destruct (set_font_size_good size n c w Hg) as (c1 & w1 & -> & Hg1 & _ & Hl1). cbn [mbind outcome_bind].
    apply (Hcont 0 c1 w1); [lia|by apply Hsame|by rewrite Hl1|lia].
  - destruct (reset_good n c w Hg) as (c1 & w1 & -> & Hg1 & Hl1 & _). cbn [mbind outcome_bind].
    apply (Hcont 0 c1 w1); [lia|by apply Hsame|done|lia].
  - destruct (print_lines_good (meminfo sys) n c w Hg Hl H0 ltac:(lia)) as (c1 & w1 & -> & Hg1 & Hl1). cbn [mbind outcome_bind].
    apply (Hcont _ c1 w1); [apply lines_length_pos|done|done|lia].
  - destruct (print_lines_good (taskinfo stats) n c w Hg Hl H0 ltac:(lia)) as (c1 & w1 & -> & Hg1 & Hl1). cbn [mbind outcome_bind].
    apply (Hcont _ c1 w1); [apply lines_length_pos|done|done|lia].
  - apply (Hcont 0 c w); [lia|by apply Hsame|done|lia].
  - exists None. split; [done|]. by left.
Qed.

(** ** Keys *)

(** The console works, the shell's line is short and the cursor is some number:
    what holds whatever was printed around the line. *)
Definition kept (n : Z) (line : str) (c : Console) (w : KWriter) : Prop :=
  good n c w ∧ short (n - 2) line ∧ 0 ≤ input_cursor w ≤ n.

(** The console's record of the input line is the shell's line behind the prompt,
    with the cursor in it. *)
Definition synced (line : str) (w : KWriter) : Prop :=
  current_line w = PROMPT ++ line ∧ input_cursor w ≤ chars_count line.

Lemma kept_le n n' line c w : n ≤ n' → kept n line c w → kept n' line c w.
Proof. intros Hn (Hg & Hs & Hi). split; [by apply (good_le n)|]. split; [by apply (short_le (n - 2)); [lia|]|lia]. Qed.

Lemma kept_bound n line c w : kept n line c w → 2 ≤ n.
Proof. intros (_ & [_ Hl] & _). pose proof (chars_count_pos line). lia. Qed.

(** What an operation on the line makes of the console and the line. *)
Definition carries (n' : Z) (line : str) (w : KWriter) (line' : str) (c' : Console) : Prop :=
  ∃ w', kept n' line' c' w' ∧ (synced line w → synced line' w').

Lemma carries_le n n' line w line' c' : n ≤ n' → carries n line w line' c' → carries n' line w line' c'.
Proof. intros Hn (w' & Hk & Hs). exists w'. split; [by apply (kept_le n)|done]. Qed.

Lemma carries_same n line c w : kept n line c w → carries n line w line c.
Proof. intros Hk. by exists w. Qed.

(** A fresh prompt. *)
Lemma prompt_good n c w : good n c w → current_line w = [] → 0 ≤ n < 2 ^ 40 →
  ∃ c1 w1, kprint get_raster get_raster_width PROMPT c = Ok c1 ∧ good (n + 2) c1 w1 ∧ current_line w1 = PROMPT ∧ input_cursor w1 = input_cursor w.
Proof.
  intros Hg Hl Hn. destruct (kprint_good PROMPT n c w Hg ltac:(lia)) as (c1 & w1 & Hr & Hg1 & [Hu _] & Hl1 & _); [cbn; lia|].
  exists c1, w1. split; [exact Hr|]. split; [exact Hg1|]. split; [|done]. rewrite Hl1, Hl. by rewrite open_line_plain by apply prompt_plain.
Qed.

Lemma reset_input_cursor_good n c w : good n c w →
  ∃ c', reset_input_cursor c = Ok c' ∧ good n c' (set_cursor 0 w).
Proof.
  intros (Hw & [] & []). unfold reset_input_cursor, with_writer. rewrite Hw. cbn. eexists. split; [reflexivity|].
  split; [reflexivity|]. by split; split.
Qed.

Lemma start_line n c w : good n c w → current_line w = [] → 0 ≤ n < 2 ^ 40 →
  ∃ c' w', (c ← kprint get_raster get_raster_width PROMPT c; reset_input_cursor c) = Ok c' ∧ kept (n + 2) [] c' w' ∧ synced [] w'.
Proof.
  intros Hg Hl Hn. destruct (prompt_good n c w Hg Hl Hn) as (c1 & w1 & -> & Hg1 & Hl1 & _). cbn [mbind outcome_bind].
  destruct (reset_input_cursor_good _ c1 w1 Hg1) as (c' & Hr & Hg'). exists c', (set_cursor 0 w1). split; [exact Hr|].
  split; [|split; [cbn; by rewrite Hl1|done]]. split; [done|]. split; [split; [constructor|change (chars_count []) with 0; lia]|cbn; lia].
Qed.

(** A redraw of a line puts it in step. *)
Lemma redraw_kept text cursor n c w : sane w → within n w → short (n - 2) text → n < 2 ^ 40 → 0 ≤ cursor ≤ n →
  ∃ w' m', redraw_input_line get_raster get_raster_width text cursor w (screen c) = Ok (w', m') ∧
    kept n text (mkConsole (Some w') (EMERGENCY_FRAMEBUFFER c) m') w' ∧ current_line w' = PROMPT ++ text ∧ input_cursor w' = cursor.
Proof.
  intros Hs Hn Ht Hb Hc. destruct (redraw_good text cursor n c w (EMERGENCY_FRAMEBUFFER c) Hs Hn Ht Hb ltac:(lia)) as (w' & m' & Hr & Hg & Hl & Hi).
  exists w', m'. split; [exact Hr|]. split; [|done]. split; [exact Hg|]. split; [done|]. by rewrite Hi.
Qed.

Lemma sane_cursor k w : sane w → sane (set_cursor k w).
Proof. intros []. by split. Qed.

Lemma within_cursor n k w : within n w → within n (set_cursor k w).
Proof. intros []. by split. Qed.

Lemma sane_index_set i w : sane w → match i with None => True | Some i => 0 ≤ i < Z.of_nat (length (command_history (history w))) end →
  sane (set_index i w).
Proof. intros [] ?. by split. Qed.

Lemma within_index n i w : within n w → within n (set_index i w).
Proof. intros []. by split. Qed.

Lemma insert_kept ch n line c w : kept n line c w → ch ≠ 10 → n < 2 ^ 39 →
  ∃ line' c', insert_char get_raster get_raster_width line ch c = Ok (line', c') ∧ carries (n + 1) line w line' c'.
Proof.
  intros Hk Hch Hn. pose proof Hk as ((Hw & Hs & Hwi) & [Hp Hl] & Hi). pose proof (chars_count_pos line). unfold insert_char, with_line.
  destruct (MAX_INPUT_CHARS <=? chars_count line).
  { exists line, c. split; [done|]. apply (carries_le n); [lia|]. by apply carries_same. }
  rewrite Hw. cbn [input_cursor set_cursor]. set (j := Z.min (input_cursor w) (chars_count line)). assert (0 ≤ j ≤ chars_count line) as Hj by lia. clearbody j.
  rewrite add_u64_ok by (unfold is_u64; lia). cbn [mbind outcome_bind input_cursor set_cursor].
  assert (short (n - 1) (insert_char_at line j ch) ∧ chars_count (insert_char_at line j ch) = chars_count line + 1) as [Hshort Hcount].
  { unfold insert_char_at. set (k := match _ with Some _ => _ | None => _ end).
    assert (chars_count (take k line ++ [ch] ++ drop k line) = chars_count line + 1) as E.
    { rewrite !chars_count_app. change (chars_count [ch]) with 1. rewrite <- (take_drop k line) at 3. rewrite chars_count_app. lia. }
    split; [|exact E]. split; [|lia]. rewrite !Forall_app. split; [by apply Forall_take|]. split; [by constructor|by apply Forall_drop]. }
  destruct (redraw_kept (insert_char_at line j ch) (j + 1) (n + 1) c (set_cursor (j + 1) (set_cursor j w)))
    as (w' & m' & -> & Hk' & Hl' & Hi'); [by repeat apply sane_cursor|repeat apply within_cursor; by apply (within_le n); [lia|]|by replace (n + 1 - 2) with (n - 1) by lia|lia|lia|].
  cbn. eexists _, _. split; [reflexivity|]. exists w'. split; [exact Hk'|]. intros _. split; [done|]. rewrite Hi'. lia.
Qed.

Lemma inserts_kept l : ∀ n line c w, kept n line c w → Forall (λ ch, ch ≠ 10) l → n + Z.of_nat (length l) < 2 ^ 39 →
  ∃ line' c', foldM (λ '(line, c) ch, insert_char get_raster get_raster_width line ch c) (line, c) l = Ok (line', c') ∧
    carries (n + Z.of_nat (length l)) line w line' c'.
Proof.
  induction l as [|ch l IH]; intros n line c w Hk Hl Hn; cbn [foldM length] in *.
  { exists line, c. rewrite Z.add_0_r. split; [done|by apply carries_same]. }
  apply Forall_cons in Hl as [Hch Hl]. rewrite Nat2Z.inj_succ in *.
  destruct (insert_kept ch n line c w Hk Hch ltac:(lia)) as (line1 & c1 & -> & w1 & Hk1 & Hs1). cbn [mbind outcome_bind].
  destruct (IH (n + 1) line1 c1 w1 Hk1 Hl ltac:(lia)) as (line' & c' & Hr & w' & Hk' & Hs'). exists line', c'. split; [exact Hr|].
  exists w'. split; [|by auto]. by replace (n + Z.succ (Z.of_nat (length l))) with (n + 1 + Z.of_nat (length l)) by lia.
Qed.

(** Removing the character in front of a cursor shortens the line by one. *)
Lemma remove_char_short n line j : short n line → 0 < j ≤ chars_count line →
  short n (remove_char_at line j) ∧ chars_count (remove_char_at line j) = chars_count line - 1.
Proof.
  intros [Hp Hl] Hj. assert (∃ k, (k < length line)%nat ∧ Z.of_nat k = j - 1) as (k & Hk & Ek).
  { exists (Z.to_nat (j - 1)). unfold chars_count in Hj. lia. }
  assert (remove_char_at line j = take k line ++ drop (S k) line) as ->.
  { destruct (lookup_lt_is_Some_2 line k Hk) as [b Hb]. rewrite <- (take_drop_middle line k b Hb) at 1.
    change (take k line ++ b :: drop (S k) line) with (take k line ++ [b] ++ drop (S k) line). rewrite app_assoc.
    replace j with (chars_count (take k line ++ [b])).
    - apply remove_char_at_spec.
    - rewrite chars_count_app. change (chars_count [b]) with 1. unfold chars_count. rewrite length_take. lia. }
  assert (chars_count (take k line ++ drop (S k) line) = chars_count line - 1) as Hcount.
  { rewrite chars_count_app. unfold chars_count. rewrite length_take, length_drop. lia. }
  split; [|done]. split; [|lia]. apply Forall_app. split; [by apply Forall_take|by apply Forall_drop].
Qed.

Lemma backspace_kept n line c w : kept n line c w → n < 2 ^ 39 →
  ∃ line' c', backspace get_raster get_raster_width line c = Ok (line', c') ∧ carries n line w line' c'.
Proof.
  intros Hk Hn. pose proof Hk as ((Hw & Hs & Hwi) & Hsh & Hi). pose proof (chars_count_pos line). unfold backspace, with_line. rewrite Hw.
  cbn [input_cursor set_cursor]. set (j := Z.min (input_cursor w) (chars_count line)).
  assert (0 ≤ j ≤ chars_count line ∧ j ≤ n) as [Hj Hjn] by lia. clearbody j.
  destruct (Z.eqb_spec j 0) as [H0|H0].
  { eexists _, _. split; [reflexivity|]. exists (set_cursor j w). split; [|intros [Hc _]; by split; [|cbn; lia]].
    split; [split; [done|split; [by apply sane_cursor|by apply within_cursor]]|]. split; [done|cbn; lia]. }
  rewrite sub_u64_ok by lia. cbn [mbind outcome_bind input_cursor set_cursor].
  destruct (remove_char_short (n - 2) line j Hsh ltac:(lia)) as [Hshort Hcount].
  destruct (redraw_kept (remove_char_at line j) (j - 1) n c (set_cursor (j - 1) (set_cursor j w)))
    as (w' & m' & -> & Hk' & Hl' & Hi'); [by repeat apply sane_cursor|by repeat apply within_cursor|done|lia|lia|].
  cbn. eexists _, _. split; [reflexivity|]. exists w'. split; [exact Hk'|]. intros _. split; [done|]. rewrite Hi'. lia.
Qed.

Lemma arrow_kept k n line c w : kept n line c w → n < 2 ^ 39 → 0 ≤ k ≤ n → (synced line w → k ≤ chars_count line) →
  ∃ w' m', redraw_current_input get_raster get_raster_width (set_cursor k w) (screen c) = Ok (w', m') ∧
    carries n line w line (mkConsole (Some w') (EMERGENCY_FRAMEBUFFER c) m').
Proof.
  intros Hk Hn Hkn Hsy. pose proof (kept_bound _ _ _ _ Hk) as Hn2. pose proof Hk as ((Hw & Hs & Hwi) & Hsh & Hi).
  unfold redraw_current_input. cbn [current_line set_cursor input_cursor]. set (text := match strip_prefix _ _ with Some _ => _ | None => _ end).
  assert (short (n - 2) text) as Ht.
  { unfold text. destruct (strip_prefix PROMPT (current_line w)) as [l|] eqn:Hl; [|split; [constructor|change (chars_count []) with 0; lia]].
    apply strip_prefix_Some in Hl. pose proof (within_line _ _ Hwi) as [Hp Hc]. rewrite Hl in Hp, Hc. rewrite chars_count_app in Hc.
    change (chars_count PROMPT) with 2 in Hc. apply Forall_app in Hp as [_ Hp]. split; [done|lia]. }
  destruct (redraw_kept text k n c (set_cursor k w)) as (w' & m' & -> & Hk' & Hl' & Hi'); [by apply sane_cursor|by apply within_cursor|done|lia|lia|].
  exists w', m'. split; [done|]. exists w'. split; [split; [apply Hk'|split; [done|by rewrite Hi']]|]. intros Hl. split; [|rewrite Hi'; by apply Hsy].
  rewrite Hl'. unfold text. by rewrite (proj2 (strip_prefix_Some PROMPT (current_line w) line) (proj1 Hl)).
Qed.

Lemma recall_kept i text n line c w : kept n line c w → n < 2 ^ 39 → short n text →
  match i with None => True | Some i => 0 ≤ i < Z.of_nat (length (command_history (history w))) end →
  ∃ w' m', redraw_input_line get_raster get_raster_width text (chars_count text) (set_index i w) (screen c) = Ok (w', m') ∧
    carries (n + 2) line w text (mkConsole (Some w') (EMERGENCY_FRAMEBUFFER c) m').
Proof.
  intros ((Hw & Hs & Hwi) & _ & _) Hn Ht Hidx. pose proof (chars_count_pos text). pose proof Ht as [_ Hl].
  destruct (redraw_kept text (chars_count text) (n + 2) c (set_index i w)) as (w' & m' & -> & Hk' & Hl' & Hi');
    [by apply sane_index_set|apply within_index; by apply (within_le n); [lia|]|by replace (n + 2 - 2) with n by lia|lia|lia|].
  exists w', m'. split; [done|]. exists w'. split; [done|]. intros _. split; [done|]. rewrite Hi'. lia.
Qed.

Lemma recalled_short n hist i : Forall (short n) hist → 0 ≤ i < Z.of_nat (length (command_history hist)) →
  ∃ command, command_history hist !! Z.to_nat i = Some command ∧ short n (trim_start_matches PROMPT command).
Proof.
  intros Hh Hi. destruct (lookup_lt_is_Some_2 (command_history hist) (Z.to_nat i)) as [command Hc]; [lia|].
  exists command. split; [done|]. assert (command ∈ hist) as Hin.
  { apply list_elem_of_lookup_2 in Hc. apply list_elem_of_In in Hc. apply filter_In in Hc as [Hc _]. by apply list_elem_of_In. }
  rewrite Forall_forall in Hh. destruct (Hh _ Hin) as [Hp Hl]. destruct (trim_suffix PROMPT command (length command)) as (q & Hq).
  unfold trim_start_matches. rewrite Hq in Hp, Hl. rewrite chars_count_app in Hl. pose proof (chars_count_pos q).
  apply Forall_app in Hp as [_ Hp]. split; [done|]. lia.
Qed.

Lemma arrow_up_kept n line c w : kept n line c w → n < 2 ^ 39 →
  ∃ line' c', arrow_up get_raster get_raster_width line c = Ok (line', c') ∧ carries (n + 2) line w line' c'.
Proof.
  intros Hst Hn. pose proof Hst as ((Hw & Hs & Hwi) & _ & _). unfold arrow_up, with_line. rewrite Hw.
  pose proof (sane_index _ Hs) as Hidx. set (cmds := command_history (history w)) in *.
  destruct cmds as [|y ys] eqn:Hcm.
  { exists line, c. split; [cbn; destruct c; cbn in *; by rewrite Hw|]. apply (carries_le n); [lia|]. by apply carries_same. }
  assert (∃ i, (match history_index w with
     | None => sub_u64 (Z.of_nat (length (y :: ys))) 1 | Some 0 => Ok (E:=Empty_set) 0 | Some i => sub_u64 i 1 end) = Ok i ∧
     0 ≤ i < Z.of_nat (length (y :: ys))) as (i & -> & Hib).
  { destruct (history_index w) as [i|].
    - destruct i as [|i|i]; [by exists 0| |lia]. exists (Z.pos i - 1). rewrite sub_u64_ok by lia. split; [done|lia].
    - exists (Z.of_nat (length (y :: ys)) - 1). rewrite sub_u64_ok by (cbn; lia). split; [done|cbn; lia]. }
  cbn [mbind outcome_bind]. rewrite <- Hcm in *. unfold cmds in *.
  destruct (recalled_short n (history w) i (within_lines _ _ Hwi) Hib) as (command & Hcom & Hsh).
  unfold array_get. rewrite Hcom. cbn [expect mbind outcome_bind].
  destruct (recall_kept (Some i) _ n line c w Hst Hn Hsh Hib) as (w' & m' & -> & Hst'). cbn. by eexists _, _.
Qed.

Lemma arrow_down_kept n line c w : kept n line c w → n < 2 ^ 39 →
  ∃ line' c', arrow_down get_raster get_raster_width line c = Ok (line', c') ∧ carries (n + 2) line w line' c'.
Proof.
  intros Hst Hn. pose proof (kept_bound _ _ _ _ Hst). pose proof Hst as ((Hw & Hs & Hwi) & _ & _). unfold arrow_down, with_line. rewrite Hw.
  pose proof (sane_index _ Hs) as Hidx.
  assert (∃ line' c', Ok (E:=Empty_set) (line, mkConsole (Some w) (EMERGENCY_FRAMEBUFFER c) (screen c)) = Ok (line', c') ∧ carries (n + 2) line w line' c') as Hskip.
  { exists line, c. split; [destruct c; cbn in *; by rewrite Hw|]. apply (carries_le n); [lia|]. by apply carries_same. }
  destruct (command_history (history w)) as [|y ys] eqn:Hcm; [exact Hskip|].
  destruct (history_index w) as [i|]; [|exact Hskip]. rewrite <- Hcm in *.
  pose proof (within_count _ _ Hwi) as Hcount.
  assert (length (command_history (history w)) ≤ length (history w))%nat as Hlen by apply filter_length_le.
  rewrite add_u64_ok by (unfold is_u64; lia). cbn [mbind outcome_bind].
  destruct (Z.ltb_spec (i + 1) (Z.of_nat (length (command_history (history w))))) as [Hlt|Hge].
  - destruct (recalled_short n (history w) (i + 1) (within_lines _ _ Hwi) ltac:(lia)) as (command & Hcom & Hsh).
    unfold array_get. rewrite Hcom. cbn [expect mbind outcome_bind].
    assert (0 ≤ i + 1 < Z.of_nat (length (command_history (history w)))) as Hnext by lia.
    destruct (recall_kept (Some (i + 1)) _ n line c w Hst Hn Hsh Hnext) as (w' & m' & -> & Hst'). cbn. by eexists _, _.
  - cbn [mbind outcome_bind]. assert (short n []) as Hnil by (split; [constructor|change (chars_count []) with 0; lia]).
    destruct (recall_kept None [] n line c w Hst Hn Hnil I) as (w' & m' & -> & Hst').
    cbn. by eexists _, _.
Qed.

Lemma zoom_kept step n line c w : kept n line c w → n < 2 ^ 39 →
  ∃ c', zoom get_raster get_raster_width step line c = Ok c' ∧ carries n line w line c'.
Proof.
  intros Hst Hn. pose proof (kept_bound _ _ _ _ Hst). destruct Hst as ((Hw & Hs & Hwi) & Hsh & Hi).
  unfold zoom. unfold with_writer at 1. rewrite Hw. cbn [fb Console.set_size].
  destruct (clear_background_painted (fb w) BLACK (screen c) (sane_fb _ Hs)) as (m1 & -> & _). cbn [mbind outcome_bind].
  set (w1 := set_line [] _). set (c1 := mkConsole _ _ _).
  pose proof Hs as []. pose proof Hwi as [[_ Hl] Hlines Hcount]. pose proof (cell_height_bound (font_size w1)) as Hh.
  destruct (print_history_row _ _ Hfont c1 w1 eq_refl sane_fb0 sane_height0) as (c2 & -> & Hw2 & _). cbn [mbind outcome_bind].
  set (r := Z.min _ _) in Hw2. set (w2 := set_position 0 r w1) in Hw2. pose proof (fb_height _ sane_fb0) as Hfh.
  pose proof (div_le_self (height (fb w)) (cell_height (font_size w1)) ltac:(lia) ltac:(lia)) as Hd.
  assert (0 ≤ r ≤ 2 ^ 32) as Hr by (change (fb w1) with (fb w) in r; unfold r; lia). clearbody r.
  assert (good n c2 w2) as Hg2.
  { split; [exact Hw2|]. split; split; cbn -[command_history chars_count]; try done; try lia.
    - destruct (glyph_cells w); lia.
    - change (chars_count []) with 0. lia.
    - split; [constructor|change (chars_count []) with 0; lia]. }
  assert (Forall (λ ch, ch ≠ 10) (PROMPT ++ line)) as Hplain by (apply Forall_app; split; [apply prompt_plain|apply Hsh]).
  destruct (kprint_good (PROMPT ++ line) n c2 w2 Hg2 ltac:(lia)) as (c' & w' & -> & Hg' & [Hu _] & Hl' & Hh').
  { destruct Hsh as [_ Hsh]. unfold chars_count in Hsh. cbn. lia. }
  exists c'. split; [done|]. exists w'. rewrite open_line_plain in Hl' by done. cbn [current_line set_line set_position w2 w1 app] in Hl'.
  split; [|intros [_ Hsy]; split; [exact Hl'|rewrite Hu; exact Hsy]]. destruct Hg' as (Hw' & Hs' & Hn').
  split; [|by rewrite Hu]. split; [done|]. split; [done|]. split; [|by rewrite Hh'|by rewrite Hh'].
  rewrite Hl'. split; [done|]. destruct Hsh as [_ Hsh]. rewrite chars_count_app. change (chars_count PROMPT) with 2. lia.
Qed.

(** What a key may add to the lengths of lines and of the history. *)
Definition key_cost (sys : Heap.World) (stats : Task.SchedulerStats) (TICKS : Z) (key : KeyboardEvent) (line : str) : Z :=
  16 + match key with
       | Char ch => if ch =? 10 then output_length sys stats (run_command TICKS line) else 0
       | _ => 0
       end.

(** Only [shutdown] halts the machine. *)
Lemma halts_only_shutdown TICKS line : HaltForever ∈ run_command TICKS line → command (parse line) = Shutdown.
Proof.
  unfold run_command. rewrite list_elem_of_In. destruct (command (parse line)); try done; cbn; try (intros [|[]]; done); try (intros []; done).
  - unfold help, help_messages. destruct (args (parse line)) as [|a l]; [|destruct (command (parse a))]; cbn; intuition discriminate.
  - unfold font_command. repeat destruct (str_eqb _ _); intros [|[]]; done.
Qed.

(** A key that keeps the shell running. *)
Definition stays (n : Z) (line : str) (w : KWriter) (r : outcome Empty_set (option (str * Console))) : Prop :=
  ∃ line' c', r = Ok (Some (line', c')) ∧ carries n line w line' c'.

#[local] Instance KeyboardEvent_eq_dec : EqDecision KeyboardEvent.
Proof. solve_decision. Defined.

Lemma line_stays n n' line w (m : outcome Empty_set (str * Console)) : n ≤ n' →
  (∃ line' c', m = Ok (line', c') ∧ carries n line w line' c') → stays n' line w (Some <$> m).
Proof. intros Hn (line' & c' & -> & Hst). exists line', c'. split; [done|by apply (carries_le n)]. Qed.

Lemma complete_short line command : complete_command line = Some command →
  Forall (λ ch, ch ≠ 10) command ∧ (length command ≤ 8)%nat.
Proof.
  intros (_ & Hin & _)%complete_command_Some. destruct (names_plain command Hin) as [_ Hp]. split.
  - eapply Forall_impl; [exact Hp|]. intros ch Hch. by intros ->.
  - assert (Forall (λ c : str, length c ≤ 8)%nat COMMAND_NAMES) as Hall by (repeat constructor).
    by apply (proj1 (Forall_forall _ _) Hall).
Qed.

Lemma enter_good sys stats TICKS n line c w : kept n line c w → n + output_length sys stats (run_command TICKS line) < 2 ^ 38 →
  ∃ r, dispatch_key get_raster get_raster_width sys stats TICKS (Char 10) line c = Ok r ∧
    match r with
    | Some (line', c') => carries (n + 3 + output_length sys stats (run_command TICKS line)) line w line' c'
    | None => HaltForever ∈ run_command TICKS line
    end.
Proof.
  intros (Hg & [_ Hl] & _) Hn. pose proof (chars_count_pos line).
  pose proof (output_length_pos sys stats (run_command TICKS line)) as Hp.
  cbn [dispatch_key]. change (10 =? 10) with true. cbv iota.
  destruct (kprint_good [10] n c w Hg ltac:(lia)) as (c1 & w1 & -> & Hg1 & _ & Hl1 & _); [cbn; lia|]. cbn [mbind outcome_bind].
  change (Z.of_nat (length [10])) with 1 in Hg1. change (open_line (current_line w) [10]) with (@nil Z) in Hl1.
  destruct (perform_good sys stats (run_command TICKS line) (n + 1) c1 w1 Hg1 Hl1 ltac:(lia) ltac:(lia)) as (r & -> & Hr).
  cbn [mbind outcome_bind]. destruct r as [c2|]; [|by exists None].
  destruct Hr as (w2 & Hg2 & Hl2). destruct (start_line _ c2 w2 Hg2 Hl2 ltac:(lia)) as (c3 & w3 & Hs & Hk3 & Hs3).
  exists (Some ([], c3)). split.
  - destruct (kprint get_raster get_raster_width PROMPT c2) as [c4| |]; cbn [mbind outcome_bind] in *; [|done..]. by rewrite Hs.
  - exists w3. split; [|done].
    by replace (n + 3 + output_length sys stats (run_command TICKS line)) with (n + 1 + output_length sys stats (run_command TICKS line) + 2) by lia.
Qed.

Lemma other_keys_good sys stats TICKS key n line c w : kept n line c w → n < 2 ^ 38 → key ≠ Char 10 →
  stays (n + 16) line w (dispatch_key get_raster get_raster_width sys stats TICKS key line c).
Proof.
  intros Hst Hn Hkey. pose proof Hst as (Hg & [_ Hl] & Hi). pose proof (chars_count_pos line). pose proof Hg as (Hw & _ & Hwi).
  destruct key; cbn [dispatch_key].
  - destruct (Z.eqb_spec c0 10) as [->|Hch]; [done|]. destruct (Z.eqb_spec c0 8) as [->|H8].
    + apply (line_stays n); [lia|]. by apply backspace_kept; [|lia].
    + apply (line_stays (n + 1)); [lia|]. by apply insert_kept; [| |lia].
  - change (lit _) with ([94; 67] : str). destruct (kprintln_good [94; 67] n c w Hg ltac:(lia)) as (c1 & w1 & -> & Hg1 & _ & Hl1); [cbn; lia|]. cbn [mbind outcome_bind].
    change (Z.of_nat (length [94; 67])) with 2 in Hg1.
    destruct (start_line _ c1 w1 Hg1 Hl1) as (c2 & w2 & Hs & Hk2 & Hs2); [lia|].
    exists [], c2. split; [|apply (carries_le (n + 2 + 1 + 2)); [lia|by exists w2]].
    destruct (kprint get_raster get_raster_width PROMPT c1) as [c4| |]; cbn [mbind outcome_bind] in *; [|done..]. by rewrite Hs.
  - destruct (zoom_kept larger n line c w Hst ltac:(lia)) as (c' & Hz & Hst'). unfold zoom_in. rewrite Hz. cbn.
    exists line, c'. split; [done|]. by apply (carries_le n); [lia|].
  - destruct (zoom_kept smaller n line c w Hst ltac:(lia)) as (c' & Hz & Hst'). unfold zoom_out. rewrite Hz. cbn.
    exists line, c'. split; [done|]. by apply (carries_le n); [lia|].
  - apply (line_stays (n + 2)); [lia|]. by apply arrow_up_kept; [|lia].
  - apply (line_stays (n + 2)); [lia|]. by apply arrow_down_kept; [|lia].
  - unfold arrow_left, with_writer. rewrite Hw. unfold move_cursor_left, saturating_sub.
    destruct (arrow_kept (Z.max (input_cursor w - 1) 0) n line c w Hst ltac:(lia) ltac:(lia)) as (w' & m' & -> & Hst'); [intros [_ ?]; lia|].
    cbn. eexists line, _. split; [reflexivity|]. by apply (carries_le n); [lia|].
  - unfold arrow_right, with_writer. rewrite Hw. change (chars_count PROMPT) with 2. pose proof (within_line _ _ Hwi) as [_ Hcl].
    pose proof (chars_count_pos (current_line w)). unfold move_cursor_right, saturating_sub. rewrite add_u64_ok by (unfold is_u64; lia). cbn [mbind outcome_bind].
    destruct (arrow_kept (Z.min (input_cursor w + 1) (Z.max (chars_count (current_line w) - 2) 0)) n line c w Hst ltac:(lia) ltac:(lia)) as (w' & m' & -> & Hst').
    { intros [-> _]. rewrite chars_count_app. change (chars_count PROMPT) with 2. lia. }
    cbn. eexists line, _. split; [reflexivity|]. by apply (carries_le n); [lia|].
  - destruct (reset_good n c w Hg) as (c1 & w1 & -> & Hg1 & Hl1 & Hi1). cbn [mbind outcome_bind].
    destruct (prompt_good n c1 w1 Hg1 Hl1 ltac:(lia)) as (c2 & w2 & -> & Hg2 & Hl2 & Hi2). cbn [mbind outcome_bind].
    exists [], c2. split; [done|]. apply (carries_le (n + 2)); [lia|]. exists w2. rewrite Hi1 in Hi2.
    split; [|split; [done|by rewrite Hi2]]. split; [done|]. split; [split; [constructor|change (chars_count []) with 0; lia]|lia].
  - unfold auto_complete. destruct (complete_command line) as [command|] eqn:Hcc.
    + destruct (complete_short line command Hcc) as [Hp H8].
      apply (line_stays (n + Z.of_nat (length (drop (length line) command)))); [rewrite length_drop; lia|].
      apply inserts_kept; [done|by apply Forall_drop|rewrite length_drop; lia].
    + exists line, c. split; [done|]. apply (carries_le n); [lia|]. by apply carries_same.
Qed.

(** Every key runs. *)
Lemma on_key_kept (sys : Heap.World) (stats : Task.SchedulerStats) (TICKS : Z) (key : KeyboardEvent)
    (n : Z) (line : str) (c : Console) (w : KWriter) :
  kept n line c w → n + key_cost sys stats TICKS key line < 2 ^ 38 →
  ∃ r, on_key get_raster get_raster_width sys stats TICKS key line c = Ok r ∧
    match r with
    | Some (line', c') => carries (n + key_cost sys stats TICKS key line) line w line' c'
    | None => key = Char 10 ∧ command (parse line) = Shutdown
    end.
Proof.
  intros (Hg & Hi) Hn. pose proof (within_count _ _ (proj2 (proj2 Hg))) as Hcount.
  assert (0 ≤ key_cost sys stats TICKS key line - 16) as Hcost.
  { unfold key_cost. destruct key; try lia. destruct (_ =? 10); [|lia]. pose proof (output_length_pos sys stats (run_command TICKS line)). lia. }
  unfold on_key. destruct (erase_cursor_good n c w Hg ltac:(lia)) as (c1 & -> & Hg1). cbn [mbind outcome_bind].
  assert (kept n line c1 w) as Hst by by split.
  assert (Hdraw : ∀ l c2, carries (n + key_cost sys stats TICKS key line) line w l c2 →
    ∃ r, (c ← draw_cursor get_raster_width c2; Ok (Some (l, c))) = Ok r ∧
      match r with
      | Some (line', c') => carries (n + key_cost sys stats TICKS key line) line w line' c'
      | None => key = Char 10 ∧ command (parse line) = Shutdown
      end).
  { intros l c2 (w2 & (Hg2 & Hsh2 & Hi2) & Hs2). destruct (draw_cursor_good _ c2 w2 Hg2 ltac:(lia)) as (c3 & w3 & -> & Hg3 & [Hu _] & Hl3).
    cbn. eexists. split; [reflexivity|]. exists w3. unfold kept, synced in *. by rewrite Hl3, Hu. }
  destruct (decide (key = Char 10)) as [->|Hkey].
  - change (key_cost sys stats TICKS (Char 10) line) with (16 + output_length sys stats (run_command TICKS line)) in *.
    destruct (enter_good sys stats TICKS n line c1 w Hst ltac:(lia)) as (r & -> & Hr). cbn [mbind outcome_bind].
    destruct r as [[line' c2]|].
    + apply (Hdraw line' c2). eapply carries_le; [|exact Hr]. lia.
    + exists None. split; [done|]. split; [done|]. by apply halts_only_shutdown with TICKS.
  - destruct (other_keys_good sys stats TICKS key n line c1 w Hst ltac:(lia) Hkey) as (line' & c2 & -> & Hst2).
    cbn [mbind outcome_bind]. apply (Hdraw line' c2). eapply carries_le; [|exact Hst2]. lia.
Qed.

(** C11. No key can stop the shell or put the console's record of the input line
    out of step with the shell's: whatever text other parts of the kernel printed
    around the input line, every key (characters, Enter with any command, Ctrl+C,
    Ctrl+L, both zooms, the arrows, Tab) runs without a panic, only a command
    that shuts the machine down ends the shell, and lines and history grow by no
    more than what the key's command prints and a constant, up to a total of
    2^38.  If the console records the shell's line, that is if its field
    [current_line] is the prompt followed by that line and its [input_cursor] is
    in the line, then it does so afterwards.  This is about the two records and
    not about the pixels: after a zoom the prompt may be printed below the last
    whole row of the screen ([print_history_row] in Output). *)
Theorem on_key_in_step (sys : Heap.World) (stats : Task.SchedulerStats) (TICKS : Z) (key : KeyboardEvent)
    (n : Z) (line : str) (c : Console) (w : KWriter) :
  kept n line c w → n + key_cost sys stats TICKS key line < 2 ^ 38 →
  ∃ r, on_key get_raster get_raster_width sys stats TICKS key line c = Ok r ∧
    match r with
    | Some (line', c') => ∃ w', kept (n + key_cost sys stats TICKS key line) line' c' w' ∧ (synced line w → synced line' w')
    | None => key = Char 10 ∧ command (parse line) = Shutdown
    end.
Proof. apply on_key_kept. Qed.

End session.

(** ** Witness: a prompt with the command [clear] on it. *)

Definition demo_line : str := [99; 108; 101; 97; 114].
Definition demo_writer : KWriter :=
  mkKWriter demo_screen 1 2 [mkCell 0 0; mkCell 1 0] [] (PROMPT ++ demo_line) 5 Size16 None.
Definition demo_prompt : Console := mkConsole (Some demo_writer) None (λ a, a mod 251).
Definition demo_sys : Heap.World := Heap.mkWorld 0 0 false None None.

Lemma demo_kept : kept demo_screen 7 demo_line demo_prompt demo_writer ∧ synced demo_line demo_writer.
Proof.
  split; [|by split]. split; [split; [done|split]|].
  - by split.
  - split; [split; [apply (bool_decide_unpack _); exact I|done]|constructor|done].
  - split; [split; [apply (bool_decide_unpack _); exact I|done]|done].
Qed.

Lemma on_key_in_step_witness : ∃ line' c' w',
  on_key demo_raster demo_width demo_sys (mkStats 0 0 0 0 0 0 0) 0 (Char 10) demo_line demo_prompt = Ok (Some (line', c')) ∧
  kept demo_screen 23 line' c' w' ∧ synced line' w'.
Proof.
  destruct (on_key_in_step demo_raster demo_width demo_font_ok demo_screen demo_sys (mkStats 0 0 0 0 0 0 0) 0 (Char 10) 7 demo_line
    demo_prompt demo_writer (proj1 demo_kept)) as (r & Hr & Hst).
  { by vm_compute. }
  destruct r as [[line' c']|].
  - destruct Hst as (w' & Hk & Hs). exists line', c', w'. split; [exact Hr|]. split; [exact Hk|exact (Hs (proj2 demo_kept))].
  - destruct Hst as [_ Hs]. vm_compute in Hs. discriminate Hs.
Defined.
