(* ===== verification/Loop.v ===== *)
(** * Loop: the whole loop of [src/shell/mod.rs].  Whatever the interrupts
    deliver and whenever, the shell does not panic: the keys (Session), the
    pointer (Pointer), the scheduler (Task) and the queues (Ports, Mouse) keep
    one invariant of the state that they share. *)

From Stdlib Require Import String.
From S2P Require Import Prelude Globals Memory Frame Heap Task Text Timer Graphics Ports Keyboard Mouse Commands Console Terminal LineEditor Output Shell Pointer Session.
Open Scope Z_scope.

(** ** The pointer, whatever is drawn around it *)

Lemma foldM_total {E A B} (f : B → A → outcome E B) l : (∀ b a, a ∈ l → ∃ b', f b a = Ok b') → ∀ b, ∃ b', foldM f b l = Ok b'.
Proof.
  intros Hf. induction l as [|a l IH]; intros b; cbn [foldM]; [by exists b|].
  destruct (Hf b a) as (b1 & ->); [by left|]. cbn [mbind outcome_bind]. apply IH. intros b' a' Ha. apply Hf. by right.
Qed.

(** The saved pixels are complete, and belong to a place on the screen. *)
Definition pointer_at (fb : Framebuffer) (c : MouseCursor) : Prop :=
  cursor_ok c ∧ match position c with
                | None => True
                | Some (x, y) => 0 ≤ x ∧ x + 5 ≤ width fb ∧ 0 ≤ y ∧ y + 5 ≤ height fb
                end.

Lemma erase_total fb c m : fb_ok fb → pointer_at fb c →
  ∃ c' m', erase_mouse_cursor fb (c, m) = (Ok tt, (c', m')) ∧ cursor_ok c' ∧ position c' = None.
Proof.
  intros Hok [Hc Hp]. unfold erase_mouse_cursor. destruct (position c) as [[x y]|] eqn:Hpos; [|by exists c, m]. cbn [saved_under].
  destruct (foldM_total (λ m '(row, col), color ← array_get (saved_under c) (cursor_index row col);
    write_at fb (y + row) (x + col) color m) cursor_cells) with (b := m) as (m' & ->).
  - intros m0 [row col] Hin. pose proof (proj1 (cursor_cells_spec row col) Hin) as [Hr Hcl].
    destruct (lookup_lt_is_Some_2 (saved_under c) (cursor_index row col)) as [color Hcolor].
    { unfold cursor_ok, cursor_index, MOUSE_CURSOR_PIXELS in *. rewrite Hc. cbn. lia. }
    rewrite (array_get_ok _ _ _ Hcolor). cbn [mbind outcome_bind].
    destruct (write_at_painted fb (x + col) (y + row) (λ _ _, color) m0 Hok) as (m1 & -> & _); [split; lia|]. by exists m1.
  - by eexists _, m'.
Qed.

(** Where the pointer may be. *)
Definition pointer_inside (fb : Framebuffer) (x y : Z) : Prop := 0 ≤ x ≤ width fb - CURSOR_W ∧ 0 ≤ y ≤ height fb - CURSOR_H.

Lemma move_pointer_total fb event x y c m : pointer_fits fb → pointer_at fb c → small_event event → pointer_inside fb x y →
  ∃ x' y' c' m', move_pointer event fb x y c m = Ok (x', y', c', m') ∧ pointer_inside fb x' y' ∧ pointer_at fb c'.
Proof.
  intros Hf Hp He [Hx Hy]. destruct (erase_total fb c m (proj1 Hf) Hp) as (c1 & m1 & Herase & Hc1 & Hp1).
  assert (pointer_over fb m1 c1 m1 x y) as Ho by (left; by split_and!).
  pose proof (move_pointer_drawn fb m1 c1 m1 x y event Hf Ho He Hx Hy) as Hm.
  destruct (pointer_target fb (x, y) event) as [x' y']. destruct Hm as (c' & m' & Hmove & [H1 H2 [H3 H3'] [H4 H4'] _ _] & Hx' & Hy').
  exists x', y', c', m'. split; [|split; [by split|split; [done|by rewrite H2]]].
  rewrite <- Hmove. unfold move_pointer. rewrite Herase. unfold erase_mouse_cursor. by rewrite Hp1.
Qed.

(** ** The mouse *)

Definition is_byte (b : Z) : Prop := 0 ≤ b < 256.

Lemma assemble_event byte p : packet_ok p → Forall is_byte (bytes p) → is_byte byte →
  ∃ o p', assemble byte p = (Ok o, p') ∧ packet_ok p' ∧ Forall is_byte (bytes p') ∧ ∀ e, o = Some e → small_event e.
Proof.
  intros Hp Hb Hbyte. destruct (assemble_spec byte p [] Hp) as (o & p' & Ha & Hp' & _). exists o, p'. split; [done|]. split; [done|].
  revert Ha. destruct p as [l i], Hp as (Hlen & Hi & _). cbn [bytes index] in *. unfold assemble. cbn [bytes index].
  destruct l as [|c0 [|c1 [|c2 [|]]]]; try done. rewrite !Forall_cons in Hb. destruct Hb as (H0 & H1 & H2 & _).
  destruct i as [|[|[|]]]; [| | |lia]; cbn [Nat.eqb andb]; [destruct (Z.land byte 8 =? 0)|..]; cbn; intros [= <- <-]; cbn;
    (split; [repeat (constructor; [done|]); constructor|]); try done.
  intros e He. pose proof (decode_packet_spec c0 c1 byte H1 Hbyte) as Hd. rewrite He in Hd. destruct Hd as (_ & _ & _ & ? & ? & _).
  split; lia.
Qed.

Section loop.
Context (get_raster : char → RasterHeight → option RasterizedChar) (get_raster_width : RasterHeight → Z).
Hypothesis Hfont : font_ok get_raster get_raster_width.
Context (device : Framebuffer).
Hypothesis Hdevice : pointer_fits device.
Context {D QK QM : Type} `{Decoder D} `{RK : RingBuffer Z QK} `{RM : RingBuffer Z QM} (capacity : nat) `{!RingBufferLaws Z QM capacity}.
Context (trampoline : Z) (stack_base : nat → Z).
Hypothesis stack_base_ok : ∀ i, 0 ≤ stack_base i ∧ is_u64 (stack_base i + TASK_STACK_SIZE) ∧ stack_base i mod 16 = 0.
Context (sys : Heap.World).

Abbreviation Shell := (Shell (D:=D) (QK:=QK) (QM:=QM)) (only parsing).

(** The mouse between polls: a packet in progress, and bytes in the queue. *)
Record mouse_ok (mo : Mouse QM) : Prop := {
  mouse_packet : packet_ok (PACKET_STATE mo);
  mouse_packet_bytes : Forall is_byte (bytes (PACKET_STATE mo));
  mouse_queue_bytes : Forall is_byte (queue_items capacity (MOUSE_QUEUE mo));
}.

Lemma poll_ok mo : mouse_ok mo → ∃ o mo', Mouse.poll mo = (Ok o, mo') ∧ mouse_ok mo' ∧ ∀ e, o = Some e → small_event e.
Proof.
  intros [Hp Hb Hq]. unfold Mouse.poll, pop_mouse_byte, pop. unfold queue_items in Hq.
  destruct (producer_consumer (MOUSE_QUEUE mo)) as [q|] eqn:Hpc.
  2:{ exists None, (mkMouse (MOUSE_QUEUE mo) (PACKET_STATE mo)). split; [done|]. split; [|done]. split; cbn; [done..|]. unfold queue_items. by rewrite Hpc. }
  pose proof (rb_pop_items q) as Hpop. destruct (rb_try_pop q) as [[byte q']|].
  - rewrite Hpop in Hq. apply Forall_cons in Hq as [Hbyte Hq]. cbn [MOUSE_QUEUE PACKET_STATE].
    destruct (assemble_event byte (PACKET_STATE mo) Hp Hb Hbyte) as (o & p' & -> & Hp' & Hb' & He).
    eexists o, _. split; [reflexivity|]. split; [|done]. by split.
  - exists None, (mkMouse (MOUSE_QUEUE mo) (PACKET_STATE mo)). split; [done|]. split; [|done]. split; cbn; [done..|]. unfold queue_items. by rewrite Hpc.
Qed.

Lemma push_mouse_ok b mo : is_byte b → mouse_ok mo → mouse_ok (push_mouse_byte b mo).
Proof.
  intros Hb [H1 H2 H3]. split; cbn; [done..|]. unfold push. unfold queue_items in *. destruct (producer_consumer (MOUSE_QUEUE mo)) as [q|] eqn:Hpc; [|by rewrite Hpc].
  pose proof (rb_push_items q b) as Hpush. destruct (rb_try_push b q) as [q'|]; cbn; [|done].
  destruct Hpush as [-> _]. apply Forall_app. split; [done|by constructor].
Qed.
(** ** Text printed around the line *)

Abbreviation kept := (kept device).

Lemma print_kept s n line c w : kept n line c w → n + Z.of_nat (length s) + 1 < 2 ^ 41 →
  ∃ c' w', kprintln get_raster get_raster_width s c = Ok c' ∧ kept (n + Z.of_nat (length s) + 1) line c' w'.
Proof.
  intros Hk Hn. pose proof (kept_bound _ _ _ _ _ Hk). destruct Hk as (Hg & Hsh & Hi).
  destruct (kprintln_good _ _ Hfont device s n c w Hg ltac:(lia) Hn) as (c' & w' & Hr & Hg' & [Hu _] & _).
  exists c', w'. split; [exact Hr|]. split; [exact Hg'|]. split; [by apply (short_le (n - 2)); [lia|]|]. rewrite Hu. lia.
Qed.

Lemma show_u64_short n : (length (show_u64 n) ≤ 20)%nat.
Proof.
  unfold show_u64. rewrite length_rev. generalize 20%nat. intros k. revert n.
  induction k as [|k IH]; intros n; cbn [digits_fuel length]; [lia|]. destruct (_ =? 0); cbn [length]; [lia|]. specialize (IH (n / 10)). lia.
Qed.

(** ** The tasks *)

(** What a task may print. *)
Definition TASK_OUTPUT : Z := 64.

Record tasks_ok (n : Z) (line : str) (tw : Shell.World) : Prop := {
  tasks_one : 0 ≤ TASK_ONE_COUNT tw;
  tasks_two : 0 ≤ TASK_TWO_COUNT tw;
  tasks_console : ∃ c w, task_console tw = Ok c ∧ kept n line c w;
}.

Lemma tasks_ok_le n n' line tw : n ≤ n' → tasks_ok n line tw → tasks_ok n' line tw.
Proof. intros Hn [H1 H2 (c & w & Hc & Hk)]. split; [done..|]. exists c, w. split; [done|]. by apply (kept_le _ n). Qed.

(** One line of a task, of any length below the bound. *)
Lemma task_print n line tw (s : str) : tasks_ok n line tw → Z.of_nat (length s) < TASK_OUTPUT → n + TASK_OUTPUT < 2 ^ 41 →
  ∃ c w, (c ← task_console tw; kprintln get_raster get_raster_width s c) = Ok c ∧ kept (n + TASK_OUTPUT) line c w.
Proof.
  intros [_ _ (c & w & -> & Hk)] Hs Hn. cbn [mbind outcome_bind].
  destruct (print_kept s n line c w Hk ltac:(lia)) as (c' & w' & Hr & Hk'). exists c', w'. split; [exact Hr|]. eapply kept_le; [|exact Hk']. lia.
Qed.

Lemma call_task_ok n line f tw : tasks_ok n line tw → n + TASK_OUTPUT < 2 ^ 41 →
  tasks_ok (n + TASK_OUTPUT) line (snd (call_task get_raster get_raster_width f tw)).
Proof.
  intros Hok Hn. pose proof Hok as [H1 H2 Hc]. pose proof (tasks_ok_le n (n + TASK_OUTPUT) line tw ltac:(unfold TASK_OUTPUT; lia) Hok) as [_ _ Hc'].
  pose proof (Z.mod_pos_bound (TASK_ONE_COUNT tw + 1) U64_SIZE ltac:(lia)). pose proof (Z.mod_pos_bound (TASK_TWO_COUNT tw + 1) U64_SIZE ltac:(lia)).
  unfold call_task. destruct f.
  - destruct (10 <=? TASK_ONE_COUNT tw); cbn [snd]; split; cbn -[show_u64 lit app]; [lia|lia|done|lia|lia|].
    pose proof (show_u64_short (TASK_ONE_COUNT tw)). apply (task_print n line tw); [done|rewrite length_app; change (length (lit _)) with 13%nat; unfold TASK_OUTPUT; lia|done].
  - destruct (10 <=? TASK_TWO_COUNT tw); cbn [snd]; split; cbn -[show_u64 lit app]; [lia|lia|done|lia|lia|].
    pose proof (show_u64_short (TASK_TWO_COUNT tw)). apply (task_print n line tw); [done|rewrite length_app; change (length (lit _)) with 13%nat; unfold TASK_OUTPUT; lia|done].
Qed.

Lemma run_tasks_ok now budget line : ∀ k n sched tw, sched_wf sched → tasks_ok n line tw → n + TASK_OUTPUT * Z.of_nat budget < 2 ^ 41 →
  ∃ k' sched' tw', run_ready_loop (call_task get_raster get_raster_width) trampoline stack_base now budget k (sched, tw) = (Ok (k + k')%nat, (sched', tw')) ∧
    (k' ≤ budget)%nat ∧ sched_wf sched' ∧ tasks_ok (n + TASK_OUTPUT * Z.of_nat k') line tw'.
Proof.
  induction budget as [|budget IH]; intros k n sched tw Hwf Htw Hn; cbn [run_ready_loop].
  { exists 0%nat, sched, tw. rewrite Nat.add_0_r, Z.mul_0_r, Z.add_0_r. by split_and!. }
  rewrite Nat2Z.inj_succ in *. unfold TASK_OUTPUT in *.
  pose proof (run_next_cases (call_task get_raster get_raster_width) trampoline stack_base stack_base_ok now sched tw Hwf) as H0. cbv zeta in H0. unfold_monad.
  destruct (find_next_ready _) as [i|].
  - destruct H0 as (t & g & a & tw1 & s1 & _ & _ & _ & Hcall & Hrun & _ & Hwf1 & _). rewrite Hrun.
    pose proof (call_task_ok n line (entry t) tw Htw ltac:(unfold TASK_OUTPUT; lia)) as Htw1. rewrite Hcall in Htw1. cbn [snd] in Htw1. unfold TASK_OUTPUT in Htw1.
    destruct (IH (S k) (n + 64) s1 tw1 Hwf1 Htw1 ltac:(lia)) as (k' & s' & tw' & Hl & Hk' & Hwf' & Htw'). exists (S k'), s', tw'.
    split; [by rewrite Hl, Nat.add_succ_r|]. split; [lia|]. split; [done|].
    by replace (n + 64 * Z.of_nat (S k')) with (n + 64 + 64 * Z.of_nat k') by lia.
  - destruct H0 as [Hrun _]. rewrite Hrun. eexists 0%nat, _, tw. rewrite Nat.add_0_r, Z.mul_0_r, Z.add_0_r. split; [reflexivity|].
    split; [lia|]. split; [by apply wake_expired_wf|done].
Qed.

(** ** The invariant of the loop *)

Record shell_ok (n : Z) (s : Shell) : Prop := {
  shell_line : ∃ w, kept n (line s) (console s) w;
  shell_pointer : pointer_at device (pointer s);
  shell_position : pointer_inside device (mouse_x s) (mouse_y s);
  shell_mouse : mouse_ok (mouse s);
  shell_scheduler : sched_wf (scheduler s);
  shell_counts : 0 ≤ one_count s ∧ 0 ≤ two_count s;
}.

Lemma shell_ok_le n n' s : n ≤ n' → shell_ok n s → shell_ok n' s.
Proof. intros Hn [(w & Hk) ? ? ? ? ?]. split; [|done..]. exists w. by apply (kept_le _ n). Qed.

(** The screen is not the console's state. *)
Lemma kept_screen n l c w m : kept n l c w → kept n l (mkConsole (KWRITER c) (EMERGENCY_FRAMEBUFFER c) m) w.
Proof. by intros ((Hw & Hs & Hn) & Hr). Qed.

Lemma pointer_step_ok n s : shell_ok n s → ∃ s', pointer_step s = Ok s' ∧ shell_ok n s' ∧ line s' = line s.
Proof.
  intros [(w & Hk) Hp Hi Hm Hs Hc]. destruct (poll_ok _ Hm) as (o & mo' & Hpoll & Hm' & He). unfold pointer_step. rewrite Hpoll.
  cbn [mbind outcome_bind]. destruct o as [event|]; [|eexists; split; [reflexivity|]; split; [by split; [by exists w|..]|done]].
  pose proof Hk as ((Hw & Hsane & _) & _). cbn [set_mouse console mouse_x mouse_y pointer]. rewrite Hw, (sane_device _ _ Hsane).
  destruct (move_pointer_total device event _ _ (pointer s) (screen (console s)) Hdevice Hp (He _ eq_refl) Hi) as (x' & y' & c' & m' & -> & Hi' & Hp').
  cbn [mbind outcome_bind]. eexists. split; [reflexivity|]. split; [|done]. split; cbn; try done. exists w. rewrite <- Hw. by apply kept_screen.
Qed.

(** What the tasks of an iteration may print: so much for each that runs. *)
Definition tasks_cost (now : Z) (budget : nat) (s : Shell) : Z :=
  match fst (Task.run_ready (call_task get_raster get_raster_width) trampoline stack_base now budget
    (scheduler s, mkTaskWorld (one_count s) (two_count s) (Ok (console s)))) with
  | Ok ran => TASK_OUTPUT * Z.of_nat ran
  | _ => 0
  end.

Lemma tasks_step_ok now budget n s : shell_ok n s → n + TASK_OUTPUT * Z.of_nat budget < 2 ^ 41 →
  0 ≤ tasks_cost now budget s ≤ TASK_OUTPUT * Z.of_nat budget ∧
  ∃ s', tasks_step get_raster get_raster_width trampoline stack_base now budget s = Ok s' ∧
    shell_ok (n + tasks_cost now budget s) s' ∧ line s' = line s.
Proof.
  intros [(w & Hk) Hp Hi Hm Hs [H1 H2]] Hn. unfold tasks_cost, tasks_step, run_ready.
  destruct (run_tasks_ok now budget (line s) 0 n (scheduler s) (mkTaskWorld (one_count s) (two_count s) (Ok (console s))) Hs)
    as (k & sched & tw & -> & Hran & Hs' & [H1' H2' (c' & w' & Hc & Hk')]); [split; cbn; [done..|by exists (console s), w]|done|].
  cbn [fst Nat.add]. split; [unfold TASK_OUTPUT; lia|].
  rewrite Hc. cbn [mbind outcome_bind]. eexists. split; [reflexivity|]. split; [|done]. split; cbn; try done. by exists w'.
Qed.

(** What the report of dropped input may print. *)
Definition report_cost (k : Z) : Z := if 0 <? k then 64 else 0.
Definition dropped_cost (now : Z) (s : Shell) : Z :=
  if negb (is_multiple_of now 100) then 0 else
  report_cost (dropped (KEYBOARD_QUEUE (keyboard s))) + report_cost (dropped (MOUSE_QUEUE (mouse s))).

Lemma report_cost_bound k : 0 ≤ report_cost k ≤ 64.
Proof. unfold report_cost. destruct (0 <? k); lia. Qed.

Lemma dropped_cost_bound now s : 0 ≤ dropped_cost now s ≤ 128.
Proof.
  unfold dropped_cost. pose proof (report_cost_bound (dropped (KEYBOARD_QUEUE (keyboard s)))).
  pose proof (report_cost_bound (dropped (MOUSE_QUEUE (mouse s)))). destruct (negb _); lia.
Qed.

Lemma report_dropped_ok k what n l c w : kept n l c w → (length what ≤ 20)%nat → n + 64 < 2 ^ 41 →
  ∃ c' w', report_dropped get_raster get_raster_width k what c = Ok c' ∧ kept (n + report_cost k) l c' w'.
Proof.
  intros Hk Hw Hn. unfold report_dropped, report_cost. destruct (0 <? k).
  - pose proof (show_u64_short k) as Hd. set (s := _ ++ _). assert (length s ≤ 48)%nat as Hl by (unfold s; rewrite !length_app; change (length (lit _)) with 8%nat; lia).
    destruct (print_kept s n l c w Hk ltac:(lia)) as (c' & w' & Hr & Hk'). exists c', w'. split; [exact Hr|]. eapply kept_le; [|exact Hk']. lia.
  - exists c, w. split; [done|]. eapply kept_le; [|exact Hk]. lia.
Qed.

Lemma dropped_step_ok now n s : shell_ok n s → n + 128 < 2 ^ 41 →
  ∃ s', dropped_step get_raster get_raster_width now s = Ok s' ∧ shell_ok (n + dropped_cost now s) s' ∧ line s' = line s.
Proof.
  intros Hok Hn. unfold dropped_step, dropped_cost.
  destruct (negb _); [exists s; split; [done|]; split; [by apply (shell_ok_le n); [lia|]|done]|].
  destruct Hok as [(w & Hk) Hp Hi Hm Hs Hc]. unfold take_dropped. cbn [console set_keyboard].
  set (k1 := dropped (KEYBOARD_QUEUE (keyboard s))). set (k2 := dropped (MOUSE_QUEUE (mouse s))). pose proof (report_cost_bound k1).
  destruct (report_dropped_ok k1 (lit " keyboard inputs") n (line s) (console s) w Hk) as (c1 & w1 & -> & Hk1); [cbn; lia|lia|].
  cbn [mbind outcome_bind console set_keyboard set_console set_mouse mouse]. fold k2.
  destruct (report_dropped_ok k2 (lit " mouse inputs") (n + report_cost k1) (line s) c1 w1 Hk1) as (c2 & w2 & -> & Hk2); [cbn; lia|lia|].
  cbn [mbind outcome_bind]. eexists. split; [reflexivity|]. split; [|done]. destruct Hm. split; cbn; try done.
  exists w2. by rewrite Z.add_assoc.
Qed.

(** ** An iteration *)

(** What the interrupts push. *)
Inductive Arrival : Type := Scancode (code : Z) | MouseByte (byte : Z).

Definition arrive_one (a : Arrival) (s : Shell) : Shell :=
  match a with
  | Scancode code => set_keyboard (push_keyboard_scancode code (keyboard s)) s
  | MouseByte byte => set_mouse (push_mouse_byte byte (mouse s)) s
  end.
Definition deliver (l : list Arrival) (s : Shell) : Shell := fold_left (λ s a, arrive_one a s) l s.

Definition arrival_ok (a : Arrival) : Prop := match a with Scancode _ => True | MouseByte b => is_byte b end.

Lemma deliver_ok n l s : Forall arrival_ok l → shell_ok n s → shell_ok n (deliver l s) ∧ line (deliver l s) = line s.
Proof.
  intros Hl. revert s. induction Hl as [|a l Ha _ IH]; intros s Hs; [done|].
  change (deliver (a :: l) s) with (deliver l (arrive_one a s)). destruct (IH (arrive_one a s)) as [H1 H2].
  - destruct Hs, a; split; cbn; try done. by apply push_mouse_ok.
  - split; [done|]. rewrite H2. by destruct a.
Qed.

(** What is pushed at each point of an iteration. *)
Definition deliver_at (l : list (list Arrival)) (point : nat) : Shell → Shell := deliver (nth point l []).

Lemma deliver_at_ok n l point s : Forall (Forall arrival_ok) l → shell_ok n s →
  shell_ok n (deliver_at l point s) ∧ line (deliver_at l point s) = line s.
Proof.
  intros Hl. apply deliver_ok. destruct (Nat.lt_ge_cases point (length l)) as [Hp|Hp]; [|by rewrite nth_overflow].
  apply (proj1 (Forall_forall _ _) Hl). apply list_elem_of_In. by apply nth_In.
Qed.

(** A bound on what commands print, whatever the tasks are doing. *)
Definition TASKINFO_OUTPUT : Z := 512.
Definition max_output (calls : list Call) : Z :=
  foldr (λ call n, match call with
    | Println s => Z.of_nat (length s) + 1
    | PrintMeminfo => lines_length (meminfo sys)
    | PrintTaskinfo => TASKINFO_OUTPUT
    | _ => 0
    end + n) 0 calls.

Lemma taskinfo_short stats : lines_length (taskinfo stats) ≤ TASKINFO_OUTPUT.
Proof.
  unfold taskinfo, TASKINFO_OUTPUT. destruct stats as [n1 n2 n3 n4 n5 n6 n7].
  cbn [task_count ready sleeping blocked running finished cancelled lines_length foldr]. rewrite !length_app.
  repeat match goal with |- context [length (show_u64 ?k)] => pose proof (show_u64_short k); generalize dependent (length (show_u64 k)); intros end.
  repeat match goal with |- context [length (lit ?l)] => let v := eval vm_compute in (length (lit l)) in change (length (lit l)) with v end. lia.
Qed.

Lemma max_output_bound stats calls : output_length sys stats calls ≤ max_output calls.
Proof.
  pose proof (taskinfo_short stats). induction calls as [|call calls IH]; cbn [output_length max_output foldr]; [lia|].
  fold (output_length sys stats calls) (max_output calls). destruct call; lia.
Qed.

Lemma key_cost_bound stats TICKS key l : 0 ≤ key_cost sys stats TICKS key l ≤ 16 + max_output (run_command TICKS l).
Proof.
  unfold key_cost. pose proof (max_output_bound stats (run_command TICKS l)). pose proof (output_length_pos sys stats (run_command TICKS l)).
  destruct key; try lia. destruct (_ =? 10); lia.
Qed.

Abbreviation step := (shell_step get_raster get_raster_width trampoline stack_base sys).

(** The processor only halts when there is nothing to do. *)
Definition idle_ok (s : Shell) (i : Idle) : Prop :=
  i = EnableAndHlt → keyboard_queue_is_empty (keyboard s) = true ∧ mouse_queue_is_empty (mouse s) = true.

Lemma idle_spec s : idle_ok s (Shell.idle s) ∧ Shell.idle s ≠ MachineOff.
Proof.
  unfold idle_ok, Shell.idle. destruct (keyboard_queue_is_empty (keyboard s)), (mouse_queue_is_empty (mouse s)); done.
Qed.

(** The state in which an iteration looks for a key: the pointer has moved, the
    tasks have run and dropped input is reported. *)
Definition before_key (now : Z) (arrive : nat → Shell → Shell) (s : Shell) : run Shell :=
  s ← pointer_step (arrive 0%nat s);
  s ← tasks_step get_raster get_raster_width trampoline stack_base now (Z.to_nat TASK_BUDGET) (arrive 1%nat s);
  s ← dropped_step get_raster get_raster_width now s;
  Ok (arrive 2%nat s).

(** What an iteration may print: the tasks that run in it, the reports that it
    makes, and the key that it handles with the command of an Enter; an iteration
    with nothing to do costs nothing. *)
Definition step_cost (now TICKS : Z) (arrive : nat → Shell → Shell) (s : Shell) : Z :=
  match pointer_step (arrive 0%nat s) with
  | Ok s1 => tasks_cost now (Z.to_nat TASK_BUDGET) (arrive 1%nat s1)
  | _ => 0
  end +
  match (s1 ← pointer_step (arrive 0%nat s);
         tasks_step get_raster get_raster_width trampoline stack_base now (Z.to_nat TASK_BUDGET) (arrive 1%nat s1)) with
  | Ok s2 => dropped_cost now s2
  | _ => 0
  end +
  match before_key now arrive s with
  | Ok s3 => match fst (Keyboard.poll (keyboard s3)) with
             | Some key => key_cost sys (Task.stats (scheduler s3)) TICKS key (line s3)
             | None => 0
             end
  | _ => 0
  end.

Lemma step_cost_pos now TICKS arrive s : 0 ≤ step_cost now TICKS arrive s.
Proof.
  unfold step_cost. assert (∀ now budget s, 0 ≤ tasks_cost now budget s) as Ht.
  { intros. unfold tasks_cost, TASK_OUTPUT. destruct (fst _); lia. }
  apply Z.add_nonneg_nonneg; [apply Z.add_nonneg_nonneg|].
  - by destruct (pointer_step _).
  - destruct (s1 ← _; _) as [s2| |]; [apply dropped_cost_bound|done..].
  - destruct (before_key _ _ _) as [s3| |]; [|done..]. destruct (fst _) as [key|]; [apply key_cost_bound|done].
Qed.

(** Up to the key, an iteration runs; [step_cost] is what that costs, and the key. *)
Lemma before_key_ok now TICKS arrivals n s : shell_ok n s → Forall (Forall arrival_ok) arrivals → n < 2 ^ 38 →
  ∃ s3 k, before_key now (deliver_at arrivals) s = Ok s3 ∧ 0 ≤ k ≤ 640 ∧ shell_ok (n + k) s3 ∧ line s3 = line s ∧
    step_cost now TICKS (deliver_at arrivals) s = k + match fst (Keyboard.poll (keyboard s3)) with
      | Some key => key_cost sys (Task.stats (scheduler s3)) TICKS key (line s3)
      | None => 0
      end.
Proof.
  intros Hok Ha Hn. destruct (deliver_at_ok n arrivals 0 s Ha Hok) as [Hok0 Hl0]. unfold step_cost, before_key.
  destruct (pointer_step_ok n _ Hok0) as (s1 & -> & Hok1 & Hl1). cbn [mbind outcome_bind].
  destruct (deliver_at_ok n arrivals 1 s1 Ha Hok1) as [Hok1' Hl1'].
  assert (TASK_OUTPUT * Z.of_nat (Z.to_nat TASK_BUDGET) = 512) as Hmax by done.
  destruct (tasks_step_ok now (Z.to_nat TASK_BUDGET) n _ Hok1' ltac:(lia)) as (Hk1 & s2 & -> & Hok2 & Hl2). cbn [mbind outcome_bind].
  pose proof (dropped_cost_bound now s2) as Hk2.
  destruct (dropped_step_ok now _ s2 Hok2) as (s3 & -> & Hok3 & Hl3); [lia|]. cbn [mbind outcome_bind].
  destruct (deliver_at_ok _ arrivals 2 s3 Ha Hok3) as [Hok3' Hl3']. eexists _, (_ + _).
  split; [reflexivity|]. split; [|split; [rewrite Z.add_assoc; exact Hok3'|split; [congruence|reflexivity]]]. lia.
Qed.

(** The most that an iteration costs, whatever state it starts in. *)
Lemma run_ready_count now budget : ∀ k st k' st',
  run_ready_loop (call_task get_raster get_raster_width) trampoline stack_base now budget k st = (Ok k', st') → (k' ≤ k + budget)%nat.
Proof.
  induction budget as [|budget IH]; intros k st k' st'; cbn [run_ready_loop]; [intros [= <- _]; lia|]. unfold_monad.
  destruct (run_next _ _ _ _ st) as [[[i|]| |] st1]; [intros H1%IH; lia|intros [= <- _]; lia|done..].
Qed.

Lemma tasks_cost_bound now budget s : tasks_cost now budget s ≤ TASK_OUTPUT * Z.of_nat budget.
Proof.
  unfold tasks_cost, run_ready, TASK_OUTPUT. destruct (run_ready_loop _ _ _ _ _ _ _) as [[ran|e|] st] eqn:Hr; cbn [fst]; [|lia|lia].
  apply run_ready_count in Hr. lia.
Qed.

Lemma deliver_line l s : line (deliver l s) = line s.
Proof. revert s. unfold deliver. induction l as [|a l IH]; intros s; [done|]. cbn [fold_left]. rewrite IH. by destruct a. Qed.

Lemma before_key_line now arrivals s s3 : before_key now (deliver_at arrivals) s = Ok s3 → line s3 = line s.
Proof.
  unfold before_key, deliver_at. set (s0 := deliver _ s). assert (line s0 = line s) as <- by apply deliver_line.
  destruct (pointer_step s0) as [s1| |] eqn:H1; [|done..]. cbn [mbind outcome_bind].
  assert (line s1 = line s0) as <-.
  { revert H1. unfold pointer_step. destruct (Mouse.poll _) as [[o| |] mo]; [|done..]. cbn [mbind outcome_bind].
    destruct o as [event|]; [|by intros [= <-]]. destruct (KWRITER _) as [w|]; [|by intros [= <-]].
    destruct (move_pointer _ _ _ _ _ _) as [[[[x y] p] m]| |]; by intros [= <-]. }
  clear H1. set (s1' := deliver _ s1). assert (line s1' = line s1) as <- by apply deliver_line.
  destruct (tasks_step _ _ _ _ _ _ s1') as [s2| |] eqn:H2; [|done..]. cbn [mbind outcome_bind].
  assert (line s2 = line s1') as <-.
  { revert H2. unfold tasks_step. destruct (run_ready _ _ _ _ _ _) as [r [sched tw]]. destruct (task_console tw) as [c| |]; [|done..].
    cbn [mbind outcome_bind]. destruct r as [k|e|]; [by intros [= <-]| |done]. by destruct (kprintln _ _ _ _) as [c'| |]; intros [= <-]. }
  clear H2. destruct (dropped_step _ _ now s2) as [s3'| |] eqn:H3; [|done..]. cbn [mbind outcome_bind].
  assert (line s3' = line s2) as <-.
  { revert H3. unfold dropped_step. destruct (negb _); [by intros [= <-]|]. unfold take_dropped.
    destruct (report_dropped _ _ _ (lit " keyboard inputs") _) as [c1| |]; [|done..]. cbn [mbind outcome_bind].
    by destruct (report_dropped _ _ _ (lit " mouse inputs") _) as [c2| |]; intros [= <-]. }
  intros [= <-]. apply deliver_line.
Qed.

Lemma step_cost_bound now TICKS arrivals s : step_cost now TICKS (deliver_at arrivals) s ≤ 656 + max_output (run_command TICKS (line s)).
Proof.
  unfold step_cost. pose proof (key_cost_bound (mkStats 0 0 0 0 0 0 0) TICKS CtrlC (line s)). set (k3 := match before_key _ _ _ with Ok _ => _ | _ => _ end).
  assert (k3 ≤ 16 + max_output (run_command TICKS (line s))).
  { subst k3. destruct (before_key _ _ s) as [s3| |] eqn:Hb; [|lia..]. apply before_key_line in Hb. destruct (fst _) as [key|]; [|lia].
    pose proof (key_cost_bound (Task.stats (scheduler s3)) TICKS key (line s3)) as Hc. rewrite Hb in Hc |- *. lia. }
  assert (∀ s, tasks_cost now (Z.to_nat TASK_BUDGET) s ≤ 512) as Ht by (intros; etransitivity; [apply tasks_cost_bound|done]).
  set (k2 := match _ with Ok s2 => dropped_cost now s2 | _ => 0 end).
  assert (k2 ≤ 128) by (subst k2; destruct (s1 ← _; _) as [s2| |]; [apply dropped_cost_bound|lia..]).
  destruct (pointer_step _) as [s1| |]; [specialize (Ht (deliver_at arrivals 1 s1))|..]; lia.
Qed.

Lemma shell_step_ok now TICKS arrivals n s : shell_ok n s → Forall (Forall arrival_ok) arrivals → n + step_cost now TICKS (deliver_at arrivals) s < 2 ^ 38 →
  ∃ s' i, step now TICKS (deliver_at arrivals) s = Ok (s', i) ∧ shell_ok (n + step_cost now TICKS (deliver_at arrivals) s) s' ∧ idle_ok s' i ∧
    (i = MachineOff → command (parse (line s)) = Shutdown).
Proof.
  intros Hok Ha Hn. pose proof (step_cost_pos now TICKS (deliver_at arrivals) s).
  destruct (before_key_ok now TICKS arrivals n s Hok Ha ltac:(lia)) as (s3 & k0 & Hb & Hk0 & Hok3 & Hl3 & Hcost). rewrite Hcost in Hn |- *.
  assert (step now TICKS (deliver_at arrivals) s = s3 ← before_key now (deliver_at arrivals) s; match Keyboard.poll (keyboard s3) with
    | (None, k) => let s := deliver_at arrivals 3 (set_keyboard k s3) in Ok (s, Shell.idle s)
    | (Some key, k) => let s := set_keyboard k s3 in
      r ← on_key get_raster get_raster_width sys (Task.stats (scheduler s)) TICKS key (line s) (console s);
      match r with
      | None => Ok (s, MachineOff)
      | Some (l, c) => let s := deliver_at arrivals 3 (set_shell_line l (set_console c s)) in Ok (s, Shell.idle s)
      end
    end) as ->.
  { unfold shell_step, before_key. destruct (pointer_step _) as [x| |]; [|done..]. cbn [mbind outcome_bind]. destruct (tasks_step _ _ _ _ _ _ _) as [y| |]; [|done..].
    cbn [mbind outcome_bind]. destruct (dropped_step _ _ _ _) as [z| |]; [|done..]. cbn [mbind outcome_bind]. by destruct (Keyboard.poll _) as [[key|] k]. }
  rewrite Hb. cbn [mbind outcome_bind]. destruct (Keyboard.poll (keyboard s3)) as [key k]. cbn [fst] in *.
  assert (shell_ok (n + k0) (set_keyboard k s3)) as Hok4 by (destruct Hok3; by split).
  change (scheduler s3) with (scheduler (set_keyboard k s3)) in *. change (line s3) with (line (set_keyboard k s3)) in *.
  generalize dependent (set_keyboard k s3). intros s4 Hn Hl4 Hcost Hok4. cbv zeta. rewrite Z.add_assoc in *.
  destruct key as [key|].
  - pose proof Hok4 as [(w & Hk) Hp Hi Hm Hs Hct].
    destruct (on_key_kept _ _ Hfont device sys (Task.stats (scheduler s4)) TICKS key (n + k0) (line s4) (console s4) w Hk Hn) as (r & -> & Hr).
    pose proof (key_cost_bound (Task.stats (scheduler s4)) TICKS key (line s4)).
    cbn [mbind outcome_bind]. destruct r as [[l c]|].
    + destruct Hr as (w' & Hk' & _). eexists _, _. split; [reflexivity|].
      assert (shell_ok (n + k0 + key_cost sys (Task.stats (scheduler s4)) TICKS key (line s4)) (set_shell_line l (set_console c s4))) as Hok5
        by (split; cbn; try done; by exists w').
      destruct (deliver_at_ok _ arrivals 3 _ Ha Hok5) as [Hok6 _]. pose proof (idle_spec (deliver_at arrivals 3 (set_shell_line l (set_console c s4)))) as [Hidle Hoff]. by split_and!.
    + exists s4, MachineOff. split; [done|]. split; [apply (shell_ok_le (n + k0)); [lia|done]|]. split; [done|]. intros _. rewrite <- Hl4. apply Hr.
  - eexists _, _. split; [reflexivity|]. destruct (deliver_at_ok _ arrivals 3 _ Ha Hok4) as [Hok5 _].
    pose proof (idle_spec (deliver_at arrivals 3 s4)) as [Hidle Hoff]. split; [apply (shell_ok_le (n + k0)); [lia|done]|]. by split.
Qed.

(** ** Any number of iterations *)

(** The tick at which an iteration starts, the one that a command reads, and
    what the interrupts push at each point of it. *)
Record Iteration : Type := mkIteration { it_now : Z; it_ticks : Z; it_arrivals : list (list Arrival) }.

(** The loop, until the iterations are used up or the machine is off. *)
Fixpoint run_loop (its : list Iteration) (s : Shell) : run (Shell * list Idle) :=
  match its with
  | [] => Ok (s, [])
  | it :: its =>
    '(s, i) ← step (it_now it) (it_ticks it) (deliver_at (it_arrivals it)) s;
    match i with
    | MachineOff => Ok (s, [i])
    | _ => '(s, l) ← run_loop its s; Ok (s, i :: l)
    end
  end.

(** What a run may print. *)
Fixpoint run_cost (its : list Iteration) (s : Shell) : Z :=
  match its with
  | [] => 0
  | it :: its => step_cost (it_now it) (it_ticks it) (deliver_at (it_arrivals it)) s +
    match step (it_now it) (it_ticks it) (deliver_at (it_arrivals it)) s with
    | Ok (_, MachineOff) => 0
    | Ok (s, _) => run_cost its s
    | _ => 0
    end
  end.

Lemma run_cost_pos its : ∀ s, 0 ≤ run_cost its s.
Proof.
  induction its as [|it its IH]; intros s; cbn [run_cost]; [lia|]. pose proof (step_cost_pos (it_now it) (it_ticks it) (deliver_at (it_arrivals it)) s).
  destruct (step _ _ _ s) as [[s' []]| |]; try lia; specialize (IH s'); lia.
Qed.

Lemma run_cost_one it s : run_cost [it] s = step_cost (it_now it) (it_ticks it) (deliver_at (it_arrivals it)) s.
Proof. cbn [run_cost]. destruct (step _ _ _ s) as [[s' []]| |]; lia. Qed.

Lemma run_loop_ok its : Forall (λ it, Forall (Forall arrival_ok) (it_arrivals it)) its → ∀ n s, shell_ok n s → n + run_cost its s < 2 ^ 38 →
  ∃ s' l, run_loop its s = Ok (s', l) ∧ shell_ok (n + run_cost its s) s' ∧
    (length l ≤ length its)%nat ∧ ((length l < length its)%nat → last l = Some MachineOff).
Proof.
  induction 1 as [|it its Ha _ IH]; intros n s Hok Hn; cbn [run_loop run_cost] in *.
  { exists s, []. split; [done|]. split; [by rewrite Z.add_0_r|]. cbn. split; [lia|lia]. }
  assert (n + step_cost (it_now it) (it_ticks it) (deliver_at (it_arrivals it)) s < 2 ^ 38) as Hc.
  { destruct (step _ _ _ s) as [[s' []]| |]; try lia; pose proof (run_cost_pos its s'); lia. }
  destruct (shell_step_ok (it_now it) (it_ticks it) (it_arrivals it) n s Hok Ha Hc) as (s1 & i & Hs & Hok1 & _ & _). rewrite Hs in Hn |- *.
  cbn [mbind outcome_bind]. assert (i = MachineOff ∨ i ≠ MachineOff) as [->|Hi] by (destruct i; by (left + right)).
  { exists s1, [MachineOff]. split; [done|]. split; [by rewrite Z.add_0_r|]. cbn. split; [lia|done]. }
  destruct (IH (n + step_cost (it_now it) (it_ticks it) (deliver_at (it_arrivals it)) s) s1 Hok1) as (s' & l & Hl & Hok' & H1 & H2); [destruct i; [lia|lia|done]|].
  exists s', (i :: l). rewrite Hl. split; [by destruct i|]. split; [rewrite Z.add_assoc; by destruct i|]. cbn [length]. split; [lia|].
  intros Hlt. specialize (H2 ltac:(lia)). destruct l as [|j l]; [done|]. by rewrite last_cons_cons.
Qed.

(** ** The start *)

(** The state before [init]: the console of the boot sequence, no tasks. *)
Definition fresh_shell (c : Console) (k : Keyboard D QK) (mo : Mouse QM) : Shell :=
  mkShell (Console.init device c) k mo MOUSE_CURSOR_new 0 0 [] Scheduler_new 1 1.

Lemma fresh_console c m : kept 2 [] (mkConsole (KWRITER (Console.init device c)) (EMERGENCY_FRAMEBUFFER (Console.init device c)) m)
  (mkKWriter device 0 0 [] [] [] 0 Size16 None).
Proof.
  destruct Hdevice as (Hok & Hw & Hh). split; [|split; [split; [constructor|done]|done]].
  split; [done|]. split; split; cbn; try done; try lia.
Qed.

Lemma spawn_two : ∃ ids sched, (spawn task_one;; spawn task_two) Scheduler_new = (Ok ids, sched) ∧ sched_wf sched.
Proof.
  pose proof (spawn_cases (Scheduler_new (E:=TaskEntry)) task_one Scheduler_new_wf) as H1. change (find_index is_none _) with (Some 0%nat) in H1.
  destruct H1 as (Hi1 & _ & _ & g1 & _ & Hg1 & Hs1). pose proof (spawned_wf _ _ task_one _ Scheduler_new_wf Hi1 Hg1) as Hwf1.
  pose proof (spawn_cases _ task_two Hwf1) as H2. change (find_index is_none _) with (Some 1%nat) in H2.
  destruct H2 as (Hi2 & _ & _ & g2 & _ & Hg2 & Hs2). pose proof (spawned_wf _ _ task_two _ Hwf1 Hi2 Hg2) as Hwf2.
  eexists _, _. split; [|exact Hwf2]. unfold mbind, M_bind. by rewrite Hs1, Hs2.
Qed.

Lemma shell_init_ok now c k mo : mouse_ok mo →
  ∃ s', shell_init get_raster get_raster_width trampoline stack_base now (fresh_shell c k mo) = Ok s' ∧ shell_ok 1024 s' ∧ line s' = [].
Proof.
  intros Hm. unfold shell_init, fresh_shell. cbn [console]. unfold Console.clear_background, with_framebuffer, with_writer. cbn [KWRITER Console.init fb].
  destruct (clear_background_painted device BLACK (screen (Console.init device c)) (proj1 Hdevice)) as (m & -> & _). cbn [mbind outcome_bind].
  destruct spawn_two as (ids & sched & Hsp & Hwf). cbn [scheduler]. rewrite Hsp. set (s1 := set_scheduler _ _ _ _).
  assert (shell_ok 2 s1) as Hok1.
  { destruct Hdevice as (_ & Hw & Hh). split; cbn; try done; [eexists; apply (fresh_console c)|split; cbn; lia]. }
  destruct (tasks_step_ok now 10 2 s1 Hok1) as (Hk & s2 & -> & Hok2 & Hl2); [unfold TASK_OUTPUT; lia|].
  apply (shell_ok_le _ 642) in Hok2 as [(w & (Hg & _ & Hi)) Hp Hx Hm2 Hs Hc]; [|unfold TASK_OUTPUT in Hk; lia]. cbn [mbind outcome_bind].
  destruct (kprint_good _ _ Hfont device PROMPT 642 (console s2) w Hg) as (c3 & w3 & -> & Hg3 & [Hu3 _] & _); [lia|cbn; lia|]. cbn [mbind outcome_bind].
  destruct (draw_cursor_good _ _ Hfont device _ c3 w3 Hg3) as (c4 & w4 & -> & Hg4 & [Hu4 _] & _); [cbn; lia|]. cbn [mbind outcome_bind].
  eexists. split; [reflexivity|]. split; [|done]. destruct Hdevice as (_ & Hw & Hh). split; cbn; try done; [|split; cbn; lia].
  exists w4. split; [eapply good_le; [|exact Hg4]; cbn; lia|]. split; [split; [constructor|done]|]. rewrite Hu4, Hu3. lia.
Qed.

(** C1. The shell never panics: started on the framebuffer that the console
    was initialized with, its setup runs through and leaves an empty line, and
    then so does a run of its loop, with any ticks, with any scancodes and mouse
    bytes that the interrupts push at any point and any decoder of scancodes;
    the loop ends early only when a command has switched the machine off, and
    afterwards the pointer is on the screen, the scheduler's table is well formed
    and the console works.  The run may have any number of iterations as long as
    what happens in it costs less than 2^38 - 1024, where a task that runs costs
    64, a report of dropped input 64, and a key 16 and what its command prints
    ([run_cost]); iterations in which nothing of this happens are free. *)
Theorem shell_never_panics (now : Z) (its : list Iteration) (c : Console) (k : Keyboard D QK) (mo : Mouse QM) :
  mouse_ok mo → Forall (λ it, Forall (Forall arrival_ok) (it_arrivals it)) its →
  ∃ s1, shell_init get_raster get_raster_width trampoline stack_base now (fresh_shell c k mo) = Ok s1 ∧ line s1 = [] ∧
  (1024 + run_cost its s1 < 2 ^ 38 →
   ∃ s' l, run_loop its s1 = Ok (s', l) ∧ ((length l < length its)%nat → last l = Some MachineOff) ∧
     pointer_inside device (mouse_x s') (mouse_y s') ∧ sched_wf (scheduler s') ∧ mouse_ok (mouse s') ∧
     ∃ w, KWRITER (console s') = Some w ∧ sane device w).
Proof.
  intros Hm Ha. destruct (shell_init_ok now c k mo Hm) as (s1 & Hs1 & Hok1 & Hl1). exists s1. split; [done|]. split; [done|]. intros Hn.
  destruct (run_loop_ok its Ha 1024 s1 Hok1 Hn) as (s' & l & Hr & [(w & ((Hw & Hsane & _) & _)) _ Hx Hm' Hs _] & _ & Hl).
  exists s', l. split_and!; try done. by exists w.
Qed.
End loop.

(** ** Witness: a byte of the mouse and a key arrive in the first iteration *)

Lemma demo_mouse_ok : mouse_ok (RM:=list_ring 256) (RingBufferLaws0:=list_ring_laws 256) 256 (mkMouse (mkShared (Some []) 0) PACKET_STATE_new).
Proof. split; [split_and!; [done|cbn; lia|done]|apply (bool_decide_unpack _); exact I|constructor]. Qed.

Lemma shell_never_panics_witness : ∃ s1 s' l,
  shell_init demo_raster demo_width 4096 demo_base 0
    (fresh_shell (D:=unit) (QK:=list Z) demo_field (mkConsole None None (λ _, 0)) demo_keyboard (mkMouse (mkShared (Some []) 0) PACKET_STATE_new)) = Ok s1 ∧
  run_loop (H:=demo_decoder) (RK:=list_ring 256) (RM:=list_ring 256) demo_raster demo_width 4096 demo_base demo_sys
    [mkIteration 100 100 [[MouseByte 8]; []; [Scancode 46]; []]] s1 = Ok (s', l) ∧
  pointer_inside demo_field (mouse_x s') (mouse_y s').
Proof.
  destruct (shell_never_panics (D:=unit) (QK:=list Z) (QM:=list Z) (H:=demo_decoder) (RK:=list_ring 256) (RM:=list_ring 256)
    (RingBufferLaws0:=list_ring_laws 256) demo_raster demo_width demo_font_ok demo_field demo_field_fits 256 4096 demo_base demo_base_ok demo_sys
    0 [mkIteration 100 100 [[MouseByte 8]; []; [Scancode 46]; []]] (mkConsole None None (λ _, 0)) demo_keyboard (mkMouse (mkShared (Some []) 0) PACKET_STATE_new))
    as (s1 & Hs1 & Hl1 & Hrun).
  - exact demo_mouse_ok.
  - repeat constructor; lia.
  - destruct Hrun as (s' & l & Hr & _ & Hx & _).
    + eapply Z.le_lt_trans; [apply Z.add_le_mono_l; rewrite run_cost_one; apply step_cost_bound|]. rewrite Hl1. by vm_compute.
    + exists s1, s', l. split; [exact Hs1|]. split; [exact Hr|exact Hx].
Defined.
