(* ===== verification/Cpu.v ===== *)
(** * Cpu: the processor's interrupt flag and its halting, as
    [src/platform/mod.rs] uses them through the x86_64 crate, and the flag
    around [interrupts::init]. *)

From S2P Require Import Prelude.

(** ** The processor

    The instructions behind [x86_64::instructions]: whether interrupts are
    enabled, whether the processor is halted, and [without_interrupts]. *)

Class Processor (S : Type) := {
  are_enabled : S → bool;
  is_halted : S → bool;
  cli : S → S;
  sti : S → S;
  hlt : S → S;
  sti_hlt : S → S;
  wake : S → S;
  crate_without_interrupts {A} : (S → A * S) → S → A * S;
}.

(** What the processor's manual and the crate's documentation say of them: [sti]
    takes effect behind the next instruction, so that [sti; hlt] cannot be
    interrupted between the two; [without_interrupts] runs its closure with
    interrupts off and enables them again if they were enabled before. *)
Class ProcessorLaws (S : Type) `{Processor S} : Prop := {
  cli_law s : are_enabled (cli s) = false ∧ is_halted (cli s) = is_halted s;
  sti_law s : are_enabled (sti s) = true ∧ is_halted (sti s) = is_halted s;
  hlt_law s : are_enabled (hlt s) = are_enabled s ∧ is_halted (hlt s) = true;
  sti_hlt_law s : are_enabled (sti_hlt s) = true ∧ is_halted (sti_hlt s) = true;
  wake_law s : are_enabled (wake s) = are_enabled s ∧ is_halted (wake s) = false;
  without_law {A} (f : S → A * S) s :
    crate_without_interrupts f s =
      let '(a, s1) := f (if are_enabled s then cli s else s) in (a, if are_enabled s then sti s1 else s1);
}.

(** ** The operations of [platform]

    [x86_64] says whether the target is the kernel's; a host build runs the
    fallbacks. *)

Section platform.
Context {S : Type} `{Processor S} (x86_64 : bool).

Definition without_interrupts {R} (operation : S → R * S) (s : S) : R * S :=
  if x86_64 then crate_without_interrupts operation s else operation s.

Definition interrupts_enabled (s : S) : bool := if x86_64 then are_enabled s else false.
Definition halt (s : S) : S := if x86_64 then hlt s else s.
Definition disable_interrupts (s : S) : S := if x86_64 then cli s else s.
Definition enable_and_hlt (s : S) : S := if x86_64 then sti_hlt s else s.
Definition enable_interrupts (s : S) : S := if x86_64 then sti s else s.
End platform.

(** [interrupts::init]: [setup] programs the tables and the devices. *)
Definition guarded_init {S A} `{Processor S} (x86_64 : bool) (setup : S → A * S) (s : S) : A * S :=
  let '(a, s) := without_interrupts x86_64 setup s in (a, sti s).

(** The set-up of the interrupts runs with interrupts off, whatever the flag was,
    and leaves them on. *)
Lemma guarded_init_masked {S A} `{ProcessorLaws S} (setup : S → A * S) s :
  ∃ s0, are_enabled s0 = false ∧ is_halted s0 = is_halted s ∧ fst (guarded_init true setup s) = fst (setup s0) ∧
    are_enabled (snd (guarded_init true setup s)) = true.
Proof.
  exists (if are_enabled s then cli s else s). unfold guarded_init, without_interrupts. rewrite without_law.
  destruct (setup _) as [a s1] eqn:Hs. cbn [fst snd]. split_and!; [|by destruct (are_enabled s), (cli_law s)|done|by destruct (sti_law (if are_enabled s then sti s1 else s1))].
  destruct (are_enabled s) eqn:He; [apply cli_law|done].
Qed.

(** ** A processor of two flags *)

Definition Flags : Type := bool * bool.

#[local] Instance two_flags : Processor Flags := {|
  are_enabled := fst;
  is_halted := snd;
  cli s := (false, snd s);
  sti s := (true, snd s);
  hlt s := (fst s, true);
  sti_hlt _ := (true, true);
  wake s := (fst s, false);
  crate_without_interrupts A f s :=
    let '(a, s1) := f (if fst s then (false, snd s) else s) in (a, if fst s then (true, snd s1) else s1);
|}.

Lemma two_flags_laws : ProcessorLaws Flags.
Proof. by split. Qed.
