(* ===== verification/Idle.v ===== *)
(** * Idle: the end of an iteration of the shell's loop, instruction by
    instruction, while the devices raise interrupts.  The loop decides to halt
    with interrupts off and halts in the instruction that turns them on, so it
    never sleeps on input, and the decision is the one that Shell takes at once. *)

From Stdlib Require Import String.
From S2P Require Import Prelude Globals Memory Frame Heap Task Text Timer Graphics Ports Keyboard Mouse Commands Console Terminal LineEditor Output Shell Pointer Session Loop Cpu.

Section idle.
Context {S : Type} `{PR : Processor S} {laws : ProcessorLaws S}.
Context {D QK QM : Type} `{Decoder D} `{RK : RingBuffer Z QK} `{RM : RingBuffer Z QM}.

Abbreviation Sh := (Shell (D:=D) (QK:=QK) (QM:=QM)) (only parsing).

(** Where the processor is: in the rest of the loop, before one of the two
    tests, or before the branch. *)
Inductive Point : Type := Working | TestKeyboard | TestMouse | Branch (input_queues_empty : bool).

(** An interrupt: input, or the timer. *)
Inductive Interrupt : Type := Input (a : Arrival) | Tick.

(** [raised] are the interrupts that the controllers hold back. *)
Record Machine : Type := mkMachine { cpu : S; shell : Sh; raised : list Interrupt; point : Point }.

(** The statements behind the keys in [init]'s loop, one at a time. *)
Definition tail_step (m : Machine) : Machine :=
  match point m with
  | Working => mkMachine (disable_interrupts true (cpu m)) (shell m) (raised m) TestKeyboard
  | TestKeyboard =>
    mkMachine (cpu m) (shell m) (raised m) (if keyboard_queue_is_empty (keyboard (shell m)) then TestMouse else Branch false)
  | TestMouse => mkMachine (cpu m) (shell m) (raised m) (Branch (mouse_queue_is_empty (mouse (shell m))))
  | Branch true => mkMachine (enable_and_hlt true (cpu m)) (shell m) (raised m) Working
  | Branch false => mkMachine (enable_interrupts true (cpu m)) (shell m) (raised m) Working
  end.

(** A handler: the queue takes the input, and a halted processor wakes up. *)
Definition take_interrupt (i : Interrupt) (rest : list Interrupt) (m : Machine) : Machine :=
  mkMachine (wake (cpu m)) (match i with Input a => arrive_one a (shell m) | Tick => shell m end) rest (point m).

(** The steps of the machine: a device raises an interrupt; the processor takes
    one, between any two instructions when interrupts are on; or it runs on.  In
    the rest of the loop it may do anything to the shell, and leaves the flag
    alone. *)
Inductive machine_step : Machine → Machine → Prop :=
  | step_raise i m : machine_step m (mkMachine (cpu m) (shell m) (raised m ++ [i]) (point m))
  | step_take i rest m : are_enabled (cpu m) = true → raised m = i :: rest → machine_step m (take_interrupt i rest m)
  | step_work s m : is_halted (cpu m) = false → point m = Working → machine_step m (mkMachine (cpu m) s (raised m) Working)
  | step_tail m : is_halted (cpu m) = false → machine_step m (tail_step m).

Inductive machine_steps : Machine → Machine → Prop :=
  | steps_refl m : machine_steps m m
  | steps_step m1 m2 m3 : machine_steps m1 m2 → machine_step m2 m3 → machine_steps m1 m3.

(** ** The invariant *)

(** What each point knows.  Interrupts are off exactly between the decision's
    start and its end, and meanwhile the queues keep what the tests saw. *)
Definition point_ok (m : Machine) : Prop :=
  let k := keyboard_queue_is_empty (keyboard (shell m)) in let b := mouse_queue_is_empty (mouse (shell m)) in
  match point m with
  | Working => are_enabled (cpu m) = true ∧ (is_halted (cpu m) = true → k = true ∧ b = true)
  | TestKeyboard => are_enabled (cpu m) = false ∧ is_halted (cpu m) = false
  | TestMouse => are_enabled (cpu m) = false ∧ is_halted (cpu m) = false ∧ k = true
  | Branch e => are_enabled (cpu m) = false ∧ is_halted (cpu m) = false ∧ e = k && b
  end.

Lemma tail_step_ok m : is_halted (cpu m) = false → point_ok m → point_ok (tail_step m).
Proof.
  intros Hh. destruct m as [c s r p]. unfold point_ok, tail_step. cbn [cpu shell raised point] in *.
  unfold disable_interrupts, enable_interrupts, enable_and_hlt.
  destruct p as [| | |[]]; cbn [cpu shell raised point].
  - intros _. destruct (cli_law c) as [-> ->]. done.
  - intros [He _]. destruct (keyboard_queue_is_empty _); cbn; by split_and!.
  - intros (He & _ & Hk). rewrite Hk. by split_and!.
  - intros (_ & _ & He). destruct (sti_hlt_law c) as [-> _]. split; [done|]. intros _. by apply symmetry, andb_true_iff in He.
  - intros (_ & _ & _). destruct (sti_law c) as [-> ->]. split; [done|]. by rewrite Hh.
Qed.

Lemma machine_step_ok m m' : machine_step m m' → point_ok m → point_ok m'.
Proof.
  intros Hs Hok. destruct Hs as [i m|i rest m He Hr|s m Hh Hp|m Hh].
  - exact Hok.
  - unfold point_ok in *. cbn [take_interrupt cpu shell raised point]. destruct (wake_law (cpu m)) as [-> ->].
    destruct (point m); [by split|..]; destruct Hok as (Hok & _); congruence.
  - unfold point_ok in *. rewrite Hp in Hok. cbn [cpu shell raised point]. destruct Hok as [? _]. split; [done|]. by rewrite Hh.
  - by apply tail_step_ok.
Qed.

Lemma machine_steps_ok m m' : machine_steps m m' → point_ok m → point_ok m'.
Proof. induction 1 as [m|m1 m2 m3 _ IH Hs]; [done|]. intros Hm. by eapply machine_step_ok, IH. Qed.

(** A run that no interrupt can disturb: from the instruction that turns them
    off to the branch the machine only runs on. *)
Lemma masked_step m m' : are_enabled (cpu m) = false → point m ≠ Working → machine_step m m' →
  shell m' = shell m ∧ (m' = mkMachine (cpu m) (shell m) (raised m') (point m) ∨ m' = tail_step m).
Proof.
  intros He Hp Hs. destruct Hs as [i m|i rest m He' _|s m _ Hp'|m _]; [by split; [|left]|congruence|done|].
  split; [|by right]. unfold tail_step. by destruct (point m) as [| | |[]].
Qed.

(** C6. The shell never sleeps on input.  Wherever the interrupts arrive, between
    any two instructions: when the processor is halted, interrupts are on, both
    queues are empty and the next interrupt that a device has raised or raises
    wakes it, with its input in the queue.  The decision of an iteration is taken
    on a state that does not change meanwhile, and is that of [Shell.idle]. *)
Theorem no_lost_wakeup c s m : are_enabled c = true → is_halted c = false →
  machine_steps (mkMachine c s [] Working) m →
  (is_halted (cpu m) = true → are_enabled (cpu m) = true ∧
     keyboard_queue_is_empty (keyboard (shell m)) = true ∧ mouse_queue_is_empty (mouse (shell m)) = true ∧
     ∀ i rest, raised m = i :: rest → ∃ m', machine_step m m' ∧ is_halted (cpu m') = false ∧
       shell m' = match i with Input a => arrive_one a (shell m) | Tick => shell m end) ∧
  (∀ e, point m = Branch e → (if e then EnableAndHlt else EnableInterrupts) = Shell.idle (shell m)) ∧
  (point m ≠ Working → ∀ m', machine_step m m' → shell m' = shell m).
Proof.
  intros He Hh Hs. apply machine_steps_ok in Hs; [|split; [done|cbn; by rewrite Hh]]. split_and!.
  - intros Hhalt. unfold point_ok in Hs. destruct (point m); [|destruct Hs as (_ & Hs & _) || destruct Hs as (_ & Hs); congruence..].
    destruct Hs as [Hon Hq]. destruct (Hq Hhalt) as [Hk Hb]. split_and!; try done. intros i rest Hr.
    exists (take_interrupt i rest m). split; [by apply step_take|]. cbn. by destruct (wake_law (cpu m)) as [_ ->].
  - intros e Hp. unfold point_ok in Hs. rewrite Hp in Hs. destruct Hs as (_ & _ & ->). unfold Shell.idle. by destruct (_ && _).
  - intros Hp m' Hm. apply (masked_step m m'); [|done|done]. unfold point_ok in Hs. destruct (point m); [done|by destruct Hs..].
Qed.
End idle.

(** ** Witness: a key arrives while the processor is about to halt *)

#[local] Existing Instance two_flags.

Definition demo_shell : Shell (D:=unit) (QK:=list Z) (QM:=list Z) :=
  fresh_shell demo_field (mkConsole None None (λ _, 0)) (mkKeyboard (mkShared (Some []) 0) tt false) (mkMouse (mkShared (Some []) 0) PACKET_STATE_new).

#[local] Abbreviation tail := (tail_step (RK:=list_ring 256) (RM:=list_ring 256)) (only parsing).
#[local] Abbreviation steps := (machine_steps (RK:=list_ring 256) (RM:=list_ring 256)) (only parsing).

(** Interrupts off, a key that has to wait, two tests, and the halt. *)
Definition demo_halted : Machine (S:=Flags) (D:=unit) (QK:=list Z) (QM:=list Z) :=
  let m := tail (mkMachine (true, false) demo_shell [] Working) in
  tail (tail (tail (mkMachine (cpu m) (shell m) (raised m ++ [Input (Scancode 46)]) (point m)))).

Lemma demo_steps : steps (mkMachine (true, false) demo_shell [] Working) demo_halted.
Proof.
  eapply steps_step; [|by apply step_tail]. eapply steps_step; [|by apply step_tail]. eapply steps_step; [|by apply step_tail].
  eapply steps_step; [|apply step_raise]. eapply steps_step; [apply steps_refl|by apply step_tail].
Qed.

Lemma no_lost_wakeup_witness : is_halted (cpu demo_halted) = true ∧ ∃ m',
  machine_step (RK:=list_ring 256) (RM:=list_ring 256) demo_halted m' ∧ is_halted (cpu m') = false ∧
  queue_items 256 (RingBufferLaws0:=list_ring_laws 256) (KEYBOARD_QUEUE (keyboard (shell m'))) = [46].
Proof.
  split; [reflexivity|].
  destruct (no_lost_wakeup (RK:=list_ring 256) (RM:=list_ring 256) (laws:=two_flags_laws) (true, false) demo_shell demo_halted eq_refl eq_refl demo_steps) as (Hh & _ & _).
  destruct (Hh eq_refl) as (_ & _ & _ & Hw). destruct (Hw (Input (Scancode 46)) [] eq_refl) as (m' & Hm & Hr & Hs).
  exists m'. split; [exact Hm|]. split; [exact Hr|]. rewrite Hs. reflexivity.
Defined.
