(* ===== verification/Faults.v ===== *)
(** * Faults: the exception handlers of [src/interrupts/handlers.rs] and the
    panic handler of [src/main.rs].

    A fatal exception reports on the screen through [emergency_print], which
    takes no lock and allocates nothing, and halts.  The report is laid out in
    cells of text; a reference layout says where each character goes. *)

From Stdlib Require Import String.
From S2P Require Import Prelude Globals Text Graphics Ports Keyboard Mouse Interrupts Console Terminal Session.
Open Scope Z_scope.

(** ** The handlers *)

(** What the processor pushed, and how the x86_64 crate prints it. *)
Class ExceptionFrame (F : Type) := {
  instruction_pointer : F → Z;
  frame_stack_pointer : F → Z;
  debug_frame : F → list str;
  debug_error_code : Z → list str;
}.

(** How a handler ends: it halts the processor, returns to the interrupted
    code, or waits for a lock that the interrupted code holds. *)
Inductive Fate : Type := Halted | Returned | Deadlocked.

#[export] Instance Fate_eq_dec : EqDecision Fate.
Proof. solve_decision. Defined.

Section handlers.
Context (get_raster : char → RasterHeight → option RasterizedChar) (get_raster_width : RasterHeight → Z).
Context {F : Type} `{ExceptionFrame F}.

(** The pieces of the lines that every report of a named exception ends with. *)
Definition frame_lines (frame : F) : list str :=
  [10 :: lit "RIP: "; show_hex (instruction_pointer frame); lit " RSP: "; show_hex (frame_stack_pointer frame); [10]] ++
  debug_frame frame ++ [[10]].

(** The texts of [fatal_exception] and [fatal_exception_with_code]. *)
Definition fatal_report (name : str) (frame : F) : list str :=
  [lit "EXCEPTION: "; name] ++ frame_lines frame.
Definition fatal_report_with_code (name : str) (frame : F) (error_code : Z) : list str :=
  [lit "EXCEPTION: "; name; lit " (error code: "; show_hex error_code; lit ")"] ++ frame_lines frame.

Definition fatal_exception (name : str) (frame : F) (c : Console) : run (Console * Fate) :=
  c ← emergency_print get_raster get_raster_width (fatal_report name frame) c; Ok (c, Halted).
Definition fatal_exception_with_code (name : str) (frame : F) (error_code : Z) (c : Console) : run (Console * Fate) :=
  c ← emergency_print get_raster get_raster_width (fatal_report_with_code name frame error_code) c; Ok (c, Halted).

(** [breakpoint] *)
Definition breakpoint_report (frame : F) : list str := (lit "BREAKPOINT" ++ [10]) :: debug_frame frame ++ [[10]].
Definition on_breakpoint (frame : F) (c : Console) : run (Console * Fate) :=
  c ← emergency_print get_raster get_raster_width (breakpoint_report frame) c; Ok (c, Returned).

(** [page_fault], with the address in CR2. *)
Definition page_fault_report (frame : F) (error_code address : Z) : list str :=
  [lit "PAGE FAULT at "; show_hex address; lit " ("] ++ debug_error_code error_code ++ [41 :: [10]] ++ debug_frame frame ++ [[10]].
Definition on_page_fault (frame : F) (error_code address : Z) (c : Console) : run (Console * Fate) :=
  c ← emergency_print get_raster get_raster_width (page_fault_report frame error_code address) c; Ok (c, Halted).

(** [double_fault] and [machine_check] *)
Definition silent_halt (c : Console) : run (Console * Fate) := Ok (c, Halted).

(** The handler that a gate names, when it is one of an exception. *)
Definition handle_exception (h : handler) (frame : F) (error_code cr2 : Z) : option (Console → run (Console * Fate)) :=
  match h with
  | divide_error => Some (fatal_exception (lit "divide error") frame)
  | debug => Some (fatal_exception (lit "debug") frame)
  | non_maskable_interrupt => Some (fatal_exception (lit "non-maskable interrupt") frame)
  | overflow => Some (fatal_exception (lit "overflow") frame)
  | bound_range_exceeded => Some (fatal_exception (lit "bound range exceeded") frame)
  | invalid_opcode => Some (fatal_exception (lit "invalid opcode") frame)
  | device_not_available => Some (fatal_exception (lit "device not available") frame)
  | x87_floating_point => Some (fatal_exception (lit "x87 floating point") frame)
  | simd_floating_point => Some (fatal_exception (lit "SIMD floating point") frame)
  | virtualization => Some (fatal_exception (lit "virtualization") frame)
  | hv_injection_exception => Some (fatal_exception (lit "hypervisor injection") frame)
  | invalid_tss => Some (fatal_exception_with_code (lit "invalid TSS") frame error_code)
  | segment_not_present => Some (fatal_exception_with_code (lit "segment not present") frame error_code)
  | stack_segment_fault => Some (fatal_exception_with_code (lit "stack segment fault") frame error_code)
  | general_protection_fault => Some (fatal_exception_with_code (lit "general protection fault") frame error_code)
  | alignment_check => Some (fatal_exception_with_code (lit "alignment check") frame error_code)
  | cp_protection_exception => Some (fatal_exception_with_code (lit "control protection exception") frame error_code)
  | vmm_communication_exception => Some (fatal_exception_with_code (lit "VMM communication exception") frame error_code)
  | security_exception => Some (fatal_exception_with_code (lit "security exception") frame error_code)
  | breakpoint => Some (on_breakpoint frame)
  | page_fault => Some (on_page_fault frame error_code cr2)
  | double_fault | machine_check => Some silent_halt
  | timer | keyboard | mouse => None
  end.

(** An exception: the processor looks up the gate of its vector. *)
Definition raise_exception (idt : gmap Z Gate) (vector : Z) (frame : F) (error_code cr2 : Z) (c : Console) : option (run (Console * Fate)) :=
  g ← idt !! vector; f ← handle_exception (gate_handler g) frame error_code cr2; Some (f c).

(** ** The panic handler *)

(** [panic] of main.rs.  [lock_held]: whether the code that panicked was holding
    the console's lock, for which [kprintln!] then waits forever.  Before the
    boot services are left the lines go to the firmware. *)
Definition show_location (location : str * Z * Z) : str :=
  let '(file, line, column) := location in
  lit "Location : " ++ file ++ lit ":" ++ show_u64 line ++ lit ":" ++ show_u64 column.
Definition PANIC_BAR : str := lit "========================================".
Definition PANIC_TITLE : str := lit "              KERNEL PANIC".

Definition panic_report (location : option (str * Z * Z)) (message : str) (c : Console) : run Console :=
  let kprint := kprint get_raster get_raster_width in
  let kprintln := kprintln get_raster get_raster_width in
  c ← kprintln PANIC_BAR c;
  c ← kprintln PANIC_TITLE c;
  c ← kprintln PANIC_BAR c;
  c ← kprint [10] c;
  c ← match location with Some location => kprintln (show_location location) c | None => Ok c end;
  c ← kprintln (lit "Message  : " ++ message) c;
  c ← kprint [10] c;
  kprintln (lit "System halted.") c.

(** The console, what the firmware prints, and how it ends. *)
Definition panic_handler (BOOT_SERVICES_EXITED lock_held : bool) (location : option (str * Z * Z)) (message info : str) (c : Console) :
    run (Console * list str * Fate) :=
  if BOOT_SERVICES_EXITED then
    if lock_held then Ok (c, [], Deadlocked) else
    c ← panic_report location message c; Ok (c, [], Halted)
  else Ok (c, [PANIC_BAR; PANIC_TITLE; PANIC_BAR; info], Halted).
End handlers.

(** ** Where a report's characters go *)

(** The characters with their cells, and the position behind the text. *)
Fixpoint report_cells (cols rows : Z) (text : str) (x y : Z) : list (char * Z * Z) * (Z * Z) :=
  match text with
  | [] => ([], (x, y))
  | ch :: text =>
    if ch =? 10 then report_cells cols rows text 0 (saturating_add y 1) else
    let '(x, y) := if cols <=? x then (0, saturating_add y 1) else (x, y) in
    if rows <=? y then ([], (x, y)) else
    let '(l, p) := report_cells cols rows text (x + 1) y in ((ch, x, y) :: l, p)
  end.

(** Below the screen nothing is shown any more. *)
Lemma report_cells_below cols rows text x y : rows ≤ y ≤ u64_max → fst (report_cells cols rows text x y) = [] ∧
  rows ≤ snd (snd (report_cells cols rows text x y)) ≤ u64_max.
Proof.
  revert x y. induction text as [|ch text IH]; intros x y Hy; cbn [report_cells]; [by split|].
  destruct (ch =? 10); [apply IH; unfold saturating_add; lia|].
  destruct (cols <=? x); cbv beta iota zeta; rewrite (proj2 (Z.leb_le _ _)); cbn; unfold saturating_add; lia || (split; [done|lia]).
Qed.

Lemma report_cells_app cols rows t1 t2 : rows ≤ u64_max → ∀ x y, 0 ≤ y ≤ u64_max →
  fst (report_cells cols rows (t1 ++ t2) x y) =
  fst (report_cells cols rows t1 x y) ++ (let '(x', y') := snd (report_cells cols rows t1 x y) in fst (report_cells cols rows t2 x' y')).
Proof.
  intros Hr. induction t1 as [|ch t1 IH]; intros x y Hy; cbn [report_cells app]; [done|].
  destruct (ch =? 10); [apply IH; unfold saturating_add; lia|].
  set (p := if cols <=? x then _ else _). assert (0 ≤ snd p ≤ u64_max) as Hp by (unfold p; destruct (cols <=? x); cbn; unfold saturating_add; lia).
  destruct p as [x1 y1]. cbn [snd] in Hp. destruct (Z.leb_spec rows y1) as [Hy1|].
  - cbn [fst snd app]. by rewrite (proj1 (report_cells_below cols rows t2 x1 y1 ltac:(lia))).
  - specialize (IH (x1 + 1) y1 Hp). destruct (report_cells cols rows (t1 ++ t2) _ _) as [l p'], (report_cells cols rows t1 _ _) as [l1 p1].
    cbn [fst snd] in *. by rewrite IH.
Qed.

(** The position stays a position. *)
Lemma report_cells_end cols rows text : ∀ x y, 0 ≤ x → 0 ≤ y ≤ u64_max →
  0 ≤ fst (snd (report_cells cols rows text x y)) ≤ Z.max x (Z.max cols 1) ∧ 0 ≤ snd (snd (report_cells cols rows text x y)) ≤ u64_max.
Proof.
  induction text as [|ch text IH]; intros x y Hx Hy; cbn [report_cells]; [cbn; lia|].
  destruct (ch =? 10).
  { destruct (IH 0 (saturating_add y 1)) as [H1 H2]; [lia|unfold saturating_add; lia|]. split; [lia|done]. }
  set (p := if cols <=? x then _ else _). assert (0 ≤ fst p < Z.max cols 1 ∧ 0 ≤ snd p ≤ u64_max) as [Hp1 Hp2]
    by (unfold p; destruct (Z.leb_spec cols x); cbn; unfold saturating_add; lia).
  destruct p as [x1 y1]. cbn [fst snd] in *. destruct (rows <=? y1); [cbn; lia|].
  destruct (IH (x1 + 1) y1) as [H1 H2]; [lia|done|]. destruct (report_cells cols rows text (x1 + 1) y1). cbn [fst snd] in *. lia.
Qed.

(** Reading order: a cell of the text is on the screen and not before the
    position where the text starts. *)
Definition not_before (x y x' y' : Z) : Prop := y < y' ∨ y = y' ∧ x ≤ x'.

Definition placed (cols rows x y : Z) (c : char * Z * Z) : Prop :=
  let '(ch, x', y') := c in
  ch ≠ 10 ∧ 0 ≤ x' < Z.max cols 1 ∧ 0 ≤ y' < rows ∧ not_before x y x' y'.

Lemma placed_le cols rows x y x1 y1 l : not_before x y x1 y1 → Forall (placed cols rows x1 y1) l → Forall (placed cols rows x y) l.
Proof.
  intros Hn. apply List.Forall_impl. intros [[ch x'] y'] (? & ? & ? & ?). unfold placed, not_before in *. split_and!; try done; lia.
Qed.

Lemma report_cells_order cols rows text : rows ≤ u64_max → ∀ x y, 0 ≤ x → 0 ≤ y ≤ u64_max →
  Forall (placed cols rows x y) (fst (report_cells cols rows text x y)) ∧
  NoDup (map (λ '(_, x', y'), (x', y')) (fst (report_cells cols rows text x y))).
Proof.
  intros Hr. induction text as [|ch text IH]; intros x y Hx Hy; cbn [report_cells]; [by split; constructor|].
  destruct (Z.eqb_spec ch 10) as [|Hch].
  { destruct (IH 0 (saturating_add y 1)) as [H1 H2]; [lia|unfold saturating_add; lia|]. split; [|done].
    destruct (Z.eq_dec y u64_max) as [->|].
    - rewrite (proj1 (report_cells_below cols rows text 0 (saturating_add u64_max 1) ltac:(unfold saturating_add; lia))). constructor.
    - eapply placed_le; [|exact H1]. unfold not_before, saturating_add. lia. }
  set (p := if cols <=? x then _ else _).
  assert (0 ≤ fst p ∧ 0 ≤ snd p ≤ u64_max ∧ (rows ≤ snd p ∨ fst p < Z.max cols 1 ∧ not_before x y (fst p) (snd p))) as (Hp1 & Hp2 & Hp3).
  { unfold p, not_before. destruct (Z.leb_spec cols x); cbn; unfold saturating_add; lia. }
  destruct p as [x1 y1]. cbn [fst snd] in *. destruct (Z.leb_spec rows y1); [by split; constructor|].
  destruct Hp3 as [|[Hp3 Hp4]]; [lia|]. destruct (IH (x1 + 1) y1) as [H1 H2]; [lia|done|].
  destruct (report_cells cols rows text (x1 + 1) y1) as [l p']. cbn [fst] in *. split.
  - constructor; [unfold placed; split_and!; done || lia|]. eapply placed_le; [|exact H1]. unfold not_before in *. lia.
  - cbn [map]. constructor; [|exact H2]. rewrite list_elem_of_fmap. intros ([[ch' x'] y'] & Heq & Hin). injection Heq as <- <-.
    destruct (proj1 (Forall_forall _ _) H1 _ Hin) as (_ & _ & _ & Hb). unfold not_before in Hb. lia.
Qed.

(** ** The picture of a report *)

(** The character in a cell. *)
Definition char_at (cells : list (char * Z * Z)) (x y : Z) : option char :=
  (λ '(ch, _, _), ch) <$> List.find (λ '(_, x', y'), (x' =? x) && (y' =? y)) cells.

Lemma char_at_elem cells ch x y : NoDup (map (λ '(_, x', y'), (x', y')) cells) → (ch, x, y) ∈ cells → char_at cells x y = Some ch.
Proof.
  unfold char_at. induction cells as [|[[ch' x'] y'] cells IH]; [by intros _ ?%not_elem_of_nil|]. cbn [map List.find].
  intros [Hn Hd]%NoDup_cons [[= <- <- <-]|Hin]%elem_of_cons; [by rewrite !Z.eqb_refl|].
  destruct ((x' =? x) && (y' =? y)) eqn:He; [exfalso|by apply IH].
  apply andb_true_iff in He as [->%Z.eqb_eq ->%Z.eqb_eq]. apply Hn, list_elem_of_fmap. by exists (ch, x, y).
Qed.

Lemma char_at_Some cells ch x y : char_at cells x y = Some ch → (ch, x, y) ∈ cells.
Proof.
  unfold char_at. destruct (List.find _ cells) as [[[ch' x'] y']|] eqn:Hf; [|done]. intros [= <-].
  apply find_some in Hf as [Hin [->%Z.eqb_eq ->%Z.eqb_eq]%andb_true_iff]. by apply list_elem_of_In.
Qed.

Section picture.
Context (get_raster : char → RasterHeight → option RasterizedChar) (get_raster_width : RasterHeight → Z).
Hypothesis Hfont : font_ok get_raster get_raster_width.

Abbreviation fw := (get_raster_width Size16).
Abbreviation fh := (cell_height Size16).

(** The pixels that a text in its cells sets, and their colors. *)
Definition report_pixel (cells : list (char * Z * Z)) (px py : Z) : bool :=
  match char_at cells (px / fw) (py / fh) with
  | Some ch => negb (char_intensity get_raster ch Size16 (px mod fw) (py mod fh) =? 0)
  | None => false
  end.
Definition report_color (cells : list (char * Z * Z)) (px py : Z) : Color :=
  match char_at cells (px / fw) (py / fh) with
  | Some ch => char_color get_raster ch Size16 (px mod fw) (py mod fh)
  | None => BLACK
  end.

Definition draw_cell (fb : Framebuffer) (m : mem) (c : char * Z * Z) : run mem :=
  let '(ch, x, y) := c in draw_text get_raster get_raster_width fb [ch] x y WHITE (Some Size16) m.

Definition cell_pixel (c : char * Z * Z) (px py : Z) : bool :=
  let '(ch, x, y) := c in negb (char_intensity get_raster ch Size16 (px - x * fw) (py - y * fh) =? 0).

(** A pixel of a glyph is in the glyph's cell. *)
Lemma cell_pixel_inside ch x y px py : cell_pixel (ch, x, y) px py = true →
  px / fw = x ∧ py / fh = y ∧ px mod fw = px - x * fw ∧ py mod fh = py - y * fh.
Proof.
  unfold cell_pixel. intros Hi%negb_true_iff%Z.eqb_neq. apply (intensity_inside _ _ Hfont) in Hi as [Hx Hy].
  assert (px / fw = x) as Hdx by (symmetry; apply (Z.div_unique _ _ _ (px - x * fw)); lia).
  assert (py / fh = y) as Hdy by (symmetry; apply (Z.div_unique _ _ _ (py - y * fh)); lia).
  split_and!; [done..| |]; rewrite Z.mod_eq by lia; [rewrite Hdx|rewrite Hdy]; lia.
Qed.

Lemma draw_cells_painted fb cells m : fb_ok fb → NoDup (map (λ '(_, x, y), (x, y)) cells) →
  Forall (λ '(ch, x, y), ch ≠ 10 ∧ 0 ≤ x < 2 ^ 48 ∧ 0 ≤ y < 2 ^ 48) cells →
  ∃ m', foldM (draw_cell fb) m cells = Ok m' ∧ painted fb (report_pixel cells) (report_color cells) m m'.
Proof.
  intros Hok Hd Hc. destruct (foldM_painted fb (draw_cell fb) cell_pixel (report_color cells) cells m Hok) as (m' & Hf & Hp).
  - intros m0 [[ch x] y] Hin. pose proof (proj1 (Forall_forall _ _) Hc _ Hin) as (Hch & Hx & Hy).
    destruct (draw_char_painted _ _ Hfont fb ch x y Size16 m0 Hok Hch Hx Hy) as (m' & Hdr & Hp). exists m'. split; [exact Hdr|].
    revert Hp. apply painted_ext; [done|]. intros px py _ Hpx. apply cell_pixel_inside in Hpx as (H1 & H2 & H3 & H4).
    unfold report_color. by rewrite H1, H2, (char_at_elem _ ch _ _ Hd Hin), H3, H4.
  - exists m'. split; [exact Hf|]. revert Hp. apply painted_ext; [|done]. intros px py _. unfold report_pixel.
    destruct (existsb _ cells) eqn:He.
    + apply existsb_exists in He as ([[ch x] y] & Hin%list_elem_of_In & Hpx). pose proof Hpx as Hi.
      apply cell_pixel_inside in Hi as (H1 & H2 & H3 & H4). rewrite H1, H2, (char_at_elem _ ch _ _ Hd Hin), H3, H4. symmetry. exact Hpx.
    + destruct (char_at cells (px / fw) (py / fh)) as [ch|] eqn:Hch; [|done]. apply char_at_Some in Hch. symmetry.
      apply not_true_iff_false. intros Hi. apply (proj2 (not_true_iff_false _) He). apply existsb_exists.
      exists (ch, px / fw, py / fh). split; [by apply list_elem_of_In|]. pose proof (font_width _ _ Hfont Size16). unfold cell_pixel.
      rewrite <- Hi, !Z.mod_eq by (done || lia). do 3 f_equal; lia.
Qed.

(** The loop of the writer draws the layout. *)
Lemma emergency_chars_cells fb cols rows text : cols < 2 ^ 34 → rows ≤ u64_max → ∀ x y m, 0 ≤ x < 2 ^ 35 → 0 ≤ y ≤ u64_max →
  emergency_chars get_raster get_raster_width cols rows text (mkEmergency fb x y) m =
  (m' ← foldM (draw_cell fb) m (fst (report_cells cols rows text x y));
   let '(x', y') := snd (report_cells cols rows text x y) in Ok (mkEmergency fb x' y', m')).
Proof.
  intros Hc Hr. induction text as [|ch text IH]; intros x y m Hx Hy; cbn [emergency_chars report_cells framebuffer em_column em_row]; [done|].
  destruct (ch =? 10); [apply IH; unfold saturating_add; lia|].
  set (p := if cols <=? x then (0, _) else _). assert (0 ≤ fst p < 2 ^ 34 ∧ 0 ≤ snd p ≤ u64_max) as [Hp1 Hp2]
    by (unfold p; destruct (Z.leb_spec cols x); cbn; unfold saturating_add; lia).
  replace (if cols <=? x then mkEmergency fb 0 _ else _) with (mkEmergency fb (fst p) (snd p)) by (unfold p; by destruct (cols <=? x)).
  destruct p as [x1 y1]. cbn [fst snd framebuffer em_column em_row] in *. destruct (rows <=? y1); [done|].
  destruct (report_cells cols rows text (x1 + 1) y1) as [l [x' y']] eqn:Hrc. cbn [fst snd foldM draw_cell].
  destruct (draw_text _ _ fb [ch] x1 y1 WHITE (Some Size16) m) as [m1| |]; [|done..]. cbn [mbind outcome_bind].
  rewrite add_u64_ok by (unfold is_u64; lia). cbn [mbind outcome_bind]. rewrite IH, Hrc by lia. done.
Qed.
End picture.

(** The rows of a text's first line. *)
Lemma report_cells_first_line cols rows (line rest : str) : Forall (λ ch, ch ≠ 10) line → 0 < rows → ∀ x,
  0 ≤ x → x + Z.of_nat (length line) ≤ cols →
  ∀ i ch, line !! i = Some ch → (ch, x + Z.of_nat i, 0) ∈ fst (report_cells cols rows (line ++ rest) x 0).
Proof.
  intros Hl Hr. induction Hl as [|ch0 line Hch _ IH]; intros x Hx Hc i ch Hi; [done|]. cbn [length] in Hc. rewrite Nat2Z.inj_succ in Hc.
  cbn [report_cells app]. rewrite (proj2 (Z.eqb_neq _ _) Hch), (proj2 (Z.leb_gt cols x)), (proj2 (Z.leb_gt rows 0)) by lia.
  destruct i as [|i]; cbn [lookup list_lookup] in Hi.
  - injection Hi as ->. rewrite Z.add_0_r. destruct (report_cells _ _ _ _ _). by left.
  - specialize (IH (x + 1) ltac:(lia) ltac:(lia) i ch Hi). replace (x + Z.of_nat (S i)) with (x + 1 + Z.of_nat i) by lia.
    destruct (report_cells _ _ _ _ _). by right.
Qed.

Section reports.
Context (get_raster : char → RasterHeight → option RasterizedChar) (get_raster_width : RasterHeight → Z).
Hypothesis Hfont : font_ok get_raster get_raster_width.

Abbreviation fw := (get_raster_width Size16).
Abbreviation fh := (cell_height Size16).

(** What the reports need of the console: a framebuffer, if there is one yet,
    of a sane size. *)
Definition emergency_ok (c : Console) : Prop :=
  ∀ fb, EMERGENCY_FRAMEBUFFER c = Some fb → fb_ok fb ∧ width fb < 2 ^ 32 ∧ height fb < 2 ^ 32.

(** The cells of a report from the top of the screen. *)
Definition report_layout (fb : Framebuffer) (text : str) : list (char * Z * Z) :=
  fst (report_cells (width fb / fw) (height fb / fh) text 0 0).

(** The console after a report: only its picture has changed, to the report. *)
Definition reported (text : str) (c c' : Console) : Prop :=
  KWRITER c' = KWRITER c ∧ EMERGENCY_FRAMEBUFFER c' = EMERGENCY_FRAMEBUFFER c ∧
  match EMERGENCY_FRAMEBUFFER c with
  | None => screen c' = screen c
  | Some fb => painted fb (report_pixel get_raster get_raster_width (report_layout fb text))
                 (report_color get_raster get_raster_width (report_layout fb text)) (screen c) (screen c')
  end.

Lemma geometry fb : fb_ok fb → width fb < 2 ^ 32 → height fb < 2 ^ 32 → width fb / fw < 2 ^ 33 ∧ height fb / fh < 2 ^ 33.
Proof.
  intros Hok Hw Hh. pose proof (font_width _ _ Hfont Size16). pose proof (cell_height_bound Size16). pose proof (fb_width _ Hok). pose proof (fb_height _ Hok).
  split; apply Z.div_lt_upper_bound; nia.
Qed.

(** However the text is cut into pieces, the writer draws its layout. *)
Lemma emergency_pieces fb pieces : fb_ok fb → width fb < 2 ^ 32 → height fb < 2 ^ 32 → ∀ x y m, 0 ≤ x < 2 ^ 34 → 0 ≤ y ≤ u64_max →
  ∃ w', foldM (λ '(w, m) text, emergency_write_str get_raster get_raster_width text w m) (mkEmergency fb x y, m) pieces =
    (m' ← foldM (draw_cell get_raster get_raster_width fb) m (fst (report_cells (width fb / fw) (height fb / fh) (List.concat pieces) x y)); Ok (w', m')).
Proof.
  intros Hok Hw Hh. destruct (geometry fb Hok Hw Hh) as [Hcol Hrow]. pose proof (font_width _ _ Hfont Size16) as Hf. pose proof (cell_height_bound Size16).
  induction pieces as [|text pieces IH]; intros x y m Hx Hy; cbn [foldM List.concat]; [by eexists|].
  rewrite report_cells_app by lia. pose proof (report_cells_end (width fb / fw) (height fb / fh) text x y ltac:(lia) Hy) as [He1 He2].
  unfold emergency_write_str at 2, cell_width. cbn [framebuffer]. rewrite !div_u64_ok by lia. cbn [mbind outcome_bind].
  rewrite emergency_chars_cells by lia. destruct (snd (report_cells _ _ text x y)) as [x' y'] eqn:Hs. cbn [fst snd] in He1, He2.
  rewrite foldM_app.
  destruct (foldM (draw_cell _ _ fb) m _) as [m1| |]; cbn [mbind outcome_bind]; [|by eexists..]. apply IH; lia.
Qed.

Lemma report_layout_ok fb text : fb_ok fb → width fb < 2 ^ 32 → height fb < 2 ^ 32 →
  NoDup (map (λ '(_, x, y), (x, y)) (report_layout fb text)) ∧
  Forall (λ '(ch, x, y), ch ≠ 10 ∧ 0 ≤ x < 2 ^ 48 ∧ 0 ≤ y < 2 ^ 48) (report_layout fb text).
Proof.
  intros Hok Hw Hh. destruct (geometry fb Hok Hw Hh) as [Hcol Hrow].
  destruct (report_cells_order (width fb / fw) (height fb / fh) text ltac:(lia) 0 0) as [H1 H2]; [lia..|]. split; [exact H2|].
  eapply List.Forall_impl; [|exact H1]. intros [[ch x] y] (? & ? & ? & _). split_and!; done || lia.
Qed.

Lemma emergency_print_reported pieces c : emergency_ok c →
  ∃ c', emergency_print get_raster get_raster_width pieces c = Ok c' ∧ reported (List.concat pieces) c c'.
Proof.
  intros Hc. unfold emergency_print, reported. destruct (EMERGENCY_FRAMEBUFFER c) as [fb|] eqn:He; [|by exists c].
  destruct (Hc fb He) as (Hok & Hw & Hh). destruct (emergency_pieces fb pieces Hok Hw Hh 0 0 (screen c)) as (w' & ->); [lia..|].
  destruct (report_layout_ok fb (List.concat pieces) Hok Hw Hh) as [Hd Hf].
  destruct (draw_cells_painted _ _ Hfont fb _ (screen c) Hok Hd Hf) as (m' & Hm & Hp). unfold report_layout in Hm. rewrite Hm.
  cbn [mbind outcome_bind]. by eexists.
Qed.

(** Where the first line goes when it fits. *)
Lemma first_line_shown fb line rest : fb_ok fb → Forall (λ ch, ch ≠ 10) line → fh ≤ height fb →
  Z.of_nat (length line) * fw ≤ width fb → ∀ i ch, line !! i = Some ch → (ch, Z.of_nat i, 0) ∈ report_layout fb (line ++ rest).
Proof.
  intros Hok Hl Hh Hw i ch Hi. pose proof (font_width _ _ Hfont Size16). pose proof (cell_height_bound Size16).
  apply (report_cells_first_line _ _ line rest Hl) with (x := 0); [|lia| |exact Hi].
  - apply Z.lt_le_trans with 1; [lia|]. apply Z.div_le_lower_bound; lia.
  - apply Z.div_le_lower_bound; lia.
Qed.
End reports.

(** ** Every exception is reported *)

#[export] Instance handler_eq_dec : EqDecision handler.
Proof. solve_decision. Defined.

(** The names in the reports of [exception_handler!] and
    [exception_handler_with_code!], and whether an error code follows. *)
Definition exception_name (h : handler) : option (str * bool) :=
  match h with
  | divide_error => Some (lit "divide error", false)
  | debug => Some (lit "debug", false)
  | non_maskable_interrupt => Some (lit "non-maskable interrupt", false)
  | overflow => Some (lit "overflow", false)
  | bound_range_exceeded => Some (lit "bound range exceeded", false)
  | invalid_opcode => Some (lit "invalid opcode", false)
  | device_not_available => Some (lit "device not available", false)
  | x87_floating_point => Some (lit "x87 floating point", false)
  | simd_floating_point => Some (lit "SIMD floating point", false)
  | virtualization => Some (lit "virtualization", false)
  | hv_injection_exception => Some (lit "hypervisor injection", false)
  | invalid_tss => Some (lit "invalid TSS", true)
  | segment_not_present => Some (lit "segment not present", true)
  | stack_segment_fault => Some (lit "stack segment fault", true)
  | general_protection_fault => Some (lit "general protection fault", true)
  | alignment_check => Some (lit "alignment check", true)
  | cp_protection_exception => Some (lit "control protection exception", true)
  | vmm_communication_exception => Some (lit "VMM communication exception", true)
  | security_exception => Some (lit "security exception", true)
  | _ => None
  end.

Lemma exception_name_inj h1 h2 n1 n2 b1 b2 : exception_name h1 = Some (n1, b1) → exception_name h2 = Some (n2, b2) → n1 = n2 → h1 = h2.
Proof. destruct h1; try done; intros [= <- <-]; destruct h2; try done; intros [= <- <-]; (done || intros [=]). Qed.

Section exceptions.
Context (get_raster : char → RasterHeight → option RasterizedChar) (get_raster_width : RasterHeight → Z).
Hypothesis Hfont : font_ok get_raster get_raster_width.
Context {F W : Type} `{ExceptionFrame F} `{Devices W}.
Implicit Types (frame : F).

(** The first line of a report; the exceptions that may come from a broken
    machine have none. *)
Definition report_title (h : handler) (error_code cr2 : Z) : option str :=
  match h with
  | double_fault | machine_check | timer | keyboard | mouse => None
  | breakpoint => Some (lit "BREAKPOINT")
  | page_fault => Some (lit "PAGE FAULT at " ++ show_hex cr2 ++ lit " (" ++ List.concat (debug_error_code error_code) ++ lit ")")
  | _ => '(name, code) ← exception_name h;
      Some (lit "EXCEPTION: " ++ name ++ if code : bool then lit " (error code: " ++ show_hex error_code ++ lit ")" else [])
  end.

(** The lines behind it. *)
Definition report_rest (h : handler) (frame : F) : str :=
  match exception_name h with
  | Some _ => lit "RIP: " ++ show_hex (instruction_pointer frame) ++ lit " RSP: " ++ show_hex (frame_stack_pointer frame) ++ [10]
  | None => []
  end ++ List.concat (debug_frame frame) ++ [10].

Lemma handle_exception_reported h frame error_code cr2 c : emergency_ok c → 0 ≤ exception_vector h →
  ∃ f c' fate, handle_exception get_raster get_raster_width h frame error_code cr2 = Some f ∧ f c = Ok (c', fate) ∧
    fate = (if decide (h = breakpoint) then Returned else Halted) ∧
    match report_title h error_code cr2 with
    | Some title => reported get_raster get_raster_width (title ++ 10 :: report_rest h frame) c c'
    | None => c' = c
    end.
Proof.
  intros Hc Hv.
  assert (∀ pieces text (fate : Fate), List.concat pieces = text → ∃ c',
    (c ← emergency_print get_raster get_raster_width pieces c; Ok (c, fate)) = Ok (c', fate) ∧ reported get_raster get_raster_width text c c') as Hpr.
  { intros pieces text fate <-. destruct (emergency_print_reported _ _ Hfont pieces c Hc) as (c' & -> & Hr). by exists c'. }
  assert (∀ name, ∃ c', fatal_exception get_raster get_raster_width name frame c = Ok (c', Halted) ∧
    reported get_raster get_raster_width ((lit "EXCEPTION: " ++ name ++ []) ++ 10 :: (lit "RIP: " ++ show_hex (instruction_pointer frame) ++
      lit " RSP: " ++ show_hex (frame_stack_pointer frame) ++ [10]) ++ List.concat (debug_frame frame) ++ [10]) c c') as Hn.
  { intros name. apply Hpr. unfold fatal_report, frame_lines. rewrite !concat_app. cbn [List.concat]. by rewrite !app_nil_r, <- !app_assoc. }
  assert (∀ name, ∃ c', fatal_exception_with_code get_raster get_raster_width name frame error_code c = Ok (c', Halted) ∧
    reported get_raster get_raster_width ((lit "EXCEPTION: " ++ name ++ lit " (error code: " ++ show_hex error_code ++ lit ")") ++
      10 :: (lit "RIP: " ++ show_hex (instruction_pointer frame) ++
      lit " RSP: " ++ show_hex (frame_stack_pointer frame) ++ [10]) ++ List.concat (debug_frame frame) ++ [10]) c c') as Hm.
  { intros name. apply Hpr. unfold fatal_report_with_code, frame_lines. rewrite !concat_app. cbn [List.concat]. by rewrite !app_nil_r, <- !app_assoc. }
  destruct h; try (by destruct Hv); cbn [handle_exception report_title exception_name mbind option_bind]; unfold report_rest; cbn [exception_name].
  all: try (match goal with |- context [fatal_exception _ _ ?name _] => destruct (Hn name) as (c' & Hrun & Hrep)
            | |- context [fatal_exception_with_code _ _ ?name _ _] => destruct (Hm name) as (c' & Hrun & Hrep) end;
            eexists _, c', Halted; split; [reflexivity|]; split; [exact Hrun|]; split; [reflexivity|exact Hrep]).
  - destruct (Hpr (breakpoint_report frame) ((lit "BREAKPOINT" ++ [10]) ++ List.concat (debug_frame frame) ++ [10]) Returned) as (c' & Hrun & Hrep).
    { unfold breakpoint_report. cbn [List.concat]. rewrite concat_app. cbn [List.concat]. by rewrite app_nil_r. }
    eexists _, c', Returned. split; [reflexivity|]. split; [exact Hrun|]. split; [reflexivity|exact Hrep].
  - by eexists _, c, Halted.
  - destruct (Hpr (page_fault_report frame error_code cr2) ((lit "PAGE FAULT at " ++ show_hex cr2 ++ lit " (" ++
      List.concat (debug_error_code error_code) ++ lit ")") ++ 10 :: List.concat (debug_frame frame) ++ [10]) Halted) as (c' & Hrun & Hrep).
    { unfold page_fault_report. rewrite !concat_app. cbn [List.concat]. by rewrite !app_nil_r, <- !app_assoc. }
    eexists _, c', Halted. split; [reflexivity|]. split; [exact Hrun|]. split; [reflexivity|exact Hrep].
  - by eexists _, c, Halted.
Qed.

(** C28. Every exception that the kernel handles is reported.  The vector's gate
    leads to a handler that needs nothing but the framebuffer: it cannot panic,
    whatever state the console is in, and leaves the console's own state alone.
    Every handler halts but that of a breakpoint, which returns.  What it draws
    is its report, laid out from the top of the screen (wrapped at its edge, cut
    at its bottom, however the formatter cuts the text into pieces), pixel for
    pixel and nothing else; the first line, which names the exception, is on the
    screen when it fits.  A double fault and a machine check change nothing.  The
    names are distinct. *)
Theorem exception_reported (h : handler) frame error_code cr2 c : emergency_ok c → 0 ≤ exception_vector h →
  ∃ c' fate, raise_exception get_raster get_raster_width (idt_install (W:=W) CONTROLLER) (exception_vector h) frame error_code cr2 c = Some (Ok (c', fate)) ∧
    (fate = Returned ↔ h = breakpoint) ∧ fate ≠ Deadlocked ∧
    match report_title h error_code cr2 with
    | None => (h = double_fault ∨ h = machine_check) ∧ c' = c
    | Some title =>
      reported get_raster get_raster_width (title ++ 10 :: report_rest h frame) c c' ∧
      ∀ fb i ch, EMERGENCY_FRAMEBUFFER c = Some fb → Forall (λ ch, ch ≠ 10) title →
        Z.of_nat (length title) * get_raster_width Size16 ≤ width fb → cell_height Size16 ≤ height fb →
        title !! i = Some ch → (ch, Z.of_nat i, 0) ∈ report_layout get_raster_width fb (title ++ 10 :: report_rest h frame)
    end ∧
    ∀ h' name code, exception_name h = Some (name, code) → fst <$> exception_name h' = Some name → h' = h.
Proof.
  intros Hc Hv. destruct (handle_exception_reported h frame error_code cr2 c Hc Hv) as (f & c' & fate & Hf & Hrun & Hfate & Hrep).
  destruct (install_tables_ok (W:=W) 0) as (table & _ & _ & Hgate & _). destruct (Hgate h Hv) as (g & Hg & Hgh & _).
  exists c', fate. split; [unfold raise_exception; rewrite Hg; cbn [mbind option_bind]; rewrite Hgh, Hf; cbn [mbind option_bind]; by rewrite Hrun|].
  split; [rewrite Hfate; by case_decide|]. split; [rewrite Hfate; by case_decide|]. split.
  - destruct (report_title h error_code cr2) as [title|] eqn:Ht.
    + split; [exact Hrep|]. intros fb i ch He Hl Hw Hh Hi. destruct (Hc fb He) as (Hok & _). by apply (first_line_shown _ _ Hfont).
    + split; [|exact Hrep]. destruct h; try (by destruct Hv); try done; (by left) || by right.
  - intros h' name code Hn Hn'. destruct (exception_name h') as [[n' b']|] eqn:Hh'; [|done]. injection Hn' as ->.
    by apply (exception_name_inj _ _ _ _ _ _ Hh' Hn).
Qed.

(** ** The panic handler *)

(** What it prints. *)
Definition panic_length (location : option (str * Z * Z)) (message : str) : Z :=
  256 + from_option (λ l, Z.of_nat (length (show_location l))) 0 location + Z.of_nat (length message).

Lemma println_to (device : Framebuffer) s n N c w : good device n c w → 0 ≤ n → n + Z.of_nat (length s) + 1 ≤ N < 2 ^ 41 →
  ∃ c' w', kprintln get_raster get_raster_width s c = Ok c' ∧ good device N c' w'.
Proof.
  intros Hg Hn HN. destruct (kprintln_good _ _ Hfont device s n c w Hg) as (c' & w' & Hr & Hg' & _); [lia..|].
  exists c', w'. split; [exact Hr|]. eapply good_le; [|exact Hg']. lia.
Qed.

Lemma newline_to (device : Framebuffer) n N c w : good device n c w → 0 ≤ n → n + 1 ≤ N < 2 ^ 41 →
  ∃ c' w', kprint get_raster get_raster_width [10] c = Ok c' ∧ good device N c' w'.
Proof.
  intros Hg Hn HN. destruct (kprint_good _ _ Hfont device [10] n c w Hg) as (c' & w' & Hr & Hg' & _); [lia|cbn; lia|].
  exists c', w'. split; [exact Hr|]. eapply good_le; [|exact Hg']. cbn. lia.
Qed.

(** A panic is reported on a console that works, without a second panic, unless
    the code that panicked holds the console: then nothing is reported. *)
Lemma panic_handler_spec (device : Framebuffer) exited held location message info n c w :
  good device n c w → 0 ≤ n → n + panic_length location message < 2 ^ 41 →
  ∃ c' lines fate, panic_handler get_raster get_raster_width exited held location message info c = Ok (c', lines, fate) ∧
    (fate = Deadlocked ↔ exited = true ∧ held = true) ∧ (fate ≠ Deadlocked → fate = Halted) ∧
    (exited = true → lines = []) ∧ (exited = false ∨ held = true → c' = c) ∧
    (∃ w', good device (n + panic_length location message) c' w').
Proof.
  intros Hg Hn0 Hn. unfold panic_length in *. set (k := from_option _ 0 location) in *.
  assert (0 ≤ k) as Hk by (unfold k; destruct location; cbn; lia).
  unfold panic_handler. destruct exited; [destruct held|].
  1, 3: eexists _, _, _; split; [reflexivity|]; split_and!; try (exists w; eapply good_le; [|exact Hg]; lia); clear; naive_solver.
  assert (∃ c' w', panic_report get_raster get_raster_width location message c = Ok c' ∧ good device (n + (256 + k + Z.of_nat (length message))) c' w') as (c' & w' & -> & Hg').
  { unfold panic_report.
    destruct (println_to device PANIC_BAR n (n + 41) c w Hg) as (c1 & w1 & -> & Hg1); [lia|cbn; lia|]. cbn [mbind outcome_bind].
    destruct (println_to device PANIC_TITLE _ (n + 70) c1 w1 Hg1) as (c2 & w2 & -> & Hg2); [lia|cbn; lia|]. cbn [mbind outcome_bind].
    destruct (println_to device PANIC_BAR _ (n + 120) c2 w2 Hg2) as (c3 & w3 & -> & Hg3); [lia|cbn; lia|]. cbn [mbind outcome_bind].
    destruct (newline_to device _ (n + 121) c3 w3 Hg3) as (c4 & w4 & -> & Hg4); [lia..|]. cbn [mbind outcome_bind].
    assert (∃ c5 w5, match location with Some location => kprintln get_raster get_raster_width (show_location location) c4 | None => Ok c4 end = Ok c5 ∧
      good device (n + 122 + k) c5 w5) as (c5 & w5 & -> & Hg5).
    { destruct location as [location|]; [apply (println_to device _ _ _ c4 w4 Hg4); cbn in *; lia|].
      exists c4, w4. split; [done|]. eapply good_le; [|exact Hg4]. lia. }
    cbn [mbind outcome_bind].
    destruct (println_to device (lit "Message  : " ++ message) _ (n + 140 + k + Z.of_nat (length message)) c5 w5 Hg5) as (c6 & w6 & -> & Hg6);
      [lia|rewrite length_app; change (length (lit _)) with 11%nat; lia|]. cbn [mbind outcome_bind].
    destruct (newline_to device _ (n + 141 + k + Z.of_nat (length message)) c6 w6 Hg6) as (c7 & w7 & -> & Hg7); [lia..|]. cbn [mbind outcome_bind].
    apply (println_to device _ _ _ c7 w7 Hg7); [lia|cbn; lia]. }
  cbn [mbind outcome_bind]. eexists _, _, _. split; [reflexivity|]. split_and!; try (by exists w'); clear; naive_solver.
Qed.
End exceptions.

(** ** Witness: a protection fault on a screen of one row of sixty characters *)

#[local] Instance demo_frame : ExceptionFrame unit := {|
  instruction_pointer _ := 4096; frame_stack_pointer _ := 8192; debug_frame _ := [lit "frame"]; debug_error_code _ := [] |}.
#[local] Instance quiet_devices : Devices unit := {| dev_in _ d := (0, d); dev_out _ _ d := d; dev_out32 _ _ d := d |}.

Definition wide_screen : Framebuffer := mkFb 0x1000 (mkSize 120 20) 120 Bgr 9600.
Definition wide_console : Console := Console.init wide_screen (mkConsole None None (λ a, a mod 251)).

Lemma wide_console_ok : emergency_ok wide_console.
Proof. intros fb [= <-]. split; [|by vm_compute]. split; by vm_compute. Qed.

(** The report begins with an E, and its first line is complete. *)
Lemma exception_reported_witness : ∃ c',
  raise_exception demo_raster demo_width (idt_install (W:=unit) CONTROLLER) 13 tt 16 0 wide_console = Some (Ok (c', Halted)) ∧
  pixel wide_screen (screen c') 0 0 = char_color demo_raster 69 Size16 0 0 ∧
  (48, 52, 0) ∈ report_layout demo_width wide_screen (lit "EXCEPTION: general protection fault (error code: 0x10)" ++ 10 :: report_rest general_protection_fault tt).
Proof.
  destruct (exception_reported (F:=unit) (W:=unit) demo_raster demo_width demo_font_ok general_protection_fault tt 16 0 wide_console wide_console_ok)
    as (c' & fate & Hr & Hfate & Hno & Hrep & _); [cbn; lia|].
  assert (fate = Halted) as -> by (clear -Hfate Hno; destruct fate; [reflexivity|discriminate (proj1 Hfate eq_refl)|destruct (Hno eq_refl)]).
  exists c'. split; [exact Hr|]. clear Hr. destruct Hrep as [(_ & _ & Hp & _) Hline]. split.
  - rewrite (Hp 0 0); [vm_compute; reflexivity|split; vm_compute; by split|vm_compute; reflexivity].
  - apply (Hline wide_screen 52%nat 48 eq_refl); [|by vm_compute..]. apply (bool_decide_unpack _). vm_compute. exact I.
Defined.
