(* ===== verification/Emergency.v ===== *)
(** * Emergency: nothing that the kernel does to its console takes the framebuffer
    from the emergency writer, so an exception can be reported at any time. *)

From Stdlib Require Import String.
From S2P Require Import Prelude Globals Memory Frame Heap Task Text Timer Graphics Ports Keyboard Mouse Commands Console Terminal LineEditor Output Shell Pointer Session Loop Faults.
Open Scope Z_scope.

(** ** Computations that keep an invariant, whatever they return *)

Definition preserves {S E A} (I : S → Prop) (m : M S E A) : Prop := ∀ s, I s → I (snd (m s)).

Lemma preserves_ret {S E A} (I : S → Prop) (a : A) : preserves I (mret a : M S E A).
Proof. by intros s Hs. Qed.

Lemma preserves_bind {S E A B} (I : S → Prop) (m : M S E A) (f : A → M S E B) :
  preserves I m → (∀ a, preserves I (f a)) → preserves I (m ≫= f).
Proof.
  intros Hm Hf s Hs. specialize (Hm s Hs). unfold mbind, M_bind. destruct (m s) as [[a| |] s1]; [by apply Hf|done..].
Qed.

(** ** The scheduler leaves the world to the tasks *)

Section tasks.
Context {F W : Type} (call : F → W → TaskAction * W) (trampoline : Z) (stack_base : nat → Z) (I : W → Prop).
Hypothesis Hcall : ∀ f w, I w → I (snd (call f w)).

Definition world_keeps (σ : Task.Scheduler F * W) : Prop := I (snd σ).

Lemma on_scheduler_preserves {A} (m : M (Task.Scheduler F) SchedulerError A) : preserves world_keeps (on_scheduler m).
Proof. intros [s w] Hw. unfold on_scheduler. by destruct (m s). Qed.

Lemma call_entry_preserves f : preserves world_keeps (call_entry call f).
Proof. intros [s w] Hw. unfold call_entry. pose proof (Hcall f w Hw). by destruct (call f w). Qed.

Lemma run_next_preserves now : preserves world_keeps (run_next call trampoline stack_base now).
Proof.
  unfold run_next. apply preserves_bind; [apply on_scheduler_preserves|]. intros _. apply preserves_bind; [apply on_scheduler_preserves|]. intros s.
  destruct (find_next_ready s) as [i|]; [|apply preserves_ret]. apply preserves_bind; [apply on_scheduler_preserves|]. intros [id f].
  apply preserves_bind; [apply call_entry_preserves|]. intros a. apply preserves_bind; [apply on_scheduler_preserves|]. intros _.
  apply preserves_bind; [apply on_scheduler_preserves|]. intros _. apply preserves_ret.
Qed.

Lemma run_ready_preserves now n : ∀ k, preserves world_keeps (run_ready_loop call trampoline stack_base now n k).
Proof.
  induction n as [|n IH]; intros k; cbn [run_ready_loop]; [apply preserves_ret|].
  apply preserves_bind; [apply run_next_preserves|]. intros [t|]; [apply IH|apply preserves_ret].
Qed.
End tasks.

(** ** The console's operations *)

(** The framebuffer of the emergency writer stays. *)
Definition keeps (f : Console → run Console) : Prop := ∀ c c', f c = Ok c' → EMERGENCY_FRAMEBUFFER c' = EMERGENCY_FRAMEBUFFER c.
Definition keeps_line (f : Console → run (str * Console)) : Prop :=
  ∀ c l c', f c = Ok (l, c') → EMERGENCY_FRAMEBUFFER c' = EMERGENCY_FRAMEBUFFER c.

Create HintDb emergency.

Lemma keeps_id : keeps (λ c, Ok c).
Proof. by intros c c' [= <-]. Qed.

Lemma keeps_bind f g : keeps f → keeps g → keeps (λ c, c ← f c; g c).
Proof. intros Hf Hg c c' H. bind_ok H c1 H1. by rewrite (Hg _ _ H), (Hf _ _ H1). Qed.

Lemma with_writer_keeps f : keeps (with_writer f).
Proof.
  intros c c' H. unfold with_writer in H. destruct (KWRITER c); [|by injection H as <-].
  bind_ok H p Hp. destruct p as [w m]. by injection H as <-.
Qed.

Lemma with_line_keeps line f : keeps_line (with_line line f).
Proof.
  intros c l c' H. unfold with_line in H. destruct (KWRITER c); [|by injection H as <- <-].
  bind_ok H p Hp. destruct p as [[l1 w] m]. by injection H as <- <-.
Qed.
#[export] Hint Resolve keeps_id keeps_bind with_writer_keeps with_line_keeps : emergency.

Section operations.
Context (get_raster : char → RasterHeight → option RasterizedChar) (get_raster_width : RasterHeight → Z).

Lemma kprint_keeps s : keeps (kprint get_raster get_raster_width s).
Proof. apply with_writer_keeps. Qed.

Lemma kprintln_keeps s : keeps (kprintln get_raster get_raster_width s).
Proof. apply keeps_bind; apply kprint_keeps. Qed.

Lemma print_history_keeps : keeps (print_history get_raster get_raster_width).
Proof.
  intros c c' H. unfold print_history in H. destruct (KWRITER c); [by eapply with_writer_keeps|by eapply kprintln_keeps].
Qed.

Lemma zoom_keeps step line : keeps (zoom get_raster get_raster_width step line).
Proof. apply keeps_bind; [apply with_writer_keeps|]. apply keeps_bind; [apply print_history_keeps|apply kprint_keeps]. Qed.

Lemma insert_char_keeps line ch : keeps_line (insert_char get_raster get_raster_width line ch).
Proof. intros c l c' H. unfold insert_char in H. destruct (_ <=? _); [by injection H as <- <-|by eapply with_line_keeps]. Qed.

Lemma auto_complete_keeps line : keeps_line (auto_complete get_raster get_raster_width line).
Proof.
  intros c l c' H. unfold auto_complete in H. destruct (complete_command line) as [command|]; [|by injection H as <- <-].
  revert l c' H. generalize (drop (List.length line) command) as suffix. intros suffix. revert line c.
  induction suffix as [|ch suffix IH]; intros line c l c' H; cbn [foldM] in H; [by injection H as <- <-|].
  bind_ok H p Hp. destruct p as [l1 c1]. rewrite (IH _ _ _ _ H). by eapply insert_char_keeps.
Qed.

Lemma print_lines_keeps lines : keeps (print_lines get_raster get_raster_width lines).
Proof.
  intros c c' H. unfold print_lines in H. revert c H. induction lines as [|l lines IH]; intros c H; cbn [foldM] in H; [by injection H as <-|].
  bind_ok H c1 H1. by rewrite (IH _ H), (kprintln_keeps _ _ _ H1).
Qed.

Lemma report_dropped_keeps n what : keeps (report_dropped get_raster get_raster_width n what).
Proof. intros c c' H. unfold report_dropped in H. destruct (0 <? n); [by eapply kprintln_keeps|by injection H as <-]. Qed.

Hint Resolve kprint_keeps kprintln_keeps print_history_keeps zoom_keeps print_lines_keeps report_dropped_keeps
  insert_char_keeps auto_complete_keeps : emergency.

(** ** Commands and keys *)

Lemma perform_keeps sys stats calls c c' : perform get_raster get_raster_width sys stats calls c = Ok (Some c') →
  EMERGENCY_FRAMEBUFFER c' = EMERGENCY_FRAMEBUFFER c.
Proof.
  revert c. induction calls as [|call calls IH]; intros c H; cbn [perform] in H; [by injection H as <-|].
  assert (∀ f, keeps f → (c ← f c; perform get_raster get_raster_width sys stats calls c) = Ok (Some c') → EMERGENCY_FRAMEBUFFER c' = EMERGENCY_FRAMEBUFFER c) as Hstep.
  { intros f Hf H1. bind_ok H1 c1 Hc1. by rewrite (IH _ H1), (Hf _ _ Hc1). }
  destruct call; try (eapply Hstep; [|exact H]; unfold set_font_size, reset; auto with emergency; fail).
  - by apply IH.
  - done.
Qed.

(** An operation on the shell's line, and one that keeps it. *)
Lemma some_line_keeps f c l c' : keeps_line f → Some <$> f c = Ok (Some (l, c')) → EMERGENCY_FRAMEBUFFER c' = EMERGENCY_FRAMEBUFFER c.
Proof. intros Hf H. destruct (f c) as [[l1 c1]| |] eqn:Hc; [|done..]. injection H as <- <-. by eapply Hf. Qed.

Lemma same_line_keeps (f : Console → run Console) (line : str) c l c' : keeps f → (c ← f c; Ok (Some (line, c))) = Ok (Some (l, c')) →
  EMERGENCY_FRAMEBUFFER c' = EMERGENCY_FRAMEBUFFER c.
Proof. intros Hf H. bind_ok H c1 Hc. injection H as <- <-. by eapply Hf. Qed.

Lemma reset_input_cursor_keeps : keeps reset_input_cursor.
Proof. apply with_writer_keeps. Qed.

Lemma dispatch_key_keeps sys stats TICKS key line c l c' :
  dispatch_key get_raster get_raster_width sys stats TICKS key line c = Ok (Some (l, c')) → EMERGENCY_FRAMEBUFFER c' = EMERGENCY_FRAMEBUFFER c.
Proof.
  intros H. destruct key as [ch| | | | | | | | |]; cbn [dispatch_key] in H.
  2, 9: unfold reset in H; repeat (let c1 := fresh "c" in let Hc := fresh "Hc" in bind_ok H c1 Hc); injection H as <- <-;
    repeat match goal with
    | Hc : with_writer _ _ = Ok _ |- _ => apply with_writer_keeps in Hc
    | Hc : kprint _ _ _ _ = Ok _ |- _ => apply kprint_keeps in Hc
    | Hc : kprintln _ _ _ _ = Ok _ |- _ => apply kprintln_keeps in Hc
    | Hc : reset_input_cursor _ = Ok _ |- _ => apply reset_input_cursor_keeps in Hc
    end; congruence.
  - destruct (ch =? 10).
    + bind_ok H c1 H1. bind_ok H res H2. destruct res as [c2|]; [|done]. bind_ok H c3 H3. bind_ok H c4 H4. injection H as <- <-.
      rewrite (reset_input_cursor_keeps _ _ H4), (kprint_keeps _ _ _ H3), (perform_keeps _ _ _ _ _ H2). by apply kprint_keeps in H1.
    + destruct (ch =? 8); eapply some_line_keeps; try exact H; [apply with_line_keeps|apply insert_char_keeps].
  - eapply same_line_keeps; [apply zoom_keeps|exact H].
  - eapply same_line_keeps; [apply zoom_keeps|exact H].
  - eapply some_line_keeps; [|exact H]. apply with_line_keeps.
  - eapply some_line_keeps; [|exact H]. apply with_line_keeps.
  - eapply same_line_keeps; [apply with_writer_keeps|exact H].
  - eapply same_line_keeps; [apply with_writer_keeps|exact H].
  - eapply some_line_keeps; [|exact H]. apply auto_complete_keeps.
Qed.

Lemma on_key_keeps sys stats TICKS key line c l c' :
  on_key get_raster get_raster_width sys stats TICKS key line c = Ok (Some (l, c')) → EMERGENCY_FRAMEBUFFER c' = EMERGENCY_FRAMEBUFFER c.
Proof.
  unfold on_key. intros H. bind_ok H c1 H1. bind_ok H res H2. destruct res as [[l2 c2]|]; [|done]. bind_ok H c3 H3. injection H as <- <-.
  rewrite (with_writer_keeps _ _ _ H3), (dispatch_key_keeps _ _ _ _ _ _ _ _ H2). by apply with_writer_keeps in H1.
Qed.

(** ** The loop *)

Context {D QK QM : Type} `{Decoder D} `{RK : RingBuffer Z QK} `{RM : RingBuffer Z QM}.
Context (trampoline : Z) (stack_base : nat → Z) (sys : Heap.World).
Implicit Types (s : Shell (D:=D) (QK:=QK) (QM:=QM)).

Definition alarm s : option Framebuffer := EMERGENCY_FRAMEBUFFER (console s).

Lemma pointer_step_alarm s s' : pointer_step s = Ok s' → alarm s' = alarm s.
Proof.
  unfold pointer_step. destruct (Mouse.poll (mouse s)) as [event mo]. intros Hs. bind_ok Hs e He.
  cbn [console set_mouse] in Hs. destruct e as [event'|]; [|by injection Hs as <-]. destruct (KWRITER (console s)); [|by injection Hs as <-].
  bind_ok Hs p Hp. destruct p as [[[x y] pt] m]. by injection Hs as <-.
Qed.

Lemma call_task_alarm e f tw : (∀ c, task_console tw = Ok c → EMERGENCY_FRAMEBUFFER c = e) →
  ∀ c, task_console (snd (call_task get_raster get_raster_width f tw)) = Ok c → EMERGENCY_FRAMEBUFFER c = e.
Proof.
  intros Htw c Hc.
  assert (∀ text, (c ← task_console tw; kprintln get_raster get_raster_width text c) = Ok c → EMERGENCY_FRAMEBUFFER c = e) as Hprint.
  { intros text Hp. bind_ok Hp c1 Hc1. rewrite (kprintln_keeps _ _ _ Hp). by apply Htw. }
  unfold call_task in Hc. destruct f; [destruct (10 <=? TASK_ONE_COUNT tw)|destruct (10 <=? TASK_TWO_COUNT tw)]; cbn [snd task_console] in Hc;
    (by apply Htw) || (by eapply Hprint).
Qed.

Lemma tasks_step_alarm now budget s s' : tasks_step get_raster get_raster_width trampoline stack_base now budget s = Ok s' → alarm s' = alarm s.
Proof.
  unfold tasks_step, run_ready. intros Hs.
  pose proof (run_ready_preserves (call_task get_raster get_raster_width) trampoline stack_base
    (λ tw, ∀ c, task_console tw = Ok c → EMERGENCY_FRAMEBUFFER c = alarm s) (λ f tw, call_task_alarm (alarm s) f tw) now budget 0
    (scheduler s, mkTaskWorld (one_count s) (two_count s) (Ok (console s)))) as Hk.
  destruct (run_ready_loop _ _ _ _ _ _ _) as [r [sched tw]]. unfold world_keeps in Hk. cbn [snd task_console] in Hk.
  bind_ok Hs c Hc. specialize (Hk ltac:(by intros ? [= <-]) c eq_refl). destruct r as [k|e|]; [by injection Hs as <-| |done].
  bind_ok Hs c1 Hc1. injection Hs as <-. unfold alarm. cbn. rewrite (kprintln_keeps _ _ _ Hc1). exact Hk.
Qed.

Lemma dropped_step_alarm now s s' : dropped_step get_raster get_raster_width now s = Ok s' → alarm s' = alarm s.
Proof.
  unfold dropped_step. destruct (negb _); [by intros [= <-]|]. unfold take_dropped. cbn [console set_keyboard]. intros Hs.
  bind_ok Hs c1 H1. cbn [console set_mouse set_console] in Hs. bind_ok Hs c2 H2. injection Hs as <-. unfold alarm. cbn.
  by rewrite (report_dropped_keeps _ _ _ _ H2), (report_dropped_keeps _ _ _ _ H1).
Qed.

Lemma deliver_alarm l s : alarm (Loop.deliver l s) = alarm s.
Proof.
  revert s. induction l as [|a l IH]; intros s; [done|]. change (Loop.deliver (a :: l) s) with (Loop.deliver l (arrive_one a s)).
  rewrite IH. by destruct a.
Qed.

Lemma deliver_at_alarm l k s : alarm (Loop.deliver_at l k s) = alarm s.
Proof. apply deliver_alarm. Qed.

Lemma shell_step_alarm now TICKS arrivals s s' i :
  shell_step get_raster get_raster_width trampoline stack_base sys now TICKS (Loop.deliver_at arrivals) s = Ok (s', i) → alarm s' = alarm s.
Proof.
  unfold shell_step. intros Hs. bind_ok Hs s1 H1. bind_ok Hs s2 H2. bind_ok Hs s3 H3.
  assert (alarm s3 = alarm s) as Ha by (rewrite (dropped_step_alarm _ _ _ H3), (tasks_step_alarm _ _ _ _ H2), deliver_at_alarm, (pointer_step_alarm _ _ H1); apply deliver_at_alarm).
  rewrite <- (deliver_at_alarm arrivals 2 s3) in Ha. generalize dependent (Loop.deliver_at arrivals 2 s3). clear s3 H3. intros s3 Hs Ha.
  destruct (Keyboard.poll (keyboard s3)) as [key k]. destruct key as [key|].
  - bind_ok Hs res Hr. destruct res as [[l c]|]; [|by injection Hs as <- <-]. injection Hs as <- <-. rewrite deliver_at_alarm.
    unfold alarm. cbn. by rewrite (on_key_keeps _ _ _ _ _ _ _ _ Hr).
  - injection Hs as <- <-. by rewrite deliver_at_alarm.
Qed.

Lemma run_loop_alarm its : ∀ s s' l, run_loop get_raster get_raster_width trampoline stack_base sys its s = Ok (s', l) → alarm s' = alarm s.
Proof.
  induction its as [|it its IH]; intros s s' l Hs; cbn [run_loop] in Hs; [by injection Hs as <- <-|].
  bind_ok Hs p Hp. destruct p as [s1 i]. apply shell_step_alarm in Hp.
  assert (∀ s2 l2, (run_loop get_raster get_raster_width trampoline stack_base sys its s1 ≫= (λ '(s, l), Ok (s, i :: l))) = Ok (s2, l2) → alarm s2 = alarm s) as Hrest.
  { intros s2 l2 H2. bind_ok H2 q Hq. destruct q as [s3 l3]. injection H2 as <- <-. by rewrite (IH _ _ _ Hq). }
  destruct i; [by eapply Hrest..|]. by injection Hs as <- <-.
Qed.

Lemma shell_init_alarm now s s' : shell_init get_raster get_raster_width trampoline stack_base now s = Ok s' → alarm s' = alarm s.
Proof.
  unfold shell_init. intros Hs. bind_ok Hs c1 H1. destruct ((spawn task_one;; spawn task_two) (scheduler s)) as [[ids| |] sched]; [|done..].
  bind_ok Hs s1 H2. bind_ok Hs c2 H3. bind_ok Hs c3 H4. injection Hs as <-. unfold alarm. cbn.
  rewrite (with_writer_keeps _ _ _ H4), (kprint_keeps _ _ _ H3). change (EMERGENCY_FRAMEBUFFER (console s1)) with (alarm s1).
  rewrite (tasks_step_alarm _ _ _ _ H2). unfold alarm. cbn. by apply with_writer_keeps in H1.
Qed.
End operations.
