(* ===== verification/Smoke.v ===== *)
(** * Smoke: the probes of the opt-in test builds, [src/input_smoke.rs],
    [src/timer_smoke.rs] and [src/fault_smoke.rs], with their hooks in the
    input queues and in the interrupt handlers.

    The probes write short records to QEMU's debug console; a script on the host
    reads them line by line.  The reader here is that of the script. *)

From Stdlib Require Import String.
From S2P Require Import Prelude Globals Text Ports Keyboard Mouse Interrupts.
Open Scope Z_scope.

Definition DEBUG_PORT : Z := 0xe9.

(** ** Records *)

Section records.
Context {W : Type} `{Devices W}.
Abbreviation Port := (M (Io W) Empty_set) (only parsing).

Definition write_byte (byte : Z) : Port unit := outb byte DEBUG_PORT.

Definition HEX : list Z := lit "0123456789abcdef".
Definition write_hex (byte : Z) : Port unit :=
  high ← lift (array_get HEX (Z.to_nat (Z.shiftr byte 4))); write_byte high;;
  low ← lift (array_get HEX (Z.to_nat (Z.land byte 15))); write_byte low.

(** [trace] of input_smoke.rs; the letters are the records' names. *)
Definition write_trace (prefix byte : Z) : Port unit := write_byte prefix;; write_hex byte;; write_byte 10.
Definition write_mark (letter : Z) : Port unit := write_byte letter;; write_byte 10.

Definition ready : Port unit := write_mark 82.
Definition keyboard_byte (byte : Z) : Port unit := write_trace 75 byte.
Definition keyboard_overflow : Port unit := write_mark 68.
Definition mouse_byte (byte : Z) : Port unit := write_trace 77 byte.
Definition exception_entered : Port unit := write_mark 70.
End records.

(** ** The hooks *)

Definition RB_SIZE : nat := 256.

Section hooks.
Context {W D Q C : Type} `{Devices W} `{InterruptController W C} `{RB : RingBuffer Z Q} (controller : C).

(** The kernel with the probes' statics. *)
Record Probed : Type := mkProbed {
  probed : Kernel W D Q;
  OVERFLOW_TRIGGERED : bool;
  TICKS_SEEN : Z;
  REPORTED : bool;
}.
Abbreviation P := (M Probed Empty_set) (only parsing).

Definition on_probed {A} (m : M (Kernel W D Q) Empty_set A) : P A := λ s,
  let '(r, k) := m (probed s) in (r, mkProbed k (OVERFLOW_TRIGGERED s) (TICKS_SEEN s) (REPORTED s)).
Definition debug_console {A} (m : M (Io W) Empty_set A) : P A := on_probed (on_io m).

(** [force_keyboard_overflow] *)
Definition force_keyboard_overflow (byte : Z) : P bool := λ s,
  if byte =? 0x30 then (Ok (negb (OVERFLOW_TRIGGERED s)), mkProbed (probed s) true (TICKS_SEEN s) (REPORTED s)) else (Ok false, s).

(** One [try_push], and what follows when it is refused. *)
Definition push_or_report (code : Z) : P unit := λ s,
  let k := probed s in
  let q := KEYBOARD_QUEUE (kb k) in
  let refused := match producer_consumer q with Some r => negb (bool_decide (is_Some (rb_try_push code r))) | None => false end in
  let s := mkProbed (set_kb (push_keyboard_scancode code (kb k)) k) (OVERFLOW_TRIGGERED s) (TICKS_SEEN s) (REPORTED s) in
  (if refused then debug_console keyboard_overflow else mret tt) s.

Fixpoint repeat_push (n : nat) (code : Z) : P unit :=
  match n with O => mret tt | S n => push_or_report code;; repeat_push n code end.

(** [push_keyboard_scancode] of the input-smoke build. *)
Definition smoke_push_keyboard (code : Z) : P unit :=
  debug_console (keyboard_byte code);;
  s ← get;
  match producer_consumer (KEYBOARD_QUEUE (kb (probed s))) with
  | None => mret tt
  | Some _ =>
    push_or_report code;;
    forced ← force_keyboard_overflow code;
    if forced : bool then repeat_push RB_SIZE code else mret tt
  end.

(** [push_mouse_byte] of the input-smoke build. *)
Definition smoke_push_mouse (byte : Z) : P unit :=
  debug_console (mouse_byte byte);;
  on_probed (modify (λ k, set_ms (push_mouse_byte byte (ms k)) k)).

(** [tick]; the unchecked increment is on a byte. *)
Definition tick : P unit :=
  s ← get;
  (λ s, (Ok tt, mkProbed (probed s) (OVERFLOW_TRIGGERED s) ((TICKS_SEEN s + 1) mod 256) (REPORTED s)));;
  n ← lift (expect (if TICKS_SEEN s + 1 <? 256 then Some (TICKS_SEEN s + 1) else None));
  if n <? 10 then mret tt else
  s ← get;
  (λ s, (Ok tt, mkProbed (probed s) (OVERFLOW_TRIGGERED s) (TICKS_SEEN s) true));;
  if REPORTED s then mret tt else debug_console (write_mark 84).

(** [handlers::timer] of the timer-smoke build. *)
Definition smoke_timer_handler : P unit :=
  on_probed (modify (λ k, set_ticks ((TICKS k + 1) mod U64_SIZE) k));;
  tick;;
  on_probed (on_io (acknowledge controller Timer)).
End hooks.
Arguments Probed : clear implicits.
Arguments mkProbed {W D Q} _ _ _ _.
Arguments probed {W D Q} _.
Arguments OVERFLOW_TRIGGERED {W D Q} _.
Arguments TICKS_SEEN {W D Q} _.
Arguments REPORTED {W D Q} _.

(** ** The reader on the host *)

Inductive Probe_record : Type := RReady | RKey (byte : Z) | RDropped | RMouse (byte : Z) | RTimer | RFault.

#[export] Instance Probe_record_eq_dec : EqDecision Probe_record.
Proof. solve_decision. Defined.

(** The complete lines of a text, and the value of a hexadecimal digit. *)
Fixpoint split_lines (current : str) (text : str) : list str :=
  match text with
  | [] => []
  | c :: text => if c =? 10 then current :: split_lines [] text else split_lines (current ++ [c]) text
  end.
Definition digit_value (c : Z) : option Z :=
  if (48 <=? c) && (c <=? 57) then Some (c - 48) else if (97 <=? c) && (c <=? 102) then Some (c - 87) else None.

Definition read_record (line : str) : option Probe_record :=
  match line with
  | [c] => if c =? 82 then Some RReady else if c =? 68 then Some RDropped else if c =? 84 then Some RTimer else if c =? 70 then Some RFault else None
  | [c; h; l] => h ← digit_value h; l ← digit_value l;
      if c =? 75 then Some (RKey (h * 16 + l)) else if c =? 77 then Some (RMouse (h * 16 + l)) else None
  | _ => None
  end.
Definition read_trace (text : str) : option (list Probe_record) := mapM read_record (split_lines [] text).

(** The bytes that reached the debug console. *)
Definition debug_bytes (l : list IoEvent) : list Z :=
  omap (λ e, match e with Out port v => if port =? DEBUG_PORT then Some v else None | _ => None end) l.

(** How the probes write a record. *)
Definition hex_char (d : Z) : Z := if d <? 10 then 48 + d else 87 + d.
Definition record_line (r : Probe_record) : str :=
  match r with
  | RReady => [82] | RDropped => [68] | RTimer => [84] | RFault => [70]
  | RKey b => [75; hex_char (b / 16); hex_char (b mod 16)]
  | RMouse b => [77; hex_char (b / 16); hex_char (b mod 16)]
  end.
Definition written (rs : list Probe_record) : str := List.concat (map (λ r, record_line r ++ [10]) rs).
Definition record_ok (r : Probe_record) : Prop := match r with RKey b | RMouse b => 0 ≤ b < 256 | _ => True end.

Lemma hex_char_digit d : 0 ≤ d < 16 → digit_value (hex_char d) = Some d ∧ hex_char d ≠ 10.
Proof.
  intros Hd. unfold digit_value, hex_char. destruct (Z.ltb_spec d 10).
  - rewrite !(proj2 (Z.leb_le _ _)) by lia. cbn [andb]. split; [f_equal; lia|lia].
  - rewrite (proj2 (Z.leb_gt (87 + d) 57)), andb_false_r, !(proj2 (Z.leb_le _ _)) by lia. cbn [andb]. split; [f_equal; lia|lia].
Qed.

Lemma split_lines_app line text : Forall (λ c, c ≠ 10) line → ∀ current,
  split_lines current (line ++ 10 :: text) = (current ++ line) :: split_lines [] text.
Proof.
  induction 1 as [|c line Hc _ IH]; intros current; cbn [split_lines app]; [by rewrite app_nil_r|].
  rewrite (proj2 (Z.eqb_neq _ _) Hc), IH, <- app_assoc. done.
Qed.

Lemma record_line_read r : record_ok r → read_record (record_line r) = Some r ∧ Forall (λ c, c ≠ 10) (record_line r).
Proof.
  intros Hr. assert (∀ b, 0 ≤ b < 256 → 0 ≤ b / 16 < 16 ∧ 0 ≤ b mod 16 < 16 ∧ b / 16 * 16 + b mod 16 = b) as Hb by (intros; Z.div_mod_to_equations; lia).
  destruct r as [|b| |b| |]; cbn [record_ok record_line read_record] in *; try (split; [done|by repeat constructor]);
    destruct (Hb b Hr) as (H1 & H2 & H3); destruct (hex_char_digit _ H1) as [-> ?], (hex_char_digit _ H2) as [-> ?];
    cbn [mbind option_bind]; rewrite H3; (split; [done|by repeat constructor]).
Qed.

(** The reader inverts the probes. *)
Lemma read_written rs : Forall record_ok rs → read_trace (written rs) = Some rs.
Proof.
  unfold read_trace. induction 1 as [|r rs Hr _ IH]; [done|]. destruct (record_line_read r Hr) as [Hread Hl].
  change (written (r :: rs)) with ((record_line r ++ [10]) ++ written rs). rewrite <- app_assoc. cbn [app].
  rewrite split_lines_app by done. cbn [app mapM]. rewrite Hread. cbn [mbind option_bind]. by rewrite IH.
Qed.

Lemma written_app l1 l2 : written (l1 ++ l2) = written l1 ++ written l2.
Proof. unfold written. by rewrite map_app, concat_app. Qed.

(** ** What each hooked writes *)

Section proofs.
Context {W D Q : Type} `{Devices W} `{RB : RingBuffer Z Q}.
Implicit Types (s : Probed W D Q).

Definition trace_of s : list IoEvent := trace (io (probed s)).

(** The state with another machine behind its ports. *)
Definition with_io (i : Io W) s : Probed W D Q :=
  let k := probed s in
  mkProbed (mkKernel i (IDT k) (TSS k) (HARDWARE_INITIALIZED k) (TICKS k) (kb k) (ms k)) (OVERFLOW_TRIGGERED s) (TICKS_SEEN s) (REPORTED s).

Definition debug_out (l : list Z) : list IoEvent := map (Out DEBUG_PORT) l.

Lemma debug_bytes_out l : debug_bytes (debug_out l) = l.
Proof. induction l as [|b l IH]; [done|]. cbn. by f_equal. Qed.

Lemma debug_bytes_app l1 l2 : debug_bytes (l1 ++ l2) = debug_bytes l1 ++ debug_bytes l2.
Proof. apply omap_app. Qed.

Lemma mark_written letter s : ∃ d, debug_console (write_mark letter) s = (Ok tt, with_io (mkIo d (trace_of s ++ debug_out [letter; 10])) s).
Proof.
  eexists. unfold debug_console, on_probed, on_io, write_mark, write_byte, outb. unfold_monad. cbn [dev trace].
  rewrite <- app_assoc. reflexivity.
Qed.

Lemma hex_get d : 0 ≤ d < 16 → array_get (E:=Empty_set) HEX (Z.to_nat d) = Ok (hex_char d).
Proof.
  intros Hd. assert (d ∈ seqZ 0 16) as Hin by (apply elem_of_seqZ; lia). clear Hd. revert d Hin. apply Forall_forall.
  repeat (apply Forall_cons; split); done.
Qed.

Lemma trace_written prefix b s : 0 ≤ b < 256 → ∃ d, debug_console (write_trace prefix b) s =
  (Ok tt, with_io (mkIo d (trace_of s ++ debug_out [prefix; hex_char (b / 16); hex_char (b mod 16); 10])) s).
Proof.
  intros Hb. assert (Z.shiftr b 4 = b / 16 ∧ Z.land b 15 = b mod 16) as [H1 H2].
  { rewrite Z.shiftr_div_pow2 by lia. change 15 with (Z.ones 4). rewrite Z.land_ones by lia. done. }
  eexists. unfold debug_console, on_probed, on_io, write_trace, write_hex, write_byte, outb, lift. unfold_monad. rewrite H1, H2.
  rewrite !hex_get by (Z.div_mod_to_equations; lia). cbn [dev trace]. rewrite <- !app_assoc. reflexivity.
Qed.

(** A step writes some records, all well formed, and grows the trace by them. *)
Definition emits s s' (rs : list Probe_record) : Prop :=
  Forall record_ok rs ∧ ∃ l, trace_of s' = trace_of s ++ l ∧ debug_bytes l = written rs.

Lemma emits_nil s s' : trace_of s' = trace_of s → emits s s' [].
Proof. intros Ht. split; [constructor|]. exists []. by rewrite app_nil_r. Qed.

Lemma emits_app s1 s2 s3 r1 r2 : emits s1 s2 r1 → emits s2 s3 r2 → emits s1 s3 (r1 ++ r2).
Proof.
  intros [H1 (l1 & Ht1 & Hb1)] [H2 (l2 & Ht2 & Hb2)]. split; [by apply Forall_app|].
  exists (l1 ++ l2). by rewrite Ht2, Ht1, <- app_assoc, debug_bytes_app, written_app, Hb1, Hb2.
Qed.

Definition drops s : Z := dropped (KEYBOARD_QUEUE (kb (probed s))).
Definition active s : Prop := is_Some (producer_consumer (KEYBOARD_QUEUE (kb (probed s)))).
Definition count (r : Probe_record) (rs : list Probe_record) : nat := count_occ Probe_record_eq_dec rs r.

(** A hooked writes its records; every refused byte is counted and recorded. *)
Record hooked s s' (rs : list Probe_record) : Prop := {
  hook_emits : emits s s' rs;
  hook_active : active s → active s';
  hook_drops : is_u64 (drops s) → drops s' = (drops s + Z.of_nat (count RDropped rs)) mod U64_SIZE;
}.

Lemma hook_trans s1 s2 s3 r1 r2 : hooked s1 s2 r1 → hooked s2 s3 r2 → hooked s1 s3 (r1 ++ r2).
Proof.
  intros [H1 H2 H3] [H4 H5 H6]. split; [by apply (emits_app s1 s2)|by auto|]. intros Hd. unfold count in *. rewrite count_occ_app, Nat2Z.inj_add.
  specialize (H3 Hd). assert (is_u64 (drops s2)) as Hd2 by (rewrite H3; apply Z.mod_pos_bound; lia).
  rewrite (H6 Hd2), H3, Zplus_mod_idemp_l. f_equal. lia.
Qed.

(** A hooked that leaves the keyboard alone. *)
Lemma hook_other s s' rs : emits s s' rs → kb (probed s') = kb (probed s) → count RDropped rs = 0%nat → hooked s s' rs.
Proof.
  intros He Hk Hc. split; [done|unfold active; by rewrite Hk|]. intros Hd. rewrite Hc. unfold drops in *. rewrite Hk, Z.add_0_r.
  symmetry. by apply Z.mod_small.
Qed.

Lemma hook_nil s s' : trace_of s' = trace_of s → kb (probed s') = kb (probed s) → hooked s s' [].
Proof. intros Ht Hk. by apply hook_other; [apply emits_nil|..]. Qed.

Lemma mark_hook letter r s : record_line r = [letter] → r ≠ RDropped →
  ∃ d, debug_console (write_mark letter) s = (Ok tt, with_io (mkIo d (trace_of s ++ debug_out [letter; 10])) s) ∧
    hooked s (with_io (mkIo d (trace_of s ++ debug_out [letter; 10])) s) [r].
Proof.
  intros Hl Hr. destruct (mark_written letter s) as (d & Hm). exists d. split; [exact Hm|]. apply hook_other; [|done|].
  - split; [destruct r; by repeat constructor|]. eexists. split; [reflexivity|]. rewrite debug_bytes_out. unfold written. cbn. by rewrite Hl.
  - unfold count. cbn. by destruct (Probe_record_eq_dec _ _).
Qed.

Lemma trace_hook prefix r s b : record_line r = [prefix; hex_char (b / 16); hex_char (b mod 16)] → record_ok r → r ≠ RDropped → 0 ≤ b < 256 →
  ∃ s', debug_console (write_trace prefix b) s = (Ok tt, s') ∧ hooked s s' [r] ∧ ∃ i, s' = with_io i s.
Proof.
  intros Hl Hok Hr Hb. destruct (trace_written prefix b s Hb) as (d & ->). eexists. split; [reflexivity|]. split; [|by eexists].
  apply hook_other; [|done|].
  - split; [by repeat constructor|]. eexists. split; [reflexivity|]. rewrite debug_bytes_out. unfold written. cbn. by rewrite Hl.
  - unfold count. cbn. by destruct (Probe_record_eq_dec _ _).
Qed.

Definition same_flags s s' : Prop :=
  TICKS_SEEN s' = TICKS_SEEN s ∧ REPORTED s' = REPORTED s ∧ OVERFLOW_TRIGGERED s' = OVERFLOW_TRIGGERED s.

Context (capacity : nat) `{!RingBufferLaws Z Q capacity}.

Definition pending s : nat := length (queue_items capacity (KEYBOARD_QUEUE (kb (probed s)))).

(** One push: it is refused exactly when the queue is full. *)
Lemma push_or_report_hook code s : active s →
  ∃ s' n, push_or_report code s = (Ok tt, s') ∧ hooked s s' (replicate n RDropped) ∧ same_flags s s' ∧
    (pending s' + n = pending s + 1)%nat ∧ (n = 0%nat ∧ (pending s < capacity)%nat ∨ n = 1%nat ∧ (capacity ≤ pending s)%nat).
Proof.
  intros [q Hq]. unfold push_or_report, pending, queue_items. cbv zeta. rewrite Hq. pose proof (rb_push_items q code) as Hp.
  unfold push_keyboard_scancode, push. rewrite Hq. destruct (rb_try_push code q) as [q'|].
  - destruct Hp as [Hi Hlen]. rewrite bool_decide_true by done. cbn [negb]. eexists _, 0%nat. split; [reflexivity|].
    split; [|split; [done|cbn; rewrite Hi, length_app; cbn; split; [lia|by left]]].
    split; [by apply emits_nil|by eexists|]. unfold drops. cbn. rewrite Z.add_0_r. intros Hd. symmetry. by apply Z.mod_small.
  - rewrite bool_decide_false by (by intros []). cbn [negb]. set (s1 := mkProbed _ _ _ _).
    destruct (mark_written 68 s1) as (d & Hm). unfold keyboard_overflow. rewrite Hm. eexists _, 1%nat. split; [reflexivity|].
    split; [|split; [done|cbn; split; [lia|by right]]].
    split; [split; [by repeat constructor|eexists; split; [reflexivity|by rewrite debug_bytes_out]]|by eexists|]. by unfold drops.
Qed.

Lemma repeat_push_hook code n : ∀ s, active s →
  ∃ s' k, repeat_push n code s = (Ok tt, s') ∧ hooked s s' (replicate k RDropped) ∧ same_flags s s' ∧
    (pending s' + k = pending s + n)%nat ∧ (pending s' ≤ Nat.max (pending s) capacity)%nat.
Proof.
  induction n as [|n IH]; intros s Ha; cbn [repeat_push].
  { exists s, 0%nat. split; [done|]. split; [by apply hook_nil|]. split; [done|]. lia. }
  destruct (push_or_report_hook code s Ha) as (s1 & n1 & Hr1 & Hh1 & (Hf1 & Hf2 & Hf3) & Hp1 & Hn1).
  destruct (IH s1 (hook_active _ _ _ Hh1 Ha)) as (s' & k & Hr & Hh & (Hg1 & Hg2 & Hg3) & Hp & Hm).
  exists s', (n1 + k)%nat. unfold_monad. rewrite Hr1. split; [exact Hr|]. split; [rewrite replicate_add; by apply (hook_trans s s1)|].
  split; [split_and!; congruence|]. lia.
Qed.

(** A scancode: its record, then one for every refused push; the first 0x30 is
    pushed until pushes are refused. *)
Lemma smoke_key_hook code s : active s → 0 ≤ code < 256 → (0 < capacity ≤ RB_SIZE)%nat →
  ∃ s' n, smoke_push_keyboard code s = (Ok tt, s') ∧ hooked s s' (RKey code :: replicate n RDropped) ∧
    TICKS_SEEN s' = TICKS_SEEN s ∧ REPORTED s' = REPORTED s ∧ OVERFLOW_TRIGGERED s' = OVERFLOW_TRIGGERED s || (code =? 0x30) ∧
    (code = 0x30 → OVERFLOW_TRIGGERED s = false → (0 < n)%nat).
Proof.
  intros Ha Hcode Hcap. unfold smoke_push_keyboard, keyboard_byte. unfold_monad.
  destruct (trace_hook 75 (RKey code) s code) as (s1 & -> & Hh1 & i & ->); [done..|]. pose proof (hook_active _ _ _ Hh1 Ha) as Ha1.
  set (s1 := with_io i s) in *. destruct Ha1 as [q Hq]. rewrite Hq.
  destruct (push_or_report_hook code s1 ltac:(by eexists)) as (s2 & n1 & -> & Hh2 & (Hf1 & Hf2 & Hf3) & Hp1 & Hn1).
  pose proof (hook_active _ _ _ Hh2 ltac:(by eexists)) as Ha2. pose proof (hook_trans _ _ _ _ _ Hh1 Hh2) as Hh12.
  change (TICKS_SEEN s1) with (TICKS_SEEN s) in Hf1. change (REPORTED s1) with (REPORTED s) in Hf2.
  change (OVERFLOW_TRIGGERED s1) with (OVERFLOW_TRIGGERED s) in Hf3.
  unfold force_keyboard_overflow. destruct (Z.eqb_spec code 0x30) as [Hc|Hc].
  2:{ exists s2, n1. split; [done|]. split; [exact Hh12|]. rewrite orb_false_r. by split_and!. }
  rewrite Hf3. set (s3 := mkProbed (probed s2) true _ _). rewrite orb_true_r.
  assert (hooked s s3 (RKey code :: replicate n1 RDropped)) as Hh13 by (by destruct Hh12).
  destruct (OVERFLOW_TRIGGERED s) eqn:Ho; cbn [negb].
  { exists s3, n1. split; [done|]. split; [exact Hh13|]. by split_and!. }
  destruct (repeat_push_hook code RB_SIZE s3 Ha2) as (s4 & n2 & Hr & Hh4 & (Hg1 & Hg2 & Hg3) & Hp2 & Hm).
  exists s4, (n1 + n2)%nat. split; [exact Hr|]. split.
  { rewrite replicate_add. by apply (hook_trans s s3 s4 (RKey code :: replicate n1 RDropped)). }
  split; [by rewrite Hg1|]. split; [by rewrite Hg2|]. split; [by rewrite Hg3|]. intros _ _.
  change (pending s3) with (pending s2) in *. lia.
Qed.

Lemma smoke_mouse_hook byte s : 0 ≤ byte < 256 →
  ∃ s', smoke_push_mouse byte s = (Ok tt, s') ∧ hooked s s' [RMouse byte] ∧ same_flags s s'.
Proof.
  intros Hb. unfold smoke_push_mouse, mouse_byte. unfold_monad.
  destruct (trace_hook 77 (RMouse byte) s byte) as (s1 & -> & Hh1 & i & ->); [done..|]. eexists. split; [reflexivity|].
  split; [|done]. change [RMouse byte] with ([RMouse byte] ++ []). eapply hook_trans; [exact Hh1|]. by apply hook_nil.
Qed.

(** A step that returns hands its value to the rest. *)
Lemma run_bind {A B} (m : M (Probed W D Q) Empty_set A) (f : A → M (Probed W D Q) Empty_set B) s a s1 : m s = (Ok a, s1) → (m ≫= f) s = f a s1.
Proof. intros Hm. unfold mbind, M_bind. by rewrite Hm. Qed.

(** The timer's record comes with the tenth tick; the counter holds 255. *)
Lemma tick_hook s : 0 ≤ TICKS_SEEN s → TICKS_SEEN s + 1 < 256 →
  ∃ s', tick s = (Ok tt, s') ∧
    hooked s s' (if (10 <=? TICKS_SEEN s + 1) && negb (REPORTED s) then [RTimer] else []) ∧
    TICKS_SEEN s' = TICKS_SEEN s + 1 ∧ REPORTED s' = REPORTED s || (10 <=? TICKS_SEEN s + 1) ∧ OVERFLOW_TRIGGERED s' = OVERFLOW_TRIGGERED s.
Proof.
  intros H0 H1. unfold tick. rewrite (run_bind get _ s s s) by done. erewrite run_bind by reflexivity. cbv beta.
  rewrite (proj2 (Z.ltb_lt _ _) H1), Z.mod_small by lia. cbn [expect]. set (s1 := mkProbed (probed s) _ _ _).
  rewrite (run_bind (lift _) _ s1 (TICKS_SEEN s + 1) s1) by done. rewrite Z.leb_antisym.
  destruct (Z.ltb_spec (TICKS_SEEN s + 1) 10) as [Ht|Ht]; cbn [negb andb].
  - exists s1. split; [done|]. split; [by apply hook_nil|]. by rewrite orb_false_r.
  - rewrite (run_bind get _ s1 s1 s1) by done. erewrite run_bind by reflexivity. cbv beta. set (s2 := mkProbed (probed s1) _ _ _).
    change (REPORTED s1) with (REPORTED s). rewrite orb_true_r. destruct (REPORTED s); cbn [negb].
    + exists s2. split; [done|]. split; [by apply hook_nil|done].
    + destruct (mark_hook 84 RTimer s2) as (d & Hm & Hh); [done..|]. eexists. split; [exact Hm|]. split; [|done].
      change [RTimer] with (@nil Probe_record ++ [RTimer]). eapply hook_trans; [|exact Hh]. by apply hook_nil.
Qed.

Lemma smoke_timer_hook s : 0 ≤ TICKS_SEEN s → TICKS_SEEN s + 1 < 256 →
  ∃ s', smoke_timer_handler CONTROLLER s = (Ok tt, s') ∧
    hooked s s' (if (10 <=? TICKS_SEEN s + 1) && negb (REPORTED s) then [RTimer] else []) ∧
    TICKS_SEEN s' = TICKS_SEEN s + 1 ∧ REPORTED s' = REPORTED s || (10 <=? TICKS_SEEN s + 1) ∧ OVERFLOW_TRIGGERED s' = OVERFLOW_TRIGGERED s.
Proof.
  intros H0 H1. unfold smoke_timer_handler. erewrite run_bind by reflexivity. cbv beta. set (s1 := mkProbed _ _ _ _).
  destruct (tick_hook s1 H0 H1) as (s2 & Hr & Hh & Hf1 & Hf2 & Hf3). rewrite (run_bind tick _ s1 tt s2 Hr). eexists. split; [reflexivity|].
  split; [|done]. match goal with |- hooked _ _ ?rs => rewrite <- (app_nil_l rs), <- (app_nil_r rs) end.
  eapply hook_trans; [|eapply hook_trans; [exact Hh|]]; [by apply hook_nil|]. apply hook_other; [|done|done].
  split; [constructor|]. exists [Out MASTER_COMMAND EOI]. by split.
Qed.

(** ** A whole test run *)

(** What the hooks see, in the order in which it happens. *)
Inductive Smoke_event : Type := SReady | SKey (code : Z) | SMouse (byte : Z) | STick.
#[local] Instance Smoke_event_eq_dec : EqDecision Smoke_event.
Proof. solve_decision. Defined.

Definition smoke_step (e : Smoke_event) : M (Probed W D Q) Empty_set unit :=
  match e with
  | SReady => debug_console ready
  | SKey code => smoke_push_keyboard code
  | SMouse byte => smoke_push_mouse byte
  | STick => smoke_timer_handler CONTROLLER
  end.
Fixpoint smoke_run (es : list Smoke_event) : M (Probed W D Q) Empty_set unit :=
  match es with [] => mret tt | e :: es => smoke_step e;; smoke_run es end.

Definition event_ok (e : Smoke_event) : Prop := match e with SKey b | SMouse b => 0 ≤ b < 256 | _ => True end.
Definition ticks_in (es : list Smoke_event) : Z := Z.of_nat (length (List.filter (λ e, match e with STick => true | _ => false end) es)).
Definition keys_in (es : list Smoke_event) : list Z := omap (λ e, match e with SKey b => Some b | _ => None end) es.
Definition mice_in (es : list Smoke_event) : list Z := omap (λ e, match e with SMouse b => Some b | _ => None end) es.
Definition keys_of (rs : list Probe_record) : list Z := omap (λ r, match r with RKey b => Some b | _ => None end) rs.
Definition mice_of (rs : list Probe_record) : list Z := omap (λ r, match r with RMouse b => Some b | _ => None end) rs.

(** The probes between events. *)
Record probes_ok s : Prop := {
  probes_active : active s;
  probes_ticks : 0 ≤ TICKS_SEEN s;
  probes_reported : REPORTED s = (10 <=? TICKS_SEEN s);
}.

Lemma keys_of_drops n : keys_of (replicate n RDropped) = [] ∧ mice_of (replicate n RDropped) = [] ∧ count RTimer (replicate n RDropped) = 0%nat.
Proof. induction n as [|n (H1 & H2 & H3)]; [done|]. by split_and!. Qed.

Lemma smoke_step_hook e s : probes_ok s → event_ok e → (0 < capacity ≤ RB_SIZE)%nat → TICKS_SEEN s + ticks_in [e] < 256 →
  ∃ s' rs, smoke_step e s = (Ok tt, s') ∧ hooked s s' rs ∧ probes_ok s' ∧ TICKS_SEEN s' = TICKS_SEEN s + ticks_in [e] ∧
    keys_of rs = keys_in [e] ∧ mice_of rs = mice_in [e] ∧
    Z.of_nat (count RTimer rs) = Z.b2z (10 <=? TICKS_SEEN s') - Z.b2z (10 <=? TICKS_SEEN s) ∧
    (OVERFLOW_TRIGGERED s = false → if decide (e = SKey 0x30) then RDropped ∈ rs else OVERFLOW_TRIGGERED s' = false).
Proof.
  intros [Ha Ht Hrep] He Hcap Hn. unfold ticks_in in *. destruct e as [|code|byte|]; cbn [smoke_step event_ok length List.filter] in *;
    rewrite ?Z.add_0_r in *.
  - destruct (mark_hook 82 RReady s) as (d & Hr & Hh); [done..|]. eexists _, [RReady]. split; [exact Hr|]. split; [exact Hh|].
    split; [by split|]. split_and!; try done. cbn. lia.
  - destruct (smoke_key_hook code s Ha He Hcap) as (s' & n & Hr & Hh & Hf1 & Hf2 & Hf3 & Hd). exists s', (RKey code :: replicate n RDropped).
    destruct (keys_of_drops n) as (H1 & H2 & H3). split; [exact Hr|]. split; [exact Hh|].
    split; [split; [by apply (hook_active _ _ _ Hh)|lia|by rewrite Hf1, Hf2]|]. split; [done|].
    split; [unfold keys_of in *; cbn; by rewrite H1|]. split; [exact H2|]. split; [unfold count in *; cbn; rewrite H3, Hf1; lia|].
    intros Ho. destruct (decide (SKey code = SKey 48)) as [[= ->]|Hne].
    + specialize (Hd eq_refl Ho). destruct n as [|n]; [lia|]. right. by left.
    + rewrite Hf3, Ho. apply Z.eqb_neq. congruence.
  - destruct (smoke_mouse_hook byte s He) as (s' & Hr & Hh & Hf1 & Hf2 & Hf3). exists s', [RMouse byte]. split; [exact Hr|]. split; [exact Hh|].
    split; [split; [by apply (hook_active _ _ _ Hh)|lia|by rewrite Hf1, Hf2]|]. rewrite Hf1. split_and!; try done; [cbn; lia|].
    intros Ho. by rewrite Hf3.
  - change (Z.of_nat 1) with 1 in *. destruct (smoke_timer_hook s Ht Hn) as (s' & Hr & Hh & Hf1 & Hf2 & Hf3). eexists s', _. split; [exact Hr|]. split; [exact Hh|].
    split; [split; [by apply (hook_active _ _ _ Hh)|lia|]|].
    { rewrite Hf1, Hf2, Hrep. destruct (Z.leb_spec 10 (TICKS_SEEN s)), (Z.leb_spec 10 (TICKS_SEEN s + 1)); done || lia. }
    split; [done|]. rewrite Hf1, Hrep.
    destruct (Z.leb_spec 10 (TICKS_SEEN s)), (Z.leb_spec 10 (TICKS_SEEN s + 1)); cbn; split_and!; try (done || lia); intros Ho; by rewrite Hf3.
Qed.

Lemma in_app e es : ticks_in (e :: es) = ticks_in [e] + ticks_in es ∧ keys_in (e :: es) = keys_in [e] ++ keys_in es ∧
  mice_in (e :: es) = mice_in [e] ++ mice_in es ∧ 0 ≤ ticks_in [e] ∧ 0 ≤ ticks_in es.
Proof. unfold ticks_in. destruct e; cbn; split_and!; done || lia. Qed.

Lemma of_app r1 r2 : keys_of (r1 ++ r2) = keys_of r1 ++ keys_of r2 ∧ mice_of (r1 ++ r2) = mice_of r1 ++ mice_of r2.
Proof. split; apply omap_app. Qed.

Lemma smoke_run_hook es : Forall event_ok es → (0 < capacity ≤ RB_SIZE)%nat → ∀ s, probes_ok s → TICKS_SEEN s + ticks_in es < 256 →
  ∃ s' rs, smoke_run es s = (Ok tt, s') ∧ hooked s s' rs ∧ TICKS_SEEN s' = TICKS_SEEN s + ticks_in es ∧
    keys_of rs = keys_in es ∧ mice_of rs = mice_in es ∧
    Z.of_nat (count RTimer rs) = Z.b2z (10 <=? TICKS_SEEN s') - Z.b2z (10 <=? TICKS_SEEN s) ∧
    (OVERFLOW_TRIGGERED s = false → SKey 0x30 ∈ es → RDropped ∈ rs).
Proof.
  intros Hes Hcap. induction Hes as [|e es He _ IH]; intros s Hs Hn; cbn [smoke_run].
  { exists s, []. split; [done|]. split; [by apply hook_nil|]. unfold ticks_in. cbn. split_and!; try (done || lia). by intros _ ?%not_elem_of_nil. }
  destruct (in_app e es) as (Ht & Hk & Hm & H0 & H0'). rewrite Ht in *.
  destruct (smoke_step_hook e s Hs He Hcap) as (s1 & r1 & Hr1 & Hh1 & Hs1 & Ht1 & Hk1 & Hm1 & Hc1 & Ho1); [lia|].
  destruct (IH s1 Hs1) as (s' & r2 & Hr2 & Hh2 & Ht2 & Hk2 & Hm2 & Hc2 & Ho2); [lia|].
  exists s', (r1 ++ r2). rewrite (run_bind _ _ s tt s1 Hr1). split; [exact Hr2|]. split; [by apply (hook_trans s s1)|]. split; [lia|].
  destruct (of_app r1 r2) as [-> ->]. rewrite Hk, Hm, Hk1, Hk2, Hm1, Hm2. split; [done|]. split; [done|].
  split; [unfold count in *; rewrite count_occ_app; lia|]. intros Ho Hin. specialize (Ho1 Ho). rewrite elem_of_app.
  destruct (decide (e = SKey 48)) as [|Hne]; [by left|]. right. apply Ho2; [done|]. by apply elem_of_cons in Hin as [|].
Qed.

(** C40. The protocol of the test builds.  Whatever the keyboard, the mouse and the
    timer deliver, in whatever order, the host's reader gets back from the debug
    console exactly what the kernel saw: every scancode and every mouse byte, each
    kind in its order, and one record for every scancode that was dropped, so that
    the records and the kernel's counter agree.  The first press of B fills the
    queue and is always seen to drop.  The timer's mark appears once, with the
    tenth tick.  No hooked fails up to 255 ticks. *)
Theorem smoke_trace es s : probes_ok s → Forall event_ok es → is_u64 (drops s) → (0 < capacity ≤ RB_SIZE)%nat →
  TICKS_SEEN s + ticks_in es < 256 →
  ∃ s' l rs, smoke_run es s = (Ok tt, s') ∧ trace_of s' = trace_of s ++ l ∧ read_trace (debug_bytes l) = Some rs ∧
    keys_of rs = keys_in es ∧ mice_of rs = mice_in es ∧
    drops s' = (drops s + Z.of_nat (count RDropped rs)) mod U64_SIZE ∧
    Z.of_nat (count RTimer rs) = Z.b2z (10 <=? TICKS_SEEN s + ticks_in es) - Z.b2z (10 <=? TICKS_SEEN s) ∧
    (OVERFLOW_TRIGGERED s = false → SKey 0x30 ∈ es → RDropped ∈ rs).
Proof.
  intros Hs Hes Hd Hcap Hn. destruct (smoke_run_hook es Hes Hcap s Hs Hn) as (s' & rs & Hr & Hh & Ht & Hk & Hm & Hc & Ho).
  destruct (hook_emits _ _ _ Hh) as [Hok (l & Hl & Hb)]. exists s', l, rs. rewrite Hb, (read_written rs Hok), <- Ht.
  split_and!; try done. by apply (hook_drops _ _ _ Hh).
Qed.

(** The 256th tick overflows the probe's counter: a checked build panics inside
    the interrupt handler, before the interrupt is acknowledged. *)
Lemma tick_overflow s : TICKS_SEEN s = 255 → ∃ s', smoke_timer_handler CONTROLLER s = (Panic, s') ∧ trace_of s' = trace_of s.
Proof.
  intros Ht. unfold smoke_timer_handler. erewrite run_bind by reflexivity. cbv beta. set (s1 := mkProbed _ _ _ _).
  unfold tick. unfold mbind, M_bind, get, lift. cbn. rewrite Ht. by eexists.
Qed.
End proofs.

(** ** Witness: a test run *)

#[local] Instance silent_devices : Devices unit := {| dev_in _ d := (0, d); dev_out _ _ d := d; dev_out32 _ _ d := d |}.

Definition demo_probed : Probed unit unit (list Z) :=
  mkProbed (mkKernel (mkIo tt []) None None false 0 (mkKeyboard (mkShared (Some []) 0) tt false) (mkMouse (mkShared (Some []) 0) PACKET_STATE_new))
    false 0 false.

(** B is the fourth event; 256 pushes follow the one that fits. *)
Lemma smoke_trace_witness : ∃ s' l rs,
  smoke_run (RB:=list_ring 256) [SReady; SKey 0x1e; STick; SKey 0x30; SMouse 0x08] demo_probed = (Ok tt, s') ∧
  trace_of s' = l ∧ read_trace (debug_bytes l) = Some rs ∧ keys_of rs = [0x1e; 0x30] ∧ mice_of rs = [0x08] ∧ RDropped ∈ rs.
Proof.
  destruct (smoke_trace (RB:=list_ring 256) 256 (RingBufferLaws0:=list_ring_laws 256) [SReady; SKey 0x1e; STick; SKey 0x30; SMouse 0x08] demo_probed)
    as (s' & l & rs & Hr & Hl & Hrs & Hk & Hm & _ & _ & Ho).
  - split; [by eexists|done|done].
  - repeat constructor; done.
  - done.
  - unfold RB_SIZE. lia.
  - done.
  - exists s', l, rs. split; [exact Hr|]. split; [exact Hl|]. split; [exact Hrs|]. split; [exact Hk|]. split; [exact Hm|].
    apply Ho; [reflexivity|]. do 3 right. left.
Defined.
