(* ===== verification/Compat.v ===== *)
(** * Compat: the C symbol of [src/uefi_compat.rs] that the UEFI crate links
    against. *)

From S2P Require Import Prelude.
Open Scope Z_scope.

(** The 16-bit word at an address. *)
Definition read_u16 (m : mem) (p : Z) : Z := m p + 256 * m (p + 1).

(** The loop of [wcslen]; without fuel it does not end. *)
Fixpoint wcslen_loop (fuel : nat) (m : mem) (string length : Z) : option (outcome Empty_set Z) :=
  match fuel with
  | O => None
  | S fuel =>
    if read_u16 m string =? 0 then Some (Ok length) else
    match add_u64 length 1 with
    | Ok length => wcslen_loop fuel m (string + 2) length
    | r => Some r
    end
  end.
Definition wcslen (fuel : nat) (m : mem) (string : Z) : option (outcome Empty_set Z) := wcslen_loop fuel m string 0.

(** A terminated string of [n] words. *)
Definition terminated (m : mem) (p n : Z) : Prop := read_u16 m (p + 2 * n) = 0 ∧ ∀ i, 0 ≤ i < n → read_u16 m (p + 2 * i) ≠ 0.

Lemma wcslen_loop_spec m n : ∀ fuel p k, 0 ≤ n → 0 ≤ k → k + n < U64_SIZE → (Z.to_nat n < fuel)%nat → terminated m p n →
  wcslen_loop fuel m p k = Some (Ok (k + n)).
Proof.
  intros fuel p k Hn. revert fuel p k. pattern n. revert n Hn. apply natlike_ind; [|intros n Hn IH]; intros fuel p k Hk Hlt Hf [H0 Hi].
  - destruct fuel as [|fuel]; [lia|]. cbn [wcslen_loop]. rewrite Z.mul_0_r, Z.add_0_r in H0. by rewrite H0, Z.add_0_r.
  - destruct fuel as [|fuel]; [lia|]. cbn [wcslen_loop]. pose proof (Hi 0 ltac:(lia)) as Hp. rewrite Z.mul_0_r, Z.add_0_r in Hp.
    rewrite (proj2 (Z.eqb_neq _ _) Hp), add_u64_ok by (unfold is_u64; lia). rewrite (IH fuel (p + 2) (k + 1)); [f_equal; f_equal; lia|lia|lia|lia|].
    split; [by replace (p + 2 + 2 * n) with (p + 2 * Z.succ n) by lia|]. intros i Hr.
    replace (p + 2 + 2 * i) with (p + 2 * (i + 1)) by lia. apply Hi. lia.
Qed.

(** On a terminated string the loop ends and returns its length, which no other
    number is. *)
Theorem wcslen_spec m p n : 0 ≤ n < U64_SIZE → terminated m p n →
  (∀ fuel, (Z.to_nat n < fuel)%nat → wcslen fuel m p = Some (Ok n)) ∧ ∀ n', 0 ≤ n' → terminated m p n' → n' = n.
Proof.
  intros Hn Ht. split; [intros fuel Hf; by apply (wcslen_loop_spec m n fuel p 0); [lia|lia|lia|done|]|].
  intros n' Hn' [H0' Hi']. destruct Ht as [H0 Hi]. destruct (Z.lt_trichotomy n n') as [Hlt|[->|Hlt]]; [|done|].
  - by destruct (Hi' n ltac:(lia)).
  - by destruct (Hi n' ltac:(lia)).
Qed.

Lemma wcslen_spec_witness : wcslen 4 (λ a, if a =? 4 then 0 else if a =? 5 then 0 else 65) 0 = Some (Ok 2).
Proof.
  destruct (wcslen_spec (λ a, if a =? 4 then 0 else if a =? 5 then 0 else 65) 0 2) as [Hr _]; [lia| |apply Hr; lia].
  split; [done|]. intros i Hi. assert (i = 0 ∨ i = 1) as [-> | ->] by lia; by vm_compute.
Defined.
