(* ===== verification/Profiling.v ===== *)
(** * Profiling: the call tree of [src/profiling.rs].

    Functions enter the tree and leave it through guards; the tree is written
    to a debug port at shutdown.  The two tests of [RECORDING] around turning
    interrupts off see the same value here: what an interrupt handler does in
    between is a call like any other, before this one. *)

From Stdlib Require Import String.
From S2P Require Import Prelude Text Ports.
Open Scope Z_scope.

(** ** The state *)

Definition NODE_CAPACITY : Z := 16384.
Definition ROOT : Z := 0.
Definition NO_NODE : Z := 2 ^ 32 - 1.

Record Node : Type := mkNode {
  name : str;
  parent : Z;
  first_child : Z;
  next_sibling : Z;
  calls : Z;
}.

Definition Node_EMPTY : Node := mkNode [] NO_NODE NO_NODE NO_NODE 0.

(** The statics of the module and the interrupt flag of the processor. *)
Record Profile : Type := mkProfile {
  NODES : list Node;
  NODE_COUNT : Z;
  CURRENT_NODE : Z;
  DROPPED_PATHS : Z;
  RECORDING : bool;
  interrupts_enabled : bool;
}.

Definition Profile_new (interrupts : bool) : Profile :=
  mkProfile (replicate (Z.to_nat NODE_CAPACITY) Node_EMPTY) 1 ROOT 0 true interrupts.

Definition set_nodes (l : list Node) (p : Profile) : Profile :=
  mkProfile l (NODE_COUNT p) (CURRENT_NODE p) (DROPPED_PATHS p) (RECORDING p) (interrupts_enabled p).
Definition set_node_count (n : Z) (p : Profile) : Profile :=
  mkProfile (NODES p) n (CURRENT_NODE p) (DROPPED_PATHS p) (RECORDING p) (interrupts_enabled p).
Definition set_current_node (n : Z) (p : Profile) : Profile :=
  mkProfile (NODES p) (NODE_COUNT p) n (DROPPED_PATHS p) (RECORDING p) (interrupts_enabled p).
Definition set_dropped_paths (n : Z) (p : Profile) : Profile :=
  mkProfile (NODES p) (NODE_COUNT p) (CURRENT_NODE p) n (RECORDING p) (interrupts_enabled p).
Definition set_recording (b : bool) (p : Profile) : Profile :=
  mkProfile (NODES p) (NODE_COUNT p) (CURRENT_NODE p) (DROPPED_PATHS p) b (interrupts_enabled p).
Definition set_interrupts (b : bool) (p : Profile) : Profile :=
  mkProfile (NODES p) (NODE_COUNT p) (CURRENT_NODE p) (DROPPED_PATHS p) (RECORDING p) b.

(** ** Entering and leaving *)

(** The loops below take a number of rounds; running out of it is an outcome of
    its own, which the theorems exclude. *)
Inductive Stuck : Type := OutOfFuel.

Record ProfileGuard : Type := mkGuard { previous : Z; active : bool }.

(** The search for a child of that name. *)
Fixpoint find_child (fuel : nat) (nodes : list Node) (nm : str) (child : Z) : outcome Stuck Z :=
  if child =? NO_NODE then Ok child else
  match fuel with
  | O => Err OutOfFuel
  | S fuel =>
    node ← array_get nodes (Z.to_nat child);
    if decide (name node = nm) then Ok child else find_child fuel nodes nm (next_sibling node)
  end.

(** The node that a call from [CURRENT_NODE] goes to. *)
Definition enter_node (nm : str) : M Profile Stuck Z :=
  p ← get;
  let parent := CURRENT_NODE p in
  if parent =? NO_NODE then mret NO_NODE else
  node ← lift (array_get (NODES p) (Z.to_nat parent));
  child ← lift (find_child (Z.to_nat NODE_CAPACITY) (NODES p) nm (first_child node));
  if negb (child =? NO_NODE) then
    node ← lift (array_get (NODES p) (Z.to_nat child));
    nodes ← lift (array_set (NODES p) (Z.to_nat child)
      (mkNode (name node) (Profiling.parent node) (first_child node) (next_sibling node) (saturating_add (calls node) 1)));
    put (set_nodes nodes p);;
    mret child
  else
    let index := NODE_COUNT p in
    if NODE_CAPACITY <=? index then
      put (set_dropped_paths ((DROPPED_PATHS p + 1) mod U64_SIZE) p);;
      mret NO_NODE
    else
      nodes ← lift (array_set (NODES p) (Z.to_nat index) (mkNode nm parent NO_NODE (first_child node) 1));
      node ← lift (array_get nodes (Z.to_nat parent));
      nodes ← lift (array_set nodes (Z.to_nat parent)
        (mkNode (name node) (Profiling.parent node) (index mod 2 ^ 32) (next_sibling node) (calls node)));
      count ← lift (add_u64 index 1);
      put (set_node_count count (set_nodes nodes p));;
      mret (index mod 2 ^ 32).

Definition restore_interrupts (were_enabled : bool) : M Profile Stuck unit :=
  p ← get; if were_enabled then put (set_interrupts true p) else mret tt.

(** [enter] *)
Definition enter (nm : str) : M Profile Stuck ProfileGuard :=
  p ← get;
  if negb (RECORDING p) then mret (mkGuard ROOT false) else
  let were_enabled := interrupts_enabled p in
  put (set_interrupts false p);;
  let parent := CURRENT_NODE p in
  current ← enter_node nm;
  p ← get;
  put (set_current_node current p);;
  restore_interrupts were_enabled;;
  mret (mkGuard parent true).

(** [suspend_recording] *)
Definition suspend_recording : M Profile Stuck ProfileGuard :=
  p ← get;
  if negb (RECORDING p) then mret (mkGuard ROOT false) else
  let were_enabled := interrupts_enabled p in
  let previous := CURRENT_NODE p in
  put (set_current_node NO_NODE (set_interrupts false p));;
  restore_interrupts were_enabled;;
  mret (mkGuard previous true).

(** [ProfileGuard::drop] *)
Definition drop_guard (g : ProfileGuard) : M Profile Stuck unit :=
  if active g then
    p ← get;
    put (set_current_node (previous g) (set_interrupts false p));;
    restore_interrupts (interrupts_enabled p)
  else mret tt.

(** ** The dump *)

Section dump.
Context {W : Type} `{Devices W}.

Definition DEBUG_PORT : Z := 0xe9.

(** [write_bytes]; the literals and names of the kernel are ASCII. *)
Fixpoint write_bytes (bytes : list Z) : M (Io W) Stuck unit :=
  match bytes with
  | [] => mret tt
  | byte :: bytes => outb byte DEBUG_PORT;; write_bytes bytes
  end.

(** The loop of [write_decimal]: the digits and where they start. *)
Fixpoint decimal_loop (fuel : nat) (value cursor : Z) (digits : list Z) : outcome Stuck (list Z) :=
  match fuel with
  | O => Err OutOfFuel
  | S fuel =>
    cursor ← sub_u64 cursor 1;
    digits ← array_set digits (Z.to_nat cursor) (48 + value mod 10);
    if value / 10 =? 0 then Ok (drop (Z.to_nat cursor) digits) else decimal_loop fuel (value / 10) cursor digits
  end.
Definition decimal (value : Z) : outcome Stuck (list Z) := decimal_loop 20 value 20 (replicate 20 0).
Definition write_decimal (value : Z) : M (Io W) Stuck unit := bytes ← lift (decimal value); write_bytes bytes.

(** [guest_ready] *)
Definition guest_ready : M (Io W) Stuck unit := write_bytes (lit "AGNOSTOS_PROFILE_READY" ++ [10]).

(** The line of one node. *)
Definition write_node (index : Z) (node : Node) : M (Io W) Stuck unit :=
  write_bytes (lit "N:");;
  write_decimal index;;
  write_bytes (lit " ");;
  write_decimal (parent node);;
  write_bytes (lit " ");;
  write_decimal (calls node);;
  write_bytes (lit " ");;
  write_bytes (name node);;
  write_bytes [10].

Fixpoint write_nodes (index : Z) (nodes : list Node) : M (Io W) Stuck unit :=
  match nodes with
  | [] => mret tt
  | node :: nodes => write_node index node;; write_nodes (index + 1) nodes
  end.

(** What [dump] writes once recording has stopped. *)
Definition dump_tree (p : Profile) : M (Io W) Stuck unit :=
  write_bytes (lit "AGNOSTOS_PROFILE_V2" ++ [10]);;
  let count := Z.min (NODE_COUNT p) NODE_CAPACITY in
  write_nodes 1 (drop 1 (take (Z.to_nat count) (NODES p)));;
  (if 0 <? DROPPED_PATHS p then
     write_bytes (lit "AGNOSTOS_PROFILE_DROPPED_PATHS=");;
     write_decimal (DROPPED_PATHS p);;
     write_bytes [10]
   else mret tt);;
  write_bytes (lit "AGNOSTOS_PROFILE_END" ++ [10]).

(** [dump] *)
Definition dump : M (Profile * Io W) Stuck unit := λ '(p, io),
  let p := set_recording false (set_interrupts false p) in
  let '(r, io) := dump_tree p io in (r, (p, io)).
End dump.

(** ** Programs that are profiled

    A profiled function keeps its guard until it returns, so its calls nest; a
    timer interrupt suspends recording around its acknowledgement. *)

Inductive Event : Type :=
  | Call (nm : str) (body : list Event)
  | Suspended (body : list Event).

Fixpoint run_event (e : Event) : M Profile Stuck unit :=
  let run_events := fix run_events (l : list Event) : M Profile Stuck unit :=
    match l with
    | [] => mret tt
    | e :: l => run_event e;; run_events l
    end in
  match e with
  | Call nm body => g ← enter nm; run_events body;; drop_guard g
  | Suspended body => g ← suspend_recording; run_events body;; drop_guard g
  end.
Fixpoint run_events (l : list Event) : M Profile Stuck unit :=
  match l with
  | [] => mret tt
  | e :: l => run_event e;; run_events l
  end.

(** A program that is stopped inside calls, as [exit_qemu] stops the kernel: the
    events before the first open call, and for each open call (or suspended
    recording) those inside it before the next one.  Its guards are not dropped. *)
Abbreviation Opened := (list (option str * list Event)) (only parsing).

Definition begin_call (o : option str) : M Profile Stuck ProfileGuard :=
  match o with Some nm => enter nm | None => suspend_recording end.

Fixpoint run_open (opened : Opened) (l : list Event) : M Profile Stuck unit :=
  run_events l;;
  match opened with
  | [] => mret tt
  | (o, body) :: opened => begin_call o;; run_open opened body
  end.

(** The program that it would have been, had the open calls returned at once. *)
Fixpoint closed (opened : Opened) (l : list Event) : list Event :=
  l ++ match opened with
       | [] => []
       | (Some nm, body) :: opened => [Call nm (closed opened body)]
       | (None, body) :: opened => [Suspended (closed opened body)]
       end.
