(* ===== verification/CallTree.v ===== *)
(** * CallTree: the profiler refines a table of call paths.

    The specification keeps the paths in the order of their first calls, each
    with its number of calls; the nodes of the profiler represent it, and a
    profiled program leaves the exact number of calls of every path in it. *)

From Stdlib Require Import String.
From S2P Require Import Prelude Text Ports Profiling.
Open Scope Z_scope.

(** ** The specification *)

Abbreviation path := (list str) (only parsing).

Record Tree : Type := mkTree {
  entries : list (path * Z);
  here : option path;
  lost : Z;
}.

Fixpoint count_of (l : list (path * Z)) (q : path) : option Z :=
  match l with
  | [] => None
  | (p, n) :: l => if decide (p = q) then Some n else count_of l q
  end.

Definition counted (q : path) (e : path * Z) : path * Z :=
  if decide (e.1 = q) then (e.1, saturating_add e.2 1) else e.

Definition tree_enter (nm : str) (t : Tree) : Tree :=
  match here t with
  | None => t
  | Some p =>
    let q := p ++ [nm] in
    match count_of (entries t) q with
    | Some _ => mkTree (counted q <$> entries t) (Some q) (lost t)
    | None =>
      if Z.of_nat (length (entries t)) <? NODE_CAPACITY - 1 then mkTree (entries t ++ [(q, 1)]) (Some q) (lost t)
      else mkTree (entries t) None ((lost t + 1) mod U64_SIZE)
    end
  end.

Definition at_path (h : option path) (t : Tree) : Tree := mkTree (entries t) h (lost t).

Fixpoint tree_event (e : Event) (t : Tree) : Tree :=
  match e with
  | Call nm body => at_path (here t) (fold_left (λ t e, tree_event e t) body (tree_enter nm t))
  | Suspended body => at_path (here t) (fold_left (λ t e, tree_event e t) body (at_path None t))
  end.
Definition tree_events (l : list Event) (t : Tree) : Tree := fold_left (λ t e, tree_event e t) l t.

(** How often a path is called by an event at a path. *)
Fixpoint occurs (q base : path) (e : Event) : Z :=
  match e with
  | Call nm body =>
    (if decide (base ++ [nm] = q) then 1 else 0) + fold_right (λ e n, occurs q (base ++ [nm]) e + n) 0 body
  | Suspended _ => 0
  end.
Definition occurrences (q base : path) (l : list Event) : Z := fold_right (λ e n, occurs q base e + n) 0 l.

(** ** Representation *)

(** The node of a path: the root for the empty one. *)
Definition path_at (l : list (path * Z)) (i : nat) (p : path) : Prop :=
  match i with O => p = [] | S i => ∃ n, l !! i = Some (p, n) end.

(** The siblings from a node on. *)
Fixpoint chain (nodes : list Node) (c : Z) (l : list nat) : Prop :=
  match l with
  | [] => c = NO_NODE
  | k :: l => c = Z.of_nat k ∧ ∃ node, nodes !! k = Some node ∧ chain nodes (next_sibling node) l
  end.

(** An entry and its node. *)
Definition entry_ok (nodes : list Node) (l : list (path * Z)) (i : nat) (p : path) (n : Z) : Prop :=
  ∃ node j base, nodes !! S i = Some node ∧ calls node = n ∧ p = base ++ [name node] ∧
    parent node = Z.of_nat j ∧ (j ≤ i)%nat ∧ path_at l j base.

(** [kids] are the children of a node, the latest first. *)
Definition kids_ok (nodes : list Node) (count i : nat) (kids : list nat) : Prop :=
  NoDup kids ∧
  (∀ k, k ∈ kids ↔ (1 ≤ k < count)%nat ∧ ∃ node, nodes !! k = Some node ∧ parent node = Z.of_nat i) ∧
  ∃ node, nodes !! i = Some node ∧ chain nodes (first_child node) kids.

Record represents (p : Profile) (t : Tree) : Prop := {
  rep_length : Z.of_nat (length (NODES p)) = NODE_CAPACITY;
  rep_count : NODE_COUNT p = Z.of_nat (S (length (entries t)));
  rep_capacity : NODE_COUNT p ≤ NODE_CAPACITY;
  rep_nodup : NoDup (entries t).*1;
  rep_entries : ∀ i q n, entries t !! i = Some (q, n) → entry_ok (NODES p) (entries t) i q n;
  rep_kids : ∀ i, (i ≤ length (entries t))%nat → ∃ kids, kids_ok (NODES p) (S (length (entries t))) i kids;
  rep_dropped : DROPPED_PATHS p = lost t;
  rep_here : match here t with
             | None => CURRENT_NODE p = NO_NODE
             | Some q => ∃ i, CURRENT_NODE p = Z.of_nat i ∧ path_at (entries t) i q
             end;
}.

(** ** Lemmas on the representation *)

Lemma count_of_Some l q n : NoDup l.*1 → count_of l q = Some n ↔ ∃ i, l !! i = Some (q, n).
Proof.
  induction l as [|[p m] l IH]; cbn [count_of fmap list_fmap]; intros Hnd.
  - split; [done|]. by intros (i & Hi).
  - apply NoDup_cons in Hnd as [Hp Hnd]. specialize (IH Hnd). destruct (decide (p = q)) as [->|Hne].
    + split; [intros [= ->]; by exists O|]. intros ([|i] & Hi); cbn in Hi; [congruence|].
      destruct Hp. apply list_elem_of_fmap. exists (q, n). split; [done|]. by eapply list_elem_of_lookup_2.
    + rewrite IH. split; [intros (i & Hi); by exists (S i)|]. intros ([|i] & Hi); cbn in Hi; [congruence|by exists i].
Qed.

Lemma count_of_None l q : count_of l q = None ↔ q ∉ l.*1.
Proof.
  induction l as [|[p m] l IH]; cbn [count_of fmap list_fmap]; [split; [intros _; apply not_elem_of_nil|done]|].
  destruct (decide (p = q)) as [->|Hne]; rewrite not_elem_of_cons; [split; [done|tauto]|]. rewrite IH. naive_solver.
Qed.

Lemma path_at_inj l i j p : NoDup l.*1 → (∀ q, q ∈ l.*1 → q ≠ []) → path_at l i p → path_at l j p → i = j.
Proof.
  intros Hnd Hne. assert (∀ i n, l !! i = Some (p, n) → l.*1 !! i = Some p) as Hl by (intros k n Hk; by rewrite list_lookup_fmap, Hk).
  destruct i as [|i], j as [|j]; cbn; [done| | |].
  - intros -> (n & Hn%Hl). by destruct (Hne []); [eapply list_elem_of_lookup_2|].
  - intros (n & Hn%Hl) ->. by destruct (Hne []); [eapply list_elem_of_lookup_2|].
  - intros (n & Hi%Hl) (m & Hj%Hl). f_equal. by eapply NoDup_lookup.
Qed.

Lemma find_child_spec nodes nm l c fuel : (length l ≤ fuel)%nat → Forall (λ k, Z.of_nat k < NO_NODE) l → chain nodes c l →
  (∃ k node, k ∈ l ∧ nodes !! k = Some node ∧ name node = nm ∧ find_child fuel nodes nm c = Ok (Z.of_nat k)) ∨
  find_child fuel nodes nm c = Ok NO_NODE ∧ ∀ k node, k ∈ l → nodes !! k = Some node → name node ≠ nm.
Proof.
  revert c fuel. induction l as [|k l IH]; intros c fuel Hf Hl; cbn [chain].
  - intros ->. right. split; [by destruct fuel|]. intros k node Hk. by apply not_elem_of_nil in Hk.
  - intros (-> & node & Hk & Hc). apply Forall_cons in Hl as [Hlt Hl]. cbn [length] in Hf.
    destruct fuel as [|fuel]; [lia|]. cbn [find_child]. rewrite (proj2 (Z.eqb_neq _ _)) by lia.
    rewrite Nat2Z.id, (array_get_ok _ _ _ Hk). cbn [mbind outcome_bind].
    destruct (decide (name node = nm)) as [Hnm|Hnm]; [left; exists k, node; by split_and!; [left|..]|].
    destruct (IH (next_sibling node) fuel ltac:(lia) Hl Hc) as [(k' & node' & Hin & H1 & H2 & H3)|[H1 H2]].
    + left. exists k', node'. split_and!; [by right|done..].
    + right. split; [done|]. intros k' node' [->|Hin]%elem_of_cons Hk'; [congruence|by eapply H2].
Qed.

(** A chain only reads the links. *)
Lemma chain_ext nodes nodes' c l :
  (∀ k node, k ∈ l → nodes !! k = Some node → ∃ node', nodes' !! k = Some node' ∧ next_sibling node' = next_sibling node) →
  chain nodes c l → chain nodes' c l.
Proof.
  revert c. induction l as [|k l IH]; intros c Hext; cbn [chain]; [done|].
  intros (-> & node & Hk & Hc). split; [done|]. destruct (Hext k node) as (node' & Hk' & Hn); [by left|done|].
  exists node'. split; [done|]. rewrite Hn. apply IH; [|done]. intros j nd Hj. apply Hext. by right.
Qed.

Lemma path_at_fun l i p q : path_at l i p → path_at l i q → p = q.
Proof. destruct i as [|i]; cbn; [by intros -> ->|]. intros (n & Hn) (m & Hm). congruence. Qed.

Lemma path_at_app l l' i p : path_at l i p → path_at (l ++ l') i p.
Proof. destruct i as [|i]; cbn; [done|]. intros (n & Hn). exists n. by apply lookup_app_l_Some. Qed.

Lemma path_at_le l i p : path_at l i p → (i ≤ length l)%nat.
Proof. destruct i as [|i]; cbn; [lia|]. intros (n & Hn%lookup_lt_Some). lia. Qed.

Lemma path_at_counted q l i p : path_at l i p → path_at (counted q <$> l) i p.
Proof.
  destruct i as [|i]; cbn; [done|]. intros (n & Hn). rewrite list_lookup_fmap, Hn. cbn. unfold counted. cbn.
  destruct (decide (p = q)); by eexists.
Qed.

Lemma counted_paths q l : (counted q <$> l).*1 = l.*1.
Proof. rewrite <- list_fmap_compose. apply list_fmap_ext. intros i [p n] _. cbn. unfold counted. by destruct (decide _). Qed.

Lemma entries_nonempty p t q : represents p t → q ∈ (entries t).*1 → q ≠ [].
Proof.
  intros Hr ([p' n] & -> & Hin)%list_elem_of_fmap. apply list_elem_of_lookup_1 in Hin as (i & Hi).
  destruct (rep_entries _ _ Hr i p' n Hi) as (node & j & base & _ & _ & -> & _). by destruct base.
Qed.

Lemma index_inj p t i j q : represents p t → path_at (entries t) i q → path_at (entries t) j q → i = j.
Proof. intros Hr. apply path_at_inj; [apply Hr|]. intros q'. by apply (entries_nonempty p). Qed.

(** The indices of the nodes are below [NO_NODE]. *)
Lemma index_bound p t i : represents p t → (i ≤ length (entries t))%nat → Z.of_nat i < NODE_CAPACITY ∧ Z.of_nat i < NO_NODE.
Proof. intros Hr Hi. pose proof (rep_count _ _ Hr). pose proof (rep_capacity _ _ Hr). unfold NODE_CAPACITY, NO_NODE in *. lia. Qed.

Lemma kids_bound p t i kids : represents p t → kids_ok (NODES p) (S (length (entries t))) i kids →
  (length kids ≤ Z.to_nat NODE_CAPACITY)%nat ∧ Forall (λ k, Z.of_nat k < NO_NODE) kids.
Proof.
  intros Hr (Hnd & Hk & _).
  assert (∀ k, k ∈ kids → (k ≤ length (entries t))%nat) as Hlt by (intros k [? _]%Hk; lia). split.
  - assert (kids ⊆+ seq 0 (S (length (entries t)))) as Hs.
    { apply NoDup_submseteq; [done|]. intros k ?%Hlt. apply elem_of_seq. lia. }
    apply submseteq_length in Hs. rewrite length_seq in Hs.
    pose proof (rep_count _ _ Hr). pose proof (rep_capacity _ _ Hr). lia.
  - apply Forall_forall. intros k Hin%Hlt. by apply (index_bound p t).
Qed.

(** The children of a node are the paths one call longer. *)
Lemma kid_found p t i q kids k node : represents p t → path_at (entries t) i q →
  kids_ok (NODES p) (S (length (entries t))) i kids → k ∈ kids → NODES p !! k = Some node →
  ∃ e, k = S e ∧ entries t !! e = Some (q ++ [name node], calls node).
Proof.
  intros Hr Hq (_ & Hk & _) [Hb (node' & Hn & Hp)]%Hk Hnode. simplify_eq. destruct k as [|e]; [lia|]. exists e. split; [done|].
  destruct (lookup_lt_is_Some_2 (entries t) e ltac:(lia)) as [[q' n] He]. rewrite He.
  destruct (rep_entries _ _ Hr e q' n He) as (node'' & j & base & H1 & H2 & H3 & H4 & H5 & H6). simplify_eq.
  assert (j = i) as -> by lia. by rewrite (path_at_fun _ _ _ _ H6 Hq).
Qed.

Lemma kid_missing p t i q kids nm : represents p t → path_at (entries t) i q →
  kids_ok (NODES p) (S (length (entries t))) i kids →
  (∀ k node, k ∈ kids → NODES p !! k = Some node → name node ≠ nm) → count_of (entries t) (q ++ [nm]) = None.
Proof.
  intros Hr Hq (_ & Hk & _) Hno. destruct (count_of _ _) as [n|] eqn:Hc; [|done]. exfalso.
  apply count_of_Some in Hc as (e & He); [|apply Hr].
  destruct (rep_entries _ _ Hr e _ n He) as (node & j & base & H1 & H2 & H3 & H4 & H5 & H6).
  apply app_inj_tail in H3 as [-> Hnm]. assert (j = i) as -> by (by eapply index_inj).
  apply (Hno (S e) node); [|done|done]. apply Hk. split; [apply lookup_lt_Some in He; lia|]. by exists node.
Qed.

(** ** Entering *)

(** The node [node'] has the place of [node] in the tree. *)
Definition same_place (node node' : Node) : Prop := parent node' = parent node ∧ next_sibling node' = next_sibling node.

Lemma kids_ok_ext nodes nodes' count i kids :
  (∀ k node, (k < count)%nat → nodes !! k = Some node →
    ∃ node', nodes' !! k = Some node' ∧ same_place node node' ∧ (k = i → first_child node' = first_child node)) →
  (i < count)%nat → (∀ k, (k < count)%nat → is_Some (nodes !! k)) → kids_ok nodes count i kids → kids_ok nodes' count i kids.
Proof.
  intros Hext Hi Hsome (Hnd & Hk & node & Hnode & Hc). split; [done|]. split.
  - intros k. rewrite Hk.
    split; intros [Hb (nd & H1 & H2)]; (split; [done|]); destruct (Hsome k) as [nd0 H0]; try lia;
      destruct (Hext k nd0) as (nd' & H3 & [H4 _] & _); try done; try lia; simplify_eq; eexists; (split; [done|]); congruence.
  - destruct (Hext i node Hi Hnode) as (node' & Hn' & _ & Hf). exists node'. split; [done|]. rewrite (Hf eq_refl).
    revert Hc. apply chain_ext. intros k nd [Hb _]%Hk Hnd'. destruct (Hext k nd ltac:(lia) Hnd') as (nd' & H1 & [_ H2] & _).
    by exists nd'.
Qed.

Lemma represents_bump p t e q node : represents p t → NODES p !! S e = Some node → entries t !! e = Some (q, calls node) →
  represents (set_current_node (Z.of_nat (S e)) (set_nodes (<[S e:=mkNode (name node) (parent node) (first_child node) (next_sibling node) (saturating_add (calls node) 1)]> (NODES p)) p))
    (mkTree (counted q <$> entries t) (Some q) (lost t)).
Proof.
  intros Hr Hnode He. set (node' := mkNode _ _ _ _ _). pose proof Hr as [Hl Hc Hcap Hnd Hen Hk Hd _].
  assert (S e < length (NODES p))%nat as Hlt by (by eapply lookup_lt_Some).
  split; cbn -[node']; rewrite ?length_insert, ?length_fmap, ?counted_paths; try done.
  - intros i q' n' Hi. rewrite list_lookup_fmap in Hi. destruct (entries t !! i) as [[q0 n0]|] eqn:Hi0; [|done].
    destruct (Hen i q0 n0 Hi0) as (nd & j & base & H1 & H2 & H3 & H4 & H5 & H6). cbn in Hi. unfold counted in Hi. cbn [fst snd] in Hi.
    apply (path_at_counted q) in H6. destruct (decide (i = e)) as [->|Hne].
    + simplify_eq. rewrite decide_True in Hi by done. injection Hi as <- <-.
      exists node', j, base. rewrite list_lookup_insert_eq by done. by split_and!.
    + rewrite decide_False in Hi.
      2:{ intros ->. apply Hne. eapply (NoDup_lookup (entries t).*1); [done| |]; rewrite list_lookup_fmap; [by rewrite Hi0|by rewrite He]. }
      injection Hi as <- <-. exists nd, j, base. rewrite list_lookup_insert_ne by lia. by split_and!.
  - intros i Hi. destruct (Hk i Hi) as (kids & Hkids). exists kids.
    apply (kids_ok_ext (NODES p)); [|lia| |done].
    + intros k nd _ Hnd'. destruct (decide (k = S e)) as [->|Hne].
      * exists node'. rewrite list_lookup_insert_eq by done. simplify_eq. by split_and!.
      * exists nd. rewrite list_lookup_insert_ne by done. by split_and!.
    + intros k Hk'. apply lookup_lt_is_Some. unfold NODE_CAPACITY in *. lia.
  - exists (S e). split; [done|]. apply path_at_counted. cbn. eauto.
Qed.

(** The nodes after a new one has been linked in front of its siblings. *)
Definition linked (nodes : list Node) (i : nat) (n : nat) (node : Node) (nm : str) : list Node :=
  <[i:=mkNode (name node) (parent node) (Z.of_nat n) (next_sibling node) (calls node)]>
    (<[n:=mkNode nm (Z.of_nat i) NO_NODE (first_child node) 1]> nodes).

Lemma linked_old nodes i n node nm k nd : nodes !! i = Some node → i ≠ n → k ≠ n → nodes !! k = Some nd →
  ∃ nd', linked nodes i n node nm !! k = Some nd' ∧ same_place nd nd' ∧ name nd' = name nd ∧ calls nd' = calls nd ∧
    (k ≠ i → first_child nd' = first_child nd).
Proof.
  intros Hi Hin Hkn Hk. unfold linked. destruct (decide (k = i)) as [->|Hne].
  - rewrite list_lookup_insert_eq by (rewrite length_insert; by eapply lookup_lt_Some). simplify_eq.
    eexists. split; [done|]. split; [split; done|]. split; [done|]. split; [done|]. intros Hf. by destruct (Hf eq_refl).
  - rewrite !list_lookup_insert_ne by done. exists nd. by split_and!.
Qed.

Lemma linked_new nodes i n node nm : i ≠ n → (n < length nodes)%nat →
  linked nodes i n node nm !! n = Some (mkNode nm (Z.of_nat i) NO_NODE (first_child node) 1).
Proof. intros Hne Hn. unfold linked. rewrite list_lookup_insert_ne by done. by apply list_lookup_insert_eq. Qed.

Lemma linked_kids nodes i n node nm kids : nodes !! i = Some node → (i < n)%nat → (n < length nodes)%nat →
  kids_ok nodes n i kids → kids_ok (linked nodes i n node nm) (S n) i (n :: kids).
Proof.
  intros Hi Hlt Hn (Hnd & Hk & node0 & Hnode & Hc). simplify_eq.
  assert (n ∉ kids) as Hnot by (intros [Hb _]%Hk; lia).
  split; [by constructor|]. split.
  - intros k. rewrite elem_of_cons. split.
    + intros [->|[Hb (nd & H1 & H2)]%Hk].
      * split; [lia|]. eexists. split; [apply linked_new; [lia|done]|done].
      * split; [lia|]. destruct (linked_old nodes i n node nm k nd Hi ltac:(lia) ltac:(lia) H1) as (nd' & H3 & [H4 _] & _).
        exists nd'. split; [done|congruence].
    + intros [Hb (nd' & H1 & H2)]. destruct (decide (k = n)) as [->|Hne]; [by left|]. right. apply Hk. split; [lia|].
      destruct (lookup_lt_is_Some_2 nodes k ltac:(lia)) as [nd Hnd'].
      destruct (linked_old nodes i n node nm k nd Hi ltac:(lia) ltac:(lia) Hnd') as (nd2 & H3 & [H4 _] & _).
      exists nd. split; [done|]. simplify_eq. congruence.
  - eexists. split; [unfold linked; apply list_lookup_insert_eq; rewrite length_insert; lia|]. cbn [first_child chain].
    split; [done|]. eexists. split; [apply linked_new; [lia|done]|]. cbn [next_sibling].
    revert Hc. apply chain_ext. intros k nd Hin Hnd'.
    destruct (linked_old nodes i n node nm k nd Hi ltac:(lia) ltac:(congruence) Hnd') as (nd' & H1 & [_ H2] & _). by exists nd'.
Qed.

Lemma linked_other nodes i n node nm i' kids : nodes !! i = Some node → (i < n)%nat → (n < length nodes)%nat → (i' < n)%nat → i' ≠ i →
  kids_ok nodes n i' kids → kids_ok (linked nodes i n node nm) (S n) i' kids.
Proof.
  intros Hi Hlt Hn Hi' Hne (Hnd & Hk & node0 & Hnode & Hc). split; [done|]. split.
  - intros k. rewrite Hk. split.
    + intros [Hb (nd & H1 & H2)]. split; [lia|].
      destruct (linked_old nodes i n node nm k nd Hi ltac:(lia) ltac:(lia) H1) as (nd' & H3 & [H4 _] & _).
      exists nd'. split; [done|congruence].
    + intros [Hb (nd' & H1 & H2)]. destruct (decide (k = n)) as [->|Hkn].
      * rewrite linked_new in H1 by (lia || done). simplify_eq. cbn in H2. lia.
      * split; [lia|]. destruct (lookup_lt_is_Some_2 nodes k ltac:(lia)) as [nd Hnd'].
        destruct (linked_old nodes i n node nm k nd Hi ltac:(lia) ltac:(lia) Hnd') as (nd2 & H3 & [H4 _] & _).
        exists nd. split; [done|]. simplify_eq. congruence.
  - destruct (linked_old nodes i n node nm i' node0 Hi ltac:(lia) ltac:(lia) Hnode) as (nd' & H1 & _ & _ & _ & Hf).
    exists nd'. split; [done|]. rewrite Hf by done. revert Hc. apply chain_ext. intros k nd [Hb _]%Hk Hnd'.
    destruct (linked_old nodes i n node nm k nd Hi ltac:(lia) ltac:(lia) Hnd') as (nd2 & H3 & [_ H4] & _). by exists nd2.
Qed.

Lemma linked_leaf nodes i n node nm : nodes !! i = Some node → (i < n)%nat → (n < length nodes)%nat →
  (∀ k nd, (1 ≤ k < n)%nat → nodes !! k = Some nd → parent nd ≠ Z.of_nat n) →
  kids_ok (linked nodes i n node nm) (S n) n [].
Proof.
  intros Hi Hlt Hn Hpar. split; [constructor|]. split.
  - intros k. split; [by intros ?%not_elem_of_nil|]. intros [Hb (nd' & H1 & H2)]. exfalso.
    destruct (decide (k = n)) as [->|Hkn].
    + rewrite linked_new in H1 by (lia || done). simplify_eq. cbn in H2. lia.
    + destruct (lookup_lt_is_Some_2 nodes k ltac:(lia)) as [nd Hnd'].
      destruct (linked_old nodes i n node nm k nd Hi ltac:(lia) ltac:(lia) Hnd') as (nd2 & H3 & [H4 _] & _).
      simplify_eq. apply (Hpar k nd); [lia|done|congruence].
  - eexists. split; [apply linked_new; [lia|done]|done].
Qed.

Lemma represents_new p t i q node nm : represents p t → path_at (entries t) i q → NODES p !! i = Some node →
  count_of (entries t) (q ++ [nm]) = None → NODE_COUNT p < NODE_CAPACITY →
  let n := S (length (entries t)) in
  represents (set_current_node (Z.of_nat n) (set_node_count (Z.of_nat n + 1) (set_nodes (linked (NODES p) i n node nm) p)))
    (mkTree (entries t ++ [(q ++ [nm], 1)]) (Some (q ++ [nm])) (lost t)).
Proof.
  intros Hr Hq Hnode Hno Hlt n. pose proof Hr as [Hl Hc Hcap Hnd Hen Hk Hd _]. pose proof (path_at_le _ _ _ Hq) as Hi.
  assert (n < length (NODES p))%nat as Hn by (unfold NODE_CAPACITY, n in *; lia).
  split; cbn -[linked]; rewrite ?length_app; cbn [length]; fold n.
  - unfold linked. by rewrite !length_insert.
  - lia.
  - lia.
  - rewrite fmap_app. cbn. apply NoDup_app. split; [done|]. split; [|apply NoDup_singleton].
    intros q' Hq' ->%list_elem_of_singleton. by apply count_of_None in Hno.
  - intros e q' m He. destruct (decide (e = length (entries t))) as [->|Hne].
    + rewrite list_lookup_middle in He by done. simplify_eq. eexists _, i, q. split; [apply linked_new; [lia|done]|].
      cbn. split_and!; try done. by apply path_at_app.
    + assert (e < length (entries t))%nat as Hlt' by (apply lookup_lt_Some in He; rewrite length_app in He; cbn in He; lia).
      rewrite lookup_app_l in He by done. destruct (Hen e q' m He) as (nd & j & base & H1 & H2 & H3 & H4 & H5 & H6).
      destruct (linked_old (NODES p) i n node nm (S e) nd Hnode ltac:(lia) ltac:(lia) H1) as (nd' & G1 & [G2 _] & G3 & G4 & _).
      exists nd', j, base. rewrite G2, G3, G4. split_and!; try done. by apply path_at_app.
  - intros i' Hi'. replace (S (length (entries t) + 1)) with (S n) by lia. destruct (decide (i' = n)) as [->|Hne].
    + exists []. apply linked_leaf; try done; [lia|]. intros k nd Hb Hnd'.
      destruct k as [|e]; [lia|]. destruct (lookup_lt_is_Some_2 (entries t) e ltac:(lia)) as [[q' m] He].
      destruct (Hen e q' m He) as (nd' & j & base & H1 & _ & _ & H4 & H5 & _). simplify_eq. lia.
    + destruct (Hk i' ltac:(lia)) as (kids & Hkids). destruct (decide (i' = i)) as [->|Hne'].
      * exists (n :: kids). apply linked_kids; done || lia.
      * exists kids. apply linked_other; done || lia.
  - done.
  - exists n. split; [done|]. cbn. exists 1. by rewrite list_lookup_middle.
Qed.

Lemma path_node p t i q : represents p t → path_at (entries t) i q → ∃ node, NODES p !! i = Some node.
Proof.
  intros Hr Hq%path_at_le. apply (lookup_lt_is_Some_2 (NODES p)).
  pose proof (rep_count _ _ Hr). pose proof (rep_capacity _ _ Hr). pose proof (rep_length _ _ Hr). lia.
Qed.

Lemma enter_node_refines nm p t : represents p t →
  ∃ c p', enter_node nm p = (Ok c, p') ∧ represents (set_current_node c p') (tree_enter nm t) ∧
    RECORDING p' = RECORDING p ∧ interrupts_enabled p' = interrupts_enabled p.
Proof.
  intros Hr. pose proof (rep_here _ _ Hr) as Hh. unfold enter_node, tree_enter. unfold_monad.
  destruct (here t) as [q|] eqn:Ht.
  2:{ rewrite Hh, Z.eqb_refl. exists NO_NODE, p. split; [done|]. split; [|done]. destruct Hr. split; cbn; try done. by rewrite Ht. }
  destruct Hh as (i & Hcur & Hq). rewrite Hcur, Nat2Z.id. pose proof (path_at_le _ _ _ Hq) as Hi.
  destruct (index_bound p t i Hr Hi) as [_ Hb]. rewrite (proj2 (Z.eqb_neq _ _)) by lia.
  destruct (path_node p t i q Hr Hq) as (node & Hnode). unfold array_get at 1. rewrite Hnode. cbn [expect].
  destruct (rep_kids _ _ Hr i Hi) as (kids & Hkids). pose proof Hkids as (_ & _ & node0 & Hnode0 & Hchain). simplify_eq.
  destruct (kids_bound p t i kids Hr Hkids) as [Hlen Hbound].
  destruct (find_child_spec (NODES p) nm kids (first_child node) (Z.to_nat NODE_CAPACITY) Hlen Hbound Hchain)
    as [(k & nd & Hin & Hk & Hnm & ->)|[-> Hno]].
  - destruct (kid_found p t i q kids k nd Hr Hq Hkids Hin Hk) as (e & -> & He).
    rewrite (proj2 (Z.eqb_neq _ _)) by (apply (proj1 (Forall_forall _ _) Hbound) in Hin; lia). cbn [negb]. rewrite Nat2Z.id.
    unfold array_get. rewrite Hk. cbn [expect]. rewrite array_set_ok by (by eapply lookup_lt_Some).
    subst nm. rewrite (proj2 (count_of_Some _ _ _ (rep_nodup _ _ Hr)) (ex_intro _ e He)).
    eexists _, _. split; [reflexivity|]. split; [by apply represents_bump|done].
  - pose proof (kid_missing p t i q kids nm Hr Hq Hkids Hno) as Hnone. rewrite Z.eqb_refl, Hnone. cbn [negb].
    pose proof (rep_count _ _ Hr) as Hc. pose proof (rep_length _ _ Hr) as Hl.
    destruct (Z.leb_spec NODE_CAPACITY (NODE_COUNT p)) as [Hfull|Hroom].
    + rewrite (proj2 (Z.ltb_ge _ _)) by lia. eexists _, _. split; [reflexivity|]. split; [|done].
      destruct Hr. split; cbn; try done. by rewrite rep_dropped0.
    + rewrite (proj2 (Z.ltb_lt _ _)) by lia. set (n := S (length (entries t))) in *.
      assert (Z.to_nat (NODE_COUNT p) = n) as En by lia.
      assert (NODE_COUNT p mod 2 ^ 32 = Z.of_nat n) as Em by (rewrite Z.mod_small; unfold NODE_CAPACITY in *; lia).
      rewrite En, Em, array_set_ok by lia. unfold array_get. rewrite list_lookup_insert_ne, Hnode by lia. cbn [expect].
      rewrite array_set_ok by (rewrite length_insert; by eapply lookup_lt_Some).
      rewrite checked_add_Some by (unfold is_u64, NODE_CAPACITY in *; lia). cbn [expect].
      eexists _, _. split; [reflexivity|]. split; [|done]. rewrite Hc. by apply represents_new.
Qed.

(** The representation does not look at the flags. *)
Lemma represents_ext p p' t : NODES p' = NODES p → NODE_COUNT p' = NODE_COUNT p → CURRENT_NODE p' = CURRENT_NODE p →
  DROPPED_PATHS p' = DROPPED_PATHS p → represents p t → represents p' t.
Proof. intros E1 E2 E3 E4 []. split; rewrite ?E1, ?E2, ?E3, ?E4; done. Qed.

(** What profiling keeps of the flags. *)
Definition flags_kept (p p' : Profile) : Prop := RECORDING p' = RECORDING p ∧ interrupts_enabled p' = interrupts_enabled p.

Lemma flags_kept_trans p1 p2 p3 : flags_kept p1 p2 → flags_kept p2 p3 → flags_kept p1 p3.
Proof. unfold flags_kept. intuition congruence. Qed.

Lemma enter_refines nm p t : represents p t → RECORDING p = true →
  ∃ p', enter nm p = (Ok (mkGuard (CURRENT_NODE p) true), p') ∧ represents p' (tree_enter nm t) ∧ flags_kept p p'.
Proof.
  intros Hr Hrec. unfold enter, restore_interrupts. unfold_monad. rewrite Hrec. cbn [negb].
  destruct (enter_node_refines nm (set_interrupts false p) t) as (c & p' & -> & Hr' & H1 & H2).
  { by apply (represents_ext p). }
  cbn in H1, H2 |- *. destruct (interrupts_enabled p) eqn:Hi; eexists; (split; [reflexivity|]).
  - split; [by apply (represents_ext (set_current_node c p'))|]. by split; cbn.
  - split; [done|]. split; cbn; congruence.
Qed.

Lemma suspend_refines p t : represents p t → RECORDING p = true →
  ∃ p', suspend_recording p = (Ok (mkGuard (CURRENT_NODE p) true), p') ∧ represents p' (at_path None t) ∧ flags_kept p p'.
Proof.
  intros Hr Hrec. unfold suspend_recording, restore_interrupts. unfold_monad. rewrite Hrec. cbn [negb].
  assert (∀ b, represents (set_interrupts b (set_current_node NO_NODE p)) (at_path None t)) as Hs by (intros b; by destruct Hr; split).
  destruct (interrupts_enabled p) eqn:Hi; cbn; eexists; (split; [reflexivity|]); (split; [apply Hs|split; cbn; congruence]).
Qed.

(** The node that a guard goes back to. *)
Definition node_of (t : Tree) (c : Z) (h : option path) : Prop :=
  match h with None => c = NO_NODE | Some q => ∃ i, c = Z.of_nat i ∧ path_at (entries t) i q end.

Lemma drop_refines c h p t : represents p t → node_of t c h →
  ∃ p', drop_guard (mkGuard c true) p = (Ok tt, p') ∧ represents p' (at_path h t) ∧ flags_kept p p'.
Proof.
  intros Hr Hc. unfold drop_guard, restore_interrupts. unfold_monad. cbn [active previous].
  assert (∀ b, represents (set_interrupts b (set_current_node c p)) (at_path h t)) as Hs.
  { intros b. destruct Hr. split; cbn; done. }
  destruct (interrupts_enabled p) eqn:Hi; cbn; eexists; (split; [reflexivity|]); (split; [apply Hs|split; cbn; congruence]).
Qed.

(** Paths keep their nodes. *)
Definition grows (t t' : Tree) : Prop := ∀ i q, path_at (entries t) i q → path_at (entries t') i q.

Lemma tree_enter_grows nm t : grows t (tree_enter nm t).
Proof.
  intros i q Hq. unfold tree_enter. destruct (here t) as [p|]; [|done]. destruct (count_of _ _).
  - by apply path_at_counted.
  - case_match; [by apply path_at_app|done].
Qed.

Lemma node_of_grows t t' c h : grows t t' → node_of t c h → node_of t' c h.
Proof. intros Hg. destruct h; cbn; [|done]. intros (i & -> & Hi). exists i. eauto. Qed.

Lemma represents_node p t : represents p t → node_of t (CURRENT_NODE p) (here t).
Proof. intros []. unfold node_of. by destruct (here t). Qed.

Lemma Event_nested (P : Event → Prop) :
  (∀ nm body, Forall P body → P (Call nm body)) → (∀ body, Forall P body → P (Suspended body)) → ∀ e, P e.
Proof.
  intros HC HS. fix IH 1. intros [nm body|body]; [apply HC|apply HS]; induction body; constructor; auto.
Qed.

Lemma tree_events_cons e l t : tree_events (e :: l) t = tree_events l (tree_event e t).
Proof. done. Qed.

Lemma tree_event_grows e : ∀ t, grows t (tree_event e t).
Proof.
  assert (∀ body, Forall (λ e, ∀ t, grows t (tree_event e t)) body → ∀ t, grows t (tree_events body t)) as Hbody.
  { induction 1 as [|e' body He _ IH]; intros t; [by intros i q|]. rewrite tree_events_cons. intros i q Hq. by apply IH, He. }
  induction e as [nm body H|body H] using Event_nested; intros t i q Hq; apply (Hbody body H).
  - by apply tree_enter_grows.
  - done.
Qed.

Lemma tree_events_grows l t : grows t (tree_events l t).
Proof. revert t. induction l as [|e l IH]; intros t; [by intros i q|]. rewrite tree_events_cons. intros i q Hq. by apply IH, tree_event_grows. Qed.

(** A run of events on a state that represents a tree. *)
Definition runs_as (m : M Profile Stuck unit) (f : Tree → Tree) : Prop := ∀ p t, represents p t → RECORDING p = true →
  ∃ p', m p = (Ok tt, p') ∧ represents p' (f t) ∧ flags_kept p p'.

Lemma run_body_refines body : Forall (λ e, runs_as (run_event e) (tree_event e)) body → runs_as (run_events body) (tree_events body).
Proof.
  induction 1 as [|e body He _ IH]; intros p t Hr Hrec; [by exists p|].
  destruct (He p t Hr Hrec) as (p1 & Hrun & Hr1 & Hf1). destruct (IH p1 _ Hr1) as (p2 & Hrun2 & Hr2 & Hf2).
  { destruct Hf1 as [-> _]. done. }
  exists p2. cbn [run_events]. unfold mbind, M_bind. rewrite Hrun, tree_events_cons. split; [exact Hrun2|]. split; [done|].
  by eapply flags_kept_trans.
Qed.

(** Between a guard and its drop. *)
Lemma guarded_refines (m : M Profile Stuck ProfileGuard) body p t t1 p1 : represents p t →
  m p = (Ok (mkGuard (CURRENT_NODE p) true), p1) → represents p1 t1 → flags_kept p p1 → grows t t1 → RECORDING p = true →
  runs_as (run_events body) (tree_events body) →
  ∃ p', (g ← m; run_events body;; drop_guard g) p = (Ok tt, p') ∧ represents p' (at_path (here t) (tree_events body t1)) ∧ flags_kept p p'.
Proof.
  intros Hr Hm Hr1 Hf1 Hg Hrec Hbody. destruct (Hbody p1 t1 Hr1) as (p2 & Hrun & Hr2 & Hf2).
  { destruct Hf1 as [-> _]. done. }
  destruct (drop_refines (CURRENT_NODE p) (here t) p2 _ Hr2) as (p3 & Hdrop & Hr3 & Hf3).
  { apply (node_of_grows t); [|by apply represents_node]. intros i q Hq. by apply tree_events_grows, Hg. }
  exists p3. unfold mbind, M_bind. rewrite Hm, Hrun. split; [exact Hdrop|]. split; [done|].
  by eapply flags_kept_trans, flags_kept_trans.
Qed.

Lemma run_event_refines e : runs_as (run_event e) (tree_event e).
Proof.
  induction e as [nm body H|body H] using Event_nested; intros p t Hr Hrec; apply run_body_refines in H.
  - destruct (enter_refines nm p t Hr Hrec) as (p1 & He & Hr1 & Hf1).
    by apply (guarded_refines (enter nm) body p t (tree_enter nm t) p1); try done; apply tree_enter_grows.
  - destruct (suspend_refines p t Hr Hrec) as (p1 & He & Hr1 & Hf1).
    apply (guarded_refines suspend_recording body p t (at_path None t) p1); try done. by intros i q.
Qed.

Lemma run_events_refines l : runs_as (run_events l) (tree_events l).
Proof. apply run_body_refines, Forall_forall. intros e _. apply run_event_refines. Qed.

(** A program that is stopped inside calls. *)
Definition tree_begin (o : option str) (t : Tree) : Tree :=
  match o with Some nm => tree_enter nm t | None => at_path None t end.
Fixpoint tree_open (opened : Opened) (l : list Event) (t : Tree) : Tree :=
  let t := tree_events l t in
  match opened with
  | [] => t
  | (o, body) :: opened => tree_open opened body (tree_begin o t)
  end.

Lemma run_open_refines opened : ∀ l, runs_as (run_open opened l) (tree_open opened l).
Proof.
  induction opened as [|[o body] opened IH]; intros l p t Hr Hrec; cbn [run_open tree_open].
  - destruct (run_events_refines l p t Hr Hrec) as (p1 & Hrun & Hr1 & Hf1). exists p1. unfold mbind, M_bind. by rewrite Hrun.
  - destruct (run_events_refines l p t Hr Hrec) as (p1 & Hrun & Hr1 & Hf1). unfold mbind, M_bind. rewrite Hrun.
    assert (RECORDING p1 = true) as Hrec1 by (destruct Hf1; congruence).
    assert (∃ g p2, begin_call o p1 = (Ok g, p2) ∧ represents p2 (tree_begin o (tree_events l t)) ∧ flags_kept p1 p2) as (g & p2 & Hb & Hr2 & Hf2).
    { destruct o as [nm|]; [destruct (enter_refines nm p1 _ Hr1 Hrec1) as (p2 & H)|destruct (suspend_refines p1 _ Hr1 Hrec1) as (p2 & H)]; by eexists _, p2. }
    destruct (IH body p2 _ Hr2) as (p3 & Hrun3 & Hr3 & Hf3); [destruct Hf2; congruence|].
    exists p3. rewrite Hb. split; [exact Hrun3|]. split; [done|]. by eapply flags_kept_trans, flags_kept_trans.
Qed.

(** Its table is that of the program that returns from the open calls. *)
Lemma tree_open_closed opened : ∀ l t, entries (tree_open opened l t) = entries (tree_events (closed opened l) t) ∧
  lost (tree_open opened l t) = lost (tree_events (closed opened l) t).
Proof.
  induction opened as [|[o body] opened IH]; intros l t; cbn [tree_open closed]; [by rewrite app_nil_r|].
  unfold tree_events at 2 4. rewrite fold_left_app. by destruct o as [nm|]; apply IH.
Qed.

(** ** Counting *)

Definition full (t : Tree) : Prop := NODE_CAPACITY - 1 ≤ Z.of_nat (length (entries t)).
Definition recorded (t : Tree) (q : path) : Prop := q = [] ∨ is_Some (count_of (entries t) q).

(** Counts fit in a [u64], and a recorded path starts with recorded ones. *)
Record sound (t : Tree) : Prop := {
  sound_count : ∀ q n, count_of (entries t) q = Some n → 0 ≤ n ≤ u64_max;
  sound_closed : ∀ q nm, is_Some (count_of (entries t) (q ++ [nm])) → recorded t q;
}.

(** From [t] to [t'] every path was called [occ] times: recorded paths count the
    calls, and a path is only missing if it was not called or the table is full. *)
Record counts (t t' : Tree) (occ : path → Z) : Prop := {
  counts_length : (length (entries t) ≤ length (entries t'))%nat;
  counts_full : full t → ∀ q, count_of (entries t) q = None → count_of (entries t') q = None;
  counts_at : ∀ q, match count_of (entries t) q, count_of (entries t') q with
                   | Some n, Some n' => n' = Z.min (n + occ q) u64_max
                   | Some _, None => False
                   | None, Some n' => n' = Z.min (occ q) u64_max ∧ 0 < occ q
                   | None, None => full t' ∨ occ q = 0
                   end;
}.

Lemma count_of_counted q l q' : count_of (counted q <$> l) q' =
  if decide (q = q') then (λ n, saturating_add n 1) <$> count_of l q' else count_of l q'.
Proof.
  induction l as [|[p n] l IH]; cbn [count_of fmap list_fmap]; [by destruct (decide _)|].
  unfold counted at 1. cbn [fst snd]. destruct (decide (p = q)) as [->|Hne].
  - rewrite IH. destruct (decide (q = q')); [|done]. done.
  - rewrite IH. destruct (decide (p = q')) as [->|]; [|done]. by rewrite decide_False.
Qed.

Lemma count_of_snoc l q n q' : count_of (l ++ [(q, n)]) q' =
  match count_of l q' with Some m => Some m | None => if decide (q = q') then Some n else None end.
Proof. induction l as [|[p m] l IH]; cbn [count_of app]; [done|]. by destruct (decide (p = q')). Qed.

Lemma counts_trans t1 t2 t3 o1 o2 : (∀ q, 0 ≤ o1 q) → (∀ q, 0 ≤ o2 q) →
  counts t1 t2 o1 → counts t2 t3 o2 → counts t1 t3 (λ q, o1 q + o2 q).
Proof.
  intros H1 H2 [L1 F1 A1] [L2 F2 A2]. split; [lia| |].
  - intros Hf q Hq. apply F2; [unfold full in *; lia|by apply F1].
  - intros q. specialize (A1 q). specialize (A2 q). specialize (H1 q). specialize (H2 q).
    destruct (count_of (entries t1) q) as [n1|], (count_of (entries t2) q) as [n2|] eqn:E2, (count_of (entries t3) q) as [n3|] eqn:E3;
      try done; try lia.
    + destruct A1 as [A1|A1]; [|lia]. by rewrite (F2 A1 q E2) in E3.
    + unfold full in *. destruct A1, A2; [left; lia|left; lia|left; lia|right; lia].
Qed.

Lemma counts_refl t : sound t → counts t t (λ _, 0).
Proof.
  intros [Hc _]. split; [done|done|]. intros q. destruct (count_of (entries t) q) as [n|] eqn:Hq; [|by right].
  apply Hc in Hq. lia.
Qed.

Lemma counts_ext t t' o o' : (∀ q, o q = o' q) → counts t t' o → counts t t' o'.
Proof. intros He [L F A]. split; [done|done|]. intros q. rewrite <- He. apply A. Qed.

Lemma counts_recorded t t' o q : counts t t' o → recorded t q → recorded t' q.
Proof.
  intros [_ _ A] [->|[n Hn]]; [by left|]. right. specialize (A q). rewrite Hn in A.
  by destruct (count_of (entries t') q).
Qed.

(** A path that is called more often than never starts with the caller's. *)
Lemma occurs_nonneg q e : ∀ base, 0 ≤ occurs q base e.
Proof.
  induction e as [nm body H|body H] using Event_nested; intros base; cbn [occurs]; [|done].
  assert (0 ≤ fold_right (λ e n, occurs q (base ++ [nm]) e + n) 0 body); [|destruct (decide _); lia].
  induction H as [|e body He _ IH]; cbn; [done|]. specialize (He (base ++ [nm])). lia.
Qed.

Lemma occurs_prefix q e : ∀ base, occurs q base e ≠ 0 → ∃ nm, base ++ [nm] `prefix_of` q.
Proof.
  induction e as [nm body H|body H] using Event_nested; intros base; cbn [occurs]; [|done].
  destruct (decide (base ++ [nm] = q)) as [<-|Hne]; [by exists nm|]. rewrite Z.add_0_l. intros Ho. exists nm.
  induction H as [|e body He _ IH]; cbn in Ho; [done|].
  destruct (Z.eq_dec (occurs q (base ++ [nm]) e) 0) as [Hz|Hz]; [apply IH; lia|].
  destruct (He _ Hz) as (nm' & Hp). by eapply prefix_app_l.
Qed.

Lemma recorded_prefix t p q : sound t → p `prefix_of` q → recorded t q → recorded t p.
Proof.
  intros Hs [k ->]. revert p. induction k as [|nm k IH] using rev_ind; intros p; [by rewrite app_nil_r|].
  intros [He|Hq].
  - apply app_eq_nil in He as [-> _]. by left.
  - apply IH. rewrite app_assoc in Hq. by apply (sound_closed _ Hs) in Hq.
Qed.

Lemma tree_event_lost e : ∀ t, here t = None → tree_event e t = t.
Proof.
  assert (∀ body t, Forall (λ e, ∀ t, here t = None → tree_event e t = t) body → here t = None → tree_events body t = t) as Hbody.
  { intros body t H Ht. induction H as [|e' body He _ IH]; [done|]. by rewrite tree_events_cons, He. }
  induction e as [nm body H|body H] using Event_nested; intros t Ht; cbn [tree_event]; fold (tree_events body).
  - unfold tree_enter. rewrite Ht. change (fold_left _ body t) with (tree_events body t). rewrite (Hbody body t H Ht). destruct t; cbn in *; by subst.
  - assert (at_path None t = t) as E by (destruct t; cbn in *; by subst). rewrite E.
    change (fold_left _ body t) with (tree_events body t). by rewrite (Hbody body t H Ht), Ht.
Qed.

Lemma occurrences_nonneg q base l : 0 ≤ occurrences q base l.
Proof.
  induction l as [|e l IH]; [done|]. change (0 ≤ occurs q base e + occurrences q base l). pose proof (occurs_nonneg q e base). lia.
Qed.

(** What entering a path must give: it is counted once, and is where the
    profiler now is. *)
Definition entered (t t' : Tree) (q : path) : Prop :=
  sound t' ∧ counts t t' (λ q', if decide (q = q') then 1 else 0) ∧ here t' = Some q ∧ recorded t' q.

Lemma tree_enter_bumped nm t base n : here t = Some base → count_of (entries t) (base ++ [nm]) = Some n → sound t →
  entered t (tree_enter nm t) (base ++ [nm]).
Proof.
  intros Ht Hn [Hc Hcl]. unfold tree_enter, entered. rewrite Ht, Hn. split; [|split; [|split; [done|]]].
  - split; cbn [entries].
    + intros q m. rewrite count_of_counted. destruct (decide _) as [<-|]; [|apply Hc]. rewrite Hn. cbn. intros [= <-].
      apply Hc in Hn. unfold saturating_add. lia.
    + intros q nm'. unfold recorded. cbn [entries]. rewrite !count_of_counted. intros Hq.
      assert (is_Some (count_of (entries t) (q ++ [nm']))) as Hq' by (by destruct (decide _); [apply fmap_is_Some in Hq|]).
      destruct (Hcl q nm' Hq') as [->|Hr]; [by left|right]. by destruct (decide (base ++ [nm] = q)); [apply fmap_is_Some|].
  - split; cbn [entries]; [by rewrite length_fmap| |].
    + intros _ q Hq. rewrite count_of_counted, Hq. by destruct (decide _).
    + intros q. rewrite count_of_counted. destruct (decide _) as [<-|].
      * rewrite Hn. cbn. unfold saturating_add. done.
      * destruct (count_of (entries t) q) as [m|] eqn:Hq; [|by right]. apply Hc in Hq. lia.
  - right. cbn [entries]. rewrite count_of_counted, decide_True, Hn by done. by eexists.
Qed.

Lemma tree_enter_new nm t base : here t = Some base → count_of (entries t) (base ++ [nm]) = None → sound t → recorded t base → ¬ full t →
  entered t (tree_enter nm t) (base ++ [nm]).
Proof.
  intros Ht Hn [Hc Hcl] Hb Hf. unfold tree_enter, full, entered in *. rewrite Ht, Hn, (proj2 (Z.ltb_lt _ _)) by lia.
  split; [|split; [|split; [done|]]].
  - split; cbn [entries].
    + intros q m. rewrite count_of_snoc. destruct (count_of (entries t) q) eqn:Hq; [intros [= <-]; by eapply Hc|].
      destruct (decide _); [|done]. intros [= <-]. lia.
    + intros q nm'. unfold recorded. cbn [entries]. rewrite !count_of_snoc. intros Hq.
      assert (recorded t q) as [->|[m Hm]]; [|by left|right; by rewrite Hm].
      destruct (count_of (entries t) (q ++ [nm'])) as [m|] eqn:Hm; [apply (Hcl q nm'); by rewrite Hm|].
      destruct (decide _) as [E|]; [|by destruct Hq]. by apply app_inj_tail in E as [<- _].
  - split; cbn [entries]; [rewrite length_app; lia|done|].
    intros q. rewrite count_of_snoc. destruct (count_of (entries t) q) as [m|] eqn:Hq.
    + destruct (decide _) as [<-|]; [congruence|]. apply Hc in Hq. lia.
    + destruct (decide _); [lia|by right].
  - right. cbn [entries]. rewrite count_of_snoc, Hn, decide_True by done. by eexists.
Qed.

(** In a full table a call to an unrecorded path is lost with all it calls. *)
Lemma call_lost nm body t base : here t = Some base → count_of (entries t) (base ++ [nm]) = None → sound t → full t →
  let t' := tree_event (Call nm body) t in
  entries t' = entries t ∧ ∀ q, is_Some (count_of (entries t) q) → occurs q base (Call nm body) = 0.
Proof.
  intros Ht Hn Hs Hf. split.
  - cbn [tree_event at_path entries]. unfold tree_enter, full in *. rewrite Ht, Hn, (proj2 (Z.ltb_ge _ _)) by lia.
    set (t1 := mkTree _ None _). assert (fold_left (λ t e, tree_event e t) body t1 = t1) as ->; [|done].
    clear. induction body as [|e body IH]; [done|]. cbn [fold_left]. by rewrite (tree_event_lost e t1).
  - intros q Hq. destruct (Z.eq_dec (occurs q base (Call nm body)) 0) as [|Hne]; [done|]. exfalso.
    assert (base ++ [nm] `prefix_of` q) as Hp.
    { cbn [occurs] in Hne. destruct (decide (base ++ [nm] = q)) as [<-|_]; [done|]. rewrite Z.add_0_l in Hne.
      induction body as [|e body IH]; cbn in Hne; [done|].
      destruct (Z.eq_dec (occurs q (base ++ [nm]) e) 0) as [Hz|Hz]; [apply IH; lia|].
      destruct (occurs_prefix _ _ _ Hz) as (nm' & Hp). by eapply prefix_app_l. }
    destruct (recorded_prefix t (base ++ [nm]) q Hs Hp (or_intror Hq)) as [He|[n He]]; [by destruct base|congruence].
Qed.

(** What an event that is run at a recorded path must do. *)
Definition counts_event (e : Event) : Prop := ∀ t base, here t = Some base → recorded t base → sound t →
  sound (tree_event e t) ∧ counts t (tree_event e t) (λ q, occurs q base e) ∧ here (tree_event e t) = Some base.

Lemma body_counts body t base : Forall counts_event body → here t = Some base → recorded t base → sound t →
  sound (tree_events body t) ∧ counts t (tree_events body t) (λ q, occurrences q base body) ∧ here (tree_events body t) = Some base.
Proof.
  intros H. revert t. induction H as [|e body He _ IH]; intros t Ht Hb Hs; [by split; [|split; [apply counts_refl|]]|].
  destruct (He t base Ht Hb Hs) as (Hs1 & Hc1 & Hh1). rewrite tree_events_cons.
  destruct (IH (tree_event e t) Hh1 (counts_recorded _ _ _ _ Hc1 Hb) Hs1) as (Hs2 & Hc2 & Hh2). split; [done|]. split; [|done].
  apply (counts_trans _ (tree_event e t) _ (λ q, occurs q base e) (λ q, occurrences q base body)); try done; intros q;
    [apply occurs_nonneg|apply occurrences_nonneg].
Qed.

(** An event counts its calls, and comes back to where it was. *)
Lemma event_counts e : counts_event e.
Proof.
  assert (∀ h t t' o, counts t t' o → counts t (at_path h t') o) as Hat by (intros ???? [L F A]; by split).
  assert (∀ h t, sound t → sound (at_path h t)) as Hsat by (intros ?? [A B]; by split).
  induction e as [nm body H|body H] using Event_nested; intros t base Ht Hb Hs.
  - destruct (decide (full t ∧ count_of (entries t) (base ++ [nm]) = None)) as [[Hf Hn]|Hroom].
    + destruct (call_lost nm body t base Ht Hn Hs Hf) as [He Ho]. cbn zeta in He.
      assert (here (tree_event (Call nm body) t) = Some base) as Hh by done.
      set (t' := tree_event (Call nm body) t) in *. split; [|split; [|done]].
      * destruct Hs as [A B]. by split; unfold recorded; rewrite He.
      * split; rewrite ?He; [done|done|]. intros q. specialize (Ho q).
        destruct (count_of (entries t) q) as [n|] eqn:Hq; [|left; unfold full; by rewrite He].
        rewrite Ho by done. apply (sound_count _ Hs) in Hq. lia.
    + assert (entered t (tree_enter nm t) (base ++ [nm])) as (Hs1 & Hc1 & Hh1 & Hr1).
      { destruct (count_of (entries t) (base ++ [nm])) as [n|] eqn:Hn; [by eapply tree_enter_bumped|].
        apply tree_enter_new; try done. by intros Hf; apply Hroom. }
      destruct (body_counts body (tree_enter nm t) (base ++ [nm]) H Hh1 Hr1 Hs1) as (Hs2 & Hc2 & _).
      cbn [tree_event]. rewrite Ht. split; [by apply Hsat|]. split; [|done]. apply Hat. cbn [occurs].
      apply (counts_trans t (tree_enter nm t)); [intros q; by destruct (decide _)|intros q; apply occurrences_nonneg|done|exact Hc2].
  - cbn [tree_event]. rewrite Ht. assert (fold_left (λ t e, tree_event e t) body (at_path None t) = at_path None t) as ->.
    { clear. induction body as [|e body IH]; [done|]. cbn [fold_left]. by rewrite (tree_event_lost e (at_path None t)). }
    split; [by do 2 apply Hsat|]. split; [|done]. do 2 apply Hat. by apply counts_refl.
Qed.

(** ** The dump *)

Lemma decimal_loop_spec c v digits : (0 < c)%nat → 0 ≤ v < 10 ^ Z.of_nat c → (c ≤ length digits)%nat →
  decimal_loop c v (Z.of_nat c) digits = Ok (rev (digits_fuel c v) ++ drop c digits).
Proof.
  revert v digits. induction c as [|c IH]; intros v digits Hc Hv Hl; [lia|]. cbn [decimal_loop digits_fuel rev].
  rewrite sub_u64_ok by lia. cbn [mbind outcome_bind]. replace (Z.of_nat (S c) - 1) with (Z.of_nat c) by lia.
  rewrite Nat2Z.id, array_set_ok by lia. cbn [mbind outcome_bind].
  assert (drop c (<[c:=48 + v mod 10]> digits) = (48 + v mod 10) :: drop (S c) digits) as Hd.
  { rewrite <- (take_drop_middle (<[c:=48 + v mod 10]> digits) c (48 + v mod 10)) at 1 by (apply list_lookup_insert_eq; lia).
    rewrite drop_app_length' by (rewrite length_take, length_insert; lia). f_equal. by rewrite drop_insert_lt by lia. }
  rewrite Nat2Z.inj_succ, Z.pow_succ_r in Hv by lia.
  destruct (Z.eqb_spec (v / 10) 0) as [Hz|Hz]; [by rewrite Hd|].
  assert (0 < v / 10) by (pose proof (Z.div_pos v 10); lia).
  assert (v / 10 < 10 ^ Z.of_nat c) by (apply Z.div_lt_upper_bound; lia).
  destruct c as [|c]; [cbn in *; lia|].
  rewrite IH, Hd by (rewrite ?length_insert; lia). by rewrite <- app_assoc.
Qed.

(** [write_decimal] prints as [fmt] does. *)
Lemma decimal_show v : is_u64 v → decimal v = Ok (show_u64 v).
Proof.
  intros Hv. unfold decimal. change 20 with (Z.of_nat 20) at 1.
  rewrite decimal_loop_spec by (unfold is_u64 in Hv; rewrite ?length_replicate; cbn; lia).
  rewrite drop_ge by (by rewrite length_replicate). by rewrite app_nil_r.
Qed.

Section dump.
Context {W : Type} `{Devices W}.

(** An operation that writes these bytes to the debug port. *)
Definition prints (m : M (Io W) Stuck unit) (bytes : list Z) : Prop :=
  ∀ io, ∃ d, m io = (Ok tt, mkIo d (trace io ++ (Out DEBUG_PORT <$> bytes))).

Lemma prints_nil : prints (mret tt) [].
Proof. intros [d l]. exists d. cbn. by rewrite app_nil_r. Qed.

Lemma prints_seq m1 m2 b1 b2 : prints m1 b1 → prints m2 b2 → prints (m1;; m2) (b1 ++ b2).
Proof.
  intros H1 H2 io. destruct (H1 io) as (d1 & E1). destruct (H2 (mkIo d1 (trace io ++ (Out DEBUG_PORT <$> b1)))) as (d2 & E2).
  exists d2. unfold mbind, M_bind. rewrite E1, E2. cbn [trace]. by rewrite fmap_app, app_assoc.
Qed.

Lemma prints_bytes bytes : prints (write_bytes bytes) bytes.
Proof.
  induction bytes as [|b bytes IH]; [apply prints_nil|]. cbn [write_bytes].
  apply (prints_seq _ _ [b]); [|exact IH]. intros io. by eexists.
Qed.

Lemma prints_decimal v : is_u64 v → prints (write_decimal v) (show_u64 v).
Proof. intros Hv io. unfold write_decimal, mbind, M_bind, lift. rewrite decimal_show by done. apply prints_bytes. Qed.

Hint Resolve prints_nil prints_bytes prints_decimal : core.

Definition space : str := [32].
Definition newline : str := [10].

(** The line of an entry, with the node of the path without its last call. *)
Definition entry_line (index parent : nat) (nm : str) (n : Z) : str :=
  lit "N:" ++ show_u64 (Z.of_nat index) ++ space ++ show_u64 (Z.of_nat parent) ++ space ++ show_u64 n ++ space ++ nm ++ newline.

Fixpoint position (l : list (path * Z)) (q : path) : nat :=
  match l with [] => O | (p, _) :: l => if decide (p = q) then O else S (position l q) end.
Definition node_index (l : list (path * Z)) (q : path) : nat := match q with [] => O | _ => S (position l q) end.

Definition table_line (l : list (path * Z)) (i : nat) (e : path * Z) : str :=
  entry_line (S i) (node_index l (removelast e.1)) (List.last e.1 []) e.2.
Definition dump_text (t : Tree) : str :=
  lit "AGNOSTOS_PROFILE_V2" ++ newline ++ List.concat (imap (table_line (entries t)) (entries t)) ++
  (if 0 <? lost t then lit "AGNOSTOS_PROFILE_DROPPED_PATHS=" ++ show_u64 (lost t) ++ newline else []) ++
  lit "AGNOSTOS_PROFILE_END" ++ newline.

Lemma position_spec l i q n : NoDup l.*1 → l !! i = Some (q, n) → position l q = i.
Proof.
  revert i. induction l as [|[p m] l IH]; intros i Hnd Hi; [done|]. cbn in Hnd. apply NoDup_cons in Hnd as [Hp Hnd]. cbn [position].
  destruct i as [|i]; cbn in Hi; [injection Hi as -> ->; by rewrite decide_True|]. rewrite decide_False; [by rewrite (IH i)|].
  intros ->. apply Hp, list_elem_of_fmap. exists (q, n). split; [done|]. by eapply list_elem_of_lookup_2.
Qed.

Lemma node_index_spec p t i q : represents p t → path_at (entries t) i q → node_index (entries t) q = i.
Proof.
  intros Hr Hq. destruct i as [|i]; cbn in Hq; [by subst|]. destruct Hq as (n & Hn).
  assert (q ≠ []) as Hne.
  { apply (entries_nonempty p t q Hr), list_elem_of_fmap. exists (q, n). split; [done|]. by eapply list_elem_of_lookup_2. }
  unfold node_index. destruct q; [done|]. f_equal. eapply position_spec; [apply Hr|done].
Qed.

Lemma write_node_prints i j node : is_u64 (Z.of_nat i) → is_u64 (Z.of_nat j) → is_u64 (calls node) → parent node = Z.of_nat j →
  prints (write_node (Z.of_nat i) node) (entry_line i j (name node) (calls node)).
Proof. intros Hi Hj Hc Hp. unfold write_node, entry_line. rewrite Hp. repeat apply prints_seq; auto. Qed.

(** The nodes of a table from an entry on. *)
Lemma write_nodes_prints p t es done_ : represents p t → sound t → entries t = done_ ++ es →
  prints (write_nodes (Z.of_nat (S (length done_))) (take (length es) (drop (S (length done_)) (NODES p))))
    (List.concat (imap (λ i e, table_line (entries t) (length done_ + i) e) es)).
Proof.
  intros Hr Hs. revert done_. induction es as [|[q n] es IH]; intros done_ He; [apply prints_nil|].
  assert (entries t !! length done_ = Some (q, n)) as Hq by (rewrite He; by apply list_lookup_middle).
  destruct (rep_entries _ _ Hr _ q n Hq) as (node & j & base & Hnode & Hn & -> & Hp & Hj & Hbase).
  pose proof (lookup_lt_Some _ _ _ Hq) as Hlt. destruct (index_bound p t (length (entries t)) Hr ltac:(lia)) as [Hb _]. unfold NODE_CAPACITY in Hb.
  assert (is_u64 n) as Hu.
  { unfold is_u64. assert (count_of (entries t) (base ++ [name node]) = Some n) as Hc%(sound_count _ Hs); [|lia].
    apply count_of_Some; [apply Hr|eauto]. }
  cbn [length]. rewrite (drop_S _ _ _ Hnode). cbn [take write_nodes imap List.concat].
  apply prints_seq.
  - unfold table_line. cbn [fst snd]. rewrite removelast_last, last_last, Nat.add_0_r, (node_index_spec p t j base Hr Hbase), <- Hn.
    apply write_node_prints; unfold is_u64 in *; [lia|lia|by rewrite Hn|done].
  - specialize (IH (done_ ++ [(base ++ [name node], n)])). rewrite length_app in IH. cbn [length] in IH.
    replace (length done_ + 1)%nat with (S (length done_)) in IH by lia.
    replace (Z.of_nat (S (length done_)) + 1) with (Z.of_nat (S (S (length done_)))) by lia.
    assert (imap ((λ i e, table_line (entries t) (length done_ + i) e) ∘ S) es =
      imap (λ i e, table_line (entries t) (S (length done_) + i) e) es) as ->.
    { apply imap_ext. intros i e _. cbn. by rewrite Nat.add_succ_r. }
    apply IH. by rewrite <- app_assoc.
Qed.

Lemma dump_tree_prints p t : represents p t → sound t → is_u64 (lost t) → prints (dump_tree p) (dump_text t).
Proof.
  intros Hr Hs Hl. unfold dump_tree, dump_text. rewrite app_assoc. apply prints_seq; [apply prints_bytes|].
  apply prints_seq; [|apply prints_seq; [|apply prints_bytes]].
  - pose proof (write_nodes_prints p t (entries t) [] Hr Hs eq_refl) as Hw. cbn [length] in Hw. change (Z.of_nat 1) with 1 in Hw.
    rewrite Z.min_l by apply (rep_capacity _ _ Hr). rewrite (rep_count _ _ Hr), Nat2Z.id.
    rewrite <- take_drop_commute. exact Hw.
  - rewrite (rep_dropped _ _ Hr). destruct (0 <? lost t); [|apply prints_nil]. repeat apply prints_seq; auto.
Qed.

(** ** What a profiled program leaves *)

(** The table has the exact number of calls of every path that it has; a path
    that it does not have was never called, unless the table is full. *)
Definition table_exact (t : Tree) (l : list Event) : Prop := ∀ q,
  match count_of (entries t) q with
  | Some n => n = Z.min (occurrences q [] l) u64_max ∧ 0 < occurrences q [] l
  | None => full t ∨ occurrences q [] l = 0
  end.

Lemma Profile_new_represents b : represents (Profile_new b) (mkTree [] (Some []) 0).
Proof.
  split; cbn -[replicate]; try done.
  - constructor.
  - intros i Hi. assert (i = O) as -> by lia. exists []. split; [constructor|]. split.
    + intros k. split; [by intros ?%not_elem_of_nil|lia].
    + exists Node_EMPTY. split; [|done]. apply (lookup_replicate_2 (Z.to_nat NODE_CAPACITY)). unfold NODE_CAPACITY. lia.
  - by exists O.
Qed.

Lemma tree_event_lost_u64 e : ∀ t, is_u64 (lost t) → is_u64 (lost (tree_event e t)).
Proof.
  assert (∀ body t, Forall (λ e, ∀ t, is_u64 (lost t) → is_u64 (lost (tree_event e t))) body → is_u64 (lost t) →
    is_u64 (lost (tree_events body t))) as Hbody.
  { intros body t Hall. revert t. induction Hall as [|e' body He _ IH]; intros t Ht; [done|]. rewrite tree_events_cons. by apply IH, He. }
  induction e as [nm body Hall|body Hall] using Event_nested; intros t Ht; apply (Hbody body); try done.
  unfold tree_enter. repeat case_match; try done. cbn. unfold is_u64. apply Z.mod_pos_bound. lia.
Qed.

(** The table of a program, from the empty one. *)
Definition table_of (l : list Event) : Tree := tree_events l (mkTree [] (Some []) 0).

Lemma table_of_exact l : sound (table_of l) ∧ is_u64 (lost (table_of l)) ∧ table_exact (table_of l) l ∧ here (table_of l) = Some [].
Proof.
  assert (sound (mkTree [] (Some []) 0)) as Hs by (split; [done|by intros ?? [? ?]]).
  destruct (body_counts l (mkTree [] (Some []) 0) []) as (Hs' & Hc & Hh); [apply Forall_forall; intros e _; apply event_counts|done|by left|done|].
  unfold table_of. split_and!; try done.
  - unfold tree_events. assert (is_u64 (lost (mkTree [] (Some []) 0))) as H0 by done. revert H0. generalize (mkTree [] (Some []) 0). clear.
    induction l as [|e l IH]; intros t Ht; [done|]. by apply IH, tree_event_lost_u64.
  - intros q. pose proof (counts_at _ _ _ Hc q) as A. cbn in A. by destruct (count_of _ q).
Qed.

Lemma program_counts l b : ∃ p' t, run_events l (Profile_new b) = (Ok tt, p') ∧ represents p' t ∧ here t = Some [] ∧
  flags_kept (Profile_new b) p' ∧ table_exact t l.
Proof.
  destruct (run_events_refines l _ _ (Profile_new_represents b) eq_refl) as (p' & Hrun & Hr' & Hf).
  destruct (table_of_exact l) as (_ & _ & Ht & Hh). by exists p', (table_of l).
Qed.

(** C17. A profiled program comes back to the root of the tree with the flags
    as they were, without a panic and with every search for a child ended, and
    the nodes represent the exact table of its calls: each path (the names on
    the way to a call) with the number of times it was called, calls under a
    suspended recording not counted, and no path missing while there is room. *)
Theorem profile_counts (l : list Event) (b : bool) :
  ∃ p t, run_events l (Profile_new b) = (Ok tt, p) ∧ represents p t ∧ table_exact t l ∧
    CURRENT_NODE p = ROOT ∧ RECORDING p = true ∧ interrupts_enabled p = b ∧ NODE_COUNT p ≤ NODE_CAPACITY ∧
    (full t ↔ NODE_COUNT p = NODE_CAPACITY).
Proof.
  destruct (program_counts l b) as (p & t & Hrun & Hr & Hh & [Hrec Hi] & Ht). exists p, t.
  pose proof (rep_here _ _ Hr) as Hc. rewrite Hh in Hc. destruct Hc as (i & Hcur & Hp).
  assert (i = O) as -> by (eapply index_inj; [exact Hr|exact Hp|done]).
  pose proof (rep_count _ _ Hr). pose proof (rep_capacity _ _ Hr). unfold full. split_and!; try done. split; lia.
Qed.

(** C26. The report is the table of the calls so far, wherever the program is
    stopped: [exit_qemu] calls [dump] inside the open calls of the functions that
    led to it, and its table counts those calls too.  [dump] writes to the debug
    port, and nowhere else, a header, one line for each path in the order of the
    first calls (the node's number, its caller's, the calls and the name), the
    number of lost calls if there are any, and the end mark; no path has two
    lines, and afterwards nothing is recorded any more. *)
Theorem dump_reports (opened : Opened) (l : list Event) (b : bool) (io : Io W) :
  ∃ p1 p2 t d, run_open opened l (Profile_new b) = (Ok tt, p1) ∧
    dump (p1, io) = (Ok tt, (p2, mkIo d (trace io ++ (Out DEBUG_PORT <$> dump_text t)))) ∧
    table_exact t (closed opened l) ∧ NoDup (entries t).*1 ∧
    interrupts_enabled p2 = false ∧ (∀ nm, enter nm p2 = (Ok (mkGuard ROOT false), p2)) ∧
    suspend_recording p2 = (Ok (mkGuard ROOT false), p2) ∧ drop_guard (mkGuard ROOT false) p2 = (Ok tt, p2).
Proof.
  destruct (run_open_refines opened l _ _ (Profile_new_represents b) eq_refl) as (p & Hrun & Hr & _).
  set (t := tree_open _ _ _) in *. destruct (tree_open_closed opened l (mkTree [] (Some []) 0)) as [He Hlost].
  destruct (table_of_exact (closed opened l)) as (Hs & Hl & Ht & _). unfold table_of in *. fold t in He, Hlost.
  set (p2 := set_recording false (set_interrupts false p)).
  assert (represents p2 t) as Hr2 by (by apply (represents_ext p)).
  assert (sound t) as Hs2 by (destruct Hs; split; unfold recorded; rewrite He; done).
  destruct (dump_tree_prints p2 t Hr2 Hs2 ltac:(by rewrite Hlost) io) as (d & Hd). exists p, p2, t, d.
  split; [done|]. split; [unfold dump; fold p2; by rewrite Hd|].
  split; [intros q; specialize (Ht q); unfold full in *; by rewrite He|]. split; [apply Hr|]. by split_and!.
Qed.
End dump.
