(* ===== verification/ProfileMacro.v ===== *)
(** * ProfileMacro: the attribute macro of [profile-macro/src/lib.rs].

    Token trees are those of [proc_macro] without their spans; the text that the
    compiler prints a stream as, the printable characters of [{:?}] and the
    files that exist are parameters.  Reading the module, writing the generated
    file and the diagnostics are in ProfiledModule. *)

From Stdlib Require Import String.
From S2P Require Import Prelude Text.
Open Scope Z_scope.

(** ** Token trees *)

Inductive Delimiter : Type := Parenthesis | Brace | Bracket | NoDelimiter.

Inductive TokenTree : Type :=
  | Group (delimiter : Delimiter) (stream : list TokenTree)
  | Ident (name : str)
  | Punct (ch : char) (joint : bool)
  | Literal (text : str).

Definition is_delimiter (d e : Delimiter) : bool :=
  match d, e with
  | Parenthesis, Parenthesis | Brace, Brace | Bracket, Bracket | NoDelimiter, NoDelimiter => true
  | _, _ => false
  end.
Definition is_group (d : Delimiter) (t : TokenTree) : bool := match t with Group e _ => is_delimiter e d | _ => false end.
Definition is_punct (c : char) (t : TokenTree) : bool := match t with Punct ch _ => ch =? c | _ => false end.
Definition is_ident (name : string) (t : TokenTree) : bool := match t with Ident s => bool_decide (s = lit name) | _ => false end.

(** [Iterator::position] and [rposition] on a slice. *)
Fixpoint position (f : TokenTree → bool) (l : list TokenTree) : option nat :=
  match l with [] => None | t :: l => if f t then Some O else S <$> position f l end.
Fixpoint rposition (f : TokenTree → bool) (l : list TokenTree) : option nat :=
  match l with
  | [] => None
  | t :: l => match rposition f l with Some i => Some (S i) | None => if f t then Some O else None end
  end.

(** [str::contains] *)
Fixpoint contains (marker s : str) : bool :=
  starts_with marker s || match s with [] => false | _ :: s => contains marker s end.

(** What ends the item before: a semicolon or a braced group. *)
Definition ends_item (t : TokenTree) : bool := is_punct 59 t || is_group Brace t.
Definition item_start (tokens : list TokenTree) (index : nat) : nat :=
  match rposition ends_item (take index tokens) with Some p => S p | None => O end.

(** The tokens of the item before a position. *)
Definition window (tokens : list TokenTree) (index : nat) : list TokenTree :=
  drop (item_start tokens index) (take index tokens).

(** ** Strings in the source *)

Section strings.
(** Whether [{:?}] prints a character as it is. *)
Context (printable : char → bool).

Fixpoint hex_digits (fuel : nat) (n : Z) : list Z :=
  match fuel with
  | O => []
  | S fuel => (let d := n mod 16 in if d <? 10 then 48 + d else 87 + d) :: if n / 16 =? 0 then [] else hex_digits fuel (n / 16)
  end.

(** [{:?}] of a character in a string, and of a string. *)
Definition debug_char (c : char) : str :=
  if c =? 0 then [92; 48]
  else if c =? 9 then [92; 116]
  else if c =? 10 then [92; 110]
  else if c =? 13 then [92; 114]
  else if c =? 34 then [92; 34]
  else if c =? 92 then [92; 92]
  else if printable c then [c]
  else [92; 117; 123] ++ rev (hex_digits 6 c) ++ [125].
Definition debug_str (s : str) : str := [34] ++ List.concat (debug_char <$> s) ++ [34].

(** [char::to_digit(16)] *)
Definition hex_digit (c : char) : option Z :=
  if (48 <=? c) && (c <=? 57) then Some (c - 48)
  else if (97 <=? c) && (c <=? 102) then Some (c - 87)
  else if (65 <=? c) && (c <=? 70) then Some (c - 55)
  else None.

(** [char::from_u32] *)
Definition from_u32 (n : Z) : option char :=
  if (n <? 0xd800) || ((0xe000 <=? n) && (n <=? 0x10ffff)) then Some n else None.

(** [u32::from_str_radix] in base 16 on digits that overflow nowhere near a
    character, with the sign it allows. *)
Fixpoint radix16 (acc : Z) (s : str) : option Z :=
  match s with
  | [] => Some acc
  | c :: s => d ← hex_digit c; let acc := acc * 16 + d in if acc <? 2 ^ 32 then radix16 acc s else None
  end.
Definition from_str_radix16 (s : str) : option Z :=
  match s with
  | [] => None
  | c :: rest => if c =? 43 then match rest with [] => None | _ => radix16 0 rest end else radix16 0 s
  end.

(** The digits up to the closing brace, and what follows it. *)
Fixpoint unicode_digits (s : str) (digits : str) : option (str * str) :=
  match s with
  | [] => None
  | c :: s => if c =? 125 then Some (digits, s) else if c =? 95 then unicode_digits s digits else unicode_digits s (digits ++ [c])
  end.

Fixpoint skip_whitespace (s : str) : str :=
  match s with c :: rest => if is_whitespace c then skip_whitespace rest else s | [] => [] end.

(** The loop of [decode_string_literal] over the characters between the quotes. *)
Fixpoint decode_loop (fuel : nat) (s decoded : str) : option str :=
  match fuel with
  | O => None
  | S fuel =>
    match s with
    | [] => Some decoded
    | c :: s =>
      if negb (c =? 92) then decode_loop fuel s (decoded ++ [c]) else
      match s with
      | [] => None
      | e :: s =>
        if e =? 92 then decode_loop fuel s (decoded ++ [92])
        else if e =? 34 then decode_loop fuel s (decoded ++ [34])
        else if e =? 110 then decode_loop fuel s (decoded ++ [10])
        else if e =? 114 then decode_loop fuel s (decoded ++ [13])
        else if e =? 116 then decode_loop fuel s (decoded ++ [9])
        else if e =? 48 then decode_loop fuel s (decoded ++ [0])
        else if e =? 120 then
          match s with
          | h :: l :: s =>
            high ← hex_digit h; low ← hex_digit l; ch ← from_u32 (high * 16 + low);
            decode_loop fuel s (decoded ++ [ch])
          | _ => None
          end
        else if e =? 117 then
          match s with
          | b :: s =>
            if negb (b =? 123) then None else
            '(digits, s) ← unicode_digits s [];
            n ← from_str_radix16 digits;
            ch ← from_u32 n;
            decode_loop fuel s (decoded ++ [ch])
          | [] => None
          end
        else if e =? 10 then decode_loop fuel (skip_whitespace s) decoded
        else None
      end
    end
  end.

(** [str::find] of a character, and [str::strip_suffix]. *)
Fixpoint find_char (c : char) (s : str) : option nat :=
  match s with [] => None | d :: s => if d =? c then Some O else S <$> find_char c s end.
Definition strip_suffix (suffix s : str) : option str := (@rev Z) <$> strip_prefix (rev suffix) (rev s).

(** [decode_string_literal] *)
Definition decode_string_literal (text : str) : option str :=
  if starts_with [114] text then
    quote ← find_char 34 text;
    let hashes := drop 1 (take quote text) in
    strip_suffix (34 :: hashes) (drop (quote + 1) text)
  else
    inner ← strip_prefix [34] text;
    inner ← strip_suffix [34] inner;
    decode_loop (S (List.length inner)) inner [].
End strings.

(** ** Functions in a scope *)

Section macro.
Context (printable : char → bool) (stream_to_string : list TokenTree → str).

(** [function_name] *)
Definition function_name (tokens : list TokenTree) (index : nat) : option str :=
  match tokens !! index with
  | Some t =>
    if negb (is_ident "fn" t) then None else
    match tokens !! (index + 1)%nat with Some (Ident name) => Some name | _ => None end
  | None => None
  end.

(** [has_marker_before] *)
Definition is_marker (marker : str) (t : TokenTree) : bool :=
  match t with Group Bracket s => contains marker (stream_to_string s) | _ => false end.
Definition has_marker_before (tokens : list TokenTree) (index : nat) (marker : str) : bool :=
  existsb (is_marker marker) (window tokens index).

(** The loop of [function_body_index] from an offset on. *)
Fixpoint body_loop (l : list TokenTree) (offset angle_depth : nat) (previous_was_minus : bool) : option nat :=
  match l with
  | [] => None
  | t :: l =>
    if is_punct 59 t then None
    else if is_group Brace t && Nat.eqb angle_depth 0 then Some offset
    else
      let angle_depth :=
        if is_punct 60 t then S angle_depth
        else if is_punct 62 t then if negb previous_was_minus then Nat.pred angle_depth else angle_depth
        else angle_depth in
      body_loop l (S offset) angle_depth (is_punct 45 t)
  end.

(** [function_body_index] *)
Definition function_body_index (tokens : list TokenTree) (index : nat) : option nat :=
  (λ offset, (index + 2 + offset)%nat) <$> body_loop (drop (index + 2) tokens) 0 0 false.

(** [is_const_function] *)
Definition is_const_function (tokens : list TokenTree) (index : nat) : bool :=
  existsb (is_ident "const") (window tokens index).

(** [scope_context] *)
Definition scope_context (tokens : list TokenTree) (group_index : nat) : option str :=
  let window := window tokens group_index in
  if existsb (is_ident "fn") window then None else
  offset ← position (λ t, is_ident "impl" t || is_ident "trait" t) window;
  Some (stream_to_string (drop offset window)).

(** ** The hook *)

(** A literal of the macro's own text. *)
Definition quoted (s : string) : TokenTree := Literal ([34] ++ lit s ++ [34]).
Definition ident (s : string) : TokenTree := Ident (lit s).
Definition punct (c : char) : TokenTree := Punct c false.
Definition path_separator : list TokenTree := [Punct 58 true; Punct 58 false].

(** [#\[cfg(feature = "profiling")\] let _profile_guard =
    crate::profiling::enter(concat!(module_path!(), "::", identity));] *)
Definition hook (identity : str) : list TokenTree :=
  [punct 35; Group Bracket [ident "cfg"; Group Parenthesis [ident "feature"; punct 61; quoted "profiling"]];
   ident "let"; ident "_profile_guard"; punct 61; ident "crate"] ++ path_separator ++ [ident "profiling"] ++ path_separator ++
  [ident "enter";
   Group Parenthesis [ident "concat"; punct 33;
     Group Parenthesis [ident "module_path"; punct 33; Group Parenthesis []; punct 44; quoted "::"; punct 44;
       Literal (debug_str printable identity)]];
   punct 59].

Definition identity (context : option str) (name : str) : str :=
  match context with Some context => context ++ lit "::" ++ name | None => name end.

(** A function that gets no hook. *)
Definition skipped (tokens : list TokenTree) (index : nat) : bool :=
  has_marker_before tokens index (lit "not_profiled") || has_marker_before tokens index (lit "naked") || is_const_function tokens index.

(** The loop body of [transform_scope]. *)
Definition instrument_function (context : option str) (tokens : list TokenTree) (index : nat) : list TokenTree :=
  if skipped tokens index then tokens else
  match function_name tokens index with
  | None => tokens
  | Some name =>
    match function_body_index tokens index with
    | None => tokens
    | Some body_index =>
      match tokens !! body_index with
      | Some (Group _ original) => <[body_index := Group Brace (hook (identity context name) ++ original)]> tokens
      | _ => tokens
      end
    end
  end.

Definition function_indices (tokens : list TokenTree) : list nat :=
  List.filter (λ index, match function_name tokens index with Some _ => true | None => false end) (seq 0 (length tokens)).

Definition instrument_scope (context : option str) (tokens : list TokenTree) : list TokenTree :=
  fold_left (instrument_function context) (rev (function_indices tokens)) tokens.

Definition or_else (a b : option str) : option str := match a with Some _ => a | None => b end.

(** [transform_scope], as the transformation of one token and of a stream. *)
Fixpoint transform_tree (context : option str) (t : TokenTree) : TokenTree :=
  match t with
  | Group Brace stream =>
    Group Brace (instrument_scope context
      ((fix scan (index : nat) (l : list TokenTree) : list TokenTree :=
          match l with
          | [] => []
          | t :: l => transform_tree (or_else (scope_context stream index) context) t :: scan (S index) l
          end) O stream))
  | other => other
  end.
Definition transform_scope (stream : list TokenTree) (context : option str) : list TokenTree :=
  instrument_scope context (imap (λ index t, transform_tree (or_else (scope_context stream index) context) t) stream).

(** ** Paths *)

(** [Path::is_absolute], [Path::join] and [Path::join] of a file name. *)
Definition is_absolute (p : str) : bool := starts_with [47] p.
Definition join (base p : str) : str :=
  if is_absolute p then p else
  match last base with Some c => if c =? 47 then base ++ p else base ++ [47] ++ p | None => p end.

Context (is_file : str → bool).

(** An attribute that names a path, [#\[path ...\]] without its number sign. *)
Definition is_path_group (t : TokenTree) : bool :=
  match t with Group Bracket s => starts_with (lit "path") (stream_to_string s) | _ => false end.

(** [strip_path_attributes] *)
Fixpoint strip_path_attributes (tokens : list TokenTree) : list TokenTree :=
  match tokens with
  | [] => []
  | a :: rest =>
    match rest with
    | b :: rest' => if is_punct 35 a && is_path_group b then strip_path_attributes rest' else a :: strip_path_attributes rest
    | [] => [a]
    end
  end.

Definition is_literal (t : TokenTree) : bool := match t with Literal _ => true | _ => false end.

(** The loop body of [resolve_relative_module_path]. *)
Definition resolve_attribute (module_dir : str) (token : TokenTree) : TokenTree :=
  match token with
  | Group Bracket parts =>
    match parts with
    | first :: _ =>
      if negb (is_ident "path" first) then token else
      match position is_literal parts with
      | Some literal_index =>
        match parts !! literal_index with
        | Some (Literal text) =>
          match decode_string_literal text with
          | Some value =>
            if is_absolute value then token else
            Group Bracket (<[literal_index := Literal (debug_str printable (join module_dir value))]> parts)
          | None => token
          end
        | _ => token
        end
      | None => token
      end
    | [] => token
    end
  | _ => token
  end.

(** [resolve_relative_module_path] on [tokens\[from..to\]] *)
Definition resolve_relative_module_path (from to : nat) (module_dir : str) (tokens : list TokenTree) : list TokenTree :=
  take from tokens ++ (resolve_attribute module_dir <$> drop from (take to tokens)) ++ drop to tokens.

(** The inner attributes of the file that an item does not start with. *)
Fixpoint skip_inner_attributes (fuel item_start index : nat) (tokens : list TokenTree) : nat :=
  match fuel with
  | O => item_start
  | S fuel =>
    if Nat.ltb (item_start + 2) index &&
       match tokens !! item_start, tokens !! (item_start + 1)%nat, tokens !! (item_start + 2)%nat with
       | Some a, Some b, Some c => is_punct 35 a && is_punct 33 b && is_group Bracket c
       | _, _, _ => false
       end
    then skip_inner_attributes fuel (item_start + 3) index tokens
    else item_start
  end.

(** [#\[path = "..."\]] *)
Definition path_attribute (p : str) : list TokenTree :=
  [punct 35; Group Bracket [ident "path"; punct 61; Literal (debug_str printable p)]].

(** What [resolve_external_module_paths] does to a declaration [mod name;]: the
    tokens and the next index. *)
Definition resolve_declaration (module_dir name : str) (index : nat) (tokens : list TokenTree) : list TokenTree * nat :=
  let start := skip_inner_attributes index (item_start tokens index) index tokens in
  if existsb is_path_group (drop start (take index tokens))
  then (resolve_relative_module_path start index module_dir tokens, (index + 3)%nat)
  else
    let direct := join module_dir (name ++ lit ".rs") in
    let nested := join (join module_dir name) (lit "mod.rs") in
    let child_path := if is_file direct then direct else nested in
    if is_file child_path
    then (take start tokens ++ path_attribute child_path ++ drop start tokens, (index + 5)%nat)
    else (tokens, (index + 3)%nat).

(** The loop of [resolve_external_module_paths]; [None] when the fuel runs out. *)
Fixpoint resolve_loop (fuel : nat) (module_dir : str) (index : nat) (tokens : list TokenTree) : option (list TokenTree) :=
  match fuel with
  | O => None
  | S fuel =>
    match tokens !! index, tokens !! (index + 1)%nat with
    | Some t, Some next =>
      if negb (is_ident "mod" t) then resolve_loop fuel module_dir (S index) tokens else
      match next with
      | Ident name =>
        match tokens !! (index + 2)%nat with
        | None => resolve_loop fuel module_dir (S index) tokens
        | Some (Group delimiter stream) =>
          if is_delimiter delimiter Brace then
            nested ← resolve_loop fuel (join module_dir name) 0 stream;
            resolve_loop fuel module_dir (index + 3) (<[(index + 2)%nat := Group Brace nested]> tokens)
          else resolve_loop fuel module_dir (index + 3) tokens
        | Some third =>
          if negb (is_punct 59 third) then resolve_loop fuel module_dir (S index) tokens else
          let '(tokens, index) := resolve_declaration module_dir name index tokens in
          resolve_loop fuel module_dir index tokens
        end
      | _ => resolve_loop fuel module_dir (S index) tokens
      end
    | _, _ => Some tokens
    end
  end.

(** [include_str!], [include_bytes!] and [include!] *)
Definition is_include (a b : TokenTree) : bool :=
  (is_ident "include_str" a || is_ident "include_bytes" a || is_ident "include" a) && is_punct 33 b.

(** The arguments of an include with the directory in front. *)
Definition resolve_include (module_dir : str) (token : TokenTree) : TokenTree :=
  match token with
  | Group delimiter (Literal literal :: rest) =>
    match decode_string_literal literal with
    | Some value =>
      if is_absolute value then token else
      Group delimiter ([ident "concat"; punct 33;
        Group Parenthesis [Literal (debug_str printable module_dir); punct 44; quoted "/"; punct 44; Literal literal]] ++ rest)
    | None => token
    end
  | _ => token
  end.

(** The second loop of [resolve_relative_include_paths]. *)
Fixpoint include_loop (module_dir : str) (tokens : list TokenTree) : list TokenTree :=
  match tokens with
  | a :: ((b :: ((c :: rest) as cs)) as bs) =>
    if is_include a b then a :: b :: resolve_include module_dir c :: include_loop module_dir rest
    else a :: include_loop module_dir bs
  | _ => tokens
  end.

(** [resolve_relative_include_paths], as the rewriting of one token and of a stream. *)
Fixpoint resolve_tree (module_dir : str) (t : TokenTree) : TokenTree :=
  match t with
  | Group delimiter stream => Group delimiter (include_loop module_dir (resolve_tree module_dir <$> stream))
  | other => other
  end.
Definition resolve_relative_include_paths (stream : list TokenTree) (module_dir : str) : list TokenTree :=
  include_loop module_dir (resolve_tree module_dir <$> stream).

(** [profiled_module] from the parsed source to the tokens of the generated file. *)
Definition instrument_source (fuel : nat) (module_dir source_dir : str) (tokens : list TokenTree) : option (list TokenTree) :=
  tokens ← resolve_loop fuel module_dir 0 tokens;
  Some (transform_scope (resolve_relative_include_paths tokens source_dir) None).
End macro.

(** ** Instrumentation as one pass *)

Section properties.
Context (printable : char → bool) (stream_to_string : list TokenTree → str).

(** The functions of a scope whose body is at a position, in order. *)
Definition bodies_at (tokens : list TokenTree) (indices : list nat) (b : nat) : list nat :=
  List.filter (λ i, negb (skipped stream_to_string tokens i) && bool_decide (function_body_index tokens i = Some b)) indices.

Definition hook_of (context : option str) (tokens : list TokenTree) (i : nat) : list TokenTree :=
  match function_name tokens i with Some name => hook printable (identity context name) | None => [] end.

(** What is put in front of the group at a position. *)
Definition hooks_at (context : option str) (tokens : list TokenTree) (indices : list nat) (b : nat) : list TokenTree :=
  List.concat (hook_of context tokens <$> bodies_at tokens indices b).

Definition with_hooks (hooks : nat → list TokenTree) (tokens : list TokenTree) : list TokenTree :=
  imap (λ b t, match t with Group Brace s => Group Brace (hooks b ++ s) | t => t end) tokens.

(** Two streams with the same tokens but for what is in braces. *)
Definition same_token (a b : TokenTree) : Prop :=
  a = b ∨ ∃ s s', a = Group Brace s ∧ b = Group Brace s'.
Definition same_shape (l l' : list TokenTree) : Prop := Forall2 same_token l l'.

Lemma same_token_test (f : TokenTree → bool) a b : (∀ s s', f (Group Brace s) = f (Group Brace s')) → same_token a b → f a = f b.
Proof. intros Hf [->|(s & s' & -> & ->)]; [done|apply Hf]. Qed.

Lemma is_delimiter_spec d e : is_delimiter d e = true ↔ d = e.
Proof. by destruct d, e. Qed.

Lemma is_group_spec t : is_group Brace t = true ↔ ∃ s, t = Group Brace s.
Proof.
  split; [|by intros (s & ->)]. destruct t as [d s| | |]; cbn; try done. intros ->%is_delimiter_spec. by exists s.
Qed.

Lemma rposition_shape f l l' : (∀ s s', f (Group Brace s) = f (Group Brace s')) → same_shape l l' → rposition f l = rposition f l'.
Proof. intros Hf. induction 1 as [|a b l l' Hab _ IH]; cbn; [done|]. by rewrite IH, (same_token_test f a b). Qed.

Lemma existsb_shape f l l' : (∀ s s', f (Group Brace s) = f (Group Brace s')) → same_shape l l' → existsb f l = existsb f l'.
Proof. intros Hf. induction 1 as [|a b l l' Hab _ IH]; cbn; [done|]. by rewrite IH, (same_token_test f a b). Qed.

Lemma take_shape n l l' : same_shape l l' → same_shape (take n l) (take n l').
Proof. apply Forall2_take. Qed.

Lemma window_shape l l' i : same_shape l l' → same_shape (window l i) (window l' i).
Proof.
  intros Hs. unfold window, item_start. rewrite (rposition_shape ends_item (take i l) (take i l')) by (done || by apply take_shape).
  by apply Forall2_drop, take_shape.
Qed.

Lemma lookup_shape l l' i : same_shape l l' →
  match l !! i, l' !! i with Some a, Some b => same_token a b | None, None => True | _, _ => False end.
Proof.
  intros Hs. destruct (l !! i) eqn:Ha.
  - destruct (Forall2_lookup_l _ _ _ _ _ Hs Ha) as (b & -> & Hb). done.
  - apply lookup_ge_None in Ha. rewrite (Forall2_length _ _ _ Hs) in Ha. by rewrite (proj2 (lookup_ge_None _ _) Ha).
Qed.

Lemma function_name_shape l l' i : same_shape l l' → function_name l i = function_name l' i.
Proof.
  intros Hs. unfold function_name. pose proof (lookup_shape _ _ i Hs) as H1. pose proof (lookup_shape _ _ (i + 1) Hs) as H2.
  destruct (l !! i) as [a|], (l' !! i) as [b|]; try done. rewrite (same_token_test (is_ident "fn") a b) by done.
  destruct (l !! (i + 1)%nat) as [c|], (l' !! (i + 1)%nat) as [d|]; try done.
  destruct H2 as [->|(s & s' & -> & ->)]; [done|]. by destruct (negb _).
Qed.

Lemma skipped_shape l l' i : same_shape l l' → skipped stream_to_string l i = skipped stream_to_string l' i.
Proof.
  intros Hs%(window_shape _ _ i). unfold skipped, has_marker_before, is_const_function.
  by rewrite !(existsb_shape _ (window l i) (window l' i)) by done.
Qed.

Lemma body_loop_shape l l' offset depth minus : same_shape l l' → body_loop l offset depth minus = body_loop l' offset depth minus.
Proof.
  intros Hs. revert offset depth minus. induction Hs as [|a b l l' Hab _ IH]; intros offset depth minus; cbn; [done|].
  rewrite !(same_token_test (is_punct _) a b), (same_token_test (is_group Brace) a b) by done. by rewrite IH.
Qed.

Lemma function_body_shape l l' i : same_shape l l' → function_body_index l i = function_body_index l' i.
Proof. intros Hs. unfold function_body_index. by rewrite (body_loop_shape _ (drop (i + 2) l')) by by apply Forall2_drop. Qed.

Lemma body_loop_brace l offset depth minus b : body_loop l offset depth minus = Some b →
  ∃ s, (offset ≤ b)%nat ∧ l !! (b - offset)%nat = Some (Group Brace s).
Proof.
  revert offset depth minus. induction l as [|t l IH]; intros offset depth minus; cbn [body_loop]; [done|].
  destruct (is_punct 59 t); [done|]. destruct (is_group Brace t && Nat.eqb depth 0) eqn:Hg.
  - intros [= <-]. apply andb_true_iff in Hg as [(s & ->)%is_group_spec _]. exists s. by rewrite Nat.sub_diag.
  - intros (s & Hle & Hs)%IH. exists s. split; [lia|]. by replace (b - offset)%nat with (S (b - S offset)) by lia.
Qed.

Lemma function_body_brace tokens i b : function_body_index tokens i = Some b → ∃ s, tokens !! b = Some (Group Brace s).
Proof.
  unfold function_body_index. intros (o & (s & _ & Hs)%body_loop_brace & ->)%fmap_Some_1. exists s.
  rewrite lookup_drop in Hs. by replace (i + 2 + o)%nat with (i + 2 + (o - 0))%nat by lia.
Qed.

Lemma with_hooks_shape hooks tokens : same_shape tokens (with_hooks hooks tokens).
Proof.
  unfold with_hooks. apply Forall2_same_length_lookup_2; [by rewrite length_imap|]. intros i a b Ha. rewrite list_lookup_imap, Ha.
  intros [= <-]. destruct a as [[]| | |]; try (by left). right. eauto.
Qed.

Lemma with_hooks_ext h h' tokens : (∀ b s, tokens !! b = Some (Group Brace s) → h b = h' b) → with_hooks h tokens = with_hooks h' tokens.
Proof.
  intros He. apply list_eq. intros b. unfold with_hooks. rewrite !list_lookup_imap. destruct (tokens !! b) as [t|] eqn:Ht; [|done].
  cbn. destruct t as [[] s| | |]; try done. by rewrite (He b s).
Qed.

Lemma hooks_at_cons context tokens i indices b :
  hooks_at context tokens (i :: indices) b =
  (if negb (skipped stream_to_string tokens i) && bool_decide (function_body_index tokens i = Some b) then hook_of context tokens i else [])
    ++ hooks_at context tokens indices b.
Proof. unfold hooks_at, bodies_at. cbn [List.filter]. by destruct (_ && _). Qed.

Lemma instrument_indices context tokens indices :
  fold_left (instrument_function printable stream_to_string context) (rev indices) tokens =
  with_hooks (hooks_at context tokens indices) tokens.
Proof.
  induction indices as [|i indices IH]; cbn [rev].
  { cbn. unfold with_hooks. apply list_eq. intros b. rewrite list_lookup_imap. destruct (tokens !! b) as [t|]; [|done]. by destruct t as [[]| | |]. }
  rewrite fold_left_app. cbn [fold_left]. rewrite IH. set (h := hooks_at context tokens indices).
  pose proof (with_hooks_shape h tokens) as Hs. unfold instrument_function.
  rewrite <- (skipped_shape _ _ i Hs), <- (function_name_shape _ _ i Hs), <- (function_body_shape _ _ i Hs).
  destruct (skipped stream_to_string tokens i) eqn:Hk.
  { apply with_hooks_ext. intros b s _. by rewrite hooks_at_cons, Hk. }
  destruct (function_name tokens i) as [name|] eqn:Hn.
  2:{ apply with_hooks_ext. intros b s _. rewrite hooks_at_cons. unfold hook_of. rewrite Hn. by destruct (_ && _). }
  destruct (function_body_index tokens i) as [b|] eqn:Hb.
  2:{ apply with_hooks_ext. intros b s _. by rewrite hooks_at_cons, Hk, Hb. }
  destruct (function_body_brace _ _ _ Hb) as (s & Hs').
  assert (with_hooks h tokens !! b = Some (Group Brace (h b ++ s))) as Hat by (unfold with_hooks; by rewrite list_lookup_imap, Hs').
  rewrite Hat. apply list_eq. intros b'. unfold with_hooks at 2. rewrite list_lookup_imap.
  destruct (decide (b' = b)) as [->|Hne].
  - rewrite list_lookup_insert_eq by (by eapply lookup_lt_Some). rewrite Hs'. cbn -[hooks_at hook app]. rewrite hooks_at_cons, Hk, Hb, bool_decide_eq_true_2 by done.
    unfold hook_of. change (negb false && true) with true. cbv iota. rewrite Hn. by rewrite app_assoc.
  - rewrite list_lookup_insert_ne by done. unfold with_hooks. rewrite list_lookup_imap. destruct (tokens !! b') as [t|]; [|done].
    cbn -[hooks_at hook app]. destruct t as [[] s'| | |]; try done. rewrite hooks_at_cons, Hk, Hb, bool_decide_eq_false_2 by congruence. by rewrite andb_false_r.
Qed.

Lemma transform_tree_brace context stream :
  transform_tree printable stream_to_string context (Group Brace stream) = Group Brace (transform_scope printable stream_to_string stream context).
Proof.
  cbn [transform_tree]. unfold transform_scope. do 2 f_equal.
  assert (∀ l k, (fix scan (index : nat) (l : list TokenTree) : list TokenTree :=
      match l with
      | [] => []
      | t :: l => transform_tree printable stream_to_string (or_else (scope_context stream_to_string stream index) context) t :: scan (S index) l
      end) k l =
    imap (λ i t, transform_tree printable stream_to_string (or_else (scope_context stream_to_string stream (k + i)) context) t) l) as H.
  { induction l as [|t l IH]; intros k; cbn; [done|]. rewrite Nat.add_0_r, IH. f_equal. apply imap_ext. intros i x _. cbn. by rewrite Nat.add_succ_r. }
  rewrite H. done.
Qed.

Lemma hooks_at_shape context l l' indices b : same_shape l l' → hooks_at context l indices b = hooks_at context l' indices b.
Proof.
  intros Hs. unfold hooks_at, bodies_at. induction indices as [|i indices IH]; cbn [List.filter]; [done|].
  rewrite (skipped_shape _ _ i Hs), (function_body_shape _ _ i Hs). destruct (_ && _); [|done]. cbn. rewrite IH. f_equal.
  unfold hook_of. by rewrite (function_name_shape _ _ i Hs).
Qed.

Lemma function_indices_shape l l' : same_shape l l' → function_indices l = function_indices l'.
Proof.
  intros Hs. unfold function_indices. rewrite (Forall2_length _ _ _ Hs). apply List.filter_ext. intros i.
  by rewrite (function_name_shape _ _ i Hs).
Qed.

(** The macro is one pass over the original tokens: at every depth of
    braces the transformed scope has the same tokens at the same places, and
    each braced group becomes its own transformation (in the context of the
    impl or trait it belongs to, or the inherited one) behind the hooks of
    exactly those functions of the scope whose body it is and that are neither
    marked nor const, named after the function and its context; the order in
    which the loop rewrites the bodies plays no role. *)
Lemma transform_scope_one_pass (stream : list TokenTree) (context : option str) :
  transform_scope printable stream_to_string stream context =
  imap (λ b t,
    match t with
    | Group Brace s =>
      Group Brace (hooks_at context stream (function_indices stream) b ++
        transform_scope printable stream_to_string s (or_else (scope_context stream_to_string stream b) context))
    | t => t
    end) stream.
Proof.
  unfold transform_scope at 1, instrument_scope.
  set (tokens := imap _ stream).
  assert (same_shape stream tokens) as Hs.
  { apply Forall2_same_length_lookup_2; [unfold tokens; by rewrite length_imap|]. intros i a b Ha. unfold tokens. rewrite list_lookup_imap, Ha.
    intros [= <-]. destruct a as [[]| | |]; try (by left). right. rewrite transform_tree_brace. eauto. }
  rewrite instrument_indices, <- (function_indices_shape _ _ Hs). unfold with_hooks, tokens.
  apply list_eq. intros b. rewrite !list_lookup_imap. destruct (stream !! b) as [t|]; [|done]. cbn -[hooks_at].
  destruct t as [[] s| | |]; try done. rewrite transform_tree_brace. by rewrite <- (hooks_at_shape _ _ _ _ _ Hs).
Qed.
End properties.

(** ** Path literals *)

Definition is_scalar (c : char) : Prop := 0 ≤ c < 0xd800 ∨ 0xe000 ≤ c ≤ 0x10ffff.

Lemma hex_digit_value d : 0 ≤ d < 16 → hex_digit (if d <? 10 then 48 + d else 87 + d) = Some d.
Proof.
  intros Hd. unfold hex_digit. destruct (Z.ltb_spec d 10).
  - rewrite (proj2 (Z.leb_le 48 (48 + d))), (proj2 (Z.leb_le (48 + d) 57)) by lia. cbn [andb]. f_equal. lia.
  - rewrite (proj2 (Z.leb_gt (87 + d) 57)), andb_false_r, (proj2 (Z.leb_le 97 (87 + d))), (proj2 (Z.leb_le (87 + d) 102)) by lia.
    cbn [andb]. f_equal. lia.
Qed.

Lemma hex_digits_radix fuel n rest : (0 < fuel)%nat → 0 ≤ n < 16 ^ Z.of_nat fuel → n < 2 ^ 32 →
  radix16 0 (rev (hex_digits fuel n) ++ rest) = radix16 n rest.
Proof.
  revert n rest. induction fuel as [|fuel IH]; intros n rest Hf Hn Hb; [lia|].
  rewrite Nat2Z.inj_succ, Z.pow_succ_r in Hn by lia. cbn [hex_digits rev].
  assert (∀ acc, acc * 16 + n mod 16 = n →
    radix16 acc ([if n mod 16 <? 10 then 48 + n mod 16 else 87 + n mod 16] ++ rest) = radix16 n rest) as Hd.
  { intros acc Ha. cbn [radix16 app]. rewrite hex_digit_value by (apply Z.mod_pos_bound; lia). cbn [mbind option_bind].
    by rewrite Ha, (proj2 (Z.ltb_lt _ _)). }
  pose proof (Z.div_mod n 16 ltac:(lia)) as Hdm. pose proof (Z.mod_pos_bound n 16 ltac:(lia)) as Hm.
  destruct (Z.eqb_spec (n / 16) 0) as [Hz|Hz]; [apply Hd; lia|].
  assert (0 < n / 16) by (pose proof (Z.div_pos n 16); lia).
  assert (n / 16 < 16 ^ Z.of_nat fuel) by (apply Z.div_lt_upper_bound; lia).
  destruct fuel as [|fuel]; [cbn in *; lia|]. rewrite <- app_assoc, IH by lia. apply Hd. lia.
Qed.

Lemma hex_digits_plain fuel n : 0 ≤ n → Forall (λ c, c ≠ 125 ∧ c ≠ 95 ∧ c ≠ 43) (hex_digits fuel n).
Proof.
  revert n. induction fuel as [|fuel IH]; intros n Hn; cbn [hex_digits]; [constructor|].
  pose proof (Z.mod_pos_bound n 16 ltac:(lia)) as Hm. constructor.
  - destruct (Z.ltb_spec (n mod 16) 10); lia.
  - destruct (n / 16 =? 0); [constructor|]. apply IH. apply Z.div_pos; lia.
Qed.

Lemma unicode_digits_spec s rest acc : Forall (λ c, c ≠ 125 ∧ c ≠ 95 ∧ c ≠ 43) s → unicode_digits (s ++ 125 :: rest) acc = Some (acc ++ s, rest).
Proof.
  intros Hs. revert acc. induction Hs as [|c s (H1 & H2 & _) _ IH]; intros acc; cbn; [by rewrite app_nil_r|].
  rewrite (proj2 (Z.eqb_neq c 125) H1), (proj2 (Z.eqb_neq c 95) H2), IH. by rewrite <- app_assoc.
Qed.

Lemma radix_digits n : 0 ≤ n < 16 ^ 6 → from_str_radix16 (rev (hex_digits 6 n)) = Some n.
Proof.
  intros Hn. pose proof (hex_digits_radix 6 n [] ltac:(lia) ltac:(cbn; lia) ltac:(lia)) as Hr. rewrite app_nil_r in Hr.
  pose proof (hex_digits_plain 6 n ltac:(lia)) as Hp. apply Forall_rev in Hp.
  assert (rev (hex_digits 6 n) ≠ []) as Hne by (intros Hz%(f_equal (@rev Z)); rewrite rev_involutive in Hz; done).
  destruct (rev (hex_digits 6 n)) as [|c rest]; [done|]. apply Forall_cons in Hp as [(_ & _ & Hc) _].
  unfold from_str_radix16. by rewrite (proj2 (Z.eqb_neq c 43) Hc).
Qed.

Section literals.
Context (printable : char → bool).

(** One round of the loop undoes [{:?}] of one character. *)
Lemma decode_step fuel c rest acc : is_scalar c →
  decode_loop (S fuel) (debug_char printable c ++ rest) acc = decode_loop fuel rest (acc ++ [c]).
Proof.
  intros Hc. unfold debug_char.
  destruct (Z.eqb_spec c 0) as [->|H0]; [done|]. destruct (Z.eqb_spec c 9) as [->|H9]; [done|].
  destruct (Z.eqb_spec c 10) as [->|H10]; [done|]. destruct (Z.eqb_spec c 13) as [->|H13]; [done|].
  destruct (Z.eqb_spec c 34) as [->|H34]; [done|]. destruct (Z.eqb_spec c 92) as [->|H92]; [done|].
  destruct (printable c).
  - cbn [app decode_loop]. by rewrite (proj2 (Z.eqb_neq c 92) H92).
  - assert (0 ≤ c ≤ 0x10ffff) as Hb by (destruct Hc; lia).
    cbn [app decode_loop Z.eqb negb Pos.eqb]. rewrite <- app_assoc. cbn [app].
    rewrite unicode_digits_spec by (apply Forall_rev, hex_digits_plain; lia). cbn [mbind option_bind app].
    rewrite radix_digits by lia. cbn [mbind option_bind]. unfold from_u32.
    destruct (Z.ltb_spec c 0xd800); [done|]. rewrite (proj2 (Z.leb_le 0xe000 c)), (proj2 (Z.leb_le c _)) by (destruct Hc; lia). done.
Qed.

Lemma decode_chars s fuel acc : Forall is_scalar s → (length s < fuel)%nat →
  decode_loop fuel (List.concat (debug_char printable <$> s)) acc = Some (acc ++ s).
Proof.
  intros Hs. revert fuel acc. induction Hs as [|c s Hc _ IH]; intros fuel acc Hf; cbn [length] in Hf; (destruct fuel as [|fuel]; [lia|]).
  - cbn. by rewrite app_nil_r.
  - cbn [fmap list_fmap List.concat]. rewrite decode_step by done. rewrite IH by lia. by rewrite <- app_assoc.
Qed.

Lemma debug_chars_length s : (length s ≤ length (List.concat (debug_char printable <$> s)))%nat.
Proof.
  induction s as [|c s IH]; [done|]. cbn [fmap list_fmap List.concat length]. rewrite length_app.
  assert (1 ≤ length (debug_char printable c))%nat; [|lia]. unfold debug_char. repeat case_match; cbn; lia.
Qed.

(** A path that the macro writes as a string literal is read back by
    [decode_string_literal] as the same path, whatever characters it has; so a
    generated [#\[path\]] attribute or an absolute include is never rewritten
    again. *)
Theorem decode_debug_str (s : str) : Forall is_scalar s → decode_string_literal (debug_str printable s) = Some s.
Proof.
  intros Hs. unfold decode_string_literal, debug_str. set (body := List.concat _).
  assert (strip_suffix [34] (body ++ [34]) = Some body) as Hsuf.
  { unfold strip_suffix. rewrite rev_app_distr. cbn [rev app strip_prefix]. cbn. by rewrite rev_involutive. }
  change (starts_with [114] ([34] ++ body ++ [34])) with false. cbv iota.
  change (strip_prefix [34] ([34] ++ body ++ [34])) with (Some (body ++ [34])). cbn [mbind option_bind].
  rewrite Hsuf. cbn [mbind option_bind]. apply (decode_chars s _ []); [done|].
  pose proof (debug_chars_length s). fold body in H. lia.
Qed.
End literals.

(** A path with a space, an accent, a quote, a control character and a backslash. *)
Lemma decode_debug_str_witness :
  decode_string_literal (debug_str (λ c, (32 <=? c) && (c <? 127)) [47; 32; 0xe9; 34; 7; 92; 0x1f600]) = Some [47; 32; 0xe9; 34; 7; 92; 0x1f600].
Proof. apply (decode_debug_str (λ c, (32 <=? c) && (c <? 127))). repeat (constructor; [unfold is_scalar; lia|]). constructor. Defined.

(** ** The search for declarations ends *)

Fixpoint weight (t : TokenTree) : nat :=
  match t with Group _ s => S (fold_right (λ t n, (weight t + n)%nat) O s) | _ => 1%nat end.
Definition stream_weight (l : list TokenTree) : nat := fold_right (λ t n, (weight t + n)%nat) O l.

Lemma weight_drop l i t : l !! i = Some t → stream_weight (drop i l) = (weight t + stream_weight (drop (S i) l))%nat.
Proof. intros Hi. by rewrite (drop_S _ _ _ Hi). Qed.

Lemma weight_pos t : (1 ≤ weight t)%nat.
Proof. destruct t; cbn; lia. Qed.

Lemma weight_drop_le l i j : (i ≤ j)%nat → (stream_weight (drop j l) ≤ stream_weight (drop i l))%nat.
Proof.
  intros Hij. replace j with (i + (j - i))%nat by lia. rewrite <- drop_drop. generalize (drop i l) (j - i)%nat. clear.
  intros l n. revert l. induction n as [|n IH]; intros [|t l]; try done. cbn [drop].
  etransitivity; [apply IH|]. change (stream_weight (t :: l)) with (weight t + stream_weight l)%nat. lia.
Qed.

Lemma rposition_lt f l i : rposition f l = Some i → (i < length l)%nat.
Proof.
  revert i. induction l as [|t l IH]; intros i; cbn; [done|]. destruct (rposition f l) as [j|]; [intros [= <-]; specialize (IH j eq_refl); lia|].
  destruct (f t); [intros [= <-]; lia|done].
Qed.

Lemma item_start_le tokens index : (item_start tokens index ≤ index)%nat.
Proof.
  unfold item_start. destruct (rposition _ _) as [p|] eqn:Hp; [|lia]. apply rposition_lt in Hp. rewrite length_take in Hp. lia.
Qed.

Lemma skip_inner_le fuel start index tokens : (start ≤ index)%nat → (skip_inner_attributes fuel start index tokens ≤ index)%nat.
Proof.
  revert start. induction fuel as [|fuel IH]; intros start Hs; cbn [skip_inner_attributes]; [done|].
  destruct (Nat.ltb_spec (start + 2) index); [|done]. case_match; [apply IH; lia|done].
Qed.

Section resolve.
Context (printable : char → bool) (stream_to_string : list TokenTree → str) (is_file : str → bool).

(** A declaration is passed over, and what follows it stays. *)
Lemma resolve_declaration_drop dir name index tokens : (index + 2 < length tokens)%nat →
  let '(tokens', index') := resolve_declaration printable stream_to_string is_file dir name index tokens in
  drop index' tokens' = drop (index + 3) tokens.
Proof.
  intros Hl. unfold resolve_declaration. set (start := skip_inner_attributes _ _ _ _).
  assert (start ≤ index)%nat as Hs by apply skip_inner_le, item_start_le.
  destruct (existsb _ _).
  - unfold resolve_relative_module_path. rewrite app_assoc, drop_app.
    assert (length (take start tokens ++ (resolve_attribute printable dir <$> drop start (take index tokens))) = index) as Hlen.
    { rewrite length_app, length_take, length_fmap, length_drop, length_take. lia. }
    rewrite Hlen, drop_ge by lia. cbn [app]. rewrite drop_drop. f_equal. lia.
  - destruct (is_file _); [|done]. rewrite app_assoc, drop_app. 
    assert (length (take start tokens ++ path_attribute printable
      (if is_file (join dir (name ++ lit ".rs")) then join dir (name ++ lit ".rs") else join (join dir name) (lit "mod.rs"))) = (start + 2)%nat) as Hlen.
    { rewrite length_app, length_take. cbn. lia. }
    rewrite Hlen, drop_ge by lia. cbn [app]. rewrite drop_drop. f_equal. lia.
Qed.

Lemma resolve_loop_total fuel dir index tokens : (stream_weight (drop index tokens) < fuel)%nat →
  is_Some (resolve_loop printable stream_to_string is_file fuel dir index tokens).
Proof.
  revert dir index tokens. induction fuel as [|fuel IH]; intros dir index tokens Hf; [lia|]. cbn [resolve_loop].
  destruct (tokens !! index) as [t|] eqn:H0; [|by eexists]. destruct (tokens !! (index + 1)%nat) as [next|] eqn:H1; [|by eexists].
  pose proof (weight_pos t) as Ht. rewrite (weight_drop _ _ _ H0) in Hf.
  assert (is_Some (resolve_loop printable stream_to_string is_file fuel dir (S index) tokens)) as Hnext by (apply IH; lia).
  destruct (negb (is_ident "mod" t)); [done|]. destruct next as [|name| |]; try done.
  destruct (tokens !! (index + 2)%nat) as [third|] eqn:H2; [|done].
  pose proof (weight_drop_le tokens (S index) (index + 2) ltac:(lia)) as Hle. rewrite (weight_drop _ _ _ H2) in Hle.
  pose proof (weight_pos third). replace (S (index + 2)) with (index + 3)%nat in Hle by lia.
  assert (is_Some (if negb (is_punct 59 third) then resolve_loop printable stream_to_string is_file fuel dir (S index) tokens else
    let '(tokens, index) := resolve_declaration printable stream_to_string is_file dir name index tokens in
    resolve_loop printable stream_to_string is_file fuel dir index tokens)) as Hdecl.
  { destruct (negb _); [done|]. pose proof (resolve_declaration_drop dir name index tokens) as Hd.
    destruct (resolve_declaration _ _ _ _ _ _ _) as [tokens' index']. apply IH. rewrite Hd by (by eapply lookup_lt_Some). lia. }
  destruct third as [d s| | |]; try done.
  destruct (is_delimiter d Brace); [|apply IH; lia].
  destruct (IH (join dir name) O s) as [nested Hn]; [rewrite drop_0; cbn in Hle; unfold stream_weight in *; lia|].
  rewrite Hn. cbn [mbind option_bind]. apply IH. rewrite drop_insert_lt by lia. lia.
Qed.

(** The macro comes to an end on every source: the search for module
    declarations, which inserts attributes into the stream it walks and
    descends into inline modules, takes no more steps than the source has
    tokens, and so the generated module exists. *)
Theorem instrument_source_total (module_dir source_dir : str) (tokens : list TokenTree) :
  is_Some (instrument_source printable stream_to_string is_file (S (stream_weight tokens)) module_dir source_dir tokens).
Proof.
  unfold instrument_source. destruct (resolve_loop_total (S (stream_weight tokens)) module_dir 0 tokens) as [l ->]; [rewrite drop_0; lia|].
  by eexists.
Qed.
End resolve.
