(* ===== verification/ProfileItems.v ===== *)
(** * ProfileItems: what the attribute macro of [profile-macro/src/lib.rs] makes
    of items.

    The specification knows no positions: a scope is a list of functions, blocks
    and statements, written out as tokens, and the macro's result is given item
    by item. *)

From Stdlib Require Import String.
From S2P Require Import Prelude Text ProfileMacro.
Open Scope Z_scope.

(** ** Items *)

(** A function is its qualifiers and attributes, [fn], a name, a signature and a
    body; a block is any other head with a braced group, such as an [impl]; a
    statement ends in a semicolon.  A body is a list of items and what follows
    the last of them. *)
Inductive Item : Type :=
  | Fn (quals : list TokenTree) (name : str) (sig : list TokenTree) (items : list Item) (tail : list TokenTree)
  | Block (head : list TokenTree) (items : list Item) (tail : list TokenTree)
  | Stmt (tokens : list TokenTree) (joint : bool).

Fixpoint tokens_of (it : Item) : list TokenTree :=
  match it with
  | Fn quals name sig items tail =>
    quals ++ [Ident (lit "fn"); Ident name] ++ sig ++ [Group Brace (flat_map tokens_of items ++ tail)]
  | Block head items tail => head ++ [Group Brace (flat_map tokens_of items ++ tail)]
  | Stmt tokens joint => tokens ++ [Punct 59 joint]
  end.

(** Tokens between the ends of items. *)
Definition inside (t : TokenTree) : Prop := match t with Group Brace _ => False | Punct c _ => c ≠ 59 | _ => True end.

(** No function starts here: [fn] in front of a name. *)
Fixpoint names_fn (l : list TokenTree) : bool :=
  match l with
  | Ident s :: l' => (bool_decide (s = lit "fn") && match l' with Ident _ :: _ => true | _ => false end) || names_fn l'
  | _ :: l' => names_fn l'
  | [] => false
  end.

(** The rest of a signature inside [depth] angle brackets: an arrow closes none,
    and braces (the arguments of const generics) stand inside some. *)
Inductive signature : nat → list TokenTree → Prop :=
  | sig_end : signature 0 []
  | sig_plain d t l : inside t → (∀ c j, t = Punct c j → c ≠ 45 ∧ c ≠ 60 ∧ c ≠ 62) → signature d l → signature d (t :: l)
  | sig_arrow d j j' l : signature d l → signature d (Punct 45 j :: Punct 62 j' :: l)
  | sig_minus d j t l : inside t → (∀ c j, t = Punct c j → c ≠ 45 ∧ c ≠ 60 ∧ c ≠ 62) → signature d l → signature d (Punct 45 j :: t :: l)
  | sig_open d j l : signature (S d) l → signature d (Punct 60 j :: l)
  | sig_close d j l : signature d l → signature (S d) (Punct 62 j :: l)
  | sig_brace d s l : Forall inside s → signature (S d) l → signature (S d) (Group Brace s :: l).

Definition keyword (s : str) (t : TokenTree) : Prop := t = Ident s.

Inductive item_ok : Item → Prop :=
  | fn_ok quals name sig items tail :
      Forall (λ t, inside t ∧ ¬ keyword (lit "fn") t) quals → name ≠ lit "fn" →
      signature 0 sig → names_fn sig = false →
      (Forall inside sig ∨ Forall (λ t, ¬ keyword (lit "impl") t ∧ ¬ keyword (lit "trait") t) sig) →
      Forall item_ok items → Forall inside tail → item_ok (Fn quals name sig items tail)
  | block_ok head items tail :
      Forall inside head → names_fn head = false → Forall item_ok items → Forall inside tail → item_ok (Block head items tail)
  | stmt_ok tokens joint : Forall inside tokens → item_ok (Stmt tokens joint).

Lemma Item_nested (P : Item → Prop) :
  (∀ quals name sig items tail, Forall P items → P (Fn quals name sig items tail)) →
  (∀ head items tail, Forall P items → P (Block head items tail)) → (∀ tokens joint, P (Stmt tokens joint)) → ∀ it, P it.
Proof.
  intros HF HB HS. fix IH 1. intros [quals name sig items tail|head items tail|tokens joint]; [apply HF|apply HB|apply HS];
    induction items; constructor; auto.
Qed.

Section spec.
Context (printable : char → bool) (text_of : list TokenTree → str).

(** A function that is left alone: an attribute in front of it mentions
    [not_profiled] or [naked], or it is [const]. *)
Definition left_alone (quals : list TokenTree) : bool :=
  existsb (λ t, match t with
    | Group Bracket s => contains (lit "not_profiled") (text_of s) || contains (lit "naked") (text_of s)
    | Ident s => bool_decide (s = lit "const")
    | _ => false
    end) quals.

(** What a block adds to the names of its functions: the text of its head from
    [impl] or [trait] on, unless the head mentions [fn]. *)
Fixpoint from_impl (l : list TokenTree) : option (list TokenTree) :=
  match l with
  | [] => None
  | t :: l' => match t with
               | Ident s => if decide (s = lit "impl" ∨ s = lit "trait") then Some l else from_impl l'
               | _ => from_impl l'
               end
  end.
Definition block_context (head : list TokenTree) (outer : option str) : option str :=
  if existsb (λ t, match t with Ident s => bool_decide (s = lit "fn") | _ => false end) head then outer else
  match from_impl head with Some l => Some (text_of l) | None => outer end.

(** [#\[cfg(feature = "profiling")\] let _profile_guard =
    crate::profiling::enter(concat!(module_path!(), "::", "..."));] *)
Definition guard_statement (label : str) : list TokenTree :=
  let q s := Literal ([34] ++ lit s ++ [34]) in let i s := Ident (lit s) in let p c := Punct c false in
  [p 35; Group Bracket [i "cfg"; Group Parenthesis [i "feature"; p 61; q "profiling"]];
   i "let"; i "_profile_guard"; p 61;
   i "crate"; Punct 58 true; p 58; i "profiling"; Punct 58 true; p 58; i "enter";
   Group Parenthesis [i "concat"; p 33; Group Parenthesis
     [i "module_path"; p 33; Group Parenthesis []; p 44; q "::"; p 44; Literal (debug_str printable label)]];
   p 59]%string.

(** The items with their guards. *)
Fixpoint profiled (context : option str) (it : Item) : list TokenTree :=
  match it with
  | Fn quals name sig items tail =>
    let label := match context with Some c => c ++ lit "::" ++ name | None => name end in
    quals ++ [Ident (lit "fn"); Ident name] ++ sig ++
      [Group Brace ((if left_alone quals then [] else guard_statement label) ++ flat_map (profiled context) items ++ tail)]
  | Block head items tail => head ++ [Group Brace (flat_map (profiled (block_context head context)) items ++ tail)]
  | Stmt tokens joint => tokens ++ [Punct 59 joint]
  end.
End spec.

(** ** A scope is transformed item by item *)

Section transform.
Context (printable : char → bool) (text_of : list TokenTree → str).

Abbreviation transform := (transform_scope printable text_of) (only parsing).

(** What the function at [i] puts in front of the group at [b]. *)
Definition piece (context : option str) (l : list TokenTree) (b i : nat) : list TokenTree :=
  if negb (skipped text_of l i) && bool_decide (function_body_index l i = Some b) then hook_of printable context l i else [].

Lemma hooks_pieces context l b :
  hooks_at printable text_of context l (function_indices l) b = List.concat (piece context l b <$> seq 0 (length l)).
Proof.
  unfold function_indices. generalize (seq 0 (length l)). intros indices. induction indices as [|i indices IH]; [done|]. cbn [List.filter fmap list_fmap List.concat].
  rewrite <- IH. unfold piece, hook_of at 1. destruct (function_name l i) eqn:Hn; [rewrite hooks_at_cons; unfold hook_of at 1; by rewrite Hn|].
  by destruct (_ && _).
Qed.

(** The first part of a scope ends an item, and its functions find their bodies
    or semicolons in it. *)
Record ends_items (l : list TokenTree) : Prop := {
  ends_last : ∃ l' t, l = l' ++ [t] ∧ ends_item t = true;
  ends_bodies : ∀ i rest, is_Some (function_name l i) →
    body_loop (drop (i + 2) l ++ rest) 0 0 false = body_loop (drop (i + 2) l) 0 0 false;
}.

Section append.
Context (l1 l2 : list TokenTree) (Hl1 : ends_items l1).

Lemma rposition_app f (a b : list TokenTree) : rposition f (a ++ b) =
  match rposition f b with Some i => Some (length a + i)%nat | None => rposition f a end.
Proof.
  induction a as [|t a IH]; cbn [app rposition length Nat.add]; [by destruct (rposition f b)|].
  rewrite IH. by destruct (rposition f b).
Qed.

Lemma window_l i : (i ≤ length l1)%nat → window (l1 ++ l2) i = window l1 i.
Proof. intros Hi. unfold window, item_start. by rewrite take_app_le. Qed.

Lemma window_r i : window (l1 ++ l2) (length l1 + i) = window l2 i.
Proof.
  unfold window, item_start. rewrite take_app_add', rposition_app by done.
  destruct (rposition ends_item (take i l2)) as [p|].
  - rewrite <- Nat.add_succ_r. by rewrite drop_app_add'.
  - destruct (ends_last _ Hl1) as (l' & t & -> & Ht). rewrite rposition_app. cbn [rposition]. rewrite Ht.
    by rewrite Nat.add_0_r, drop_app_length' by (rewrite length_app; cbn; lia).
Qed.

Lemma lookup_app_add i : (l1 ++ l2) !! (length l1 + i)%nat = l2 !! i.
Proof. rewrite lookup_app_r by lia. f_equal. lia. Qed.

Lemma function_name_r i : function_name (l1 ++ l2) (length l1 + i) = function_name l2 i.
Proof. unfold function_name. by rewrite <- Nat.add_assoc, !lookup_app_add. Qed.

Lemma ends_not_fn t : ends_item t = true → is_ident "fn" t = false.
Proof. by destruct t. Qed.

Lemma function_name_l i : (i < length l1)%nat → function_name (l1 ++ l2) i = function_name l1 i.
Proof.
  intros Hi. unfold function_name. rewrite lookup_app_l by done.
  destruct (Nat.eq_dec (i + 1) (length l1)) as [He|He]; [|by rewrite lookup_app_l by lia].
  destruct (ends_last _ Hl1) as (l' & t & -> & Ht%ends_not_fn). rewrite length_app in He. cbn in He.
  rewrite (list_lookup_middle l' [] t i) by lia. by rewrite Ht.
Qed.

Lemma function_name_room l i nm : function_name l i = Some nm → (i + 2 ≤ length l)%nat.
Proof.
  unfold function_name. destruct (l !! i); [|done]. destruct (negb _); [done|].
  destruct (l !! (i + 1)%nat) as [t'|] eqn:Ht; [|done]. apply lookup_lt_Some in Ht. lia.
Qed.

Lemma body_l i : is_Some (function_name l1 i) → function_body_index (l1 ++ l2) i = function_body_index l1 i.
Proof.
  intros Hn. unfold function_body_index. destruct Hn as [nm Hn]. pose proof (function_name_room _ _ _ Hn).
  rewrite drop_app_le by lia. by rewrite (ends_bodies _ Hl1) by eauto.
Qed.

Lemma body_r i : function_body_index (l1 ++ l2) (length l1 + i) = (λ b, (length l1 + b)%nat) <$> function_body_index l2 i.
Proof.
  unfold function_body_index. rewrite <- Nat.add_assoc, drop_app_add', <- option_fmap_compose by done.
  apply option_fmap_ext. intros b. cbn. lia.
Qed.

Lemma body_in l i b : function_body_index l i = Some b → (b < length l)%nat ∧ (i < b)%nat.
Proof.
  intros Hb. destruct (function_body_brace _ _ _ Hb) as (s & Hs). split; [by eapply lookup_lt_Some|].
  unfold function_body_index in Hb. apply fmap_Some_1 in Hb as (o & _ & ->). lia.
Qed.

Lemma piece_ll context i b : (i < length l1)%nat → (b < length l1)%nat → piece context (l1 ++ l2) b i = piece context l1 b i.
Proof.
  intros Hi Hb. unfold piece, hook_of, skipped, has_marker_before, is_const_function. rewrite window_l, function_name_l by lia.
  destruct (function_name l1 i) eqn:Hn; [rewrite body_l by (by eexists); done|]. by destruct (_ && _), (_ && _).
Qed.

Lemma piece_rl context i b : (b < length l1)%nat → piece context (l1 ++ l2) b (length l1 + i) = [].
Proof.
  intros Hb. unfold piece. rewrite bool_decide_eq_false_2; [by rewrite andb_false_r|]. intros [_ ?]%body_in. lia.
Qed.

Lemma piece_lr context i b : (i < length l1)%nat → piece context (l1 ++ l2) (length l1 + b) i = [].
Proof.
  intros Hi. unfold piece, hook_of. rewrite function_name_l by done. destruct (function_name l1 i) eqn:Hn; [|by destruct (_ && _)].
  rewrite body_l by (by eexists). rewrite bool_decide_eq_false_2; [by rewrite andb_false_r|]. intros [? _]%body_in. lia.
Qed.

Lemma piece_rr context i b : piece context (l1 ++ l2) (length l1 + b) (length l1 + i) = piece context l2 b i.
Proof.
  unfold piece, hook_of, skipped, has_marker_before, is_const_function. rewrite window_r, function_name_r, body_r.
  replace (bool_decide (_ <$> function_body_index l2 i = Some (length l1 + b)%nat)) with (bool_decide (function_body_index l2 i = Some b)); [done|].
  apply bool_decide_ext. destruct (function_body_index l2 i) as [c|]; cbn; [|done].
  split; [by intros [= ->]|]. intros [= Hc]. f_equal. lia.
Qed.

Lemma concat_nil {A} (f : nat → list A) l : (∀ i, i ∈ l → f i = []) → List.concat (f <$> l) = [].
Proof. intros Hf. induction l as [|i l IH]; [done|]. cbn. rewrite (Hf i) by (by left). apply IH. intros j Hj. apply Hf. by right. Qed.

Lemma concat_ext {A} (f g : nat → list A) l : (∀ i, i ∈ l → f i = g i) → List.concat (f <$> l) = List.concat (g <$> l).
Proof. intros Hf. f_equal. apply list_fmap_ext. intros i x Hx. apply Hf. by eapply list_elem_of_lookup_2. Qed.

Lemma hooks_l context b : (b < length l1)%nat →
  hooks_at printable text_of context (l1 ++ l2) (function_indices (l1 ++ l2)) b = hooks_at printable text_of context l1 (function_indices l1) b.
Proof.
  intros Hb. rewrite !hooks_pieces, length_app, seq_app, fmap_app, List.concat_app.
  rewrite (concat_nil _ (seq (0 + length l1) (length l2))), app_nil_r.
  - apply concat_ext. intros i Hi%elem_of_seq. apply piece_ll; lia.
  - intros i Hi%elem_of_seq. replace i with (length l1 + (i - length l1))%nat by lia. by apply piece_rl.
Qed.

Lemma hooks_r context b :
  hooks_at printable text_of context (l1 ++ l2) (function_indices (l1 ++ l2)) (length l1 + b) =
  hooks_at printable text_of context l2 (function_indices l2) b.
Proof.
  rewrite !hooks_pieces, length_app, seq_app, fmap_app, List.concat_app. cbn [Nat.add].
  rewrite (concat_nil _ (seq 0 _)) by (intros i Hi%elem_of_seq; apply piece_lr; lia). cbn [app].
  replace (seq (length l1) (length l2)) with ((λ i, (length l1 + i)%nat) <$> seq 0 (length l2)) by (rewrite fmap_add_seq; f_equal; lia).
  rewrite <- list_fmap_compose. apply concat_ext. intros i _. apply piece_rr.
Qed.

Lemma transform_app context : transform (l1 ++ l2) context = transform l1 context ++ transform l2 context.
Proof.
  rewrite !transform_scope_one_pass, imap_app. f_equal; apply imap_ext; intros b t Ht; cbn -[hooks_at]; destruct t as [[] s| | |]; try done.
  - apply lookup_lt_Some in Ht. unfold scope_context. by rewrite hooks_l, window_l by lia.
  - unfold scope_context. by rewrite hooks_r, window_r.
Qed.
End append.

(** ** Tokens of the three kinds of item *)

Lemma inside_ends t : inside t → ends_item t = false.
Proof. unfold ends_item. destruct t as [[] s|s|c j|s]; try done. intros Hc. cbn. by rewrite (proj2 (Z.eqb_neq c 59) Hc). Qed.

Lemma rposition_none f l : Forall (λ t, f t = false) l → rposition f l = None.
Proof. induction 1 as [|t l Ht _ IH]; [done|]. cbn. by rewrite IH, Ht. Qed.
Lemma position_none f l : Forall (λ t, f t = false) l → position f l = None.
Proof. induction 1 as [|t l Ht _ IH]; [done|]. cbn. by rewrite Ht, IH. Qed.

Lemma no_ends l : Forall inside l → rposition ends_item l = None.
Proof. intros H. apply rposition_none. eapply Forall_impl; [exact H|]. apply inside_ends. Qed.

(** Tokens without braces stay as they are. *)
Lemma imap_same (f : nat → TokenTree → TokenTree) l : (∀ b t, l !! b = Some t → f b t = t) → imap f l = l.
Proof. intros Hf. apply list_eq. intros b. rewrite list_lookup_imap. destruct (l !! b) as [t|] eqn:Ht; [|done]. cbn. by rewrite Hf. Qed.

Lemma transform_braceless l context : Forall (λ t, is_group Brace t = false) l → transform l context = l.
Proof.
  intros Hl. rewrite transform_scope_one_pass. apply imap_same. intros b t Ht. rewrite Forall_lookup in Hl. specialize (Hl b t Ht).
  by destruct t as [[] s| | |].
Qed.

Lemma transform_inside l context : Forall inside l → transform l context = l.
Proof.
  intros Hl. apply transform_braceless. eapply Forall_impl; [exact Hl|]. by intros t [_ H]%inside_ends%orb_false_iff.
Qed.

Lemma function_name_cons t l i : function_name (t :: l) (S i) = function_name l i.
Proof. done. Qed.

Lemma names_none l : names_fn l = false → ∀ i, function_name l i = None.
Proof.
  induction l as [|t l IH]; intros Hn i; [done|]. destruct i as [|i].
  - unfold function_name. cbn [lookup list_lookup Nat.add]. destruct t as [|s| |]; try done. cbn [names_fn is_ident] in *.
    apply orb_false_iff in Hn as [Hn _]. destruct (bool_decide _); [|done]. cbn [negb andb] in *. by destruct l as [|[] l].
  - rewrite function_name_cons. apply IH. destruct t; try done. cbn [names_fn] in Hn. by apply orb_false_iff in Hn as [_ ->].
Qed.

Lemma names_snoc l d s : names_fn (l ++ [Group d s]) = names_fn l.
Proof.
  induction l as [|t l IH]; [done|]. cbn [app names_fn]. rewrite IH. destruct t as [|x| |]; try done. by destruct l as [|[] l].
Qed.

(** The search for a body, in front of a semicolon and behind a signature. *)
Lemma body_stops l j rest : Forall inside l → ∀ offset depth minus, body_loop (l ++ Punct 59 j :: rest) offset depth minus = None.
Proof.
  induction 1 as [|t l Ht _ IH]; intros offset depth minus; [done|]. cbn [app body_loop].
  pose proof (inside_ends t Ht) as [H1 H2]%orb_false_iff. rewrite H1, H2. cbn [andb]. apply IH.
Qed.

Lemma signature_body d l : signature d l → ∀ s rest offset,
  body_loop (l ++ Group Brace s :: rest) offset d false = Some (offset + length l)%nat.
Proof.
  assert (Hp : ∀ t, inside t → (∀ c j, t = Punct c j → c ≠ 45 ∧ c ≠ 60 ∧ c ≠ 62) →
    is_punct 59 t = false ∧ is_group Brace t = false ∧ is_punct 60 t = false ∧ is_punct 62 t = false ∧ is_punct 45 t = false).
  { intros t Ht Hc. pose proof (inside_ends t Ht) as [H1 H2]%orb_false_iff. split_and!; [done|done|..];
      destruct t as [| |c j|]; try done; destruct (Hc c j eq_refl) as (? & ? & ?); by apply Z.eqb_neq. }
  induction 1 as [|d t l Ht Hc _ IH|d j j' l _ IH|d j t l Ht Hc _ IH|d j l _ IH|d j l _ IH|d s' l _ _ IH]; intros s rest offset;
    cbn [app body_loop length].
  - cbn. f_equal. lia.
  - destruct (Hp t Ht Hc) as (-> & -> & -> & -> & ->). cbn [andb]. rewrite IH. f_equal. lia.
  - cbn [is_punct Z.eqb Pos.eqb is_group andb negb Nat.eqb]. rewrite IH. f_equal. lia.
  - cbn [is_punct Z.eqb Pos.eqb is_group andb negb Nat.eqb]. destruct (Hp t Ht Hc) as (-> & -> & -> & -> & ->). cbn [andb]. rewrite IH. f_equal. lia.
  - cbn [is_punct Z.eqb Pos.eqb is_group andb negb Nat.eqb]. rewrite IH. f_equal. lia.
  - cbn [is_punct Z.eqb Pos.eqb is_group andb negb Nat.eqb Nat.pred]. rewrite IH. f_equal. lia.
  - cbn [is_punct Z.eqb Pos.eqb is_group is_delimiter andb negb Nat.eqb]. rewrite IH. f_equal. lia.
Qed.

(** A scope with one group at its end that matters. *)
Lemma transform_snoc l s context :
  (∀ b t, l !! b = Some t → inside t ∨ ∃ s', t = Group Brace s' ∧ Forall inside s' ∧
     hooks_at printable text_of context (l ++ [Group Brace s]) (function_indices (l ++ [Group Brace s])) b = []) →
  transform (l ++ [Group Brace s]) context = l ++ [Group Brace
    (hooks_at printable text_of context (l ++ [Group Brace s]) (function_indices (l ++ [Group Brace s])) (length l) ++
     transform s (or_else (scope_context text_of (l ++ [Group Brace s]) (length l)) context))].
Proof.
  intros Hl. rewrite transform_scope_one_pass at 1. rewrite imap_app. f_equal.
  - apply imap_same. intros b t Ht. destruct (Hl b t Ht) as [Hi|(s' & -> & Hs' & ->)]; [by destruct t as [[] s'| | |]|].
    cbn [app]. by rewrite transform_inside.
  - cbn [imap]. by rewrite Nat.add_0_r.
Qed.

Lemma stmt_ends tokens joint : Forall inside tokens → ends_items (tokens ++ [Punct 59 joint]).
Proof.
  intros Hl. split; [by eexists tokens, _|]. intros i rest [nm Hn].
  assert (i + 2 ≤ length tokens)%nat as Hi.
  { unfold function_name in Hn. destruct (_ !! i) as [t0|]; [|done]. destruct (negb _); [done|].
    destruct ((tokens ++ [Punct 59 joint]) !! (i + 1)%nat) as [t'|] eqn:Ht; [|done].
    apply lookup_snoc_Some in Ht as [[Hlt _]|[_ <-]]; [lia|done]. }
  rewrite drop_app_le by done. rewrite <- app_assoc. cbn [app]. by rewrite !body_stops by by apply Forall_drop.
Qed.

Lemma block_names head s : names_fn head = false → ∀ i, function_name (head ++ [Group Brace s]) i = None.
Proof. intros Hn. apply names_none. by rewrite names_snoc. Qed.

Lemma block_ends head s : names_fn head = false → ends_items (head ++ [Group Brace s]).
Proof. intros Hn. split; [by eexists head, _|]. intros i rest [nm Hi]. by rewrite block_names in Hi. Qed.

Lemma from_impl_position l : from_impl l = (λ o, drop o l) <$> position (λ t, is_ident "impl" t || is_ident "trait" t) l.
Proof.
  induction l as [|t l IH]; [done|]. cbn [from_impl position].
  assert (from_impl l = (λ o, drop o (t :: l)) <$> (S <$> position (λ t, is_ident "impl" t || is_ident "trait" t) l)) as Hn by (rewrite IH; by destruct (position _ l)).
  destruct t as [|s| |]; try exact Hn. unfold is_ident at 1 2. destruct (decide _) as [Hs|Hs].
  - assert (bool_decide (s = lit "impl") || bool_decide (s = lit "trait") = true) as ->; [|done].
    apply orb_true_iff. by rewrite !bool_decide_eq_true.
  - rewrite !bool_decide_eq_false_2 by tauto. exact Hn.
Qed.

Lemma block_transform head s context : Forall inside head → names_fn head = false →
  transform (head ++ [Group Brace s]) context = head ++ [Group Brace (transform s (block_context text_of head context))].
Proof.
  intros Hh Hn. rewrite transform_snoc; [|intros b t Ht; left; rewrite Forall_lookup in Hh; by eapply Hh].
  rewrite hooks_pieces, concat_nil by (intros i _; unfold piece, hook_of; rewrite block_names by done; by destruct (_ && _)).
  cbn [app]. do 4 f_equal. unfold scope_context, block_context, window, item_start. rewrite take_app_length, no_ends by done. rewrite drop_0.
  rewrite from_impl_position. unfold is_ident at 1. destruct (existsb _ head); [done|]. by destruct (position _ head).
Qed.

(** ** A function *)

Section function.
Context (quals : list TokenTree) (name : str) (sig body : list TokenTree).
Context (Hquals : Forall (λ t, inside t ∧ ¬ keyword (lit "fn") t) quals) (Hname : name ≠ lit "fn").
Context (Hsig : signature 0 sig) (Hnames : names_fn sig = false).

#[local] Abbreviation front := (quals ++ [Ident (lit "fn"); Ident name] ++ sig) (only parsing).
#[local] Abbreviation function := (front ++ [Group Brace body]) (only parsing).

Lemma function_assoc : function = quals ++ [Ident (lit "fn"); Ident name] ++ sig ++ [Group Brace body].
Proof. by rewrite <- !app_assoc. Qed.

Lemma quals_inside : Forall inside quals.
Proof. eapply Forall_impl; [exact Hquals|]. by intros t [? _]. Qed.

(** Only its own [fn] names a function. *)
Lemma function_fn i : function_name function i = if decide (i = length quals) then Some name else None.
Proof.
  rewrite function_assoc. revert i. induction Hquals as [|t q [Ht Hk] _ IH]; intros i.
  - destruct i as [|[|i]]; cbn [length decide]; [done| |].
    + unfold function_name. cbn [lookup list_lookup app is_ident]. by rewrite bool_decide_eq_false_2.
    + cbn [app]. rewrite !function_name_cons. apply names_none. by rewrite names_snoc.
  - destruct i as [|i]; cbn [length app].
    + unfold function_name. cbn [lookup list_lookup]. destruct (is_ident "fn" t) eqn:He; [|done].
      destruct t as [|s| |]; try done. cbn in He. apply bool_decide_eq_true in He as ->. by destruct Hk.
    + rewrite function_name_cons. change (q ++ _ :: _ :: sig ++ [Group Brace body]) with (q ++ [Ident (lit "fn"); Ident name] ++ sig ++ [Group Brace body]).
      rewrite IH by by eapply Forall_inv_tail. destruct (decide (i = length q)), (decide (S i = S (length q))); done || lia.
Qed.

Lemma function_rest : drop (length quals + 2) function = sig ++ [Group Brace body].
Proof. by rewrite function_assoc, drop_app_add'. Qed.

Lemma function_body : function_body_index function (length quals) = Some (length front).
Proof.
  unfold function_body_index. rewrite function_rest, signature_body by done. cbn. f_equal. rewrite !length_app. cbn. lia.
Qed.

Lemma function_ends : ends_items function.
Proof.
  split; [by eexists front, _|]. intros i rest [nm Hn]. rewrite function_fn in Hn. destruct (decide (i = length quals)) as [->|]; [|done].
  rewrite function_rest, <- app_assoc. cbn [app]. by rewrite !signature_body.
Qed.

Lemma existsb_or {A} (f g h : A → bool) l : existsb f l || existsb g l || existsb h l = existsb (λ a, f a || g a || h a) l.
Proof. induction l as [|a l IH]; [done|]. cbn [existsb]. rewrite <- IH. by destruct (f a), (g a), (h a), (existsb f l), (existsb g l), (existsb h l). Qed.

Lemma function_skipped : skipped text_of function (length quals) = left_alone text_of quals.
Proof.
  unfold skipped, has_marker_before, is_const_function, window, item_start.
  assert (take (length quals) function = quals) as -> by (rewrite function_assoc; apply take_app_length).
  rewrite no_ends, drop_0, existsb_or by apply quals_inside. unfold left_alone. clear. induction quals as [|t q IH]; [done|]. cbn [existsb].
  rewrite IH. f_equal. destruct t as [[] s| | |]; try done; cbn [is_marker is_ident]; by rewrite ?orb_false_r.
Qed.

(** Its guard stands in front of its body and nowhere else. *)
Lemma function_hooks context b : (b ≤ length front)%nat →
  hooks_at printable text_of context function (function_indices function) b =
  if decide (b = length front) then (if left_alone text_of quals then [] else hook printable (identity context name)) else [].
Proof.
  intros Hb. rewrite hooks_pieces. set (n := length quals).
  assert (length function = n + S (length sig + 2))%nat as -> by (unfold n; rewrite !length_app; cbn; lia).
  rewrite seq_app, fmap_app, List.concat_app. cbn [seq Nat.add fmap list_fmap List.concat].
  assert (∀ i, i ≠ n → piece context function b i = []) as Hnil.
  { intros i Hi. unfold piece, hook_of. rewrite function_fn, decide_False by done. by destruct (_ && _). }
  rewrite !concat_nil by (intros i Hi%elem_of_seq; apply Hnil; lia). rewrite app_nil_l, app_nil_r.
  unfold piece, hook_of. subst n. rewrite function_fn, decide_True, function_skipped, function_body by done.
  destruct (decide (b = length front)) as [->|Hne].
  - rewrite bool_decide_eq_true_2, andb_true_r by done. by destruct (left_alone _ _).
  - rewrite bool_decide_eq_false_2 by congruence. by rewrite andb_false_r.
Qed.

Lemma existsb_fn (l1 l2 : list TokenTree) : existsb (is_ident "fn") (l1 ++ [Ident (lit "fn"); Ident name] ++ l2) = true.
Proof. rewrite existsb_app. cbn [existsb app is_ident]. by rewrite bool_decide_eq_true_2, orb_true_r. Qed.

Lemma function_context : (Forall inside sig ∨ Forall (λ t, ¬ keyword (lit "impl") t ∧ ¬ keyword (lit "trait") t) sig) →
  scope_context text_of function (length front) = None.
Proof.
  intros Hs. unfold scope_context, window, item_start. rewrite take_app_length.
  assert (rposition ends_item (quals ++ [Ident (lit "fn"); Ident name]) = None) as Hfront.
  { rewrite rposition_app. cbn. by rewrite no_ends by apply quals_inside. }
  rewrite app_assoc, rposition_app, Hfront. destruct (rposition ends_item sig) as [p|] eqn:Hp.
  2:{ rewrite drop_0, <- app_assoc. by rewrite existsb_fn. }
  destruct Hs as [Hs|Hs]; [by rewrite no_ends in Hp|]. rewrite <- Nat.add_succ_r, drop_app_add' by done.
  destruct (existsb _ _); [done|]. rewrite position_none; [done|]. apply Forall_drop. eapply Forall_impl; [exact Hs|].
  intros t [H1 H2]. destruct t as [|s| |]; try done. cbn [is_ident].
  rewrite !bool_decide_eq_false_2; [done|intros ->; by apply H2|intros ->; by apply H1].
Qed.

(** Braces in a signature hold nothing that is rewritten. *)
Lemma signature_braces d l : signature d l → ∀ t, t ∈ l → inside t ∨ ∃ s, t = Group Brace s ∧ Forall inside s.
Proof.
  induction 1 as [|d t l Ht Hc _ IH|d j j' l _ IH|d j t l Ht Hc _ IH|d j l _ IH|d j l _ IH|d s l Hs _ IH]; intros x Hx;
    rewrite ?elem_of_cons in Hx; [by apply not_elem_of_nil in Hx|..]; destruct_or? Hx; subst; eauto; by left.
Qed.

Lemma function_transform context : (Forall inside sig ∨ Forall (λ t, ¬ keyword (lit "impl") t ∧ ¬ keyword (lit "trait") t) sig) →
  transform function context = front ++
    [Group Brace ((if left_alone text_of quals then [] else hook printable (identity context name)) ++ transform body context)].
Proof.
  intros Hs. rewrite transform_snoc.
  - rewrite function_hooks, decide_True, function_context by done. done.
  - intros b t Hb. pose proof (lookup_lt_Some _ _ _ Hb) as Hlt. rewrite function_hooks, decide_False by lia.
    apply list_elem_of_lookup_2 in Hb. rewrite !elem_of_app, !elem_of_cons in Hb. destruct Hb as [Hb|[[->|[->|Hb]]|Hb]]; [|by left|by left|by apply not_elem_of_nil in Hb|].
    + left. pose proof quals_inside as Hq. rewrite Forall_forall in Hq. by apply Hq.
    + destruct (signature_braces _ _ Hsig t Hb) as [?|(s & -> & Hi)]; [by left|right; by exists s].
Qed.
End function.

Lemma hook_guard context name : hook printable (identity context name) =
  guard_statement printable match context with Some c => c ++ lit "::" ++ name | None => name end.
Proof. by destruct context. Qed.

(** ** Items *)

Lemma items_transform items tail : Forall (λ it, item_ok it → ends_items (tokens_of it) ∧
    ∀ context, transform (tokens_of it) context = profiled printable text_of context it) items →
  Forall item_ok items → Forall inside tail → ∀ context,
  transform (flat_map tokens_of items ++ tail) context = flat_map (profiled printable text_of context) items ++ tail.
Proof.
  intros Hit Hok Htail context. induction Hok as [|it items Ho _ IH]; [by apply transform_inside|].
  apply Forall_cons in Hit as [Hi Hit]. destruct (Hi Ho) as [He Ht]. cbn [flat_map]. rewrite <- !app_assoc, transform_app by done.
  by rewrite Ht, IH.
Qed.

Lemma item_transform it : item_ok it → ends_items (tokens_of it) ∧
  ∀ context, transform (tokens_of it) context = profiled printable text_of context it.
Proof.
  induction it as [quals name sig items tail IH|head items tail IH|tokens joint] using Item_nested; intros Hok; cbn [tokens_of profiled].
  - inversion Hok as [? ? ? ? ? Hq Hn Hs Hf Hc Hi Ht| |]; subst. split.
    + rewrite <- function_assoc. by apply function_ends.
    + intros context. rewrite <- function_assoc, function_transform, items_transform by done. rewrite hook_guard. by rewrite <- !app_assoc.
  - inversion Hok as [|? ? ? Hh Hn Hi Ht|]; subst. split; [by apply block_ends|].
    intros context. by rewrite block_transform, items_transform by done.
  - inversion Hok; subst. split; [by apply stmt_ends|]. intros context. apply transform_braceless, Forall_app.
    split; [|by constructor]. eapply Forall_impl; [done|]. by intros t [_ H]%inside_ends%orb_false_iff.
Qed.
End transform.

(** C37. What [#\[profiled_module\]] makes of a source, item by item and at any
    depth of nesting: the body of every function begins with the statement that
    enters its guard, labelled with the function's name after the head of the
    [impl] or [trait] that encloses it most closely, unless an attribute of the
    function mentions [not_profiled] or [naked] or the function is [const];
    and nothing else changes: signatures (with arrows, nested generics and
    const-generic braces), attributes, statements and what follows the last item
    stay token for token.  The specification ([profiled]) works on items and has
    no positions; the code searches the token list backwards for where an item
    starts, forwards for the body, and patches bodies by index.  A source here
    is a list of functions, blocks and statements in which [fn] is no part of a
    function's qualifiers or of a block's head in front of a name, and in which a
    signature with braces mentions neither [impl] nor [trait]. *)
Theorem transform_items (printable : char → bool) (text_of : list TokenTree → str)
    (items : list Item) (tail : list TokenTree) (context : option str) :
  Forall item_ok items → Forall inside tail →
  transform_scope printable text_of (flat_map tokens_of items ++ tail) context =
  flat_map (profiled printable text_of context) items ++ tail.
Proof. intros Hok Ht. apply items_transform; [|done..]. apply Forall_true, item_transform. Qed.

(** ** An [impl] block with a method whose signature holds const-generic braces,
    an array and an arrow, and a [const], a [naked] and a [trait] function. *)
Definition demo_text (l : list TokenTree) : str :=
  flat_map (λ t, match t with Ident s => s ++ [32] | Punct c _ => [c; 32] | _ => [] end) l.

Definition demo_items : list Item :=
  let i s := Ident (lit s) in let p c := Punct c false in
  [Stmt [i "use"; i "core"] false;
   Block [i "impl"; p 60; i "T"; p 62; i "Table"]
     [Fn [i "pub"] (lit "get") [p 60; i "U"; p 62; Group Parenthesis [i "self"]; Punct 45 true; p 62; i "Row"; p 60; Group Brace [i "N"]; p 62]
        [Stmt [i "let"; i "x"] false; Fn [] (lit "inner") [Group Parenthesis []] [] []] [i "x"];
      Fn [i "pub"; i "const"] (lit "new") [Group Parenthesis []] [] [i "Self"];
      Fn [p 35; Group Bracket [i "naked"]] (lit "entry") [Group Parenthesis []] [Stmt [i "asm"] false] []] [];
   Block [i "trait"; i "Shape"] [Stmt [i "fn"; i "area"; Group Parenthesis [i "self"]] false; Fn [] (lit "name") [Group Parenthesis []] [] []] [];
   Fn [] (lit "main") [Group Parenthesis []] [Block [i "loop"] [] []] []]%string.

(** The labels of the guards of a stream, at any depth. *)
Fixpoint labels (t : TokenTree) : list str :=
  match t with Group _ s => flat_map labels s | Literal s => [s] | _ => [] end.
Definition guard_labels (l : list TokenTree) : list str :=
  filter (λ s, s ≠ debug_str (λ _, true) (lit "profiling") ∧ s ≠ debug_str (λ _, true) (lit "::")) (flat_map labels l).

Ltac solve_signature :=
  repeat first [apply sig_arrow | apply sig_open | apply sig_close | apply sig_brace; [by repeat constructor|] |
    apply sig_plain; [done|by intros c j [= <- <-]|] | apply sig_end].

Lemma demo_items_ok : Forall item_ok demo_items.
Proof.
  repeat first [apply Forall_cons; split | apply Forall_nil; done | apply fn_ok; [| |by solve_signature| | | |] | apply block_ok | apply stmt_ok | split].
  all: try done. all: try (left; by repeat constructor).
  right. by repeat constructor.
Qed.

Lemma transform_items_witness :
  Forall item_ok demo_items ∧ Forall inside [Ident (lit "x")] ∧
  transform_scope (λ _, true) demo_text (flat_map tokens_of demo_items ++ [Ident (lit "x")]) None =
    flat_map (profiled (λ _, true) demo_text None) demo_items ++ [Ident (lit "x")] ∧
  guard_labels (flat_map tokens_of demo_items) = [] ∧
  guard_labels (flat_map (profiled (λ _, true) demo_text None) demo_items) =
    debug_str (λ _, true) <$> [lit "impl < T > Table ::get"; lit "impl < T > Table ::inner"; lit "trait Shape ::name"; lit "main"].
Proof.
  split; [exact demo_items_ok|]. split; [by repeat constructor|]. split; [|split; by vm_compute].
  apply transform_items; [exact demo_items_ok|by repeat constructor].
Defined.
