(* ===== verification/ProfiledModule.v ===== *)
(** * ProfiledModule: [profiled_module] of [profile-macro/src/lib.rs], from the
    attribute to the generated file and the tokens that name it.

    The file system is a map from paths to contents; that it refuses a write, the
    parser of the compiler and its printing of streams are parameters. *)

From Stdlib Require Import String.
From S2P Require Import Prelude Text ProfileMacro.
Open Scope Z_scope.

(** ** Paths

    [std::path] on a Unix host, on the reversed string: a trailing separator and
    a trailing [/.] are no component. *)

Fixpoint trim_rev (r : str) : str :=
  match r with
  | c :: rest =>
    if c =? 47 then match rest with [] => r | _ => trim_rev rest end
    else match rest with
         | d :: rest' => if (c =? 46) && (d =? 47) then match rest' with [] => rest | _ => trim_rev rest' end else r
         | [] => r
         end
  | [] => []
  end.

(** The characters before a separator. *)
Fixpoint component_rev (r : str) : str :=
  match r with [] => [] | c :: r => if c =? 47 then [] else c :: component_rev r end.

Definition file_name (p : str) : option str :=
  let c := rev (component_rev (trim_rev (rev p))) in
  if bool_decide (c = [] ∨ c = [46] ∨ c = [46; 46]) then None else Some c.

Definition parent (p : str) : option str :=
  let r := trim_rev (rev p) in
  if bool_decide (r = [] ∨ r = [47]) then None else Some (rev (trim_rev (drop (List.length (component_rev r)) r))).

(** The name without what its last dot, unless it is the first character, begins. *)
Fixpoint before_dot (r : str) : option str :=
  match r with [] => None | c :: r => if c =? 46 then Some r else before_dot r end.
Definition file_stem (p : str) : option str :=
  name ← file_name p;
  match before_dot (rev name) with
  | Some (c :: r) => Some (rev (c :: r))
  | _ => Some name
  end.

(** [str::trim_matches] *)
Fixpoint trim_start_char (c : char) (s : str) : str :=
  match s with [] => [] | d :: s' => if d =? c then trim_start_char c s' else s end.
Definition trim_matches (c : char) (s : str) : str := rev (trim_start_char c (rev (trim_start_char c s))).

Definition is_ascii_alphanumeric (c : char) : bool :=
  ((48 <=? c) && (c <=? 57)) || ((65 <=? c) && (c <=? 90)) || ((97 <=? c) && (c <=? 122)).

(** ** The host *)

Record Host : Type := mkHost {
  files : gmap str str;
  GENERATED_MODULE_ID : Z;
}.

Section expansion.
Context (printable : char → bool) (stream_to_string : list TokenTree → str).
Context (manifest_dir : option str) (process_id : Z) (parse : str → list TokenTree + str).
Context (read_error : str → str) (create_dir_error write_error : str → option str).

Definition is_file (h : Host) (p : str) : bool := bool_decide (is_Some (files h !! p)).

(** [compile_error] *)
Definition compile_error (message : str) : list TokenTree :=
  [ident "compile_error"; punct 33; Group Parenthesis [Literal (debug_str printable message)]; punct 59].

Definition read_to_string (p : str) : M Host str str := λ h,
  (match files h !! p with Some s => Ok s | None => Err (lit "cannot read profiled module " ++ p ++ lit ": " ++ read_error p) end, h).
Definition write_file (p contents : str) : M Host str unit := λ h,
  match write_error p with
  | Some e => (Err (lit "cannot write generated module source: " ++ e), h)
  | None => (Ok tt, mkHost (<[p := contents]> (files h)) (GENERATED_MODULE_ID h))
  end.
Definition fetch_add_id : M Host str Z := λ h,
  (Ok (GENERATED_MODULE_ID h), mkHost (files h) ((GENERATED_MODULE_ID h + 1) mod U64_SIZE)).

(** The path that the attribute names: its first literal, if it is a string. *)
Definition source_path_literal (attribute : list TokenTree) : option str :=
  value ← head (omap (λ t, match t with Literal s => Some s | _ => None end) attribute);
  if bool_decide (head value = Some 34) && bool_decide (last value = Some 34) then Some value else None.

(** The directory of the module's own submodules, and that of its file. *)
Definition source_dir (manifest source_path : str) : str := from_option id manifest (parent source_path).
Definition module_dir (manifest source_path : str) : str :=
  if bool_decide (file_name source_path = Some (lit "mod.rs")) then source_dir manifest source_path
  else join (source_dir manifest source_path) (from_option id [] (file_stem source_path)).

(** [const _: &\[u8\] = include_bytes!("...");] *)
Definition dependency (source_path : str) : list TokenTree :=
  [ident "const"; ident "_"; punct 58; punct 38; Group Bracket [ident "u8"]; punct 61; ident "include_bytes"; punct 33;
   Group Parenthesis [Literal (debug_str printable source_path)]; punct 59].

Definition generated_name (relative_path : str) : str := map (λ c, if is_ascii_alphanumeric c then c else 95) relative_path.
Definition generated_path (manifest relative_path : str) (id : Z) : str :=
  join (join manifest (lit "target/profiled_modules"))
    (lit "profiled_" ++ generated_name relative_path ++ lit "_" ++ show_u64 process_id ++ lit "_" ++ show_u64 id).

Definition required {A} (o : option A) (message : str) : M Host str A := lift (ok_or o message).

(** The expansion; an error is the message of a diagnostic. *)
Definition expand (attribute item : list TokenTree) : M Host str (list TokenTree) :=
  path ← required (source_path_literal attribute)
    (lit "expected a source path string, e.g. #[profiled_module(" ++ [34] ++ lit "src/foo.rs" ++ [34] ++ lit ")]");
  let relative_path := trim_matches 34 path in
  manifest ← required manifest_dir (lit "CARGO_MANIFEST_DIR is unavailable");
  let source_path := join manifest relative_path in
  source ← read_to_string source_path;
  tokens ← lift (match parse source with inl tokens => Ok tokens | inr e => Err (lit "cannot parse profiled module: " ++ e) end);
  h ← get;
  source_tokens ← lift (expect (instrument_source printable stream_to_string (is_file h) (S (stream_weight tokens))
    (module_dir manifest source_path) (source_dir manifest source_path) tokens));
  let source_tokens := source_tokens ++ dependency source_path in
  let output := strip_path_attributes stream_to_string item in
  module_index ← required (position (is_ident "mod") output) (lit "#[profiled_module] must be applied to a module declaration");
  required (match output !! S module_index with Some (Ident _) => Some tt | _ => None end) (lit "could not read module name");;
  required (if existsb (is_punct 59) output then Some tt else None) (lit "#[profiled_module] expects an out-of-line module declaration");;
  lift (match create_dir_error (join manifest (lit "target/profiled_modules")) with
        | Some e => Err (lit "cannot create generated module directory: " ++ e) | None => Ok tt end);;
  generated_id ← fetch_add_id;
  let p := generated_path manifest relative_path generated_id in
  write_file p (stream_to_string source_tokens);;
  mret (path_attribute printable p ++ output).

(** [not_profiled] *)
Definition not_profiled (attribute item : list TokenTree) : list TokenTree := item.

(** [profiled_module] *)
Definition profiled_module (attribute item : list TokenTree) : M Host Empty_set (list TokenTree) := λ h,
  match expand attribute item h with
  | (Ok tokens, h) => (Ok tokens, h)
  | (Err message, h) => (Ok (compile_error message), h)
  | (Panic, h) => (Panic, h)
  end.

(** The declarations of a crate, expanded by one compiler process. *)
Fixpoint expand_all (declarations : list (list TokenTree * list TokenTree)) : M Host Empty_set (list (list TokenTree)) :=
  match declarations with
  | [] => mret []
  | (attribute, item) :: rest => out ← profiled_module attribute item; outs ← expand_all rest; mret (out :: outs)
  end.
End expansion.

(** ** Paths of this form *)

Example paths : file_name (lit "src/console/mod.rs") = Some (lit "mod.rs") ∧ parent (lit "src/console/mod.rs") = Some (lit "src/console") ∧
  file_stem (lit "src/boot.rs") = Some (lit "boot") ∧ parent (lit "boot.rs") = Some [] ∧ parent (lit "/") = None ∧
  parent (lit "/a") = Some (lit "/") ∧ file_name (lit "a/..") = None ∧ parent (lit "a/./b/") = Some (lit "a") ∧
  file_stem (lit "a/.rc") = Some (lit ".rc") ∧ trim_matches 34 [34; 97; 34; 34] = [97].
Proof. by vm_compute. Qed.

(** ** Generated paths tell the expansions apart *)

(** What is before the first [c]. *)
Fixpoint until (c : char) (s : str) : str := match s with [] => [] | d :: s => if d =? c then [] else d :: until c s end.

Lemma until_app c a b : Forall (λ d, d ≠ c) a → until c (a ++ c :: b) = a.
Proof.
  induction 1 as [|d a Hd _ IH]; cbn [until app]; [by rewrite Z.eqb_refl|]. by rewrite (proj2 (Z.eqb_neq _ _) Hd), IH.
Qed.

(** The digits behind the last separator are determined by the whole. *)
Lemma last_field a b s t : Forall (λ d, d ≠ 95) s → Forall (λ d, d ≠ 95) t → a ++ 95 :: s = b ++ 95 :: t → s = t.
Proof.
  intros Hs Ht Heq. apply (f_equal (λ l, until 95 (rev l))) in Heq. rewrite !rev_app_distr in Heq. cbn [rev] in Heq.
  rewrite <- !app_assoc in Heq. cbn [app] in Heq. rewrite !until_app in Heq by (by apply Forall_rev).
  by rewrite <- (rev_involutive s), <- (rev_involutive t), Heq.
Qed.

Lemma show_u64_inj i j : is_u64 i → is_u64 j → show_u64 i = show_u64 j → i = j.
Proof. intros Hi Hj Heq. rewrite <- (proj1 (show_u64_value i Hi)), Heq. by apply show_u64_value. Qed.

Lemma show_u64_plain i : is_u64 i → Forall (λ d, d ≠ 95) (show_u64 i).
Proof. intros Hi. destruct (show_u64_value i Hi) as (_ & Hd & _). eapply List.Forall_impl; [|exact Hd]. cbn. lia. Qed.

(** A relative path is put behind the directory. *)
Lemma join_relative base p : is_absolute p = false → ∃ q, join base p = q ++ p ∧ ∀ p', is_absolute p' = false → join base p' = q ++ p'.
Proof.
  unfold join. intros ->. destruct (last base) as [c|]; [destruct (c =? 47)|].
  - exists base. split; [done|]. by intros p' ->.
  - exists (base ++ [47]). rewrite <- app_assoc. split; [done|]. intros p' ->. by rewrite <- app_assoc.
  - exists []. split; [done|]. by intros p' ->.
Qed.

Section properties.
Context (printable : char → bool) (stream_to_string : list TokenTree → str).
Context (manifest_dir : option str) (process_id : Z) (parse : str → list TokenTree + str).
Context (read_error : str → str) (create_dir_error write_error : str → option str).

Abbreviation xp := (expand printable stream_to_string manifest_dir process_id parse read_error create_dir_error write_error).
Abbreviation xp_module := (profiled_module printable stream_to_string manifest_dir process_id parse read_error create_dir_error write_error).
Abbreviation xp_all := (expand_all printable stream_to_string manifest_dir process_id parse read_error create_dir_error write_error).

Lemma generated_path_inj manifest r r' i j : is_u64 i → is_u64 j →
  generated_path process_id manifest r i = generated_path process_id manifest r' j → i = j.
Proof.
  intros Hi Hj. unfold generated_path. set (out := join manifest _).
  assert (∀ s, is_absolute (lit "profiled_" ++ s) = false) as Hrel by done.
  destruct (join_relative out (lit "profiled_" ++ []) (Hrel [])) as (q & _ & Hq). rewrite !Hq by apply Hrel.
  rewrite !(app_assoc (show_u64 process_id)), !app_assoc. intros Heq.
  replace (lit "_") with [95] in Heq by done.
  rewrite <- (app_assoc _ [95] (show_u64 i)), <- (app_assoc _ [95] (show_u64 j)) in Heq.
  apply last_field in Heq; [by apply show_u64_inj|by apply show_u64_plain..].
Qed.

(** What a successful expansion writes, and where. *)
Record expanded (attribute item : list TokenTree) (h : Host) (out : list TokenTree) (p contents : str) : Prop := {
  expanded_out : out = path_attribute printable p ++ strip_path_attributes stream_to_string item;
  expanded_contents : ∃ literal manifest source tokens instrumented,
    source_path_literal attribute = Some literal ∧ manifest_dir = Some manifest ∧
    let source_path := join manifest (trim_matches 34 literal) in
    p = generated_path process_id manifest (trim_matches 34 literal) (GENERATED_MODULE_ID h) ∧
    files h !! source_path = Some source ∧ parse source = inl tokens ∧
    instrument_source printable stream_to_string (is_file h) (S (stream_weight tokens)) (module_dir manifest source_path)
      (source_dir manifest source_path) tokens = Some instrumented ∧
    contents = stream_to_string (instrumented ++ dependency printable source_path);
}.

Lemma required_ok {A} (o : option A) message h r h' : required o message h = (r, h') → h' = h ∧
  match o with Some a => r = Ok a | None => r = Err message end.
Proof. unfold required, lift. intros [= <- <-]. by destruct o. Qed.

(** An expansion changes nothing but its own file and the counter. *)
Lemma expand_cases attribute item h r h' : xp attribute item h = (r, h') →
  match r with
  | Ok out => ∃ p contents, expanded attribute item h out p contents ∧
      h' = mkHost (<[p := contents]> (files h)) ((GENERATED_MODULE_ID h + 1) mod U64_SIZE)
  | Err _ => files h' = files h ∧ (GENERATED_MODULE_ID h' = GENERATED_MODULE_ID h ∨ GENERATED_MODULE_ID h' = (GENERATED_MODULE_ID h + 1) mod U64_SIZE)
  | Panic => False
  end.
Proof.
  unfold expand. unfold mbind, M_bind, required, lift, get, read_to_string, write_file, fetch_add_id.
  destruct (source_path_literal attribute) as [literal|] eqn:Hl; cbn [ok_or]; [|intros [= <- <-]; auto].
  destruct manifest_dir as [manifest|] eqn:Hm; cbn [ok_or]; [|intros [= <- <-]; auto].
  set (source_path := join manifest _). destruct (files h !! source_path) as [source|] eqn:Hs; [|intros [= <- <-]; auto].
  destruct (parse source) as [tokens|e] eqn:Hp; [|intros [= <- <-]; auto].
  destruct (resolve_loop_total printable stream_to_string (is_file h) (S (stream_weight tokens)) (module_dir manifest source_path) 0 tokens) as [l Hres];
    [rewrite drop_0; lia|].
  destruct (instrument_source _ _ _ _ _ _ _) as [instrumented|] eqn:Hi; [|unfold instrument_source in Hi; by rewrite Hres in Hi]. cbn [expect].
  set (output := strip_path_attributes _ _). destruct (position _ output) as [index|]; cbn [ok_or]; [|intros [= <- <-]; auto].
  destruct (match output !! S index with Some (Ident _) => Some tt | _ => None end); cbn [ok_or]; [|intros [= <- <-]; auto].
  destruct (existsb _ output); cbn [ok_or]; [|intros [= <- <-]; auto].
  destruct (create_dir_error _); [intros [= <- <-]; auto|]. destruct (write_error _); [intros [= <- <-]; cbn; auto|].
  intros [= <- <-]. eexists _, _. split; [|reflexivity]. split; [done|]. exists literal, manifest, source, tokens, instrumented. by split_and!.
Qed.

(** A diagnostic, or a declaration with its file. *)
Lemma module_cases attribute item h : 0 ≤ GENERATED_MODULE_ID h → GENERATED_MODULE_ID h + 1 < U64_SIZE →
  ∃ out h', xp_module attribute item h = (Ok out, h') ∧
    GENERATED_MODULE_ID h ≤ GENERATED_MODULE_ID h' ≤ GENERATED_MODULE_ID h + 1 ∧
    ((∃ message, out = compile_error printable message) ∧ files h' = files h ∨
     ∃ p contents, expanded attribute item h out p contents ∧ files h' = <[p := contents]> (files h) ∧ GENERATED_MODULE_ID h' = GENERATED_MODULE_ID h + 1).
Proof.
  intros H0 H1. assert ((GENERATED_MODULE_ID h + 1) mod U64_SIZE = GENERATED_MODULE_ID h + 1) as Hmod by (apply Z.mod_small; lia).
  unfold profiled_module. destruct (xp attribute item h) as [r h'] eqn:Hx. apply expand_cases in Hx. rewrite Hmod in Hx. destruct r as [out|message|]; [| |done].
  - destruct Hx as (p & contents & Hp & ->). exists out. eexists. split; [reflexivity|]. cbn. split; [lia|]. right. exists p, contents. by split_and!.
  - destruct Hx as [Hf Hid]. exists (compile_error printable message), h'. split; [reflexivity|]. split; [lia|]. left. split; [by eexists|done].
Qed.

(** The generated file of an earlier expansion: later ones do not touch it, nor
    any path that is not of this form. *)
Definition earlier (n : Z) (p : str) : Prop :=
  ∀ manifest r j, manifest_dir = Some manifest → n ≤ j < U64_SIZE → p ≠ generated_path process_id manifest r j.

Lemma earlier_generated manifest r i n : manifest_dir = Some manifest → 0 ≤ i < n → n ≤ U64_SIZE → earlier n (generated_path process_id manifest r i).
Proof.
  intros Hm Hi Hn manifest' r' j Hm' Hj Heq. assert (manifest' = manifest) as -> by congruence.
  apply generated_path_inj in Heq; unfold is_u64; lia.
Qed.

(** C36. A crate's modules, expanded by one compiler process.  Every declaration
    ends in a diagnostic, and then nothing was written for it, or in its own
    tokens, without their path attributes, behind one that names a generated file;
    at the end that file holds the instrumented source of the module and a
    dependency on it, so no expansion overwrites another's, even of modules
    whose names differ only in punctuation.  Each module is read as it was when the
    build began, and nothing but generated files changes. *)
Theorem modules_kept declarations h : 0 ≤ GENERATED_MODULE_ID h → GENERATED_MODULE_ID h + Z.of_nat (length declarations) < U64_SIZE →
  ∃ outs h', xp_all declarations h = (Ok outs, h') ∧ length outs = length declarations ∧
    (∀ q, earlier (GENERATED_MODULE_ID h) q → files h' !! q = files h !! q) ∧
    ∀ k attribute item, declarations !! k = Some (attribute, item) → ∃ out, outs !! k = Some out ∧
      ((∃ message, out = compile_error printable message) ∨
       ∃ hk p contents, expanded attribute item hk out p contents ∧ files h' !! p = Some contents ∧
         ∀ q, earlier (GENERATED_MODULE_ID h) q → files hk !! q = files h !! q).
Proof.
  revert h. induction declarations as [|[attribute item] rest IH]; intros h H0 Hn; cbn [expand_all length] in *.
  { exists [], h. by split_and!. }
  rewrite Nat2Z.inj_succ in Hn. destruct (module_cases attribute item h H0 ltac:(lia)) as (out & h1 & Hr & Hid & Hcase).
  destruct (IH h1) as (outs & h' & Hrs & Hlen & Hkeep & Hall); [lia|lia|].
  unfold mbind, M_bind, mret, M_ret. rewrite Hr, Hrs. exists (out :: outs), h'. split; [reflexivity|]. split; [cbn; lia|].
  assert (∀ q, earlier (GENERATED_MODULE_ID h) q → earlier (GENERATED_MODULE_ID h1) q) as Hle by (intros q Hq m r j Hm Hj; apply Hq; [done|lia]).
  assert (∀ q, earlier (GENERATED_MODULE_ID h) q → files h1 !! q = files h !! q) as Hh1.
  { intros q Hq. destruct Hcase as [[_ ->]|(p & contents & [_ (l & m & src & tk & ins & _ & Hm & Hp & _)] & -> & _)]; [done|].
    apply lookup_insert_ne. intros ->. apply (Hq m (trim_matches 34 l) (GENERATED_MODULE_ID h) Hm); [lia|done]. }
  split; [intros q Hq; by rewrite Hkeep, Hh1 by auto|]. intros [|k] a it Hk; cbn in Hk |- *.
  - injection Hk as <- <-. exists out. split; [done|]. destruct Hcase as [[? _]|(p & contents & Hex & Hf & Hid1)]; [by left|right].
    exists h, p, contents. split; [done|]. split; [|done]. pose proof Hex as [_ (l & m & src & tk & ins & _ & Hm & Hp & _)].
    rewrite Hkeep, Hf; [by apply lookup_insert_eq|]. rewrite Hp. apply earlier_generated; [done|lia|lia].
  - destruct (Hall k a it Hk) as (o & Ho & [?|(hk & p & contents & Hex & Hf & Hq)]); exists o; (split; [done|]); [by left|right].
    exists hk, p, contents. split; [done|]. split; [done|]. intros q Hq'. rewrite Hq by auto. by apply Hh1.
Qed.
End properties.

(** ** Witness: two modules whose names the generated name does not tell apart *)

Definition demo_declaration (path : string) : list TokenTree * list TokenTree :=
  ([Literal ([34] ++ lit path ++ [34])], [ident "mod"; ident "a"; punct 59]).
Definition demo_host : Host := mkHost {[ lit "/w/src/a-b.rs" := lit "x"; lit "/w/src/a_b.rs" := lit "y" ]} 7.

Lemma modules_kept_witness : ∃ outs h',
  expand_all (λ _, true) (λ _, []) (Some (lit "/w")) 12 (λ s, inl [Ident s]) (λ _, []) (λ _, None) (λ _, None)
    [demo_declaration "src/a-b.rs"; demo_declaration "src/a_b.rs"] demo_host = (Ok outs, h') ∧ length outs = 2%nat ∧
  ∃ out, outs !! 1%nat = Some out.
Proof.
  destruct (modules_kept (λ _, true) (λ _, []) (Some (lit "/w")) 12 (λ s, inl [Ident s]) (λ _, []) (λ _, None) (λ _, None)
    [demo_declaration "src/a-b.rs"; demo_declaration "src/a_b.rs"] demo_host) as (outs & h' & Hr & Hl & _ & Hall); [cbn; lia|cbn; lia|].
  exists outs, h'. split; [exact Hr|]. split; [exact Hl|]. destruct (Hall 1%nat _ _ eq_refl) as (out & Ho & _). exists out. exact Ho.
Defined.

(** Their files. *)
Example demo_generated : ∃ outs h',
  expand_all (λ _, true) (λ _, []) (Some (lit "/w")) 12 (λ s, inl [Ident s]) (λ _, []) (λ _, None) (λ _, None)
    [demo_declaration "src/a-b.rs"; demo_declaration "src/a_b.rs"] demo_host = (Ok outs, h') ∧
  is_Some (files h' !! lit "/w/target/profiled_modules/profiled_src_a_b_rs_12_7") ∧
  is_Some (files h' !! lit "/w/target/profiled_modules/profiled_src_a_b_rs_12_8").
Proof. eexists _, _. split; [vm_compute; reflexivity|]. split; eexists; by vm_compute. Qed.
