(* ===== verification/Errors.v ===== *)
(** * Errors: how the errors of the boot sequence and the kinds of memory are
    printed: the derived [Debug] and the [Display] implementations of
    [src/memory.rs] and [src/paging.rs]. *)

From Stdlib Require Import String.
From S2P Require Import Prelude Memory Frame Heap Paging Text.

(** ** How errors are printed: the derived [Debug] *)

Definition debug_heap_error (e : HeapError) : str :=
  match e with
  | Heap.AlreadyInitialized => lit "AlreadyInitialized"
  | NoConventionalMemory => lit "NoConventionalMemory"
  | TooSmall => lit "TooSmall"
  | Heap.Misaligned => lit "Misaligned"
  | Heap.MemoryMapUnavailable => lit "MemoryMapUnavailable"
  | FrameAllocatorUnavailable => lit "FrameAllocatorUnavailable"
  | MemoryReservationFailed => lit "MemoryReservationFailed"
  end.

Definition debug_frame_error (e : FrameError) : str :=
  match e with
  | Frame.AlreadyInitialized => lit "AlreadyInitialized"
  | Frame.MemoryMapUnavailable => lit "MemoryMapUnavailable"
  | OutOfMemory => lit "OutOfMemory"
  | InvalidAddress => lit "InvalidAddress"
  | FreeRangeStorageFull => lit "FreeRangeStorageFull"
  end.

Definition debug_map_error (e : MemoryMapError) : str :=
  match e with
  | Memory.AlreadyInitialized => lit "AlreadyInitialized"
  | Memory.Empty => lit "Empty"
  | InvalidRange => lit "InvalidRange"
  | RangeNotFound => lit "RangeNotFound"
  | TooManyRanges => lit "TooManyRanges"
  | Memory.NotInitialized => lit "NotInitialized"
  end.

Definition debug_range_error (e : VirtualRangeError) : str :=
  match e with
  | Paging.Empty => lit "Empty"
  | Paging.Misaligned => lit "Misaligned"
  | NonCanonical => lit "NonCanonical"
  | Overflow => lit "Overflow"
  end.

Definition debug_paging_error (e : PagingError) : str :=
  match e with
  | Paging.AlreadyInitialized => lit "AlreadyInitialized"
  | Paging.NotInitialized => lit "NotInitialized"
  | AddressTooLarge => lit "AddressTooLarge"
  | InvalidPageTableSize => lit "InvalidPageTableSize"
  | MappingFailed => lit "MappingFailed"
  | UnmappingFailed => lit "UnmappingFailed"
  | NotDeviceMemory => lit "NotDeviceMemory"
  | Paging.Frame e => lit "Frame(" ++ debug_frame_error e ++ lit ")"
  | MemoryMap e => lit "MemoryMap(" ++ debug_map_error e ++ lit ")"
  | Range e => lit "Range(" ++ debug_range_error e ++ lit ")"
  end.

(** ** [Display] *)

Definition display_memory_kind (k : MemoryKind) : str :=
  match k with
  | Usable => lit "usable"
  | Memory.Kernel => lit "kernel"
  | Firmware => lit "firmware"
  | Acpi => lit "acpi"
  | Device => lit "device"
  | Runtime => lit "runtime"
  | Unusable => lit "unusable"
  | Reserved => lit "reserved"
  end.

Definition display_range_error (e : VirtualRangeError) : str :=
  match e with
  | Paging.Empty => lit "virtual range is empty"
  | Paging.Misaligned => lit "virtual range is not page-aligned"
  | NonCanonical => lit "virtual range contains a non-canonical address"
  | Overflow => lit "virtual range overflows the address space"
  end.

(** The text tells the values apart. *)
#[export] Instance display_memory_kind_inj : Inj (=) (=) display_memory_kind.
Proof. intros [] [] H; (reflexivity || discriminate H). Qed.

#[export] Instance display_range_error_inj : Inj (=) (=) display_range_error.
Proof. intros [] [] H; (reflexivity || discriminate H). Qed.

#[export] Instance debug_paging_error_inj : Inj (=) (=) debug_paging_error.
Proof.
  intros e1 e2 H. destruct e1 as [| | | | | | |[]|[]|[]], e2 as [| | | | | | |[]|[]|[]]; (reflexivity || discriminate H).
Qed.
