(* ===== verification/Boot.v ===== *)
(** * Boot: the startup sequence of [src/boot.rs] with the mode selection of
    [src/uefi_graphics/mod.rs].

    The sequence composes the memory map, the frame allocator, the heap, the
    page tables, the console and the interrupts.  What the firmware answers is
    an argument; a fatal error is the error value, whose message Kernel
    prints.  The global allocator is the custom one. *)

From S2P Require Import Prelude Globals Memory Frame Heap Paging Graphics Ports Keyboard Mouse Interrupts Console.
Open Scope Z_scope.

(** ** The graphics mode *)

(** A mode of the graphics output protocol, and the resolution it reports. *)
Record Mode : Type := mkMode {
  mode_index : Z;
  mode_resolution : Z * Z;
}.

Definition mode_fits (mode : Mode) : bool :=
  let '(w, h) := mode_resolution mode in (w <=? 1920) && (h <=? 1080).
Definition mode_pixels (mode : Mode) : Z := let '(w, h) := mode_resolution mode in w * h.

(** [Iterator::max_by_key]: the last of the largest. *)
Definition larger_mode (best : option Mode) (mode : Mode) : option Mode :=
  match best with
  | None => Some mode
  | Some b => if mode_pixels b <=? mode_pixels mode then Some mode else Some b
  end.

(** The mode that [init_gop] sets, of the modes on offer. *)
Definition choose_mode (modes : list Mode) : option Mode :=
  fold_left larger_mode (List.filter mode_fits modes) None.

(** The mode chosen is the last of the largest that fit; none is chosen only
    when none fits. *)
Lemma choose_mode_spec modes :
  match choose_mode modes with
  | Some m => ∃ l1 l2, List.filter mode_fits modes = l1 ++ m :: l2 ∧
      (∀ m', m' ∈ l1 → mode_pixels m' ≤ mode_pixels m) ∧ (∀ m', m' ∈ l2 → mode_pixels m' < mode_pixels m)
  | None => List.filter mode_fits modes = []
  end.
Proof.
  unfold choose_mode. induction (List.filter mode_fits modes) as [|m l IH] using rev_ind; [done|].
  rewrite fold_left_app. cbn. destruct (fold_left larger_mode l None) as [b|]; cbn.
  - destruct IH as (l1 & l2 & -> & H1 & H2). destruct (Z.leb_spec (mode_pixels b) (mode_pixels m)).
    + exists (l1 ++ b :: l2), []. split; [done|]. split; [|by intros ? ?%not_elem_of_nil].
      intros m' [Hm|[->|Hm]%elem_of_cons]%elem_of_app; [specialize (H1 m' Hm); lia|done|specialize (H2 m' Hm); lia].
    + exists l1, (l2 ++ [m]). split; [by rewrite <- app_assoc|]. split; [done|].
      intros m' [Hm| ->%list_elem_of_singleton]%elem_of_app; [by apply H2|lia].
  - subst l. exists [], []. split; [done|]. split; by intros ? ?%not_elem_of_nil.
Qed.

(** ** The sequence *)

Inductive BootError : Type :=
  | FirmwareError
  | UnsupportedFramebuffer (error : FramebufferError)
  | HeapFailed (error : HeapError)
  | AllocatorFailed (error : HeapError)
  | PagingFailed (error : PagingError).

(** What the firmware answers, and the addresses of the two local variables
    that mark the stack in [initialize_heap] and in [paging::initialize]. *)
Record Firmware : Type := mkFirmware {
  helpers_init : bool;
  loaded_image : option (Z * Z);
  gop_modes : list Mode;
  set_mode : Mode → option GopMode;
  exit_boot_services : list MemoryDescriptor;
  heap_stack_marker : Z;
  paging_stack_marker : Z;
}.

Section boot.
Context {T W D Q C : Type} `{Devices W} `{InterruptController W C} `{RB : RingBuffer Z Q} (controller : C).
Context (mapper : Mapper T) (STORAGE INTERRUPT_STACKS : Z).

(** The statics of the kernel that boot initializes. *)
Record Machine : Type := mkMachine {
  world : Heap.World;
  heap : Heap;
  pages : PagingState T;
  kernel : Kernel W D Q;
  output : Console;
}.

(** A call on one part of the machine. *)
Definition on_world {E A} (err : E → BootError) (m : M Heap.World E A) : M Machine BootError A := λ s,
  let '(r, w) := m (world s) in (map_err err r, mkMachine w (heap s) (pages s) (kernel s) (output s)).
Definition on_heap {E A} (err : E → BootError) (m : M Heap E A) : M Machine BootError A := λ s,
  let '(r, h) := m (heap s) in (map_err err r, mkMachine (world s) h (pages s) (kernel s) (output s)).
Definition on_pages {E A} (err : E → BootError) (m : M (PagingState T) E A) : M Machine BootError A := λ s,
  let '(r, p) := m (pages s) in (map_err err r, mkMachine (world s) (heap s) p (kernel s) (output s)).
Definition on_kernel {A} (m : M (Kernel W D Q) Empty_set A) : M Machine BootError A := λ s,
  let '(r, k) := m (kernel s) in (map_err (λ e : Empty_set, match e with end) r, mkMachine (world s) (heap s) (pages s) k (output s)).
Definition set_output (f : Console → Console) : M Machine BootError unit := λ s,
  (Ok tt, mkMachine (world s) (heap s) (pages s) (kernel s) (f (output s))).

(** [Framebuffer::physical_range] *)
Definition physical_range (fb : Framebuffer) : Z * Z := (ptr fb, byte_len fb).

(** From the console on, when the framebuffer is known. *)
Definition start (fw : Firmware) (fb : Framebuffer) (kernel_image : Z * Z) : M Machine BootError HeapRegion :=
  set_output (Console.init fb);;
  heap_region ← on_world HeapFailed
    (initialize_heap (exit_boot_services fw) (heap_stack_marker fw) (Some (physical_range fb)) kernel_image);
  on_heap AllocatorFailed (initialize_global true true (λ _, mret tt) heap_region);;
  s ← get;
  on_pages PagingFailed (Paging.initialize mapper STORAGE PAGE_SIZE (physical_range fb) kernel_image
    (HEAP_START (world s)) (HEAP_SIZE (world s)) (paging_stack_marker fw));;
  on_kernel (Interrupts.init controller INTERRUPT_STACKS);;
  on_kernel (on_io (enable_runtime controller));;
  mret heap_region.

(** [boot::initialize], up to the shell. *)
Definition boot_initialize (fw : Firmware) : M Machine BootError HeapRegion :=
  if negb (helpers_init fw) then throw FirmwareError else
  match loaded_image fw with
  | None => throw FirmwareError
  | Some kernel_image =>
    gop ← lift (ok_or (mode ← choose_mode (gop_modes fw); set_mode fw mode) FirmwareError);
    fb ← lift (map_err UnsupportedFramebuffer (Framebuffer_new gop));
    start fw fb kernel_image
  end.
End boot.
Arguments Machine : clear implicits.
Arguments mkMachine {T W D Q} _ _ _ _ _.
Arguments world {T W D Q} _.
Arguments heap {T W D Q} _.
Arguments pages {T W D Q} _.
Arguments kernel {T W D Q} _.
Arguments output {T W D Q} _.

(** ** Reservations keep the map in order *)

(** A map as the boot sequence keeps it: valid disjoint ranges, the usable ones
    page-aligned and in address order (behind them a framebuffer that the
    firmware did not list). *)
Definition in_order (l : list MemoryRange) : Prop :=
  Forall range_ok l ∧ StronglySorted disjoint_ranges l ∧ Forall page_aligned l ∧
  ∃ l1 l2, l = l1 ++ l2 ∧ StronglySorted below l1 ∧ Forall (λ r, mr_kind r ≠ Usable) l2.

Lemma in_order_sorted l : in_order l → usable_sorted l.
Proof.
  intros (_ & _ & _ & l1 & l2 & -> & Hs & Hn). unfold usable_sorted. rewrite filter_app.
  assert (filter (λ r, mr_kind r = Usable) l2 = []) as ->.
  { induction Hn as [|r l2 Hr _ IH]; [done|]. by rewrite filter_cons, decide_False. }
  rewrite app_nil_r. clear -Hs. induction Hs as [|r l1 Hs IH Hf]; [constructor|]. rewrite filter_cons. case_decide; [|done].
  constructor; [done|]. apply Forall_forall. intros x [_ Hx]%list_elem_of_filter. by eapply (proj1 (Forall_forall _ _) Hf).
Qed.

(** A piece keeps the kind of its range and its start, unless it is reserved or
    begins where the reservation ends. *)
Lemma pieces_kinds s e kind r p : p ∈ pieces s e kind r →
  mr_kind p = kind ∨
  mr_kind p = mr_kind r ∧ (mr_start p = mr_start r ∨ mr_start p = e ∧ overlaps s e r = true).
Proof.
  unfold pieces. intros Hp. destruct (overlaps s e r) eqn:Hov; unfold nonempty, mr_end, saturating_add in *.
  - apply list_elem_of_filter in Hp as [Hne Hp]. unfold overlaps, mr_end, saturating_add in Hov. set_unfold in Hp.
    destruct_or! Hp; subst; cbn in *; [right; split; [done|by left]|by left|right; split; [done|right; split; [lia|done]]].
  - apply list_elem_of_singleton in Hp as ->. right. split; [done|by left].
Qed.

(** The reservation of [\[s, e)] leaves no usable range that starts off a page. *)
Definition clean_end (s e : Z) (l : list MemoryRange) : Prop :=
  e mod PAGE_SIZE = 0 ∨ Forall (λ r, mr_kind r = Usable → overlaps s e r = false) l.

Lemma in_order_pieces s e kind l : 0 ≤ s → kind ≠ Usable → clean_end s e l →
  in_order l → in_order (flat_map (pieces s e kind) l).
Proof.
  intros Hs Hk He (Hok & Hd & Hal & l1 & l2 & -> & Hb & Hn). split; [|split; [|split]].
  - apply Forall_flat_map. eapply Forall_impl; [exact Hok|]. intros r Hr. apply Forall_forall. intros p Hp.
    by destruct (pieces_bounds s e kind r p) as [? _].
  - apply pieces_list_sorted; unfold disjoint_ranges; [naive_solver|intros; lia|lia|done..].
  - apply Forall_flat_map, Forall_forall. intros r Hr. apply Forall_forall. intros p Hp Hu.
    pose proof (proj1 (Forall_forall _ _) Hal r Hr) as Har.
    destruct (pieces_kinds s e kind r p Hp) as [Hkp|[Hkp [->|[-> Hov]]]]; [congruence|apply Har; congruence|].
    destruct He as [He|He]; [done|]. pose proof (proj1 (Forall_forall _ _) He r Hr) as Hno. rewrite Hno in Hov; congruence.
  - exists (flat_map (pieces s e kind) l1), (flat_map (pieces s e kind) l2). split; [apply flat_map_app|]. split.
    + apply Forall_app in Hok as [Hok _]. apply pieces_list_sorted; unfold below; [done|intros; lia|lia|done..].
    + apply Forall_flat_map. eapply Forall_impl; [exact Hn|]. intros r Hr. apply Forall_forall. intros p Hp.
      destruct (pieces_kinds s e kind r p Hp) as [->|[-> _]]; done.
Qed.

Lemma in_order_starts l : in_order l → Forall (λ r, 0 ≤ mr_start r) l.
Proof. intros (Hok & _). eapply Forall_impl; [exact Hok|]. by intros r (? & _). Qed.

Lemma in_order_reserve m start length_ m' : ms_repr m → in_order (ms_live m) → is_u64 start → is_u64 length_ →
  (start + length_) mod PAGE_SIZE = 0 → reserve_range start length_ Memory.Kernel m = (Ok tt, m') →
  ms_repr m' ∧ in_order (ms_live m') ∧
  ∀ x, kind_of (ms_live m') x = Some Usable → kind_of (ms_live m) x = Some Usable ∧ ¬ start ≤ x < start + length_.
Proof.
  intros Hm Ho Hs Hl He Hres. pose proof (reserve_range_eq m start length_ Memory.Kernel Hm Hs Hl) as H. split; [|split].
  - rewrite Hres in H. by destruct (reserve_spec _ _ _ _) as [l| |]; [destruct H as (? & [= <-] & ? & _)|..].
  - rewrite Hres in H. unfold reserve_spec in H. case_decide; [done|]. case_decide; [done|].
    destruct (existsb _ _); [|done]. destruct H as (? & [= <-] & _ & ->). unfold is_u64 in *.
    apply in_order_pieces; [lia|done|by left|done].
  - intros x. rewrite (reserve_range_kinds m start length_ Memory.Kernel m' x Hm (in_order_starts _ Ho) Hs Hl Hres).
    case_decide; [|done]. by destruct (kind_of _ x).
Qed.

(** A firmware that reports what the boot sequence relies on: a map of whole,
    disjoint pages in address order; a framebuffer outside the usable memory and
    an image of whole pages, both inside the address space; and the two local
    variables that mark the stack at most one page apart. *)
Record firmware_ok (fw : Firmware) (fb image : Z * Z) : Prop := {
  fw_descriptors : Forall descriptor_ok (exit_boot_services fw);
  fw_sorted : StronglySorted below (map range_of (exit_boot_services fw));
  fw_pages : Forall (λ d, phys_start d mod PAGE_SIZE = 0) (exit_boot_services fw);
  fw_fits : (length (boot_ranges (exit_boot_services fw) fb.1 fb.2) ≤ MAX_MEMORY_RANGES)%nat;
  fw_framebuffer : 0 ≤ fb.1 ∧ 0 < fb.2 ∧ fb.1 + fb.2 ≤ u64_max;
  fw_apart : Forall (λ r, mr_kind r = Usable → overlaps fb.1 (fb.1 + fb.2) r = false)
    (map range_of (exit_boot_services fw));
  fw_image : 0 ≤ image.1 ∧ 0 ≤ image.2 ∧ image.1 + image.2 ≤ u64_max ∧ (image.1 + image.2) mod PAGE_SIZE = 0;
  fw_stack : is_u64 (heap_stack_marker fw) ∧ is_u64 (paging_stack_marker fw) ∧
    page_floor (heap_stack_marker fw) - PAGE_SIZE ≤ page_floor (paging_stack_marker fw)
      ≤ page_floor (heap_stack_marker fw) + PAGE_SIZE;
}.

Lemma in_order_firmware ds : Forall descriptor_ok ds → StronglySorted below (map range_of ds) →
  Forall (λ d, phys_start d mod PAGE_SIZE = 0) ds → in_order (map range_of ds).
Proof.
  intros Hd Hs Hp. split; [|split; [|split]].
  - apply Forall_map. eapply Forall_impl; [exact Hd|]. intros d. apply range_of_ok.
  - clear -Hs. induction Hs as [|r l _ IH Hf]; [constructor|]. constructor; [done|].
    eapply Forall_impl; [exact Hf|]. intros r' Hr. by left.
  - apply Forall_map. eapply Forall_impl; [exact Hp|]. by intros d H _.
  - exists (map range_of ds), []. by rewrite app_nil_r.
Qed.

(** After the firmware map and the framebuffer. *)
Lemma in_order_boot_ranges fw fb image : firmware_ok fw fb image →
  in_order (boot_ranges (exit_boot_services fw) fb.1 fb.2) ∧
  ∀ x, kind_of (boot_ranges (exit_boot_services fw) fb.1 fb.2) x = Some Usable →
    kind_of (map range_of (exit_boot_services fw)) x = Some Usable ∧ ¬ fb.1 ≤ x < fb.1 + fb.2.
Proof.
  intros [Hd Hs Hp _ (Hf1 & Hf2 & Hf3) Ha _ _]. pose proof (in_order_firmware _ Hd Hs Hp) as Ho.
  unfold boot_ranges. destruct (existsb _ _) eqn:Hov.
  - split; [apply in_order_pieces; [lia|done|by right|done]|]. intros x.
    rewrite kind_of_pieces by (lia || by apply in_order_starts). case_decide; [|done]. by destruct (kind_of _ x).
  - destruct Ho as (Hok & Hdis & Hal & l1 & l2 & Hl & Hb & Hn). split; [split; [|split; [|split]]|].
    + apply Forall_app. split; [done|]. apply Forall_singleton. unfold range_ok. cbn. lia.
    + apply StronglySorted_app. split; [|split; [done|by repeat constructor]]. intros r r' Hr ->%list_elem_of_singleton.
      pose proof (proj1 (Forall_forall _ _) Hok r Hr) as (? & ? & ?).
      assert (overlaps fb.1 (fb.1 + fb.2) r = false) as Hno.
      { apply not_true_is_false. intros Ht. apply (proj2 (not_true_iff_false _) Hov), existsb_exists.
        exists r. by rewrite <- list_elem_of_In. }
      unfold overlaps in Hno. unfold disjoint_ranges, mr_end, saturating_add in *. cbn. lia.
    + apply Forall_app. split; [done|]. by apply Forall_singleton.
    + exists l1, (l2 ++ [mkRange fb.1 fb.2 MMIO Device]). rewrite Hl, <- app_assoc. split; [done|]. split; [done|].
      apply Forall_app. split; [done|]. by apply Forall_singleton.
    + intros x. rewrite kind_of_app. intros Hx. assert (kind_of [mkRange fb.1 fb.2 MMIO Device] x ≠ Some Usable) as Hd'.
      { rewrite kind_of_cons. by destruct (mr_contains _ x). }
      destruct (kind_of (map range_of _) x) as [k|] eqn:Hk; [|done]. injection Hx as ->. split; [done|]. intros Hin.
      by rewrite (no_overlap_kind fb.1 (fb.1 + fb.2)) in Hk.
Qed.

Lemma boot_window marker : is_u64 marker →
  stack_page marker = page_floor marker ∧ 0 ≤ page_floor marker ∧
  is_u64 (saturating_sub (stack_page marker) (32 * 4096)) ∧
  (saturating_sub (stack_page marker) (32 * 4096) + 64 * 4096) mod PAGE_SIZE = 0.
Proof.
  intros Hm. unfold stack_page. change (4096 - 1) with (PAGE_SIZE - 1). rewrite land_page by done.
  pose proof (page_bounds marker). unfold is_u64, saturating_sub, PAGE_SIZE, page_floor in *.
  split; [done|]. split; [Z.div_mod_to_equations; lia|]. split; [lia|].
  match goal with |- context [Z.max ?a ?b] => destruct (Z.max_spec a b) as [[_ ->]|[_ ->]] end; Z.div_mod_to_equations; lia.
Qed.

(** The map from which the frame allocator is built satisfies what the frame
    allocator asks for, and counts nothing as usable that is in use. *)
Lemma boot_map_free fw fb image m2 : firmware_ok fw fb image →
  boot_map (exit_boot_services fw) (heap_stack_marker fw) (Some fb) image m2 →
  (ms_wf m2 ∧ Forall page_aligned (ms_live m2) ∧ usable_sorted (ms_live m2)) ∧
  ∀ x, kind_at (Some m2) x = Some Usable → kind_of (map range_of (exit_boot_services fw)) x = Some Usable ∧
    ¬ fb.1 ≤ x < fb.1 + fb.2 ∧ ¬ image.1 ≤ x < image.1 + image.2 ∧
    ¬ BOOT_STACK_LOW (paging_stack_marker fw) ≤ x < BOOT_STACK_LOW (paging_stack_marker fw) + 62 * PAGE_SIZE.
Proof.
  intros Hfw (m0 & m1 & H0 & H1 & H2). destruct (in_order_boot_ranges _ _ _ Hfw) as [Ho0 Hk0].
  pose proof Hfw as [Hd _ _ Hfit (Hf1 & Hf2 & Hf3) _ (Hi1 & Hi2 & Hi3 & Hi4) (Hst & _ & Hst2)].
  destruct fb as [f1 f2]. cbn [fst snd] in *.
  destruct (initialize_ok (exit_boot_services fw) f1 f2) as (s & Hini & Hr0 & Hl0);
    [done|intros He; rewrite He in H0; by vm_compute in H0|unfold is_u64; lia|done..|].
  rewrite Hini in H0. injection H0 as ->. rewrite <- Hl0 in Ho0, Hk0.
  destruct (in_order_reserve m0 image.1 image.2 m1 Hr0 Ho0) as (Hr1 & Ho1 & Hk1); [unfold is_u64; lia..|done|done|].
  destruct (boot_window (heap_stack_marker fw) Hst) as (Hp & Hp0 & Hw & Hwm).
  destruct (in_order_reserve m1 _ (64 * 4096) m2 Hr1 Ho1 Hw ltac:(done) Hwm H2) as (Hr2 & Ho2 & Hk2).
  split; [split; [|split]|].
  - destruct Ho2 as (? & ? & _). by split.
  - by destruct Ho2 as (_ & _ & ? & _).
  - by apply in_order_sorted.
  - intros x Hx. apply Hk2 in Hx as [Hx Hx3]. apply Hk1 in Hx as [Hx Hx2].
    apply Hk0 in Hx as [Hx Hx1]. split; [done|]. split; [done|]. split; [done|].
    intros Hin. apply Hx3. rewrite Hp. unfold BOOT_STACK_LOW, saturating_sub, PAGE_SIZE in *. lia.
Qed.

(** ** The whole sequence *)

Section properties.
Context {T W D Q C : Type} `{Devices W} `{InterruptController W C} `{RB : RingBuffer Z Q} (controller : C).
Context (mapper : Mapper T) (STORAGE INTERRUPT_STACKS : Z) {laws : MapperLaws STORAGE mapper}.

Abbreviation boot := (boot_initialize (D:=D) controller mapper STORAGE INTERRUPT_STACKS).

(** The bytes in use when the frame allocator is built. *)
Definition in_use (fw : Firmware) (fb image : Z * Z) (x : Z) : Prop :=
  fb.1 ≤ x < fb.1 + fb.2 ∨ image.1 ≤ x < image.1 + image.2 ∨
  BOOT_STACK_LOW (paging_stack_marker fw) ≤ x < BOOT_STACK_LOW (paging_stack_marker fw) + 62 * PAGE_SIZE.

(** The states that a successful boot went through. *)
Lemma boot_steps fw (s s' : Machine T W D Q) region : boot fw s = (Ok region, s') →
  ∃ image mode gop fb, loaded_image fw = Some image ∧ choose_mode (gop_modes fw) = Some mode ∧
    set_mode fw mode = Some gop ∧ Framebuffer_new gop = Ok fb ∧ output s' = Console.init fb (output s) ∧
    initialize_heap (exit_boot_services fw) (heap_stack_marker fw) (Some (physical_range fb)) image (world s)
      = (Ok region, world s') ∧
    heap_init region (heap s) = (Ok tt, heap s') ∧
    Paging.initialize mapper STORAGE PAGE_SIZE (physical_range fb) image
      (HEAP_START (world s')) (HEAP_SIZE (world s')) (paging_stack_marker fw) (pages s) = (Ok tt, pages s') ∧
    ∃ k, Interrupts.init controller INTERRUPT_STACKS (kernel s) = (Ok tt, k) ∧
      on_io (enable_runtime controller) k = (Ok tt, kernel s').
Proof.
  unfold boot_initialize. destruct (helpers_init fw); [|done]. destruct (loaded_image fw) as [image|]; [|done].
  intros (gop & s1 & Hg & Hb)%M_bind_ok. apply M_bind_ok in Hb as (fb & s2 & Hfb & Hb).
  unfold lift in Hg, Hfb. destruct (choose_mode (gop_modes fw)) as [mode|] eqn:Hmode; [|done]. cbn in Hg.
  destruct (set_mode fw mode) as [gop'|] eqn:Hset; [|done]. injection Hg as -> <-.
  destruct (Framebuffer_new gop) as [fb'| |] eqn:Hf; [|done..]. injection Hfb as -> <-.
  exists image, mode, gop, fb. do 4 (split; [done|]). unfold start, initialize_global in Hb. cbn [negb] in Hb.
  apply M_bind_ok in Hb as ([] & s1 & [= <-] & Hb). apply M_bind_ok in Hb as (r & s1 & Hw & Hb).
  unfold on_world in Hw. cbn [world heap pages kernel output] in Hw.
  destruct (initialize_heap _ _ _ _ _) as [[r'| |] w'] eqn:Hih; [|done..]. injection Hw as -> <-.
  apply M_bind_ok in Hb as ([] & s1 & Hh & Hb). unfold on_heap in Hh. cbn [world heap pages kernel output] in Hh.
  destruct (heap_init r (heap s)) as [[[]| |] h'] eqn:Hhi; [|done..]. injection Hh as <-.
  apply M_bind_ok in Hb as (s0 & s1 & [= <- <-] & Hb). apply M_bind_ok in Hb as ([] & s1 & Hp & Hb).
  unfold on_pages in Hp. cbn [world heap pages kernel output] in Hp.
  destruct (Paging.initialize _ _ _ _ _ _ _ _ _) as [[[]| |] p'] eqn:Hpi; [|done..]. injection Hp as <-.
  apply M_bind_ok in Hb as ([] & s1 & Hk & Hb). unfold on_kernel in Hk, Hb. cbn [world heap pages kernel output] in Hk.
  destruct (Interrupts.init _ _ _) as [[[]|[]|] k1] eqn:Hin; [|done]. injection Hk as <-.
  apply M_bind_ok in Hb as ([] & s1 & Hk & Hb). cbn [world heap pages kernel output] in Hk.
  destruct (on_io _ _) as [[[]|[]|] k2] eqn:Hrt; [|done]. injection Hk as <-. injection Hb as <- <-.
  cbn [world heap pages kernel output]. split_and!; try done. by exists k1.
Qed.

(** A page outside everything in use is mapped as a heap page. *)
Lemma boot_translation_heap fw fb image lo size q : lo mod PAGE_SIZE = 0 → size mod PAGE_SIZE = 0 → 0 < size →
  0 ≤ paging_stack_marker fw → 0 < fb.2 →
  (∀ x, lo ≤ x < lo + size → ¬ in_use fw fb image x) → covered lo (lo + size) q = true →
  boot_translation fb image lo size (paging_stack_marker fw) q = Some (q, [PRESENT; WRITABLE; NO_EXECUTE]).
Proof.
  intros Hlo Hsz Hpos Hm Hf Hfree [Hq Hqm]%covered_spec. unfold boot_translation.
  assert (page_floor lo = lo ∧ page_ceil (lo + size) = lo + size) as [-> ->].
  { unfold page_floor, page_ceil, PAGE_SIZE in *. Z.div_mod_to_equations. lia. }
  rewrite (proj2 (Z.eqb_neq size 0)) by lia. rewrite (proj2 (covered_spec lo _ q)) by done. cbn [negb andb].
  case_match; [done|]. destruct (covered (page_floor fb.1) _ q) eqn:Hc; [exfalso|done].
  apply covered_spec in Hc as [Hc _]. apply (Hfree (Z.max q fb.1)); [|left]; pose proof (page_bounds fb.1);
    pose proof (page_bounds (fb.1 + fb.2)); unfold page_floor, page_ceil, PAGE_SIZE in *; Z.div_mod_to_equations; lia.
Qed.
(** C8. A successful boot hands over a consistent machine.  The heap region is
    page-aligned kernel memory; it and every frame that the frame allocator may
    still hand out are clear of the framebuffer, the kernel image and the boot
    stack, and of each other.  The free list is the whole region, as one chunk.
    Paging is active and maps the image, the heap, the framebuffer and the stack
    to themselves and nothing else (the recursive slot apart), every page of
    the heap writable and not executable.  The console is that of the
    framebuffer. *)
Theorem boot_memory fw (s s' : Machine T W D Q) region :
  MEMORY_MAP (world s) = None → FRAME_ALLOCATOR (world s) = None → STORAGE mod PAGE_SIZE = 0 →
  boot fw s = (Ok region, s') →
  ∃ image mode gop fb, loaded_image fw = Some image ∧ choose_mode (gop_modes fw) = Some mode ∧
  set_mode fw mode = Some gop ∧ Framebuffer_new gop = Ok fb ∧ output s' = Console.init fb (output s) ∧
  let lo := hr_start region in let hi := hr_start region + hr_size region in
  (firmware_ok fw (physical_range fb) image →
   (∃ m fa, world s' = mkWorld lo (hr_size region) true (Some m) (Some fa) ∧
      lo mod PAGE_SIZE = 0 ∧ lo < hi ≤ u64_max ∧
      (∀ x, lo ≤ x < hi → kind_at (Some m) x = Some Memory.Kernel ∧ ¬ in_use fw (physical_range fb) image x) ∧
      (∀ a x, a ∈ free_addrs fa → a ≤ x < a + PAGE_SIZE →
         ¬ in_use fw (physical_range fb) image x ∧ ¬ lo ≤ x < hi)) ∧
   (0 < lo → heap_inv lo hi (heap s', []) [(lo, hr_size region)]) ∧
   PAGING_ACTIVE (pages s') = true ∧ cr3 (pages s') = Some STORAGE ∧
   (∀ q, p4_index q ≠ RECURSIVE_INDEX → translate mapper (tables (pages s')) q =
      boot_translation (physical_range fb) image lo (hr_size region) (paging_stack_marker fw) q) ∧
   (∀ q, p4_index q ≠ RECURSIVE_INDEX → covered lo hi q = true →
      translate mapper (tables (pages s')) q = Some (q, [PRESENT; WRITABLE; NO_EXECUTE]))).
Proof.
  intros Hm Hf Hal Hboot.
  destruct (boot_steps _ _ _ _ Hboot) as (image & mode & gop & fb & Him & Hmd & Hset & Hfb & Hout & Hih & Hhi & Hpi & _).
  exists image, mode, gop, fb. do 5 (split; [done|]). intros lo hi Hfw.
  destruct (initialize_heap_owned _ _ _ _ _ _ _ Hm Hf Hih) as (m2 & m3 & fa & Hmap & Hw & Hown).
  destruct (boot_map_free _ _ _ _ Hfw Hmap) as ((H1 & H2 & H3) & Hfree).
  destruct (Hown H1 H2 H3) as (Hsz & Hszm & Hlo0 & Hlo & Hhu & _ & Hheap & Hfa). fold lo in Hlo0, Hlo, Hheap, Hfa. fold hi in Hhu, Hheap, Hfa.
  assert (∀ x, kind_at (Some m2) x = Some Usable → ¬ in_use fw (physical_range fb) image x) as Huse.
  { intros x Hx. destruct (Hfree x Hx) as (_ & ? & ? & ?). intros [?|[?|?]]; contradiction. }
  pose proof Hfw as [_ _ _ _ (Hfb1 & Hfb2 & Hfb3) _ (Hi1 & Hi2 & Hi3 & _) (_ & Hst & _)].
  rewrite Hw in Hpi. cbn [HEAP_START HEAP_SIZE] in Hpi.
  apply (initialize_maps mapper STORAGE) in Hpi as (_ & Hact & Hcr & _ & Htr); [|unfold is_u64 in *; subst lo; lia..|done].
  split_and!; [exists m3, fa; split_and!|..]; try done.
  - subst lo hi. lia.
  - intros x Hx. destruct (Hheap x Hx) as [Hk ?]. split; [done|by apply Huse].
  - intros a x Ha Hx. destruct (Hfa a Ha) as [Hap Hk]. split; [by apply Huse, Hk|lia].
  - intros Hp. pose proof (heap_init_spec region (heap s)) as Hspec. rewrite Hhi in Hspec.
    by destruct Hspec as (_ & _ & ?); [split_and!; lia|].
  - intros q Hq Hc. rewrite Htr by done. eapply boot_translation_heap; try done; [unfold is_u64 in *; lia|].
    intros x Hx. apply Huse, Hheap, Hx.
Qed.
End properties.

(** ** Witness: a machine with 1 MiB of memory and a small framebuffer *)

(** Devices whose controller is ready and acknowledges every command. *)
#[local] Instance ready_devices : Devices unit := {|
  dev_in port d := (if port =? PS2_DATA then MOUSE_ACK else 1, d);
  dev_out _ _ d := d; dev_out32 _ _ d := d |}.

Definition demo_fw : Firmware :=
  mkFirmware true (Some (0x100000, 0x2000)) [mkMode 0 (2560, 1440); mkMode 1 (64, 64)]
    (λ mode, let '(w, h) := mode_resolution mode in Some (mkGop (w, h) w Rgb (0x80000000, w * h * 4))) demo_firmware 0x1c0100 0x1c0080.

Definition demo_machine : Machine demo_tables unit unit (list Z) :=
  mkMachine demo_world (heap_new (λ _, 0)) demo_paging demo_kernel (mkConsole None None (λ _, 0)).

#[local] Abbreviation demo_boot := (boot_initialize (T:=demo_tables) (W:=unit) (D:=unit) (Q:=list Z) (RB:=list_ring 256)
  CONTROLLER (demo_mapper demo_storage) demo_storage 0x8000 demo_fw demo_machine) (only parsing).

Lemma demo_fw_ok : firmware_ok demo_fw (0x80000000, 0x4000) (0x100000, 0x2000).
Proof.
  split; cbn [demo_fw exit_boot_services fst snd heap_stack_marker paging_stack_marker].
  - repeat (apply Forall_cons; split); [apply (bool_decide_unpack _); exact I..|done].
  - cbn. repeat (apply SSorted_cons; [|repeat (apply Forall_cons; split); [by vm_compute..|done]]). constructor.
  - repeat (apply Forall_cons; split); [by vm_compute..|done].
  - vm_compute. lia.
  - lia.
  - repeat (apply Forall_cons; split); [by vm_compute..|done].
  - by vm_compute.
  - by vm_compute.
Qed.

Lemma demo_boot_eq : demo_boot = (Ok (mkRegion 0x102000 0x9e000), snd demo_boot).
Proof.
  assert (fst demo_boot = Ok (mkRegion 0x102000 0x9e000)) as <- by (vm_compute; reflexivity).
  apply surjective_pairing.
Qed.

(** The heap lies between the image and the boot stack. *)
Lemma boot_memory_witness :
  heap_inv 0x102000 0x1a0000 (heap (snd demo_boot), []) [(0x102000, 0x9e000)] ∧
  translate (demo_mapper demo_storage) (tables (pages (snd demo_boot))) 0x102000
    = Some (0x102000, [PRESENT; WRITABLE; NO_EXECUTE]).
Proof.
  pose proof (boot_memory (T:=demo_tables) (W:=unit) (D:=unit) (Q:=list Z) (H:=ready_devices)
    (RB:=list_ring 256) CONTROLLER (demo_mapper demo_storage) demo_storage 0x8000 demo_fw
    demo_machine (snd demo_boot) (mkRegion 0x102000 0x9e000) eq_refl eq_refl eq_refl) as Hm.
  destruct (Hm demo_boot_eq) as (image & mode & gop & fb & Him & Hmode & Hgop & Hfb & _ & H).
  injection Him as <-. vm_compute in Hmode. injection Hmode as <-. injection Hgop as <-. injection Hfb as <-.
  destruct (H demo_fw_ok) as (_ & Hheap & _ & _ & _ & Hmap). split.
  - exact (Hheap eq_refl).
  - apply (Hmap 0x102000); [vm_compute; discriminate|vm_compute; reflexivity].
Defined.
