(* ===== verification/Startup.v ===== *)
(** * Startup: when the boot sequence cannot panic.  The panics of the code
    behind [boot::initialize] are those of the address types (more than 52
    bits), of the array accesses and of the one-time cells; a machine whose
    statics are untouched and whose firmware stays below 2^52 meets none. *)

From Stdlib Require Import String.
From S2P Require Import Prelude Globals Memory Frame Heap Paging Task Text Timer Graphics Ports Keyboard Mouse Interrupts Commands Console Boot.
Open Scope Z_scope.

(** ** The memory map and the frames *)

(** Computations that end with a value or an error. *)
Definition returns {S E A} (m : M S E A) (s : S) : Prop := fst (m s) ≠ Panic.

Lemma returns_bind {S E A B} (m : M S E A) (f : A → M S E B) s :
  returns m s → (∀ a s1, m s = (Ok a, s1) → returns (f a) s1) → returns (m ≫= f) s.
Proof. unfold returns, mbind, M_bind. intros Hm Hf. destruct (m s) as [[a| |] s1]; [by apply Hf|done|done]. Qed.

Lemma returns_lift {S E A} (o : outcome E A) (s : S) : o ≠ Panic → returns (lift o) s.
Proof. done. Qed.

Lemma ok_or_returns {E A} (o : option A) (e : E) : ok_or o e ≠ Panic.
Proof. by destruct o. Qed.

Lemma in_memory_returns {A} (f : M (option MemoryMapSnapshot) MemoryMapError A) e w :
  returns f (MEMORY_MAP w) → returns (in_memory f e) w.
Proof. unfold returns, in_memory. by destruct (f (MEMORY_MAP w)) as [[]]. Qed.
Lemma in_frame_returns {A} (f : M (option FrameAllocator) FrameError A) e w :
  returns f (FRAME_ALLOCATOR w) → returns (in_frame f e) w.
Proof. unfold returns, in_frame. by destruct (f (FRAME_ALLOCATOR w)) as [[]]. Qed.

Lemma reserve_returns start length_ kind m : ms_repr m → is_u64 start → is_u64 length_ →
  returns (Memory.reserve start length_ kind) (Some m).
Proof.
  intros Hm Hs Hl. pose proof (reserve_range_eq m start length_ kind Hm Hs Hl) as H.
  unfold returns, Memory.reserve. unfold_monad. destruct (reserve_spec _ _ _ _); [|by rewrite H|done].
  destruct H as (m' & -> & _). done.
Qed.

(** The map that the firmware's descriptors leave, if they can be copied. *)
Lemma map_cases fw fb image : firmware_ok fw fb image →
  match Memory.initialize (exit_boot_services fw) (Some fb) None with
  | (Ok _, m) => ∃ m0, m = Some m0 ∧ ms_repr m0
  | (Err _, _) => True
  | (Panic, _) => False
  end.
Proof.
  intros [Hd _ _ Hfit (Hf1 & Hf2 & Hf3) _ _ _]. destruct (exit_boot_services fw) as [|d ds] eqn:Hds; [by vm_compute|].
  destruct fb as [f1 f2]. cbn [fst snd] in *. destruct (initialize_ok (d :: ds) f1 f2) as (m & -> & Hm & _); try done; [unfold is_u64; lia|].
  by exists m.
Qed.

Lemma reserve_keeps start length_ kind m m' : ms_repr m → is_u64 start → is_u64 length_ →
  reserve_range start length_ kind m = (Ok tt, m') → ms_repr m'.
Proof.
  intros Hm Hs Hl Hr. pose proof (reserve_range_eq m start length_ kind Hm Hs Hl) as H. rewrite Hr in H.
  destruct (reserve_spec _ _ _ _); [|done..]. by destruct H as (? & [= <-] & ? & _).
Qed.

(** The selection of the heap ends, with a region or with an error. *)
Lemma initialize_heap_returns fw fb image w : firmware_ok fw fb image → MEMORY_MAP w = None → FRAME_ALLOCATOR w = None →
  returns (initialize_heap (exit_boot_services fw) (heap_stack_marker fw) (Some fb) image) w.
Proof.
  intros Hfw Hm Hf. pose proof Hfw as [_ _ _ _ _ _ (Hi1 & Hi2 & Hi3 & _) (Hst & _)].
  destruct (boot_window _ Hst) as (_ & _ & Hw & _). pose proof (map_cases _ _ _ Hfw) as Hmap.
  assert (is_u64 image.1 ∧ is_u64 image.2 ∧ is_u64 (64 * 4096)) as (Hu1 & Hu2 & Hu3) by (unfold is_u64; lia).
  unfold initialize_heap. apply returns_bind; [done|]. intros w0 w1 [= <- <-]. destruct (negb _); [done|].
  apply returns_bind; [done|]. intros [] w1 [= <-].
  apply returns_bind; [apply in_memory_returns; cbn; rewrite Hm; unfold returns; by destruct (Memory.initialize _ _ _) as [[]]|].
  intros [] w1 (mm & Hm0 & ->)%in_memory_ok. cbn in Hm0. rewrite Hm in Hm0. rewrite Hm0 in Hmap. destruct Hmap as (m0 & -> & Hr0).
  apply returns_bind; [apply in_memory_returns; by apply reserve_returns|].
  intros [] w1 (mm & (? & m1 & [= <-] & -> & Hm1)%reserve_ok & ->)%in_memory_ok. pose proof (reserve_keeps _ _ _ _ _ Hr0 Hu1 Hu2 Hm1) as Hr1.
  apply returns_bind; [apply in_memory_returns; by apply reserve_returns|].
  intros [] w1 (mm & (? & m2 & [= <-] & -> & Hm2)%reserve_ok & ->)%in_memory_ok. pose proof (reserve_keeps _ _ _ _ _ Hr1 Hw Hu3 Hm2) as Hr2.
  destruct (boot_map_free fw fb image m2 Hfw) as ((Hwf & Hal & Hus) & _); [by exists m0, m1|].
  destruct (fa_new_wf (ms_live m2)) as (fa & Hnew & Hfa & _ & _); [by destruct Hwf|done|done|by destruct (buffer_repr_length _ _ _ _ Hr2)|].
  apply returns_bind; [done|]. intros w0 w1 [= <- <-]. cbn.
  apply returns_bind; [apply in_frame_returns; cbn; rewrite Hf; unfold returns, Frame.initialize; unfold_monad; by rewrite Hnew|].
  intros [] w1 (f1 & Hf1 & ->)%in_frame_ok. cbn in Hf1. rewrite Hf in Hf1. unfold Frame.initialize in Hf1. unfold_monad. rewrite Hnew in Hf1. injection Hf1 as <-.
  apply returns_bind; [done|]. intros n w1 (f2 & [= <- <-] & ->)%in_frame_ok. destruct (_ =? 0); [done|].
  assert (0 ≤ fa_largest_free_frames fa) as Hn by (unfold fa_largest_free_frames; induction (take _ _); simpl; lia).
  pose proof (allocate_contiguous_cases 0 fa _ Hfa ltac:(lia) Hn) as Hc.
  apply returns_bind.
  { apply in_frame_returns. cbn [FRAME_ALLOCATOR]. apply returns_bind; [|done]. unfold returns, allocate_contiguous, locked. unfold_monad.
    destruct Hc as [(_ & ->)|(i & f & fa' & rest & -> & _)]; done. }
  intros range w1 (f3 & Hf3 & ->)%in_frame_ok. apply M_bind_ok in Hf3 as (p & s & Hp & [= <- <-]).
  apply locked_ok in Hp as (? & fa' & [= <-] & -> & Hp).
  destruct Hc as [(_ & Hc)|(i & f & fa2 & rest & Hc & _ & Hi & Hlf & _)]; rewrite Hc in Hp; [done|]. injection Hp as <- <-.
  apply returns_bind; [|done]. apply in_memory_returns. cbn.
  destruct Hfa as [_ _ [Hall _] _ _ _ _]. pose proof (proj1 (Forall_lookup _ _) Hall i f Hi) as [? ? Hlim _].
  rewrite <- Hlf. unfold fr_limit, PAGE_SIZE in Hlim. apply reserve_returns; [done|unfold is_u64, PAGE_SIZE; lia..].
Qed.

(** ** The page tables *)

Lemma page_ceil_below a b : b mod PAGE_SIZE = 0 → a ≤ b → page_ceil a ≤ b.
Proof. unfold page_ceil, PAGE_SIZE. intros. Z.div_mod_to_equations. lia. Qed.

Section tables.
Context {T : Type} (m : Mapper T) (STORAGE : Z) {laws : MapperLaws STORAGE m}.

Lemma map_range_returns s start length_ fl root : PAGE_TABLE_ROOT s = Some root → 0 ≤ start → 0 ≤ length_ → start + length_ ≤ 2 ^ 52 →
  returns (map_range m start length_ fl) s.
Proof.
  intros Hr Hs Hl Hb. destruct (map_range_cases m STORAGE s start length_ fl root Hr Hs Hl) as (r & s' & Hm & _ & Hc).
  unfold returns. rewrite Hm. cbn [fst]. intros ->. destruct Hc as (q & Hq & Hbig).
  pose proof (page_ceil_below (start + length_) (2 ^ 52) eq_refl Hb). lia.
Qed.

(** From one mapping to the next: the root is still there. *)
Lemma map_range_bind {A} s start length_ fl root (f : unit → M (PagingState T) PagingError A) :
  PAGE_TABLE_ROOT s = Some root → 0 ≤ start → 0 ≤ length_ → start + length_ ≤ 2 ^ 52 →
  (∀ s1 root1, PAGE_TABLE_ROOT s1 = Some root1 → returns (f tt) s1) → returns (map_range m start length_ fl ≫= f) s.
Proof.
  intros Hr Hs Hl Hb Hf. apply returns_bind; [by eapply map_range_returns|]. intros [] s1 Hm.
  destruct (map_range_ok m STORAGE s start length_ fl root s1 Hr Hs Hl Hm) as (_ & arena & Hr1 & _). by eapply Hf.
Qed.

Lemma mappings_return s root framebuffer image heap_start heap_size stack_marker : PAGE_TABLE_ROOT s = Some root →
  0 ≤ framebuffer.1 → 0 ≤ framebuffer.2 → framebuffer.1 + framebuffer.2 ≤ 2 ^ 52 →
  0 ≤ image.1 → 0 ≤ image.2 → image.1 + image.2 ≤ 2 ^ 52 →
  0 ≤ heap_start → 0 ≤ heap_size → heap_start + heap_size ≤ 2 ^ 52 →
  is_u64 stack_marker → BOOT_STACK_LOW stack_marker + 62 * PAGE_SIZE ≤ 2 ^ 52 →
  returns (initialize_mappings m framebuffer image heap_start heap_size stack_marker) s.
Proof.
  intros Hr Hf1 Hf2 Hf3 Hi1 Hi2 Hi3 Hh1 Hh2 Hh3 Hst Hs. unfold initialize_mappings.
  rewrite !land_page by (unfold is_u64 in *; lia).
  pose proof (page_bounds image.1) as [Hb1 _]. pose proof (page_bounds framebuffer.1) as [Hb2 _].
  assert (∀ a, 0 ≤ a → 0 ≤ page_floor a) as Hpos by (intros a Ha; unfold page_floor, PAGE_SIZE; Z.div_mod_to_equations; lia).
  pose proof (Hpos _ Hf1). pose proof (Hpos _ Hi1).
  assert (∀ a b, 0 ≤ a → 0 ≤ b → a + b ≤ 2 ^ 52 → (checked_add a b = Some (a + b))) as Hadd.
  { intros a b Ha Hb Hab. apply checked_add_Some. unfold is_u64. lia. }
  rewrite !Hadd by done. apply returns_bind; [done|]. intros e s1 [= <- <-].
  apply (map_range_bind _ _ _ _ root); [done|lia|unfold saturating_sub; lia..|]. intros s1 root1 Hr1.
  apply returns_bind; [destruct (negb _); [by eapply map_range_returns|done]|]. intros [] s2 Hm.
  assert (∃ root2, PAGE_TABLE_ROOT s2 = Some root2) as (root2 & Hr2).
  { destruct (negb _); [|injection Hm as <-; eauto].
    destruct (map_range_ok m STORAGE _ _ _ _ _ _ Hr1 Hh1 Hh2 Hm) as (_ & a & H2 & _). eauto. }
  apply returns_bind; [done|]. intros e s3 [= <- <-].
  apply (map_range_bind _ _ _ _ root2); [done|lia|unfold saturating_sub; lia..|]. intros s3 root3 Hr3.
  apply (map_range_returns _ _ _ _ root3); [done| |unfold PAGE_SIZE; lia|exact Hs].
  unfold saturating_sub. lia.
Qed.

Lemma paging_returns s framebuffer image heap_start heap_size stack_marker : STORAGE < 2 ^ 52 →
  0 ≤ framebuffer.1 → 0 ≤ framebuffer.2 → framebuffer.1 + framebuffer.2 ≤ 2 ^ 52 →
  0 ≤ image.1 → 0 ≤ image.2 → image.1 + image.2 ≤ 2 ^ 52 →
  0 ≤ heap_start → 0 ≤ heap_size → heap_start + heap_size ≤ 2 ^ 52 →
  is_u64 stack_marker → BOOT_STACK_LOW stack_marker + 62 * PAGE_SIZE ≤ 2 ^ 52 →
  returns (Paging.initialize m STORAGE PAGE_SIZE framebuffer image heap_start heap_size stack_marker) s.
Proof.
  intros Hst **. unfold Paging.initialize. apply returns_bind; [done|]. intros s0 s1 [= <- <-].
  destruct (PAGE_TABLE_ROOT s); [done|]. rewrite Z.eqb_refl. cbn [negb].
  apply returns_bind; [apply ok_or_returns|]. intros owned s1 _. apply returns_bind; [done|]. intros [] s2 [= <-].
  apply returns_bind; [by eapply mappings_return|]. intros [] s3 _. apply returns_bind; [|done].
  unfold PhysAddr_new, storage_address. rewrite (proj2 (Z.ltb_lt _ _)); [done|lia].
Qed.
End tables.

(** ** The interrupts *)

(** A controller whose programming always completes. *)
Class QuietController (W C : Type) `{InterruptController W C} : Prop := {
  initialize_returns (c : C) (i : Io W) : returns (initialize c) i;
  enable_runtime_returns (c : C) (i : Io W) : returns (enable_runtime c) i;
}.

#[export] Instance LegacyPic_quiet {W} `{Devices W} : QuietController W LegacyPic.
Proof.
  split; intros c i.
  - unfold returns. cbn [initialize LegacyPic_controller]. by destruct (pic_initialize_trace i (mkPic 0 0 0 0, mkPic 0 0 0 0)) as (d & l & -> & _).
  - done.
Qed.

Section setup.
Context {W D Q C : Type} `{Devices W} `{InterruptController W C} `{RB : RingBuffer Z Q} (controller : C).
Implicit Types (k : Kernel W D Q).

Lemma on_io_ok {A E} (m : M (Io W) E A) k o k' : on_io m k = (o, k') → kb k' = kb k ∧ ms k' = ms k.
Proof. unfold on_io. destruct (m (io k)) as [r i]. by intros [= <- <-]. Qed.

(** The part of [init] that programs the controllers, once. *)
Definition init_hardware : M (Kernel W D Q) Empty_set unit :=
  k ← get;
  if HARDWARE_INITIALIZED k then mret tt else
    on_io (initialize controller);;
    on_io pit_initialize;;
    (λ k, let '(_, k) := on_io initialize_controller k in (Ok tt, k));;
    modify set_initialized.

Lemma init_hardware_inputs k k' : init_hardware k = (Ok tt, k') → kb k' = kb k ∧ ms k' = ms k.
Proof.
  intros (k0 & k1 & [= <- <-] & Hk)%M_bind_ok. destruct (HARDWARE_INITIALIZED k); [by injection Hk as <-|].
  apply M_bind_ok in Hk as ([] & a & [Ha1 Ha2]%on_io_ok & Hk). apply M_bind_ok in Hk as ([] & b & [Hb1 Hb2]%on_io_ok & Hk).
  apply M_bind_ok in Hk as ([] & c & Hc & Hk). unfold modify in Hk. injection Hk as <-. cbn.
  destruct (on_io initialize_controller b) as [r c'] eqn:Hr. injection Hc as <-. apply on_io_ok in Hr as [Hr1 Hr2]. split; congruence.
Qed.

(** Its part before, which installs the tables. *)
Definition init_tables (base : Z) : M (Kernel W D Q) Empty_set unit :=
  tss ← lift (interrupt_stack_table base);
  modify (λ k, match TSS k with None => set_tss tss k | Some _ => k end);;
  modify (λ k, match IDT k with None => set_idt (idt_install controller) k | Some _ => k end).

Lemma init_tables_runs base k : ∃ k', init_tables base k = (Ok tt, k') ∧ kb k' = kb k ∧ ms k' = ms k.
Proof.
  destruct (install_tables_ok (W:=W) base) as (table & Ht & _). unfold init_tables, modify. rewrite Ht. unfold_monad.
  eexists. split; [reflexivity|]. destruct (TSS k); cbn; by destruct (IDT k).
Qed.

(** Its part behind, which makes the queues. *)
Definition init_queues : M (Kernel W D Q) Empty_set unit :=
  k ← get;
  b ← lift (init_keyboard (kb k)); modify (set_kb b);;
  k ← get;
  b ← lift (init_mouse (ms k)); modify (set_ms b);;
  on_io drain_ps2_output.

Lemma init_parts base k : Interrupts.init controller base k = (init_tables base;; init_hardware;; init_queues) k.
Proof.
  destruct (install_tables_ok (W:=W) base) as (table & Ht & _).
  unfold init_hardware, Interrupts.init, init_tables, init_queues, modify. rewrite Ht. reflexivity.
Qed.

(** Only the queues of the two input devices are new. *)
Lemma init_inputs base k k' : Interrupts.init controller base k = (Ok tt, k') →
  kb k' = mkKeyboard (mkShared (Some rb_default) (dropped (KEYBOARD_QUEUE (kb k)))) (KEYBOARD (kb k)) (CTRL_HELD (kb k)) ∧
  ms k' = mkMouse (mkShared (Some rb_default) (dropped (MOUSE_QUEUE (ms k)))) (PACKET_STATE (ms k)).
Proof.
  rewrite init_parts. intros ([] & k1 & H1 & Hi)%M_bind_ok. destruct (init_tables_runs base k) as (k1' & H1' & Hkb1 & Hms1).
  rewrite H1' in H1. injection H1 as ->. apply M_bind_ok in Hi as ([] & k2 & [Hkb2 Hms2]%init_hardware_inputs & Hi).
  rewrite <- Hkb1, <- Hms1, <- Hkb2, <- Hms2. clear -Hi.
  apply M_bind_ok in Hi as (k0 & k4 & [= <- <-] & Hi). apply M_bind_ok in Hi as (b & k4 & Hb & Hi).
  unfold lift in Hb. apply M_bind_ok in Hi as ([] & k5 & Hk5 & Hi). unfold modify in Hk5. injection Hk5 as <-.
  destruct (init_keyboard (kb k2)) as [b'| |] eqn:Hkb'; [|done..]. injection Hb as <- <-.
  apply M_bind_ok in Hi as (k5 & k6 & [= <- <-] & Hi). apply M_bind_ok in Hi as (mo & k6 & Hmo & Hi).
  unfold lift in Hmo. destruct (init_mouse _) as [mo'| |] eqn:Hms'; [|done..]. injection Hmo as <- <-.
  apply M_bind_ok in Hi as ([] & k7 & Hk7 & [Hkb8 Hms8]%on_io_ok). unfold modify in Hk7. injection Hk7 as <-.
  rewrite Hkb8, Hms8. cbn [kb ms set_kb set_ms] in *.
  unfold init_keyboard, init_queue in Hkb'. unfold init_mouse, init_queue in Hms'.
  destruct (producer_consumer (KEYBOARD_QUEUE _)); [done|]. destruct (producer_consumer (MOUSE_QUEUE _)); [done|].
  injection Hkb' as <-. by injection Hms' as <-.
Qed.
Lemma on_io_returns {A E} (m : M (Io W) E A) k : returns m (io k) → returns (on_io m) k.
Proof. unfold returns, on_io. by destruct (m (io k)) as [[]]. Qed.

(** The set-up of the interrupts ends when no queue has been set up before. *)
Lemma interrupts_return {HQ : QuietController W C} base k :
  producer_consumer (KEYBOARD_QUEUE (kb k)) = None → producer_consumer (MOUSE_QUEUE (ms k)) = None →
  returns (Interrupts.init controller base) k.
Proof.
  intros Hk Hm. unfold returns. rewrite init_parts. destruct (init_tables_runs base k) as (k1 & H1 & Hkb1 & Hms1).
  apply returns_bind; [unfold returns; by rewrite H1|]. intros [] k1' H1'. rewrite H1 in H1'. injection H1' as <-.
  apply returns_bind.
  { apply returns_bind; [done|]. intros k2 k3 [= <- <-]. destruct (HARDWARE_INITIALIZED k1); [done|].
    apply returns_bind; [apply on_io_returns, initialize_returns|]. intros [] k5 _.
    apply returns_bind; [apply on_io_returns; unfold returns; by destruct (pit_initialize_trace (io k5)) as (d & ->)|]. intros [] k6 _.
    apply returns_bind; [|done]. unfold returns. by destruct (on_io _ k6). }
  intros [] k2 [Hkb2 Hms2]%init_hardware_inputs. rewrite <- Hkb1, <- Hkb2 in Hk. rewrite <- Hms1, <- Hms2 in Hm.
  unfold init_queues, init_keyboard, init_mouse, init_queue. apply returns_bind; [done|]. intros k3 k4 [= <- <-]. rewrite Hk.
  apply returns_bind; [done|]. intros b k3 [= <- <-]. apply returns_bind; [done|]. intros [] k3 [= <-].
  apply returns_bind; [done|]. intros k3 k4 [= <- <-]. cbn [ms set_kb]. rewrite Hm.
  apply returns_bind; [done|]. intros b k3 [= <- <-]. apply returns_bind; [done|]. intros [] k3 [= <-].
  apply on_io_returns. match goal with |- returns _ ?i => destruct (drain_loop_trace 32 i) as (d & l & Hd & _) end.
  unfold returns, drain_ps2_output. by rewrite Hd.
Qed.
End setup.

(** ** The whole sequence *)

(** The memory that the boot sequence addresses has at most 52 bits: what is
    usable, the framebuffer, the image and the mapped stack. *)
Record addressable (fw : Firmware) (fb image : Z * Z) : Prop := {
  usable_below : Forall (λ d, from_uefi_type (ty d) = Usable → phys_start d + page_count d * PAGE_SIZE ≤ 2 ^ 52) (exit_boot_services fw);
  framebuffer_below : fb.1 + fb.2 ≤ 2 ^ 52;
  image_below : image.1 + image.2 ≤ 2 ^ 52;
  stack_below : BOOT_STACK_LOW (paging_stack_marker fw) + 62 * PAGE_SIZE ≤ 2 ^ 52;
}.

Lemma usable_address fw fb image x : Forall descriptor_ok (exit_boot_services fw) → addressable fw fb image →
  kind_of (map range_of (exit_boot_services fw)) x = Some Usable → x < 2 ^ 52.
Proof.
  intros Hd [Hu _ _ _]. induction Hd as [|d ds Hd _ IH]; [done|]. apply Forall_cons in Hu as [Hu Hus].
  cbn [map]. rewrite kind_of_cons. unfold mr_contains, range_of at 1 2. cbn [mr_start mr_kind]. unfold mr_end. cbn.
  case_match eqn:Hc; [|by apply IH]. intros [= Hk]. specialize (Hu Hk). destruct Hd as (_ & _ & _ & Hd).
  unfold saturating_add, PAGE_SIZE in *. lia.
Qed.

Section machine.
Context {T W D Q C : Type} `{Devices W} `{InterruptController W C} `{RB : RingBuffer Z Q} (controller : C).
Context (mapper : Mapper T) (STORAGE INTERRUPT_STACKS : Z) {laws : MapperLaws STORAGE mapper}.

(** A machine that has not been booted: the statics as the linker leaves them,
    and the page tables in memory that the processor can address. *)
Record unbooted (s : Machine T W D Q) : Prop := {
  no_map : MEMORY_MAP (world s) = None;
  no_frames : FRAME_ALLOCATOR (world s) = None;
  no_keys : producer_consumer (KEYBOARD_QUEUE (kb (kernel s))) = None;
  no_bytes : producer_consumer (MOUSE_QUEUE (ms (kernel s))) = None;
  storage_below : STORAGE < 2 ^ 52;
}.

(** A firmware that the boot sequence can rely on: the mode that it sets has a
    framebuffer, and its memory map can be used with it. *)
Definition sound (fw : Firmware) : Prop := ∀ image mode gop, loaded_image fw = Some image →
  choose_mode (gop_modes fw) = Some mode → set_mode fw mode = Some gop →
  gop_format gop ≠ BltOnly ∧ ∀ fb, Framebuffer_new gop = Ok fb →
    firmware_ok fw (physical_range fb) image ∧ addressable fw (physical_range fb) image.

Lemma start_returns {HQ : QuietController W C} fw fb image (s : Machine T W D Q) : unbooted s →
  firmware_ok fw (physical_range fb) image → addressable fw (physical_range fb) image →
  returns (start controller mapper STORAGE INTERRUPT_STACKS fw fb image) s.
Proof.
  intros [Hm Hf Hk Hb Hst] Hfw Hlim. unfold start, initialize_global. cbn [negb]. apply returns_bind; [done|]. intros [] s0 [= <-].
  apply returns_bind.
  { pose proof (initialize_heap_returns _ _ _ (world s) Hfw Hm Hf) as Hr. unfold returns, on_world in *. cbn [world].
    by destruct (initialize_heap _ _ _ _ _) as [[]]. }
  intros r s1 Hw. unfold on_world in Hw. cbn [world heap pages kernel output] in Hw.
  destruct (initialize_heap _ _ _ _ _) as [[r'| |] w'] eqn:Hih; [|done..]. injection Hw as -> <-.
  destruct (initialize_heap_owned _ _ _ _ _ _ _ Hm Hf Hih) as (m2 & m3 & fa & Hmap & Hw & Hown).
  destruct (boot_map_free _ _ _ _ Hfw Hmap) as ((H1' & H2' & H3') & Hfree).
  destruct (Hown H1' H2' H3') as (Hsz & _ & Hlo0 & _ & _ & _ & Hheap & _).
  assert (hr_start r + hr_size r ≤ 2 ^ 52) as Hheap52.
  { destruct (Hheap (hr_start r + hr_size r - 1)) as [Hu _]; [lia|]. apply Hfree in Hu as [Hu _].
    pose proof (usable_address fw _ _ _ (fw_descriptors _ _ _ Hfw) Hlim Hu). lia. }
  apply returns_bind.
  { unfold returns, on_heap, heap_init. unfold_monad. cbn [heap]. destruct (hr_size r <? _); [done|]. by destruct (negb _). }
  intros [] s2 Hh. unfold on_heap in Hh. cbn [world heap pages kernel output] in Hh.
  destruct (heap_init r (heap s)) as [[[]| |] h']; [|done..]. injection Hh as <-.
  apply returns_bind; [done|]. intros s3 s4 [= <- <-]. cbn [world]. rewrite Hw. cbn [HEAP_START HEAP_SIZE].
  destruct Hfw as [_ _ _ _ (Hfb1 & Hfb2 & _) _ (Hi1 & Hi2 & _) (_ & Hmark & _)]. destruct Hlim as [_ Hl1 Hl2 Hl3].
  apply returns_bind.
  { assert (returns (Paging.initialize mapper STORAGE PAGE_SIZE (physical_range fb) image (hr_start r) (hr_size r)
      (paging_stack_marker fw)) (pages s)) as Hp by (apply paging_returns; done || lia).
    unfold returns, on_pages in *. cbn [pages]. by destruct (Paging.initialize _ _ _ _ _ _ _ _ _) as [[]]. }
  intros [] s3 Hp. unfold on_pages in Hp. cbn [world heap pages kernel output] in Hp.
  destruct (Paging.initialize _ _ _ _ _ _ _ _ _) as [[[]| |] p']; [|done..]. injection Hp as <-.
  apply returns_bind.
  { pose proof (interrupts_return controller INTERRUPT_STACKS (kernel s) Hk Hb) as Hi. unfold returns, on_kernel in *. cbn [kernel].
    by destruct (Interrupts.init _ _ _) as [[]]. }
  intros [] s4 _. apply returns_bind; [|done].
  pose proof (on_io_returns (enable_runtime controller) (kernel s4) (enable_runtime_returns controller _)) as Hi.
  unfold returns, on_kernel in *. by destruct (on_io _ _) as [[]].
Qed.

(** With a sound firmware, an unbooted machine boots or refuses; it never panics. *)
Lemma boot_returns {HQ : QuietController W C} fw (s : Machine T W D Q) : unbooted s → sound fw →
  returns (boot_initialize controller mapper STORAGE INTERRUPT_STACKS fw) s.
Proof.
  intros Hs Hfw. unfold boot_initialize. destruct (helpers_init fw); [|done]. cbn [negb].
  destruct (loaded_image fw) as [image|] eqn:Hi; [|done]. destruct (choose_mode _) as [mode|] eqn:Hm; [|done]. cbn [mbind option_bind].
  destruct (set_mode fw mode) as [gop|] eqn:Hset; [|done]. apply returns_bind; [done|]. intros gop' s1 [= <- <-].
  destruct (Framebuffer_new gop) as [fb|e|] eqn:Hfb.
  - apply returns_bind; [done|]. intros fb' s1 [= <- <-]. destruct (Hfw _ _ _ Hi Hm Hset) as [_ Hfw']. destruct (Hfw' _ Hfb). by apply start_returns.
  - done.
  - exfalso. destruct (Hfw _ _ _ Hi Hm Hset) as [Hblt _]. revert Hfb. unfold Framebuffer_new, gop_frame_buffer, PixelSize_try_new, Stride_try_new, from_raw_parts. unfold_monad.
    by repeat case_match.
Qed.
End machine.
