(* ===== verification/Tests.v ===== *)
(** * Tests: the repository's unit tests and its integration test, run on the
    model.  Each test is translated statement by statement into a computation
    whose assertions and [unwrap]s panic, and [passes] when it ends without one.
    Tests that read a layout of the compiler or that exercise only another
    crate's decoder have no counterpart here. *)

From Stdlib Require Import String.
From S2P Require Import Prelude Globals Memory Frame Heap Paging Context Task Text Timer Graphics Ports Keyboard Mouse Interrupts Commands Console.
Open Scope Z_scope.

(** ** Assertions *)

Definition assert {E} (b : bool) : outcome E unit := if b then Ok tt else Panic.
Definition assert_eq {E A} `{EqDecision A} (a b : A) : outcome E unit := assert (bool_decide (a = b)).
Definition asserts {S E A} `{EqDecision A} (a b : A) : M S E unit := lift (assert_eq a b).

(** [.unwrap()] *)
Definition unwrap {S E A} (m : M S E A) : M S E A := λ s, let '(r, s) := m s in (match r with Ok a => Ok a | _ => Panic end, s).
(** [assert_eq!(call, Err(e))] *)
Definition asserts_err {S E A} `{EqDecision E} (m : M S E A) (e : E) : M S E unit := λ s,
  let '(r, s) := m s in (match r with Err e' => assert_eq e' e | _ => Panic end, s).

Definition passes {E A} (o : outcome E A) : bool := match o with Ok _ => true | _ => false end.
Definition passes_on {S E A} (m : M S E A) (s : S) : bool := passes (fst (m s)).

#[local] Instance FrameError_eq_dec : EqDecision FrameError.
Proof. solve_decision. Defined.
#[local] Instance FrameStats_eq_dec : EqDecision FrameStats.
Proof. solve_decision. Defined.
#[local] Instance VirtualRangeError_eq_dec : EqDecision VirtualRangeError.
Proof. solve_decision. Defined.
#[local] Instance SchedulerError_eq_dec : EqDecision SchedulerError.
Proof. solve_decision. Defined.
#[local] Instance FrameOwner_eq_dec : EqDecision FrameOwner.
Proof. solve_decision. Defined.

(** ** [src/memory.rs] *)

(** [MemoryRange::for_test] *)
Definition for_test (start length : Z) (ty : MemoryType) : MemoryRange := mkRange start length ty (from_uefi_type ty).

Definition classifies_uefi_memory_types : outcome Empty_set unit :=
  assert_eq (from_uefi_type CONVENTIONAL) Usable;;
  assert_eq (from_uefi_type LOADER_DATA) Memory.Kernel;;
  assert_eq (from_uefi_type BOOT_SERVICES_DATA) Firmware;;
  assert_eq (from_uefi_type ACPI_RECLAIM) Acpi;;
  assert_eq (from_uefi_type MMIO) Device.

Definition range_end_saturates : outcome Empty_set unit :=
  let range := mkRange (u64_max - 1) 4 RESERVED Reserved in
  assert_eq (mr_end range) u64_max.

Definition one_range (r : MemoryRange) : MemoryMapSnapshot :=
  mkSnapshot (<[0%nat := r]> (replicate MAX_MEMORY_RANGES (mkRange 0 0 RESERVED Reserved))) 1.

(** [snapshot.ranges()\[i\]] *)
Definition ms_range (i : nat) : M MemoryMapSnapshot MemoryMapError MemoryRange :=
  s ← get; lift (array_get (ms_live s) i).

Definition reservation_splits_a_usable_range_without_losing_neighbors : M MemoryMapSnapshot MemoryMapError unit :=
  unwrap (reserve_range 0x3000 0x2000 Memory.Kernel);;
  s ← get; asserts (length (ms_live s)) 3%nat;;
  r ← ms_range 0; asserts (mr_length r) 0x2000;;
  r ← ms_range 1; asserts (mr_start r) 0x3000;;
  asserts (mr_length r) 0x2000;;
  asserts (mr_kind r) Memory.Kernel;;
  r ← ms_range 2; asserts (mr_start r) 0x5000;;
  asserts (mr_length r) 0x5000.

Definition failed_reservation_preserves_the_original_map : M MemoryMapSnapshot MemoryMapError unit :=
  before ← get;
  asserts_err (reserve_range 0x8000 0x1000 Memory.Kernel) RangeNotFound;;
  s ← get;
  asserts (ms_ranges s, ms_count s) (ms_ranges before, ms_count before).

Lemma memory_tests_pass :
  passes classifies_uefi_memory_types && passes range_end_saturates &&
  passes_on reservation_splits_a_usable_range_without_losing_neighbors (one_range (for_test 0x1000 0x9000 CONVENTIONAL)) &&
  passes_on failed_reservation_preserves_the_original_map (one_range (for_test 0x1000 0x2000 CONVENTIONAL)) = true.
Proof. by vm_compute. Qed.

(** ** [src/frame.rs] *)

Definition usable (start frames : Z) : MemoryRange := for_test start (frames * PAGE_SIZE) CONVENTIONAL.

Abbreviation FrameTest := (M FrameAllocator FrameError unit) (only parsing).

(** A test behind [FrameAllocator::new(&ranges)]. *)
Definition with_frames (ranges : list MemoryRange) (t : FrameTest) : outcome FrameError unit :=
  a ← fa_new ranges; fst (t a).

Definition allocates_and_releases_frames : outcome FrameError unit := with_frames [usable 0x1000 3] (
  a ← unwrap fa_allocate; asserts a 0x1000;;
  a ← unwrap fa_allocate; asserts a 0x2000;;
  s ← get; asserts (fs_free_frames (fa_stats s)) 1;;
  unwrap (fa_release 0x1000);;
  s ← get; asserts (fs_free_frames (fa_stats s)) 2;;
  a ← unwrap fa_allocate; asserts a 0x1000).

Definition rejects_double_free_and_unaligned_addresses : outcome FrameError unit := with_frames [usable 0x1000 1] (
  frame ← unwrap fa_allocate;
  unwrap (fa_release frame);;
  asserts_err (fa_release frame) InvalidAddress;;
  asserts_err (fa_release 0x1234) InvalidAddress).

Definition skips_non_usable_ranges : outcome FrameError unit :=
  let reserved := for_test 0 PAGE_SIZE RESERVED in
  with_frames [reserved; usable 0x2000 1] (
  s ← get; asserts (fs_total_frames (fa_stats s)) 1;;
  a ← unwrap fa_allocate; asserts a 0x2000).

Definition allocates_a_contiguous_range_from_the_largest_region : outcome FrameError unit :=
  with_frames [usable 0x1000 2; usable 0x10000 4] (
  range ← unwrap (fa_allocate_contiguous 3);
  asserts (pr_start range) 0x10000;;
  asserts (pr_length range) (3 * PAGE_SIZE);;
  s ← get; asserts (fs_free_frames (fa_stats s)) 3).

Definition rejects_contiguous_frame_count_overflow_without_mutating_state : outcome FrameError unit :=
  with_frames [usable 0x1000 2] (
  s ← get; let before := fa_stats s in
  asserts_err (fa_allocate_contiguous u64_max) OutOfMemory;;
  s ← get; asserts (fa_stats s) before).

Definition rejects_release_outside_a_free_or_allocated_frame_boundary : outcome FrameError unit :=
  with_frames [usable 0x1000 2] (
  unwrap fa_allocate;;
  asserts_err (fa_release 0x9000) InvalidAddress).

Definition owned_handles_preserve_their_reservation_category : outcome FrameError unit :=
  let owner := Frame.PageTable in
  let handle := mkOwnedFrame 0x1000 owner in
  assert_eq (of_frame handle) 0x1000;;
  assert_eq (of_owner handle) owner.

Lemma frame_tests_pass :
  forallb passes [allocates_and_releases_frames; rejects_double_free_and_unaligned_addresses; skips_non_usable_ranges;
    allocates_a_contiguous_range_from_the_largest_region; rejects_contiguous_frame_count_overflow_without_mutating_state;
    rejects_release_outside_a_free_or_allocated_frame_boundary; owned_handles_preserve_their_reservation_category] = true.
Proof. by vm_compute. Qed.

(** ** [src/paging.rs] *)

Definition exact_page_ranges_do_not_round_into_an_extra_page : outcome VirtualRangeError unit :=
  let end_ := 0x20000 in
  rounded ← (if is_multiple_of end_ PAGE_SIZE then Ok end_ else
    e ← add_u64 end_ PAGE_SIZE; e ← sub_u64 e 1; Ok (e / PAGE_SIZE * PAGE_SIZE));
  assert_eq rounded end_.

Definition layout_regions_are_canonical_and_page_aligned : outcome VirtualRangeError unit :=
  layout ← VirtualMemoryLayout_new;
  foldM (λ _ range,
    assert_eq (vr_start range mod PAGE_SIZE) 0;;
    assert_eq (vr_length range mod PAGE_SIZE) 0;;
    end_ ← end_exclusive range;
    assert (vr_start range <? end_)) tt
    [vl_kernel layout; vl_heap layout; vl_framebuffer layout; vl_mmio layout; vl_stacks layout].

Definition virtual_ranges_reject_bad_addresses : M unit VirtualRangeError unit :=
  asserts_err (lift (VirtualRange_new 1 PAGE_SIZE)) Paging.Misaligned;;
  asserts_err (lift (VirtualRange_new 0x0000800000000000 PAGE_SIZE)) NonCanonical.

Lemma paging_tests_pass :
  passes exact_page_ranges_do_not_round_into_an_extra_page && passes layout_regions_are_canonical_and_page_aligned &&
  passes_on virtual_ranges_reject_bad_addresses tt = true.
Proof. by vm_compute. Qed.

(** ** [src/task/mod.rs] and [src/task/stack.rs]

    The two counters are the world of the tasks. *)

Definition Runs : Type := Z * Z.
Definition Entry : Type := Runs → TaskAction * Runs.
Definition first_task : Entry := λ '(first, second), (Yield, (first + 1, second)).
Definition second_task : Entry := λ '(first, second), (Yield, (first, second + 1)).
Definition sleeping_task : Entry := λ w, (SleepUntil 10, w).
Definition exiting_task : Entry := λ w, (Exit, w).
Definition blocking_task : Entry := λ w, (Block, w).
Definition yielding_task : Entry := λ w, (Yield, w).

Abbreviation TaskTest := (M (Task.Scheduler Entry * Runs) SchedulerError unit) (only parsing).

#[local] Abbreviation base := (λ i : nat, 0x10000 + 0x1000 * Z.of_nat i) (only parsing).
Definition run_task (now : Z) : M (Task.Scheduler Entry * Runs) SchedulerError (option TaskId) :=
  unwrap (run_next (λ f w, f w) 0x400000 base now).
Definition start_task (f : Entry) : M (Task.Scheduler Entry * Runs) SchedulerError TaskId := unwrap (on_scheduler (spawn f)).
Definition asserts_state (id : TaskId) (st : option TaskState) : TaskTest := s ← get; asserts (state (fst s) id) st.

Definition schedules_ready_tasks_round_robin : TaskTest :=
  first ← start_task first_task;
  second ← start_task second_task;
  r ← run_task 0; asserts r (Some first);;
  r ← run_task 0; asserts r (Some second);;
  r ← run_task 0; asserts r (Some first);;
  s ← get;
  asserts (fst (snd s)) 2;;
  asserts (snd (snd s)) 1.

Definition sleeping_tasks_wake_at_their_deadline : TaskTest :=
  task ← start_task sleeping_task;
  r ← run_task 0; asserts r (Some task);;
  asserts_state task (Some (Sleeping 10));;
  r ← run_task 9; asserts r None;;
  r ← run_task 10; asserts r (Some task).

Definition exiting_tasks_are_not_scheduled_again : TaskTest :=
  task ← start_task exiting_task;
  r ← run_task 0; asserts r (Some task);;
  asserts_state task (Some Finished);;
  r ← run_task 0; asserts r None;;
  s ← get; asserts (task_count (Task.stats (fst s))) 1%nat.

Definition blocked_tasks_require_an_explicit_wake : TaskTest :=
  task ← start_task blocking_task;
  r ← run_task 0; asserts r (Some task);;
  asserts_state task (Some Blocked);;
  r ← run_task 0; asserts r None;;
  unwrap (on_scheduler (Task.wake task));;
  r ← run_task 0; asserts r (Some task).

Definition cancelled_tasks_can_be_reaped : TaskTest :=
  task ← start_task first_task;
  unwrap (on_scheduler (cancel task));;
  asserts_state task (Some Cancelled);;
  unwrap (on_scheduler (reap task));;
  asserts_state task None.

Definition dispatch_budget_prevents_a_yielding_task_from_monopolizing_the_loop : TaskTest :=
  start_task yielding_task;;
  n ← unwrap (run_ready (λ f w, f w) 0x400000 base 0 3); asserts n 3%nat;;
  n ← unwrap (run_ready (λ f w, f w) 0x400000 base 0 0); asserts n 0%nat.

Definition reaping_releases_a_slot_and_invalidates_the_old_id : TaskTest :=
  old ← start_task exiting_task;
  run_task 0;;
  unwrap (on_scheduler (reap old));;
  asserts_state old None;;
  replacement ← start_task exiting_task;
  lift (assert (negb (bool_decide (old = replacement))));;
  asserts_err (on_scheduler (reap replacement)) TaskNotFinished.

Definition stack_is_aligned_and_has_expected_capacity (base : Z) : outcome Empty_set unit :=
  assert_eq TASK_STACK_SIZE (4 * 1024);;
  assert_eq (Context.top base mod 16) 0.

Lemma task_tests_pass :
  forallb (λ t : TaskTest, passes_on t (Scheduler_new, (0, 0)))
    [schedules_ready_tasks_round_robin; sleeping_tasks_wake_at_their_deadline; exiting_tasks_are_not_scheduled_again;
     blocked_tasks_require_an_explicit_wake; cancelled_tasks_can_be_reaped;
     dispatch_budget_prevents_a_yielding_task_from_monopolizing_the_loop; reaping_releases_a_slot_and_invalidates_the_old_id] &&
  passes (stack_is_aligned_and_has_expected_capacity 0x7008) = true.
Proof. by vm_compute. Qed.

(** ** [src/timer/mod.rs] *)

Definition formats_subsecond_uptime_as_zero_seconds : outcome Empty_set unit :=
  assert_eq (format_uptime 999) (lit "0 hrs 0 min 0 sec").
Definition formats_minutes_and_seconds : outcome Empty_set unit :=
  assert_eq (format_uptime 125000) (lit "0 hrs 2 min 5 sec").
Definition formats_hours_minutes_and_seconds : outcome Empty_set unit :=
  assert_eq (format_uptime 3661000) (lit "1 hrs 1 min 1 sec").

Definition converts_milliseconds_to_at_least_one_tick : outcome Empty_set unit :=
  t ← ticks_for_ms 0; assert_eq t 0;;
  t ← ticks_for_ms 1; assert (1 <=? t);;
  t ← ticks_for_ms 100; assert (100 <=? t).

Definition converts_large_durations_without_intermediate_overflow : outcome Empty_set unit :=
  numerator ← mul_u128 u64_max PIT_FREQUENCY;
  denominator ← mul_u128 PIT_DIVISOR 1000;
  let quotient := numerator / denominator in
  sum ← add_u128 quotient (if is_multiple_of numerator denominator then 0 else 1);
  let expected := Z.min sum u64_max in
  t ← ticks_for_ms u64_max; assert_eq t expected.

Lemma timer_tests_pass :
  forallb passes [formats_subsecond_uptime_as_zero_seconds; formats_minutes_and_seconds; formats_hours_minutes_and_seconds;
    converts_milliseconds_to_at_least_one_tick; converts_large_durations_without_intermediate_overflow] = true.
Proof. by vm_compute. Qed.

(** ** [src/commands/parser.rs] *)

Definition parser_separates_command_arguments_and_flags : outcome Empty_set unit :=
  let parsed := parse (lit "font --temporary 24") in
  assert_eq (command parsed) Font;;
  assert_eq (flags parsed) [lit "--temporary"];;
  assert_eq (args parsed) [lit "24"].

Definition parser_recognizes_uptime : outcome Empty_set unit :=
  let parsed := parse (lit "uptime") in
  assert_eq (command parsed) Uptime;;
  assert_eq (args parsed) [];;
  assert_eq (flags parsed) [].

Definition parser_recognizes_taskinfo : outcome Empty_set unit :=
  let parsed := parse (lit "taskinfo") in
  assert_eq (command parsed) Taskinfo;;
  assert_eq (args parsed) [];;
  assert_eq (flags parsed) [].

Definition autocomplete_returns_the_single_matching_command : outcome Empty_set unit :=
  assert_eq (complete_command (lit "upt")) (Some (lit "uptime"));;
  assert_eq (complete_command (lit "task")) (Some (lit "taskinfo")).

Definition autocomplete_leaves_ambiguous_or_non_command_input_alone : outcome Empty_set unit :=
  assert_eq (complete_command (lit "h")) None;;
  assert_eq (complete_command (lit "nope")) None;;
  assert_eq (complete_command (lit "echo hello")) None.

Lemma parser_tests_pass :
  forallb passes [parser_separates_command_arguments_and_flags; parser_recognizes_uptime; parser_recognizes_taskinfo;
    autocomplete_returns_the_single_matching_command; autocomplete_leaves_ambiguous_or_non_command_input_alone] = true.
Proof. by vm_compute. Qed.

(** ** [src/console/mod.rs]

    The host has no framebuffer, and so no writer; the glyphs are never read. *)

Definition cell_position_wraps_using_cell_dimensions : outcome Empty_set unit :=
  p ← cell_position 0 8 24; assert_eq p (0, 0);;
  p ← cell_position 2 8 24; assert_eq p (2, 0);;
  p ← cell_position 3 8 24; assert_eq p (0, 1);;
  p ← cell_position 4 8 24; assert_eq p (1, 1).

(** U+1F600 *)
Definition GRINNING_FACE : char := 0x1f600.

Definition editing_inserts_and_removes_at_cursor_without_breaking_utf8 : outcome Empty_set unit :=
  let line := lit "ab" ++ [GRINNING_FACE] ++ lit "d" in
  let line := insert_char_at line 2 88 in
  assert_eq line (lit "abX" ++ [GRINNING_FACE] ++ lit "d");;
  let line := remove_char_at line 3 in
  assert_eq line (lit "ab" ++ [GRINNING_FACE] ++ lit "d");;
  let line := remove_char_at line 3 in
  assert_eq line (lit "abd");;
  let line := remove_char_at line u64_max in
  assert_eq line (lit "ab").

Definition cursor_movement_stays_within_the_editable_line : outcome Empty_set unit :=
  assert_eq (move_cursor_left 0) 0;;
  assert_eq (move_cursor_left 3) 2;;
  c ← move_cursor_right 0 3; assert_eq c 1;;
  c ← move_cursor_right 3 3; assert_eq c 3.

Definition no_console : Console := mkConsole None None (λ _, 0).

Definition input_line_limit_is_enforced_before_rendering : outcome Empty_set unit :=
  let line := fold_left (λ line _, line ++ lit "x") (seqZ 0 MAX_INPUT_CHARS) [] in
  assert_eq (chars_count line) MAX_INPUT_CHARS;;
  '(line, _) ← insert_char (λ _ _, None) (λ _, 8) line 121 no_console;
  assert_eq (chars_count line) MAX_INPUT_CHARS.

Lemma console_tests_pass :
  forallb passes [cell_position_wraps_using_cell_dimensions; editing_inserts_and_removes_at_cursor_without_breaking_utf8;
    cursor_movement_stays_within_the_editable_line; input_line_limit_is_enforced_before_rendering] = true.
Proof. by vm_compute. Qed.

(** ** [src/color/mod.rs] and [src/interrupts/controller.rs] *)

Definition converts_rgb_array_to_color : outcome Empty_set unit :=
  let color := Color_from (12, 34, 56) in
  assert_eq (Graphics.r color) 12;;
  assert_eq (Graphics.g color) 34;;
  assert_eq (Graphics.b color) 56.

Section controller.
Context {W : Type} `{Devices W}.

Definition legacy_vectors_are_stable_for_installed_irqs : outcome Empty_set unit :=
  assert_eq (controller_vector_for Interrupts.Timer) 32;;
  assert_eq (controller_vector_for KeyboardIrq) 33;;
  assert_eq (controller_vector_for MouseIrq) 44.

Lemma controller_test_passes : passes converts_rgb_array_to_color && passes legacy_vectors_are_stable_for_installed_irqs = true.
Proof. by vm_compute. Qed.
End controller.

(** ** The queues of [src/keyboard/mod.rs] and [src/mouse/mod.rs]

    The tests of both files are the same; they hold of every queue of two items
    that behaves as the crate documents. *)

Section queues.
Context {Q : Type} `{RB : RingBuffer Z Q} {laws : RingBufferLaws Z Q 2}.

Definition try_push (t : Z) : M Q Empty_set bool := λ q,
  match rb_try_push t q with Some q => (Ok true, q) | None => (Ok false, q) end.
Definition try_pop : M Q Empty_set (option Z) := λ q,
  match rb_try_pop q with Some (t, q) => (Ok (Some t), q) | None => (Ok None, q) end.
Definition pushes (t : Z) : M Q Empty_set unit := ok ← try_push t; lift (assert ok).

Definition queue_preserves_fifo_order_across_wraparound : M Q Empty_set unit :=
  pushes 1;;
  pushes 2;;
  r ← try_pop; asserts r (Some 1);;
  pushes 3;;
  r ← try_pop; asserts r (Some 2);;
  r ← try_pop; asserts r (Some 3);;
  r ← try_pop; asserts r None.

Definition full_queue_rejects_new_items_and_counts_them : M Q Empty_set unit :=
  let dropped := 0 in
  pushes 1;;
  pushes 2;;
  ok ← try_push 3;
  let dropped := if (ok : bool) then dropped else dropped + 1 in
  asserts dropped 1.

Lemma pushes_ok t q l : rb_items q = l → (length l < 2)%nat → ∃ q', pushes t q = (Ok tt, q') ∧ rb_items q' = l ++ [t].
Proof.
  intros Hq Hl. unfold pushes, try_push, mbind, M_bind. pose proof (rb_push_items q t) as Hp.
  destruct (rb_try_push t q) as [q'|]; [|rewrite Hq in Hp; lia]. exists q'. split; [done|]. rewrite <- Hq. apply Hp.
Qed.

Lemma try_pop_ok q l : rb_items q = l → ∃ q', try_pop q = (Ok (head l), q') ∧ rb_items q' = tail l.
Proof.
  intros Hq. unfold try_pop. pose proof (rb_pop_items q) as Hp. destruct (rb_try_pop q) as [[t q']|]; rewrite Hp in Hq; subst l.
  - by exists q'.
  - by exists q.
Qed.

Lemma queue_tests_pass :
  passes_on queue_preserves_fifo_order_across_wraparound rb_default && passes_on full_queue_rejects_new_items_and_counts_them rb_default = true.
Proof.
  destruct (pushes_ok 1 rb_default [] rb_default_items) as (q1 & H1 & Hq1); [cbn; lia|].
  destruct (pushes_ok 2 q1 _ Hq1) as (q2 & H2 & Hq2); [cbn; lia|].
  destruct (try_pop_ok q2 _ Hq2) as (q3 & H3 & Hq3).
  destruct (pushes_ok 3 q3 _ Hq3) as (q4 & H4 & Hq4); [cbn; lia|].
  destruct (try_pop_ok q4 _ Hq4) as (q5 & H5 & Hq5). destruct (try_pop_ok q5 _ Hq5) as (q6 & H6 & Hq6).
  destruct (try_pop_ok q6 _ Hq6) as (q7 & H7 & _).
  unfold passes_on, queue_preserves_fifo_order_across_wraparound, full_queue_rejects_new_items_and_counts_them.
  unfold mbind, M_bind. rewrite H1, H2, H3. cbn. rewrite H4, H5. cbn. rewrite H6. cbn. rewrite H7. cbn.
  unfold try_push. pose proof (rb_push_items q2 3) as Hp. destruct (rb_try_push 3 q2); [|done]. rewrite Hq2 in Hp. cbn in Hp. lia.
Qed.
End queues.

(** ** The packets and the cursor of [src/mouse/mod.rs] *)

Definition decodes_signed_motion_and_buttons : outcome Empty_set unit :=
  event ← expect (decode_packet 0x37 0xfe 0xfd);
  assert_eq (dx event) (-2);;
  assert_eq (dy event) 3;;
  assert (left_button event);;
  assert (right_button event);;
  assert (middle_button event).

Definition rejects_invalid_packet_overflow_bits : outcome Empty_set unit :=
  assert (is_none (decode_packet 0xc8 0 0)).

(** A slice of bytes at an address, and back. *)
Definition BUFFER : Z := 0x1000.
Definition memory_of (bytes : list Z) : mem := λ a, if a <? BUFFER then 0 else nth (Z.to_nat (a - BUFFER)) bytes 0.
Definition bytes_of (n : Z) (m : mem) : list Z := m <$> seqZ BUFFER n.

(** [Framebuffer::from_mut_slice], for the slice at [BUFFER]. *)
Definition from_mut_slice (bytes : list Z) (size : PixelSize) (stride : Z) (format : PixelFormat) :
    outcome FramebufferError Framebuffer :=
  from_raw_parts BUFFER (Z.of_nat (length bytes)) size stride format.

Definition erasing_cursor_restores_the_pixels_it_covered : outcome FramebufferError unit :=
  let bytes := (λ index, index mod 256) <$> seqZ 0 (7 * 7 * 4) in
  fb ← from_mut_slice bytes (mkSize 7 7) 7 Rgb;
  let '(r, (_, m)) := (erase_mouse_cursor fb;; draw_mouse_cursor fb (mkCoord 1 1);; erase_mouse_cursor fb)
    (MOUSE_CURSOR_new, memory_of bytes) in
  match r with Ok _ => assert_eq (bytes_of (7 * 7 * 4) m) bytes | _ => Panic end.

Lemma mouse_tests_pass :
  passes decodes_signed_motion_and_buttons && passes rejects_invalid_packet_overflow_bits &&
  passes erasing_cursor_restores_the_pixels_it_covered = true.
Proof. by vm_compute. Qed.

(** ** [src/graphics/mod.rs] and [tests/graphics_integration.rs] *)

(** A drawing that must not panic. *)
Definition draws {E} (d : draw) : outcome E mem := match d with Ok m => Ok m | _ => Panic end.

Definition draw_line_colors_every_pixel_on_a_horizontal_line : outcome FramebufferError unit :=
  let pixels := replicate 60 0 in
  fb ← from_mut_slice pixels (mkSize 5 3) 5 Rgb;
  m ← expect (draw_line 8 fb (mkCoord 1 1) (mkCoord 3 1) (mkColor 255 0 0) (memory_of pixels)); m ← draws m;
  foldM (λ _ x, let offset := (stride fb + x) * 4 in
    assert_eq (m <$> seqZ (BUFFER + offset) 3) [255; 0; 0]) tt (seqZ 1 3).

Definition too_small_framebuffer_is_rejected : outcome FramebufferError unit :=
  match from_mut_slice [0x55; 0x55; 0x55] (mkSize 1 1) 1 Rgb with
  | Err (FramebufferTooSmall _ _) => Ok tt
  | _ => Panic
  end.

Definition bitmask_framebuffer_is_not_drawable : outcome FramebufferError unit :=
  match from_mut_slice [0; 0; 0; 0] (mkSize 1 1) 1 Bitmask with
  | Err (UnsupportedPixelFormat Bitmask) => Ok tt
  | _ => Panic
  end.

(** [framebuffer] *)
Definition framebuffer_of (bytes : list Z) (width height : Z) : outcome FramebufferError Framebuffer :=
  from_mut_slice bytes (mkSize width height) width Rgb.

Definition clears_screen_then_draws_rectangle : outcome FramebufferError unit :=
  let bytes := replicate 64 0 in
  fb ← framebuffer_of bytes 4 4;
  m ← draws (Graphics.clear_background fb (mkColor 0 0 0) (memory_of bytes));
  m ← draws (draw_rec fb (mkCoord 1 1) (mkSize 2 2) (mkColor 255 0 0) m);
  let red_pixel := (4 + 1) * 4 in
  assert_eq (m <$> seqZ (BUFFER + red_pixel) 3) [255; 0; 0];;
  assert_eq (m <$> seqZ BUFFER 3) [0; 0; 0].

Definition scrolling_moves_pixels_up_and_clears_bottom_row : outcome FramebufferError unit :=
  let bytes := replicate 24 0 in
  fb ← framebuffer_of bytes 2 3;
  m ← draws (draw_rec fb (mkCoord 0 0) (mkSize 2 1) (mkColor 255 0 0) (memory_of bytes));
  m ← draws (draw_rec fb (mkCoord 0 1) (mkSize 2 1) (mkColor 0 255 0) m);
  m ← draws (draw_rec fb (mkCoord 0 2) (mkSize 2 1) (mkColor 0 0 255) m);
  m ← draws (scroll_up fb 1 m);
  assert_eq (m <$> seqZ BUFFER 3) [0; 255; 0];;
  let bottom_row := 2 * 2 * 4 in
  assert_eq (m <$> seqZ (BUFFER + bottom_row) 3) [0; 0; 0].

Definition scrolling_past_the_framebuffer_clears_it : outcome FramebufferError unit :=
  let bytes := replicate 24 0xaa in
  fb ← framebuffer_of bytes 2 3;
  m ← draws (scroll_up fb 4 (memory_of bytes));
  assert (forallb (λ byte, byte =? 0) (bytes_of 24 m)).

Definition out_of_bounds_rectangle_is_a_no_op : outcome FramebufferError unit :=
  let bytes := replicate 16 0xaa in
  fb ← framebuffer_of bytes 2 2;
  m ← draws (draw_rec fb (mkCoord 1 1) (mkSize 2 2) (mkColor 255 0 0) (memory_of bytes));
  assert (forallb (λ byte, byte =? 0xaa) (bytes_of 16 m)).

Lemma graphics_tests_pass :
  forallb passes [draw_line_colors_every_pixel_on_a_horizontal_line; too_small_framebuffer_is_rejected; bitmask_framebuffer_is_not_drawable;
    clears_screen_then_draws_rectangle; scrolling_moves_pixels_up_and_clears_bottom_row; scrolling_past_the_framebuffer_clears_it;
    out_of_bounds_rectangle_is_a_no_op] = true.
Proof. by vm_compute. Qed.
